(* ===== verification/_CoqProject ===== *)
-Q . S2P
Prelude.v
CLayout.v
Device.v
UserMem.v
Uapi.v
TaskManager.v
Pool.v
AccelManager.v
Worker.v
DevInit.v
Chardev.v
TaskTable.v
System.v
Frame.v
SystemInv.v
Lifecycle.v
Schedule.v
SystemProps.v
Shutdown.v
Teardown.v
Fair.v
Typing.v
Scan.v
Info.v
Service.v
IoctlSpec.v
Wire.v
Calls.v
WaitQueue.v
WaitStop.v
Solo.v
Probe.v
Lifetime.v
Release.v
Races.v
Life.v
Stamps.v
Commute.v
Legacy.v
Lib.v
LibThreads.v
LibUse.v
LibSolo.v
TestSuite.v
EdgeCases.v
StressTool.v
Drain.v
Platform.v
Observe.v
Tables.v
