(* ===== verification/Prelude.v ===== *)
(** * Cortex Forge driver: verification development

    A model, in Rocq, of the Cortex Forge kernel driver (two NVDLA and one PVA
    accelerator behind a character device, simulated by worker threads) and of
    its user-space library, with the theorems that say what they do.

    ** The program

    User processes open the character device and make ioctl requests
    (src/chardev.c).  A submission takes a slot of a fixed pool of 256
    (src/task_manager.c), fills it and appends it to the queue of one of three
    accelerators.  One kernel thread per accelerator (src/accel_manager.c) takes
    tasks off its queue, "runs" them for their timeout and marks them complete.
    Queries and cancellations scan the pool without a lock.  Probe and remove
    (src/main.c) acquire and release the resources and start and stop the
    threads.  lib/src/libcortex-forge.c wraps the requests for applications.
    src/cortex_forge_main.c is the single file the modular driver came from; it
    and the platform, interrupt, sysfs, debugfs and read/write/poll files are in
    the tree but not built.

    ** The files

    Foundations:
    - Prelude.v: errno values, machine-width integers, the state-and-return
      monad [KM] C functions are written in (a block falls through, returns a
      code, or makes an invalid access [Oops]), loops, arrays and lists,
      reachability.  Its rewrite and hint databases are [cortexr], [cortex].
    - CLayout.v: C structure layout (two data models), little-endian encoding,
      the classes [Repr] and [ReprLaws] with the round trips, ioctl numbers.
    - Device.v: the structures of the headers as records; tasks are slots, the
      kernel's intrusive lists are sequences of slots.
    - UserMem.v: user memory as an interface ([UserMemory]) with its laws
      ([UserMemoryLaws], the documented behaviour of copy_from_user and
      copy_to_user) and two instances, one read-only.
    - Uapi.v: include/cortex_forge_uapi.h.

    Components, one operation per C function:
    - TaskManager.v: src/task_manager.c; Pool.v: the invariant of the pool.
    - AccelManager.v: src/accel_manager.c but the worker; kernel calls are
      recorded in a ledger ([kcall]) and answered by an environment ([kenv]).
    - Worker.v: the worker thread, a machine ([wpc]) with one control point per
      statement; Drain.v: it empties its queue.
    - DevInit.v: the part of probe that initialises the device.
    - Chardev.v: the ioctl handler; IoctlSpec.v: what each request promises;
      Wire.v: the whole handler as a function of request numbers and bytes,
      written without the structures of Uapi.v.
    - Probe.v: probe, remove, module init and exit.
    - Lib.v: the user-space library on top of the handler.
    - Legacy.v: the single-file driver (Module [Monolith]).
    - Platform.v: register tables, platform table, interrupt handlers.
    - Observe.v: sysfs attributes, debugfs (on an interface, [DebugfsOps], with
      the kernel's documented behaviour), read, write and poll.
    - Lifetime.v: a heap of device structures, the files open on them, [g_dev],
      and histories of probe, remove, open, close and requests, in which a
      worker thread can be gone before it is stopped.

    Abstraction and concurrency:
    - TaskTable.v: the ioctl interface refines a finite map from identifiers to
      tasks, for requests one after the other.
    - Service.v: the concurrent driver refines a service of tasks (by identifier)
      and lanes (one per accelerator) with ten atomic actions.
    - System.v: any number of calls of any request, the three workers and the
      removal, interleaved statement by statement ([sys_step]); statements inside
      a critical section are one step with it, the unlocked scans are one step
      per slot.  Memory is sequentially consistent.  Solo.v shows that a
      call's statements, run alone, are the handler of Chardev.v; Frame.v, what
      calls and workers leave alone in an accelerator.
    - SystemInv.v: the inductive invariant (every slot is free, held by one
      call, or queued once; the state of a slot by its owner's position);
      Lifecycle.v: what any step does to a slot; Schedule.v: schedules that
      execute; SystemProps.v, Shutdown.v: the properties of all reachable states.
    - Typing.v: every value of a reachable state fits its C type; Scan.v: what
      the unlocked scans of queries and cancellations find; Info.v: what
      GET_ACCEL_INFO can report; Fair.v: a queued task is finished under fair
      schedules.
    - Calls.v: a call returns, with which codes; Teardown.v: the removal among
      calls and workers, how it ends and what it leaves behind; Release.v: the
      system with its open files and the release of the device structure.
    - Races.v: the memory accesses of each statement of System.v, with their
      locks; that there are no others; which of them race.  Commute.v:
      statements that do not conflict commute.
    - Life.v: the device probe leaves is where System.v starts, and its removal
      ends where cortex_forge_remove does.  Stamps.v: the time stamps of a task in
      any run from there, and the latency a query reports.
    - WaitQueue.v: the system again, with the sleep of the workers and each
      wake_up as a statement of its own; WaitStop.v: the removal on it.

    Clients and declarations:
    - LibThreads.v: threads that share a library handle, over System.v, with the
      handle's mutex and its free; LibUse.v: closing it, and progress;
      LibSolo.v: a thread alone is the wrapper of Lib.v.
    - TestSuite.v: the sixteen tests of test/cortex-forge_test.c, on Lib.v;
      EdgeCases.v: the five cases of test/test_edge_cases.cpp, which is not
      built; StressTool.v: the threads of test/cortex-forge_stress.c.
    - Tables.v: file operations seen through the VFS, driver tables, structures
      declared twice, the library's public header.

    ** What is shown

    - Safety: no reachable statement makes an invalid access; list nodes are
      never on two lists; identifiers are unique; no value exceeds its C type;
      probe and remove balance; a history that unbinds only when no file is open
      makes an invalid access exactly when it stops a thread that has returned
      and is freed; the release of the device is safe among calls in flight
      exactly when no file is open and none of them uses the device any more;
      the data races are those on the id, state, time stamps and error code of
      a task and on the queue and load of an accelerator, and no others;
      threads sharing an open library handle are serialised and safe, and
      closing it is safe exactly when none of them is still to use it.
    - Function: every request on every branch, errors included, down to the
      bytes; refinement of a task table, and of a concurrent service; the two
      drivers alike on a bound device, which only one of them reaches; what
      exec_usec measures; the concurrent driver runs between probe and
      remove; two statements that do not conflict can be exchanged.
    - Progress: a worker finishes its task and its queue in bounded time, and
      stops in at most 16 statements when told to; a queued task is finished
      within a computed number of fair rounds, whatever the rest of the system
      does; a query or cancellation of a live task finds it; every call of the
      driver and of the library returns; the removal terminates; no wake-up of
      a worker is lost, and its 100 ms timeout is never needed, to take a task
      or to stop.
    - What the code does not do: slots are never reused, a cancellation of a
      queued task is lost, a timeout is never a failure, reported status codes
      are one too high, answers of queries can be torn, a request on a file that
      outlives its device uses freed memory, the library's requests are refused
      and 10 of the 16 shipped tests and 4 of the 5 edge cases fail, the
      stress tool exercises nothing and can hang, the removal leaves queued tasks
      PENDING for ever, the single-file driver crashes or fails in probe, sysfs
      loads are wrong whenever an accelerator is busy, pending interrupt events
      are overwritten.

    ** Bounds and fuel

    Loops of the code are bounded ([for_loop] with the C bound).  Runs of the
    machines ([wrun], [urun], [sys_run]) take a number of steps; the theorems
    give a number that suffices.  Identifiers stay at most 256, so the 32-bit
    counter never wraps; jiffies are 64-bit and wrap in [u64]; intervals of the
    timed wait are below 2^63 because msecs_to_jiffies is below 2^62.  The
    liveness theorem takes a schedule in which the worker is never passed over
    for more than K jiffies, K at most 2^32 (so that a wait cannot miss its
    timeout by a whole turn of the clock), and [rounds_needed] rounds in which it
    runs and time passes; [Fair.work] is the measure each round decreases.  A
    call has at most 261 statements (a scan of 256 slots and five more), a
    library call at most 266 rounds; the removal takes 59 rounds (three threads
    with at most 16 statements each and three of the remover's, and two more),
    119 where the remover's wake-ups are statements of their own;
    a dispatch takes 4, the stress tool 105.  Each is the bound of a rank that a
    turn lowers and no other step raises.

    ** What is not modelled

    Log messages; weak memory (the locations Races.v shows free of races are
    sequentially consistent on any memory model; for those it lists, the model
    assumes that accesses are not torn or reordered); data buffers, which the driver never touches;
    signals (an interruptible wait that is interrupted is a timeout of
    WaitQueue.v); when the kernel frees a thread that has returned (Lifetime.v takes it
    as part of the history; elsewhere kthread_stop is on a thread that still
    has its task structure); the Catch2 and C++ libraries behind test/test_edge_cases.cpp;
    packaging.
    Fairness is a hypothesis of the liveness theorems, on the finite schedule.
    In System.v a waiting worker may go on at any time; WaitQueue.v, whose
    schedules are among those of System.v, restricts it to wake-ups and
    timeouts.  A freed device is an invalid access in Lifetime.v, where requests
    are not interleaved, and in Release.v, where they are; System.v has one
    device that stays. *)

From stdpp Require Export base strings gmap option numbers list.
From Stdlib Require Export Lia.

#[global] Open Scope Z_scope.

(** ** Linux errno values used by the driver and its library *)

Definition ENOENT : Z := 2.
Definition E2BIG : Z := 7.
Definition ENOMEM : Z := 12.
Definition EFAULT : Z := 14.
Definition EBUSY : Z := 16.
Definition EINVAL : Z := 22.
Definition ENOTTY : Z := 25.
Definition ETIMEDOUT : Z := 110.
Definition ECANCELED : Z := 125.

(** ** Machine-width integers: the wrap-around of C's conversions *)

Definition u32 (z : Z) : Z := z `mod` 2 ^ 32.
Definition u64 (z : Z) : Z := z `mod` 2 ^ 64.

(** Conversion to [int] / [s32] (two's complement). *)
Definition s32 (z : Z) : Z := (z + 2 ^ 31) `mod` 2 ^ 32 - 2 ^ 31.

Definition is_u32 (z : Z) : Prop := 0 <= z < 2 ^ 32.
Definition is_u64 (z : Z) : Prop := 0 <= z < 2 ^ 64.
Definition is_s32 (z : Z) : Prop := - 2 ^ 31 <= z < 2 ^ 31.

#[export] Instance is_u32_dec z : Decision (is_u32 z).
Proof. unfold is_u32. apply _. Defined.
#[export] Instance is_u64_dec z : Decision (is_u64 z).
Proof. unfold is_u64. apply _. Defined.
#[export] Instance is_s32_dec z : Decision (is_s32 z).
Proof. unfold is_s32. apply _. Defined.

Create HintDb cortex.
Create Rewrite HintDb cortexr.

Lemma u32_range z : is_u32 (u32 z).
Proof. unfold is_u32, u32. apply Z.mod_pos_bound. lia. Qed.

Lemma u64_range z : is_u64 (u64 z).
Proof. unfold is_u64, u64. apply Z.mod_pos_bound. lia. Qed.

Lemma s32_range z : is_s32 (s32 z).
Proof.
  unfold is_s32, s32. pose proof (Z.mod_pos_bound (z + 2 ^ 31) (2 ^ 32)). lia.
Qed.

Lemma u32_id z : is_u32 z → u32 z = z.
Proof. apply Z.mod_small. Qed.

Lemma u64_id z : is_u64 z → u64 z = z.
Proof. apply Z.mod_small. Qed.

Lemma s32_id z : is_s32 z → s32 z = z.
Proof. unfold is_s32, s32. intros H. rewrite Z.mod_small; lia. Qed.

Lemma s32_u32 z : is_s32 z → s32 (u32 z) = z.
Proof.
  intros H. unfold s32, u32. rewrite Zplus_mod_idemp_l.
  apply s32_id in H. unfold s32 in H. exact H.
Qed.

Lemma u32_s32 z : is_u32 z → u32 (s32 z) = z.
Proof.
  intros H. unfold s32, u32. rewrite Zminus_mod_idemp_l.
  replace (z + 2 ^ 31 - 2 ^ 31) with z by lia. by apply u32_id.
Qed.

#[export] Hint Resolve u32_range u64_range s32_range : cortex.

(** ** C function bodies: state, early return and crash

    A statement block over a state [S] either falls through with a value
    ([Ok]), leaves the enclosing C function with a return code ([Ret], the
    [return] statement), or dereferences a pointer that is not valid
    ([Oops]).  [call] delimits a C function: its [return] is its value. *)

Inductive res (A : Type) : Type :=
  | Ok (a : A)
  | Ret (code : Z)
  | Oops.
Arguments Ok {A} a.
Arguments Ret {A} code.
Arguments Oops {A}.

Definition KM (S A : Type) : Type := S → res A * S.

#[export] Instance KM_ret S : MRet (KM S) := λ A a s, (Ok a, s).
#[export] Instance KM_bind S : MBind (KM S) := λ A B f m s,
  match m s with
  | (Ok a, s') => f a s'
  | (Ret z, s') => (Ret z, s')
  | (Oops, s') => (Oops, s')
  end.

Definition gets {S A} (f : S → A) : KM S A := λ s, (Ok (f s), s).
Definition modify {S} (f : S → S) : KM S unit := λ s, (Ok (), f s).
Definition return_ {S A} (code : Z) : KM S A := λ s, (Ret code, s).
Definition oops {S A} : KM S A := λ s, (Oops, s).

(** [if (b) return code;] *)
Definition return_if {S} (b : bool) (code : Z) : KM S unit :=
  if b then return_ code else mret ().

Definition call {S} (m : KM S Z) : KM S Z := λ s,
  match m s with
  | (Ret z, s') => (Ok z, s')
  | r => r
  end.

(** The value a system call hands back to its caller. *)
Definition result_of {S} (r : res Z * S) : option Z :=
  match r.1 with Ok z => Some z | Ret z => Some z | Oops => None end.

(** A block over a part [T] of the state [S]. *)
Definition zoom {S T A} (get : S → T) (put : T → S → S) (m : KM T A) : KM S A :=
  λ s, let '(r, t) := m (get s) in (r, put t s).

(** [for (i = from; n iterations; i++) body] *)
Fixpoint for_loop {S} (n from : nat) (body : nat → KM S unit) : KM S unit :=
  match n with
  | O => mret ()
  | Datatypes.S n' => body from ;; for_loop n' (Datatypes.S from) body
  end.

(** Symbolic execution of a block. *)
Ltac km_unfold :=
  unfold mbind, mret, KM_bind, KM_ret, gets, modify, return_, return_if, oops, call in *;
  cbn beta iota in *.

Lemma KM_bind_ok {S A B} (m : KM S A) (f : A → KM S B) s x s' :
  m s = (Ok x, s') → (x ← m; f x) s = f x s'.
Proof. intros E. unfold mbind, KM_bind. by rewrite E. Qed.

Lemma KM_bind_ret {S A B} (m : KM S A) (f : A → KM S B) s z s' :
  m s = (Ret z, s') → (x ← m; f x) s = (Ret z, s').
Proof. intros E. unfold mbind, KM_bind. by rewrite E. Qed.

Lemma KM_bind_ext {S A B} (m : KM S A) (f g : A → KM S B) s :
  (∀ x s, f x s = g x s) → (x ← m; f x) s = (x ← m; g x) s.
Proof. intros E. unfold mbind, KM_bind. by destruct (m s) as [[] ?]. Qed.

Lemma call_ext {S} (m n : KM S Z) s : m s = n s → call m s = call n s.
Proof. unfold call. by intros ->. Qed.

Lemma KM_bind_assoc {S A B C} (m : KM S A) (f : A → KM S B) (g : B → KM S C) s :
  (y ← (x ← m; f x); g y) s = (x ← m; y ← f x; g y) s.
Proof. unfold mbind, KM_bind. by destruct (m s) as [[] ?]. Qed.

(** A loop whose body has no early exit is the fold of its body's effect. *)
Lemma for_loop_pure {S} (body : nat → KM S unit) (f : nat → S → S) n from s :
  (∀ i s, body i s = (Ok (), f i s)) →
  for_loop n from body s = (Ok (), foldl (λ s i, f i s) s (seq from n)).
Proof.
  intros Hb. revert from s. induction n as [|n IH]; intros from s; [done|].
  cbn [for_loop seq foldl]. unfold mbind, KM_bind. rewrite Hb. apply IH.
Qed.

(** ** Arrays: an index out of range is an invalid access *)

Definition arr_get {S A} (arr : S → list A) (i : nat) : KM S A := λ s,
  match arr s !! i with
  | Some x => (Ok x, s)
  | None => (Oops, s)
  end.

Definition arr_upd {A} (i : nat) (f : A → A) (l : list A) : list A := alter f i l.
#[global] Arguments arr_upd : simpl never.

(** A scan [for (i = 0; i < n; i++) if (p(&arr[i])) <hit>;] that leaves the
    function at the first hit is the search for that hit. *)
Lemma scan_loop {S A} (arr : S → list A) (p : A → bool) (hit : nat → A → KM S unit) s n from :
  (from + n ≤ length (arr s))%nat →
  (∀ i x, arr s !! i = Some x → p x = true → ∃ z s', hit i x s = (Ret z, s')) →
  for_loop n from (λ i, x ← arr_get arr i; if p x then hit i x else mret ()) s =
  match list_find (λ x, p x = true) (take n (drop from (arr s))) with
  | Some (i, x) => hit (from + i)%nat x s
  | None => (Ok (), s)
  end.
Proof.
  intros Hlen Hhit. revert from Hlen. induction n as [|n IH]; intros from Hlen; [done|].
  cbn [for_loop]. unfold mbind at 1, KM_bind at 1. unfold mbind at 1, KM_bind at 1.
  unfold arr_get at 1.
  destruct (arr s !! from) as [x|] eqn:Hx; [|apply lookup_ge_None in Hx; lia].
  rewrite (drop_S _ _ _ Hx). cbn [take list_find].
  destruct (p x) eqn:Hp; rewrite ?decide_True, ?decide_False by congruence.
  - destruct (Hhit from x Hx Hp) as (z & s' & E). rewrite Nat.add_0_r, E. done.
  - cbn. rewrite IH by lia.
    destruct (list_find _ (take n (drop (Datatypes.S from) (arr s)))) as [[i y]|]; cbn; [|done].
    by rewrite Nat.add_succ_r.
Qed.

(** ** Lists *)

(** [list_del]: the node leaves the list it is on. *)
Definition list_del {A} `{EqDecision A} (x : A) (l : list A) : list A := filter (λ y, y ≠ x) l.

#[global] Arguments list_del : simpl never.

Section ListDel.
Context {A : Type} `{EqDecision A}.
Implicit Types (x y : A) (l k : list A).

Lemma elem_of_list_del x y l : y ∈ list_del x l ↔ y ≠ x ∧ y ∈ l.
Proof. unfold list_del. by rewrite list_elem_of_filter. Qed.

Lemma list_del_notin x l : x ∉ l → list_del x l = l.
Proof.
  unfold list_del. induction l as [|y l IH]; intros Hx; [done|].
  rewrite filter_cons, decide_True by set_solver. f_equal. set_solver.
Qed.

Lemma list_del_head x l : x ∉ l → list_del x (x :: l) = l.
Proof.
  intros. unfold list_del. rewrite filter_cons, decide_False by naive_solver.
  by apply list_del_notin.
Qed.

Lemma list_del_app x l k : list_del x (l ++ k) = list_del x l ++ list_del x k.
Proof. apply filter_app. Qed.

Lemma list_del_NoDup x l : NoDup l → NoDup (list_del x l).
Proof. apply NoDup_filter. Qed.
End ListDel.

#[export] Hint Rewrite @list_del_app @elem_of_list_del : cortexr.
#[export] Hint Resolve list_del_NoDup : cortex.

Lemma arr_upd_length {A} i (f : A → A) l : length (arr_upd i f l) = length l.
Proof. apply length_alter. Qed.

Lemma arr_upd_same {A} i (f : A → A) l : arr_upd i f l !! i = f <$> l !! i.
Proof. apply list_lookup_alter_eq. Qed.

Lemma arr_upd_other {A} i j (f : A → A) l : i ≠ j → arr_upd i f l !! j = l !! j.
Proof. apply list_lookup_alter_ne. Qed.

Lemma arr_upd_lookup {A} i j (f : A → A) l :
  arr_upd i f l !! j = if decide (i = j) then f <$> l !! j else l !! j.
Proof. case_decide; subst; [apply arr_upd_same|by apply arr_upd_other]. Qed.

Lemma arr_upd_compose {A} i (f g : A → A) l :
  arr_upd i f (arr_upd i g l) = arr_upd i (f ∘ g) l.
Proof.
  apply list_eq. intros j. rewrite !arr_upd_lookup. case_decide; [|done].
  by destruct (l !! j).
Qed.

Lemma arr_upd_ext {A} i (f g : A → A) l x :
  l !! i = Some x → f x = g x → arr_upd i f l = arr_upd i g l.
Proof.
  intros Hx Hfg. apply list_eq. intros j. rewrite !arr_upd_lookup.
  case_decide; subst; [|done]. rewrite Hx. cbn. by rewrite Hfg.
Qed.

#[export] Hint Rewrite @arr_upd_length @arr_upd_same @arr_upd_compose : cortexr.

(** [f i] applied to the elements [i] of [from .. from + n - 1]. *)
Definition map_range {A} (from n : nat) (f : nat → A → A) (l : list A) : list A :=
  imap (λ i x, if bool_decide (from ≤ i < from + n)%nat then f i x else x) l.

Lemma map_range_lookup {A} from n (f : nat → A → A) l i :
  map_range from n f l !! i =
  (if bool_decide (from ≤ i < from + n)%nat then f i <$> l !! i else l !! i).
Proof.
  unfold map_range. rewrite list_lookup_imap.
  destruct (l !! i); cbn; by case_bool_decide.
Qed.

Lemma map_range_length {A} from n (f : nat → A → A) l :
  length (map_range from n f l) = length l.
Proof. apply length_imap. Qed.

Lemma map_range_0 {A} from (f : nat → A → A) l : map_range from 0 f l = l.
Proof.
  apply list_eq. intros i. rewrite map_range_lookup. by rewrite bool_decide_false by lia.
Qed.

Lemma map_range_S {A} from n (f : nat → A → A) l :
  map_range (S from) n f (arr_upd from (f from) l) = map_range from (S n) f l.
Proof.
  apply list_eq. intros i. rewrite !map_range_lookup, arr_upd_lookup.
  case_decide; subst.
  - by rewrite bool_decide_false, bool_decide_true by lia.
  - destruct (decide (S from ≤ i < S from + n)%nat).
    + by rewrite !bool_decide_true by lia.
    + by rewrite !bool_decide_false by lia.
Qed.

Lemma drop_arr_upd {A} i (f : A → A) l : drop (S i) (arr_upd i f l) = drop (S i) l.
Proof.
  apply list_eq. intros j. rewrite !lookup_drop. by rewrite arr_upd_other by lia.
Qed.

(** ** Reachability under a step relation *)

Inductive reach {S : Type} (init : S → Prop) (step : S → S → Prop) : S → Prop :=
  | reach_init s : init s → reach init step s
  | reach_step s s' : reach init step s → step s s' → reach init step s'.

Lemma reach_invariant {S} (init : S → Prop) step (I : S → Prop) :
  (∀ s, init s → I s) →
  (∀ s s', I s → step s s' → I s') →
  ∀ s, reach init step s → I s.
Proof. intros H0 HS s Hr. induction Hr; eauto. Qed.
