(* ===== verification/CLayout.v ===== *)
(** * C object representation

    Layout of C structures under the System V / AAPCS64 rules (every field at
    the next multiple of its alignment, the size rounded up to the largest
    alignment), the little-endian representation of their scalars, and the
    [_IOC] encoding of ioctl request numbers, which embeds [sizeof].  Bytes
    and their little-endian grouping are coqutil's. *)

From S2P Require Import Prelude.
From coqutil Require Export Byte.
From coqutil Require Import Word.LittleEndianList.

Abbreviation cbyte := Init.Byte.byte (only parsing).

Inductive cty : Type :=
  | CU32
  | CS32
  | CU64
  | CPtr
  | CArr (t : cty) (n : nat).

Definition cdecl : Type := list (string * cty).

(** The two data models the headers speak of: [u64] is 8-aligned on LP64 and
    4-aligned on i386. *)
Record abi : Type := { u64_align : nat; ptr_size : nat }.
Definition lp64 : abi := {| u64_align := 8; ptr_size := 8 |}.
Definition i386 : abi := {| u64_align := 4; ptr_size := 4 |}.

Section Layout.
Context (M : abi).

Fixpoint csize (t : cty) : nat :=
  match t with
  | CU32 | CS32 => 4
  | CU64 => 8
  | CPtr => ptr_size M
  | CArr t n => n * csize t
  end.

Fixpoint calign (t : cty) : nat :=
  match t with
  | CU32 | CS32 => 4
  | CU64 => u64_align M
  | CPtr => ptr_size M
  | CArr t _ => calign t
  end.

Definition pad_to (off al : nat) : nat := ((al - off mod al) mod al)%nat.

Definition padding (n : nat) : list nat := match n with O => [] | _ => [n] end.

(** Widths of the scalars of a field, in order. *)
Fixpoint scalars (t : cty) : list nat :=
  match t with
  | CArr t n => concat (replicate n (scalars t))
  | _ => [csize t]
  end.

(** Widths of the chunks of a structure from offset [off] on: the scalars of
    the fields, with a chunk for each gap. *)
Fixpoint chunks_from (off : nat) (al : nat) (d : cdecl) : list nat :=
  match d with
  | [] => padding (pad_to off al)
  | (_, t) :: d' =>
      let gap := pad_to off (calign t) in
      padding gap ++ scalars t ++ chunks_from (off + gap + csize t) al d'
  end.

Definition struct_align (d : cdecl) : nat := max_list (calign ∘ snd <$> d).
Definition chunks (d : cdecl) : list nat := chunks_from 0 (struct_align d) d.
Definition sizeof (d : cdecl) : nat := sum_list (chunks d).
End Layout.

(** ** Little-endian representation of a sequence of chunks *)

Fixpoint enc_chunks (ws : list nat) (vs : list Z) : list cbyte :=
  match ws, vs with
  | w :: ws', v :: vs' => LittleEndianList.le_split w v ++ enc_chunks ws' vs'
  | _, _ => []
  end.

Fixpoint dec_chunks (ws : list nat) (bs : list cbyte) : list Z :=
  match ws with
  | [] => []
  | w :: ws' => LittleEndianList.le_combine (take w bs) :: dec_chunks ws' (drop w bs)
  end.

Definition fits (w : nat) (v : Z) : Prop := 0 <= v < 2 ^ (Z.of_nat w * 8).

Lemma enc_chunks_length ws vs :
  length vs = length ws → length (enc_chunks ws vs) = sum_list ws.
Proof.
  revert vs. induction ws as [|w ws IH]; intros [|v vs] Hl; try done.
  cbn [enc_chunks sum_list]. injection Hl as Hl.
  rewrite length_app, LittleEndianList.length_le_split, (IH vs Hl). done.
Qed.

Lemma dec_chunks_length ws bs : length (dec_chunks ws bs) = length ws.
Proof. revert bs. induction ws as [|w ws IH]; intros bs; cbn; [done|]. by rewrite IH. Qed.

Lemma dec_enc_chunks ws vs :
  Forall2 fits ws vs → dec_chunks ws (enc_chunks ws vs) = vs.
Proof.
  induction 1 as [|w v ws vs Hf _ IH]; [done|]. cbn [enc_chunks dec_chunks].
  rewrite take_app_length' by (by rewrite LittleEndianList.length_le_split).
  rewrite drop_app_length' by (by rewrite LittleEndianList.length_le_split).
  rewrite LittleEndianList.le_combine_split, Z.mod_small by exact Hf. by rewrite IH.
Qed.

Lemma enc_dec_chunks ws bs :
  length bs = sum_list ws → enc_chunks ws (dec_chunks ws bs) = bs.
Proof.
  revert bs. induction ws as [|w ws IH]; intros bs Hl.
  { cbn in *. by destruct bs. }
  cbn [enc_chunks dec_chunks] in *. cbn [sum_list] in Hl.
  rewrite LittleEndianList.split_le_combine' by (rewrite length_take; cbn in Hl; lia).
  rewrite IH by (rewrite length_drop; cbn in Hl; lia). apply take_drop.
Qed.

Lemma dec_chunks_fits ws bs : length bs = sum_list ws → Forall2 fits ws (dec_chunks ws bs).
Proof.
  revert bs. induction ws as [|w ws IH]; intros bs Hl; cbn [dec_chunks]; constructor.
  - unfold fits. pose proof (LittleEndianList.le_combine_bound (take w bs)) as Hb.
    rewrite length_take in Hb. cbn in Hl.
    replace (Init.Nat.min w (length bs)) with w in Hb by lia.
    by rewrite (Z.mul_comm (Z.of_nat w)).
  - apply IH. rewrite length_drop. cbn in Hl. lia.
Qed.

(** ** A structure with a representation *)

Class Repr (A : Type) : Type := {
  decl : cdecl;
  signed_ok : A → Prop;          (* its signed fields are in range *)
  to_values : A → list Z;
  of_values : list Z → option A;
}.
Arguments decl A {_}.

(** [to_values] and [of_values] list the scalars of the structure, paddings
    included; they are inverse on values of the right widths. *)
Class ReprLaws (A : Type) `{Repr A} : Prop := {
  of_to_values : ∀ a : A, signed_ok a → of_values (to_values a) = Some a;
  to_of_values : ∀ vs, Forall2 fits (chunks lp64 (decl A)) vs →
    ∃ a : A, of_values vs = Some a ∧ signed_ok a ∧ to_values a = vs;
}.

Definition encode {A} `{Repr A} (a : A) : list cbyte :=
  enc_chunks (chunks lp64 (decl A)) (to_values a).

Definition decode {A} `{Repr A} (bs : list cbyte) : option A :=
  of_values (dec_chunks (chunks lp64 (decl A)) bs).

(** The values a structure of this type can hold. *)
Definition representable {A} `{Repr A} (a : A) : Prop :=
  signed_ok a ∧ Forall2 fits (chunks lp64 (decl A)) (to_values a).

Section ReprLemmas.
Context {A : Type} `{ReprLaws A}.

Lemma decode_encode (a : A) : representable a → decode (encode a) = Some a.
Proof.
  intros [Hs Hr]. unfold decode, encode. rewrite dec_enc_chunks by done.
  by apply of_to_values.
Qed.

Lemma encode_length (a : A) : representable a → length (encode a) = sizeof lp64 (decl A).
Proof. intros [_ Hr]. apply enc_chunks_length. by apply Forall2_length in Hr. Qed.

Lemma encode_decode (bs : list cbyte) :
  length bs = sizeof lp64 (decl A) →
  ∃ a : A, decode bs = Some a ∧ representable a ∧ encode a = bs.
Proof.
  intros Hl. unfold decode.
  pose proof (dec_chunks_fits _ _ Hl) as Hf.
  destruct (to_of_values (A := A) _ Hf) as (a & -> & Hs & Ha).
  exists a. unfold representable, encode. rewrite Ha.
  split_and!; [done..|]. by apply enc_dec_chunks.
Qed.
End ReprLemmas.

(** ** ioctl request numbers ([linux/ioctl.h]) *)

Definition IOC_NONE : Z := 0.
Definition IOC_WRITE : Z := 1.
Definition IOC_READ : Z := 2.

Definition IOC (dir type nr size : Z) : Z :=
  Z.lor (Z.shiftl dir 30) (Z.lor (Z.shiftl type 8) (Z.lor nr (Z.shiftl size 16))).

Definition IOR (type nr size : Z) : Z := IOC IOC_READ type nr size.
Definition IOW (type nr size : Z) : Z := IOC IOC_WRITE type nr size.
Definition IOWR (type nr size : Z) : Z := IOC (Z.lor IOC_READ IOC_WRITE) type nr size.
