(* ===== verification/Device.v ===== *)
(** * The data of the driver

    include/cortex_forge_task.h, include/cortex_forge_accel.h and
    include/cortex_forge_dev.h: task slots, accelerators and the device that
    aggregates them.

    A task is named by its slot in [dev->tasks] (its address in C).  The
    kernel's intrusive lists ([free_tasks], [task_queue], [active_tasks]) are
    the sequences of the slots linked on them, in list order; that a task's
    single [entry] node is never on two of them, which makes this reading
    sound, is an invariant proved in System.v.  Mutexes, the spinlock and the
    wait queue have no data of their own here: what they order is modelled by
    the atomicity of the steps of System.v. *)

From S2P Require Import Prelude.

Definition MAX_TASKS : nat := 256.
Definition NUM_ACCELERATORS : nat := 3.
#[global] Arguments MAX_TASKS : simpl never.

Definition ACCEL_TYPE_DLA0 : Z := 0.
Definition ACCEL_TYPE_DLA1 : Z := 1.
Definition ACCEL_TYPE_PVA0 : Z := 2.

(** ** enum task_state *)

Inductive task_state : Type :=
  | TASK_STATE_FREE
  | TASK_STATE_PENDING
  | TASK_STATE_RUNNING
  | TASK_STATE_COMPLETE
  | TASK_STATE_FAILED
  | TASK_STATE_CANCELLED.

#[export] Instance task_state_eq_dec : EqDecision task_state.
Proof. solve_decision. Defined.

(** The value of the enumerator. *)
Definition task_state_val (s : task_state) : Z :=
  match s with
  | TASK_STATE_FREE => 0
  | TASK_STATE_PENDING => 1
  | TASK_STATE_RUNNING => 2
  | TASK_STATE_COMPLETE => 3
  | TASK_STATE_FAILED => 4
  | TASK_STATE_CANCELLED => 5
  end.

(** ** struct cortex_forge_task

    [t_done] tells whether [complete_all] was called on the completion since
    its [init_completion]; the list node [entry] is the slot's place in the
    lists below. *)
Record task : Type := {
  t_id : Z;
  t_state : task_state;
  t_accel_type : Z;
  t_priority : Z;
  t_input_addr : Z;
  t_input_size : Z;
  t_output_addr : Z;
  t_output_size : Z;
  t_timeout_ms : Z;
  t_submit_jiffies : Z;
  t_complete_jiffies : Z;
  t_error_code : Z;
  t_done : bool;
}.

#[export] Instance task_eq_dec : EqDecision task.
Proof. solve_decision. Defined.

(** [memset(task, 0, sizeof *task)], and the state of a slot after
    [devm_kzalloc]. *)
Definition zero_task : task :=
  Build_task 0 TASK_STATE_FREE 0 0 0 0 0 0 0 0 0 0 false.

Definition set_t_id v (t : task) : task :=
  Build_task v (t_state t) (t_accel_type t) (t_priority t) (t_input_addr t)
    (t_input_size t) (t_output_addr t) (t_output_size t) (t_timeout_ms t)
    (t_submit_jiffies t) (t_complete_jiffies t) (t_error_code t) (t_done t).
Definition set_t_state v (t : task) : task :=
  Build_task (t_id t) v (t_accel_type t) (t_priority t) (t_input_addr t) (t_input_size t)
    (t_output_addr t) (t_output_size t) (t_timeout_ms t) (t_submit_jiffies t)
    (t_complete_jiffies t) (t_error_code t) (t_done t).
Definition set_t_submit_jiffies v (t : task) : task :=
  Build_task (t_id t) (t_state t) (t_accel_type t) (t_priority t) (t_input_addr t)
    (t_input_size t) (t_output_addr t) (t_output_size t) (t_timeout_ms t) v
    (t_complete_jiffies t) (t_error_code t) (t_done t).
Definition set_t_complete_jiffies v (t : task) : task :=
  Build_task (t_id t) (t_state t) (t_accel_type t) (t_priority t) (t_input_addr t)
    (t_input_size t) (t_output_addr t) (t_output_size t) (t_timeout_ms t)
    (t_submit_jiffies t) v (t_error_code t) (t_done t).
Definition set_t_error_code v (t : task) : task :=
  Build_task (t_id t) (t_state t) (t_accel_type t) (t_priority t) (t_input_addr t)
    (t_input_size t) (t_output_addr t) (t_output_size t) (t_timeout_ms t)
    (t_submit_jiffies t) (t_complete_jiffies t) v (t_done t).
Definition set_t_done v (t : task) : task :=
  Build_task (t_id t) (t_state t) (t_accel_type t) (t_priority t) (t_input_addr t)
    (t_input_size t) (t_output_addr t) (t_output_size t) (t_timeout_ms t)
    (t_submit_jiffies t) (t_complete_jiffies t) (t_error_code t) v.

(** ** struct cortex_forge_accel *)

(** A [struct task_struct *]: NULL, a running kernel thread, or an ERR_PTR. *)
Inductive kthread : Type :=
  | KT_NULL
  | KT_THREAD (tid : nat)
  | KT_ERR (e : Z).

#[export] Instance kthread_eq_dec : EqDecision kthread.
Proof. solve_decision. Defined.

Record accel : Type := {
  a_type : Z;
  a_name : list Ascii.ascii;           (* char name[16] *)
  a_freq_hz : Z;
  a_temp_celsius : Z;
  a_load_percent : Z;
  a_fw_version : Z;
  a_hw_version : Z;
  a_mem_total : Z;
  a_mem_free : Z;
  a_state : Z;
  a_task_queue : list nat;
  a_active_tasks : list nat;
  a_worker_thread : kthread;
  a_running : Z;                        (* atomic_t *)
}.

#[export] Instance accel_eq_dec : EqDecision accel.
Proof. solve_decision. Defined.

(** An element of [accelerators] after [devm_kzalloc]. *)
Definition zero_accel : accel :=
  Build_accel 0 (replicate 16 Ascii.zero) 0 0 0 0 0 0 0 0 [] [] KT_NULL 0.

Definition set_a_load_percent v (a : accel) : accel :=
  Build_accel (a_type a) (a_name a) (a_freq_hz a) (a_temp_celsius a) v (a_fw_version a)
    (a_hw_version a) (a_mem_total a) (a_mem_free a) (a_state a) (a_task_queue a)
    (a_active_tasks a) (a_worker_thread a) (a_running a).
Definition set_a_task_queue v (a : accel) : accel :=
  Build_accel (a_type a) (a_name a) (a_freq_hz a) (a_temp_celsius a) (a_load_percent a)
    (a_fw_version a) (a_hw_version a) (a_mem_total a) (a_mem_free a) (a_state a) v
    (a_active_tasks a) (a_worker_thread a) (a_running a).
Definition set_a_active_tasks v (a : accel) : accel :=
  Build_accel (a_type a) (a_name a) (a_freq_hz a) (a_temp_celsius a) (a_load_percent a)
    (a_fw_version a) (a_hw_version a) (a_mem_total a) (a_mem_free a) (a_state a)
    (a_task_queue a) v (a_worker_thread a) (a_running a).
Definition set_a_worker_thread v (a : accel) : accel :=
  Build_accel (a_type a) (a_name a) (a_freq_hz a) (a_temp_celsius a) (a_load_percent a)
    (a_fw_version a) (a_hw_version a) (a_mem_total a) (a_mem_free a) (a_state a)
    (a_task_queue a) (a_active_tasks a) v (a_running a).
Definition set_a_running v (a : accel) : accel :=
  Build_accel (a_type a) (a_name a) (a_freq_hz a) (a_temp_celsius a) (a_load_percent a)
    (a_fw_version a) (a_hw_version a) (a_mem_total a) (a_mem_free a) (a_state a)
    (a_task_queue a) (a_active_tasks a) (a_worker_thread a) v.

(** ** struct cortex_forge_dev

    The handles of kernel objects ([pdev], [cdev], [class], [base], [clks],
    [rst], ...) are only passed to the kernel; what the driver acquires
    through them is tracked in Probe.v. *)
Record dev : Type := {
  dev_accelerators : list accel;
  dev_tasks : list task;
  dev_free_tasks : list nat;
  dev_next_task_id : Z;                 (* atomic_t *)
  dev_num_clks : Z;
  dev_irq : Z;
}.

#[export] Instance dev_eq_dec : EqDecision dev.
Proof. solve_decision. Defined.

Definition set_accelerators v (d : dev) : dev :=
  Build_dev v (dev_tasks d) (dev_free_tasks d) (dev_next_task_id d) (dev_num_clks d)
    (dev_irq d).
Definition set_tasks v (d : dev) : dev :=
  Build_dev (dev_accelerators d) v (dev_free_tasks d) (dev_next_task_id d)
    (dev_num_clks d) (dev_irq d).
Definition set_free_tasks v (d : dev) : dev :=
  Build_dev (dev_accelerators d) (dev_tasks d) v (dev_next_task_id d) (dev_num_clks d)
    (dev_irq d).
Definition set_next_task_id v (d : dev) : dev :=
  Build_dev (dev_accelerators d) (dev_tasks d) (dev_free_tasks d) v (dev_num_clks d)
    (dev_irq d).
Definition set_num_clks v (d : dev) : dev :=
  Build_dev (dev_accelerators d) (dev_tasks d) (dev_free_tasks d) (dev_next_task_id d) v
    (dev_irq d).
Definition set_irq v (d : dev) : dev :=
  Build_dev (dev_accelerators d) (dev_tasks d) (dev_free_tasks d) (dev_next_task_id d)
    (dev_num_clks d) v.

Definition upd_accelerators (f : list accel → list accel) (d : dev) : dev :=
  set_accelerators (f (dev_accelerators d)) d.
Definition upd_tasks (f : list task → list task) (d : dev) : dev :=
  set_tasks (f (dev_tasks d)) d.
Definition upd_free_tasks (f : list nat → list nat) (d : dev) : dev :=
  set_free_tasks (f (dev_free_tasks d)) d.

(** The device returned by [devm_kzalloc]. *)
Definition zero_dev : dev :=
  Build_dev (replicate NUM_ACCELERATORS zero_accel) (replicate MAX_TASKS zero_task) [] 0 0 0.

(** ** Accesses through task and accelerator pointers *)

Definition get_task (i : nat) : KM dev task := arr_get dev_tasks i.
Definition get_accel (i : nat) : KM dev accel := arr_get dev_accelerators i.

Definition upd_task (i : nat) (f : task → task) : KM dev unit :=
  _ ← get_task i; modify (upd_tasks (arr_upd i f)).
Definition upd_accel (i : nat) (f : accel → accel) : KM dev unit :=
  _ ← get_accel i; modify (upd_accelerators (arr_upd i f)).

(** Running an access whose index is in range. *)
Lemma upd_task_run i f d t :
  dev_tasks d !! i = Some t → upd_task i f d = (Ok (), upd_tasks (arr_upd i f) d).
Proof. intros E. unfold upd_task, get_task, arr_get. km_unfold. by rewrite E. Qed.

Lemma upd_accel_run i f d a :
  dev_accelerators d !! i = Some a →
  upd_accel i f d = (Ok (), upd_accelerators (arr_upd i f) d).
Proof. intros E. unfold upd_accel, get_accel, arr_get. km_unfold. by rewrite E. Qed.

Lemma get_task_run t d tk : dev_tasks d !! t = Some tk → get_task t d = (Ok tk, d).
Proof. intros Ht. unfold get_task, arr_get. by rewrite Ht. Qed.

Lemma get_accel_run i d a : dev_accelerators d !! i = Some a → get_accel i d = (Ok a, d).
Proof. intros Ha. unfold get_accel, arr_get. by rewrite Ha. Qed.

(** Successive updates of the same array. *)
Lemma upd_accelerators_compose f g d :
  upd_accelerators f (upd_accelerators g d) = upd_accelerators (λ l, f (g l)) d.
Proof. done. Qed.

Lemma upd_tasks_compose f g d : upd_tasks f (upd_tasks g d) = upd_tasks (λ l, f (g l)) d.
Proof. done. Qed.

Lemma upd_accelerators_free f d : dev_free_tasks (upd_accelerators f d) = dev_free_tasks d.
Proof. done. Qed.

Lemma upd_accelerators_ext f g d :
  f (dev_accelerators d) = g (dev_accelerators d) →
  upd_accelerators f d = upd_accelerators g d.
Proof. unfold upd_accelerators. by intros ->. Qed.

Lemma upd_accelerators_id f d :
  f (dev_accelerators d) = dev_accelerators d → upd_accelerators f d = d.
Proof. unfold upd_accelerators. intros ->. by destruct d. Qed.

(** Solves [arr !! i = Some ?x] after updates of the device, from the lookups
    known of the device before. *)
Ltac lookup_solve :=
  cbn -[arr_upd]; repeat rewrite arr_upd_same;
  repeat match goal with
  | H : ?l !! ?i = Some _ |- context [?l !! ?i] => rewrite H
  end; reflexivity.
