(* ===== verification/UserMem.v ===== *)
(** * User memory as the driver sees it

    The kernel reaches user memory only through [copy_from_user] and
    [copy_to_user], which are not part of the repository: the model takes them
    as an interface whose laws are their documented behaviour.  [flatmem] is a
    concrete instance (a byte map), used to run the model on examples.

    [world] is what a system call runs on: the device, the caller's memory and
    the kernel's [jiffies] counter. *)

From S2P Require Import Prelude CLayout Device.

Class UserMemory (U : Type) : Type := {
  (** [None]: some byte could not be copied (a non-zero result) *)
  copy_from_user : U → Z → nat → option (list cbyte);
  (** the number of bytes that could not be copied, and the memory after *)
  copy_to_user : U → Z → list cbyte → Z * U;
}.

Class UserMemoryLaws (U : Type) `{UserMemory U} : Prop := {
  copy_from_user_length : ∀ u a n bs, copy_from_user u a n = Some bs → length bs = n;
  copy_to_user_read : ∀ u a bs u',
    copy_to_user u a bs = (0, u') → copy_from_user u' a (length bs) = Some bs;
}.

(** ** The state a system call runs on *)

Record world (U : Type) : Type := { w_dev : dev; w_user : U; w_jiffies : Z }.
Arguments w_dev {U} w.
Arguments w_user {U} w.
Arguments w_jiffies {U} w.

Definition set_w_dev {U} (d : dev) (w : world U) : world U :=
  Build_world U d (w_user w) (w_jiffies w).
Definition set_w_user {U} (u : U) (w : world U) : world U :=
  Build_world U (w_dev w) u (w_jiffies w).

Definition on_dev {U A} (m : KM dev A) : KM (world U) A := zoom w_dev set_w_dev m.

(** [copy_to_user(a, &v, sizeof v)], its result *)
Definition copy_out {U} `{UserMemory U} {A} `{Repr A} (a : Z) (v : A) : KM (world U) Z := λ w,
  let '(r, u) := copy_to_user (w_user w) a (encode v) in (Ok r, set_w_user u w).

(** [if (copy_from_user(&v, a, sizeof v)) return -EFAULT;], the value read *)
Definition copy_in {U} `{UserMemory U} (A : Type) `{Repr A} (a : Z) : KM (world U) A := λ w,
  match copy_from_user (w_user w) a (sizeof lp64 (decl A)) with
  | Some bs => match decode bs with Some v => (Ok v, w) | None => (Oops, w) end
  | None => (Ret (- EFAULT), w)
  end.

(** ** A concrete memory *)

Record flatmem : Type := { fm_bytes : gmap Z cbyte }.

Fixpoint fm_read (m : gmap Z cbyte) (a : Z) (n : nat) : option (list cbyte) :=
  match n with
  | O => Some []
  | S n' => match m !! a, fm_read m (a + 1) n' with
            | Some b, Some bs => Some (b :: bs)
            | _, _ => None
            end
  end.

Fixpoint fm_write (m : gmap Z cbyte) (a : Z) (bs : list cbyte) : gmap Z cbyte :=
  match bs with
  | [] => m
  | b :: bs' => <[a := b]> (fm_write m (a + 1) bs')
  end.

#[export] Instance flatmem_usermem : UserMemory flatmem := {
  copy_from_user u a n := fm_read (fm_bytes u) a n;
  copy_to_user u a bs :=
    match fm_read (fm_bytes u) a (length bs) with
    | Some _ => (0, {| fm_bytes := fm_write (fm_bytes u) a bs |})
    | None => (Z.of_nat (length bs), u)
    end;
}.

Lemma fm_read_length m a n bs : fm_read m a n = Some bs → length bs = n.
Proof.
  revert a bs. induction n as [|n IH]; intros a bs; cbn [fm_read].
  - by intros [= <-].
  - destruct (m !! a), (fm_read m (a + 1) n) eqn:E; intros [= <-].
    cbn. by rewrite (IH _ _ E).
Qed.

Lemma fm_read_insert_lt m a b c n :
  c < a → fm_read (<[c := b]> m) a n = fm_read m a n.
Proof.
  revert a. induction n as [|n IH]; intros a Hc; cbn [fm_read]; [done|].
  rewrite lookup_insert_ne by lia. by rewrite IH by lia.
Qed.

Lemma fm_read_write m a bs : fm_read (fm_write m a bs) a (length bs) = Some bs.
Proof.
  revert a. induction bs as [|b bs IH]; intros a; cbn [fm_read fm_write length]; [done|].
  rewrite lookup_insert_eq, fm_read_insert_lt by lia. by rewrite IH.
Qed.

#[export] Instance flatmem_laws : UserMemoryLaws flatmem.
Proof.
  split.
  - intros u a n bs. apply fm_read_length.
  - intros u a bs u'. cbn. destruct (fm_read (fm_bytes u) a (length bs)) eqn:E.
    + intros [= <-]. apply fm_read_write.
    + intros [= Hn _]. destruct bs; [cbn in E|cbn in Hn]; [done|lia].
Qed.

(** The same memory mapped read-only: every copy to it fails. *)
Record romem : Type := { ro_mem : flatmem }.

#[export] Instance romem_usermem : UserMemory romem := {
  copy_from_user u a n := copy_from_user (ro_mem u) a n;
  copy_to_user u a bs := (Z.of_nat (length bs), u);
}.

#[export] Instance romem_laws : UserMemoryLaws romem.
Proof.
  split.
  - intros u a n bs. apply fm_read_length.
  - intros u a bs u' [= Hn _]. by destruct bs.
Qed.

(** ** Copies of a structure *)

(** What a [copy_from_user] of an [A] reads. *)
Definition read_user {U} `{UserMemory U} (A : Type) `{Repr A} (u : U) (uarg : Z) : option A :=
  copy_from_user u uarg (sizeof lp64 (decl A)) ≫= decode.

Section CopyLemmas.
Context {U : Type} `{UserMemoryLaws U} {A : Type} `{ReprLaws A}.

(** [copy_in] fails exactly when the copy does, and otherwise reads a
    representable value, whose encoding is the bytes read. *)
Lemma copy_in_run (a : Z) (w : world U) :
  match copy_from_user (w_user w) a (sizeof lp64 (decl A)) with
  | None => copy_in A a w = (Ret (- EFAULT), w)
  | Some bs => ∃ v : A, decode bs = Some v ∧ encode v = bs ∧ representable v ∧
                        copy_in A a w = (Ok v, w)
  end.
Proof.
  unfold copy_in. destruct (copy_from_user _ _ _) as [bs|] eqn:E; [|done].
  apply copy_from_user_length in E.
  destruct (encode_decode (A := A) bs E) as (v & Hd & Hr & He).
  exists v. by rewrite Hd.
Qed.

Lemma copy_in_read (a : Z) (w : world U) :
  copy_in A a w =
  match read_user A (w_user w) a with Some v => (Ok v, w) | None => (Ret (- EFAULT), w) end.
Proof.
  pose proof (copy_in_run a w) as Hin. unfold read_user.
  destruct (copy_from_user _ _ _) as [bs|]; [|by rewrite Hin].
  destruct Hin as (v & Hd & _ & _ & Hin). cbn [mbind option_bind]. by rewrite Hd.
Qed.

Lemma read_user_bytes (a : Z) (u : U) :
  match read_user A u a with
  | Some v => copy_from_user u a (sizeof lp64 (decl A)) = Some (encode v) ∧ representable v
  | None => copy_from_user u a (sizeof lp64 (decl A)) = None
  end.
Proof.
  unfold read_user. destruct (copy_from_user _ _ _) as [bs|] eqn:E; [|done].
  apply copy_from_user_length in E. destruct (encode_decode (A := A) bs E) as (v & Hd & Hr & He).
  cbn [mbind option_bind]. rewrite Hd. by rewrite He.
Qed.

(** What was copied out can be read back. *)
Lemma copy_out_read (a : Z) (v : A) (w w' : world U) :
  representable v → copy_out a v w = (Ok 0, w') → copy_in A a w' = (Ok v, w').
Proof.
  intros Hv. unfold copy_out, copy_in.
  destruct (copy_to_user (w_user w) a (encode v)) as [r u] eqn:E. intros [= -> <-].
  apply copy_to_user_read in E. cbn [w_user set_w_user].
  rewrite encode_length in E by done. by rewrite E, decode_encode.
Qed.
End CopyLemmas.

Lemma on_dev_run {U A} (m : KM dev A) (w : world U) r d' :
  m (w_dev w) = (r, d') → on_dev m w = (r, set_w_dev d' w).
Proof. intros E. unfold on_dev, zoom. by rewrite E. Qed.

Lemma set_w_dev_id {U} (w : world U) : set_w_dev (w_dev w) w = w.
Proof. by destruct w. Qed.
