(* ===== verification/Uapi.v ===== *)
(** * The user/kernel interface: include/cortex_forge_uapi.h

    The structures exchanged through ioctl with their C representation (every
    declared field and every padding byte), and the request numbers. *)

From S2P Require Import Prelude CLayout.

Local Open Scope string_scope.

Definition CORTEX_FORGE_MAGIC : Z := 0xCF.

(** ** Accelerator types and task status codes *)

Definition CORTEX_FORGE_ACCEL_DLA0 : Z := 0.
Definition CORTEX_FORGE_ACCEL_DLA1 : Z := 1.
Definition CORTEX_FORGE_ACCEL_PVA0 : Z := 2.
Definition CORTEX_FORGE_ACCEL_COUNT : Z := 3.
Definition CORTEX_FORGE_ACCEL_GPU : Z := 3.
Definition CORTEX_FORGE_ACCEL_AUTO : Z := 4.

Definition CORTEX_FORGE_TASK_PENDING : Z := 0.
Definition CORTEX_FORGE_TASK_RUNNING : Z := 1.
Definition CORTEX_FORGE_TASK_COMPLETE : Z := 2.
Definition CORTEX_FORGE_TASK_FAILED : Z := 3.
Definition CORTEX_FORGE_TASK_CANCELLED : Z := 4.

(** ** struct cortex_forge_task_desc *)

Record task_desc : Type := {
  d_task_id : Z;
  d_accel_type : Z;
  d_priority : Z;
  d_input_size : Z;
  d_output_size : Z;
  d_pad : Z;
  d_input_addr : Z;
  d_output_addr : Z;
  d_timeout_ms : Z;
  d_flags : Z;
  d_reserved : Z * Z * Z * Z;
}.

Definition task_desc_decl : cdecl :=
  [("task_id", CU32); ("accel_type", CU32); ("priority", CU32); ("input_size", CU32);
   ("output_size", CU32); ("input_addr", CU64); ("output_addr", CU64);
   ("timeout_ms", CU32); ("flags", CU32); ("reserved", CArr CU64 4)].

#[export] Instance task_desc_repr : Repr task_desc := {
  decl := task_desc_decl;
  signed_ok d := True;
  to_values d :=
    let '(r0, r1, r2, r3) := d_reserved d in
    [d_task_id d; d_accel_type d; d_priority d; d_input_size d; d_output_size d; d_pad d;
     d_input_addr d; d_output_addr d; d_timeout_ms d; d_flags d; r0; r1; r2; r3];
  of_values vs :=
    match vs with
    | [a; b; c; e; f; g; h; i; j; k; r0; r1; r2; r3] =>
        Some (Build_task_desc a b c e f g h i j k (r0, r1, r2, r3))
    | _ => None
    end;
}.

(** ** struct cortex_forge_task_status *)

Record task_status : Type := {
  s_task_id : Z;
  s_status : Z;
  s_exec_usec : Z;
  s_error_code : Z;
  s_reserved : Z * Z * Z;
}.

Definition task_status_decl : cdecl :=
  [("task_id", CU32); ("status", CU32); ("exec_usec", CU64); ("error_code", CS32);
   ("reserved", CArr CU32 3)].

#[export] Instance task_status_repr : Repr task_status := {
  decl := task_status_decl;
  signed_ok s := is_s32 (s_error_code s);
  to_values s :=
    let '(r0, r1, r2) := s_reserved s in
    [s_task_id s; s_status s; s_exec_usec s; u32 (s_error_code s); r0; r1; r2];
  of_values vs :=
    match vs with
    | [a; b; c; e; r0; r1; r2] => Some (Build_task_status a b c (s32 e) (r0, r1, r2))
    | _ => None
    end;
}.

(** ** struct cortex_forge_accel_info *)

Record accel_info : Type := {
  i_accel_type : Z;
  i_freq_hz : Z;
  i_temp_celsius : Z;
  i_load_percent : Z;
  i_fw_version : Z;
  i_hw_version : Z;
  i_mem_total : Z;
  i_mem_free : Z;
  i_state : Z;
  i_reserved : Z * Z * Z;
}.

Definition accel_info_decl : cdecl :=
  [("accel_type", CU32); ("freq_hz", CU32); ("temp_celsius", CS32); ("load_percent", CU32);
   ("fw_version", CU32); ("hw_version", CU32); ("mem_total", CU64); ("mem_free", CU64);
   ("state", CU32); ("reserved", CArr CU32 3)].

#[export] Instance accel_info_repr : Repr accel_info := {
  decl := accel_info_decl;
  signed_ok i := is_s32 (i_temp_celsius i);
  to_values i :=
    let '(r0, r1, r2) := i_reserved i in
    [i_accel_type i; i_freq_hz i; u32 (i_temp_celsius i); i_load_percent i; i_fw_version i;
     i_hw_version i; i_mem_total i; i_mem_free i; i_state i; r0; r1; r2];
  of_values vs :=
    match vs with
    | [a; b; c; e; f; g; h; i; j; r0; r1; r2] =>
        Some (Build_accel_info a b (s32 c) e f g h i j (r0, r1, r2))
    | _ => None
    end;
}.

(** ** struct cortex_forge_profile_metrics *)

Record profile_metrics : Type := {
  p_compute_us : Z;
  p_memory_us : Z;
  p_storage_us : Z;
  p_network_us : Z;
  p_thermal_celsius : Z;
  p_power_mw : Z;
  p_reserved : Z * Z * Z * Z;
}.

Definition profile_metrics_decl : cdecl :=
  [("compute_us", CU64); ("memory_us", CU64); ("storage_us", CU64); ("network_us", CU64);
   ("thermal_celsius", CU32); ("power_mw", CU32); ("reserved", CArr CU64 4)].

#[export] Instance profile_metrics_repr : Repr profile_metrics := {
  decl := profile_metrics_decl;
  signed_ok p := True;
  to_values p :=
    let '(r0, r1, r2, r3) := p_reserved p in
    [p_compute_us p; p_memory_us p; p_storage_us p; p_network_us p; p_thermal_celsius p;
     p_power_mw p; r0; r1; r2; r3];
  of_values vs :=
    match vs with
    | [a; b; c; e; f; g; r0; r1; r2; r3] =>
        Some (Build_profile_metrics a b c e f g (r0, r1, r2, r3))
    | _ => None
    end;
}.

(** ** A bare [__u32] argument *)

#[export] Instance u32_repr : Repr Z := {
  decl := [("", CU32)];
  signed_ok z := True;
  to_values z := [z];
  of_values vs := match vs with [z] => Some z | _ => None end;
}.

(** ** Request numbers *)

Definition size_of (d : cdecl) : Z := Z.of_nat (sizeof lp64 d).

Definition CORTEX_FORGE_IOCTL_SUBMIT_TASK : Z :=
  IOWR CORTEX_FORGE_MAGIC 1 (size_of task_desc_decl).
Definition CORTEX_FORGE_IOCTL_QUERY_TASK : Z :=
  IOWR CORTEX_FORGE_MAGIC 2 (size_of task_status_decl).
Definition CORTEX_FORGE_IOCTL_CANCEL_TASK : Z :=
  IOW CORTEX_FORGE_MAGIC 3 (size_of [("", CU32)]).
Definition CORTEX_FORGE_IOCTL_GET_ACCEL_INFO : Z :=
  IOR CORTEX_FORGE_MAGIC 4 (size_of accel_info_decl).
Definition CORTEX_FORGE_IOCTL_SET_POWER : Z :=
  IOW CORTEX_FORGE_MAGIC 5 (size_of [("", CU32)]).
Definition CORTEX_FORGE_IOCTL_GET_VERSION : Z :=
  IOR CORTEX_FORGE_MAGIC 6 (size_of [("", CU32)]).
Definition CORTEX_FORGE_IOCTL_GET_PROFILE : Z :=
  IOR CORTEX_FORGE_MAGIC 7 (size_of profile_metrics_decl).
Definition CORTEX_FORGE_IOCTL_SET_ACCEL : Z :=
  IOW CORTEX_FORGE_MAGIC 8 (size_of [("", CU32)]).

(** The requests the driver knows, in the order of its [switch]. *)
Definition ioctl_requests : list Z :=
  [CORTEX_FORGE_IOCTL_SUBMIT_TASK; CORTEX_FORGE_IOCTL_QUERY_TASK;
   CORTEX_FORGE_IOCTL_CANCEL_TASK; CORTEX_FORGE_IOCTL_GET_ACCEL_INFO;
   CORTEX_FORGE_IOCTL_SET_POWER; CORTEX_FORGE_IOCTL_GET_VERSION;
   CORTEX_FORGE_IOCTL_GET_PROFILE; CORTEX_FORGE_IOCTL_SET_ACCEL].

(** ** The representations obey their laws *)

Ltac solve_repr_laws :=
  split;
  [ intros []; cbn; intros;
    repeat match goal with p : (_ * _)%type |- _ => destruct p end;
    rewrite ?s32_u32 by assumption; reflexivity
  | intros vs Hvs;
    match type of Hvs with Forall2 _ ?c _ =>
      let c' := eval vm_compute in c in change c with c' in Hvs end;
    repeat match goal with
    | H : Forall2 _ (_ :: _) _ |- _ =>
        apply Forall2_cons_inv_l in H; destruct H as (? & ? & ? & H & ->)
    | H : Forall2 _ [] _ |- _ => apply Forall2_nil_inv_l in H; subst
    end;
    eexists; split_and!; [reflexivity|cbn; auto using s32_range..|];
    cbn; rewrite ?u32_s32 by (unfold fits, is_u32 in *; cbn in *; lia); reflexivity ].

#[export] Instance task_desc_laws : ReprLaws task_desc.
Proof. solve_repr_laws. Qed.
#[export] Instance task_status_laws : ReprLaws task_status.
Proof. solve_repr_laws. Qed.
#[export] Instance accel_info_laws : ReprLaws accel_info.
Proof. solve_repr_laws. Qed.
#[export] Instance profile_metrics_laws : ReprLaws profile_metrics.
Proof. solve_repr_laws. Qed.
#[export] Instance u32_laws : ReprLaws Z.
Proof. solve_repr_laws. Qed.

(** ** Ranges of the fields of a representable structure *)

Ltac representable_fields H :=
  destruct H as [? H];
  match type of H with Forall2 _ ?c _ =>
    let c' := eval vm_compute in c in change c with c' in H end;
  repeat match goal with
  | p : (_ * _)%type |- _ => destruct p
  end;
  cbn in H;
  repeat (apply Forall2_cons in H; destruct H as [? H]);
  unfold fits in *; cbn in *.

Lemma task_desc_range (d : task_desc) :
  representable d → is_u32 (d_task_id d) ∧ is_u32 (d_accel_type d) ∧ is_u32 (d_priority d) ∧
  is_u32 (d_input_size d) ∧ is_u32 (d_output_size d) ∧ is_u64 (d_input_addr d) ∧
  is_u64 (d_output_addr d) ∧ is_u32 (d_timeout_ms d) ∧ is_u32 (d_flags d).
Proof. destruct d. intros H. representable_fields H. unfold is_u32, is_u64. lia. Qed.

Lemma accel_info_type_range (i : accel_info) : representable i → is_u32 (i_accel_type i).
Proof. destruct i. intros H. representable_fields H. unfold is_u32. lia. Qed.

Lemma u32_representable (z : Z) : representable z → is_u32 z.
Proof. intros H. representable_fields H. unfold is_u32. lia. Qed.

Lemma task_status_id_range (s : task_status) : representable s → is_u32 (s_task_id s).
Proof. destruct s. intros H. representable_fields H. unfold is_u32. lia. Qed.
