(* ===== verification/TaskManager.v ===== *)
(** * The task pool: src/task_manager.c

    Allocation, submission, query and cancellation of tasks.  [jiffies] is an
    argument ([now]) of the operations that read it; [HZ] is the kernel's
    configured tick rate. *)

From S2P Require Import Prelude CLayout Device UserMem Uapi.

(** ** Operations *)

Definition task_pool_init : KM dev unit :=
  for_loop MAX_TASKS 0 (λ i,
    upd_task i (set_t_state TASK_STATE_FREE) ;;
    upd_task i (set_t_done false) ;;
    modify (upd_free_tasks (λ l, l ++ [i]))).

(** [atomic_inc_return], converted to [u32] by the assignment to [task->id] *)
Definition atomic_inc_return : KM dev Z := λ d,
  let n := s32 (dev_next_task_id d + 1) in (Ok n, set_next_task_id n d).

Definition task_alloc : KM dev (option nat) :=
  free ← gets dev_free_tasks;
  match free with
  | [] => mret None
  | task :: _ =>
      modify (upd_free_tasks (list_del task)) ;;
      upd_task task (λ _, zero_task) ;;
      upd_task task (set_t_done false) ;;
      n ← atomic_inc_return;
      upd_task task (set_t_id (u32 n)) ;;
      mret (Some task)
  end.

Definition task_free (task : nat) : KM dev unit :=
  upd_task task (set_t_state TASK_STATE_FREE) ;;
  modify (upd_free_tasks (λ l, l ++ [task])).

Definition task_submit (now : Z) (task accel : nat) : KM dev Z :=
  call (
    t ← get_task task;
    return_if (Z.of_nat NUM_ACCELERATORS <=? t_accel_type t) (- EINVAL) ;;
    upd_task task (set_t_state TASK_STATE_PENDING) ;;
    upd_task task (set_t_submit_jiffies now) ;;
    upd_accel accel (λ a, set_a_task_queue (a_task_queue a ++ [task]) a) ;;
    mret 0).

(** [task->id == task_id && task->state != TASK_STATE_FREE] *)
Definition task_matches (task_id : Z) (t : task) : bool :=
  (t_id t =? task_id) && bool_decide (t_state t ≠ TASK_STATE_FREE).

(** [(complete - submit) * 1000000 / HZ] in [unsigned long] *)
Definition exec_usec (HZ : Z) (t : task) : Z :=
  u64 (u64 (t_complete_jiffies t - t_submit_jiffies t) * 1000000) / HZ.

Definition status_of (HZ : Z) (t : task) : task_status :=
  {| s_task_id := t_id t;
     s_status := task_state_val (t_state t);
     s_exec_usec := exec_usec HZ t;
     s_error_code := t_error_code t;
     s_reserved := (0, 0, 0) |}.

Definition task_query {U} `{UserMemory U} (HZ task_id ustatus : Z) : KM (world U) Z :=
  call (
    for_loop MAX_TASKS 0 (λ i,
      t ← arr_get (λ w, dev_tasks (w_dev w)) i;
      if task_matches task_id t then
        r ← copy_out ustatus (status_of HZ t);
        return_if (negb (r =? 0)) (- EFAULT) ;;
        return_ 0
      else mret ()) ;;
    mret (- ENOENT)).

Definition task_cancel (task_id : Z) : KM dev Z :=
  call (
    for_loop MAX_TASKS 0 (λ i,
      t ← get_task i;
      if task_matches task_id t then
        upd_task i (set_t_state TASK_STATE_CANCELLED) ;;
        upd_task i (set_t_error_code (- ECANCELED)) ;;
        upd_task i (set_t_done true) ;;
        return_ 0
      else mret ()) ;;
    mret (- ENOENT)).

(** ** What the scans find *)

Definition find_task (task_id : Z) (d : dev) : option (nat * task) :=
  list_find (λ t, task_matches task_id t = true) (dev_tasks d).

(** The effect of [task_cancel] on the task it finds. *)
Definition cancelled (t : task) : task :=
  set_t_done true (set_t_error_code (- ECANCELED) (set_t_state TASK_STATE_CANCELLED t)).

Lemma find_task_Some task_id d i t :
  find_task task_id d = Some (i, t) →
  dev_tasks d !! i = Some t ∧ t_id t = task_id ∧ t_state t ≠ TASK_STATE_FREE.
Proof.
  unfold find_task. intros (Hi & Hm & _)%list_find_Some.
  unfold task_matches in Hm. apply andb_prop in Hm as [Hid Hst].
  apply bool_decide_eq_true in Hst. by apply Z.eqb_eq in Hid.
Qed.

Lemma find_task_None task_id d i t :
  find_task task_id d = None → dev_tasks d !! i = Some t →
  t_id t = task_id → t_state t = TASK_STATE_FREE.
Proof.
  unfold find_task. intros Hn%list_find_None Hi Hid.
  assert (Hf := proj1 (Forall_lookup _ _) Hn i t Hi). cbn in Hf.
  unfold task_matches in Hf. rewrite Hid, Z.eqb_refl in Hf. cbn in Hf.
  destruct (decide (t_state t = TASK_STATE_FREE)) as [|Hne]; [done|].
  rewrite bool_decide_true in Hf by done. done.
Qed.

(** ** Functional behaviour of the operations *)

(** The slot [task_alloc] hands out. *)
Definition fresh_task (id : Z) : task := set_t_id id zero_task.

Definition next_id (d : dev) : Z := s32 (dev_next_task_id d + 1).

Lemma task_alloc_run d :
  task_alloc d =
  match dev_free_tasks d with
  | [] => (Ok None, d)
  | i :: _ =>
      if decide (i < length (dev_tasks d))%nat then
        (Ok (Some i),
         set_next_task_id (next_id d)
           (upd_tasks (arr_upd i (λ _, fresh_task (u32 (next_id d))))
              (upd_free_tasks (list_del i) d)))
      else (Oops, upd_free_tasks (list_del i) d)
  end.
Proof.
  unfold task_alloc. km_unfold. destruct (dev_free_tasks d) as [|i l] eqn:Hf; [done|].
  case_decide as Hi.
  - apply lookup_lt_is_Some in Hi as [t Ht].
    rewrite (upd_task_run i _ _ t) by done. cbn -[upd_task].
    rewrite (upd_task_run i _ _ zero_task) by (cbn; by rewrite arr_upd_same, Ht).
    cbn -[upd_task].
    erewrite (upd_task_run i) by (cbn; by rewrite !arr_upd_same, Ht).
    unfold upd_tasks, set_tasks, set_next_task_id, upd_free_tasks, set_free_tasks. cbn.
    by rewrite !arr_upd_compose.
  - unfold upd_task, get_task, arr_get. km_unfold. cbn.
    destruct (dev_tasks d !! i) eqn:E; [|done]. apply lookup_lt_Some in E. lia.
Qed.

Lemma take_all_tasks d :
  length (dev_tasks d) = MAX_TASKS → take MAX_TASKS (drop 0 (dev_tasks d)) = dev_tasks d.
Proof. intros Hl. rewrite drop_0. by rewrite take_ge by lia. Qed.

Lemma task_cancel_run task_id d :
  length (dev_tasks d) = MAX_TASKS →
  task_cancel task_id d =
  match find_task task_id d with
  | Some (i, _) => (Ok 0, upd_tasks (arr_upd i cancelled) d)
  | None => (Ok (- ENOENT), d)
  end.
Proof.
  intros Hl. unfold task_cancel.
  set (hit := λ (i : nat) (_ : task),
    upd_task i (set_t_state TASK_STATE_CANCELLED) ;;
    upd_task i (set_t_error_code (- ECANCELED)) ;;
    upd_task i (set_t_done true) ;; return_ (A := ()) 0).
  assert (Hhit : ∀ i x s, dev_tasks s !! i = Some x →
    hit i x s = (Ret 0, upd_tasks (arr_upd i cancelled) s)).
  { intros i x s Hx. unfold hit. km_unfold.
    rewrite (upd_task_run i _ _ x) by done. cbn -[upd_task].
    erewrite (upd_task_run i) by (cbn; by rewrite arr_upd_same, Hx). cbn -[upd_task].
    erewrite (upd_task_run i) by (cbn; by rewrite !arr_upd_same, Hx).
    unfold upd_tasks, set_tasks. cbn. by rewrite !arr_upd_compose. }
  unfold call, mbind at 1, KM_bind at 1, get_task.
  rewrite (scan_loop dev_tasks (task_matches task_id) hit) by (eauto; lia).
  rewrite take_all_tasks by done. fold (find_task task_id d).
  destruct (find_task task_id d) as [[i t]|] eqn:Hf; [|done].
  apply find_task_Some in Hf as [Hi _]. by rewrite (Hhit i t).
Qed.

Lemma task_submit_run now i a d t acc :
  dev_tasks d !! i = Some t →
  dev_accelerators d !! a = Some acc →
  task_submit now i a d =
  if Z.of_nat NUM_ACCELERATORS <=? t_accel_type t then (Ok (- EINVAL), d)
  else (Ok 0,
        upd_accelerators
          (arr_upd a (λ a, set_a_task_queue (a_task_queue a ++ [i]) a))
          (upd_tasks
             (arr_upd i (set_t_submit_jiffies now ∘ set_t_state TASK_STATE_PENDING)) d)).
Proof.
  intros Ht Ha. unfold task_submit, get_task, arr_get. km_unfold. rewrite Ht.
  destruct (Z.of_nat NUM_ACCELERATORS <=? t_accel_type t); [done|].
  cbn -[upd_task upd_accel].
  rewrite (upd_task_run i _ _ t) by done. cbn -[upd_task upd_accel].
  erewrite (upd_task_run i) by (cbn; by rewrite arr_upd_same, Ht). cbn -[upd_task upd_accel].
  erewrite (upd_accel_run a) by (cbn; exact Ha).
  unfold upd_accelerators, upd_tasks, set_tasks. cbn. by rewrite arr_upd_compose.
Qed.

Section Query.
Context {U : Type} `{UserMemory U}.
Context (HZ : Z).

(** [task_query] reports the task it finds, and nothing else changes. *)
Lemma task_query_run task_id ustatus (w : world U) :
  length (dev_tasks (w_dev w)) = MAX_TASKS →
  task_query HZ task_id ustatus w =
  match find_task task_id (w_dev w) with
  | Some (_, t) =>
      let '(r, u) := copy_to_user (w_user w) ustatus (encode (status_of HZ t)) in
      (Ok (if r =? 0 then 0 else - EFAULT), set_w_user u w)
  | None => (Ok (- ENOENT), w)
  end.
Proof.
  intros Hl. unfold task_query.
  set (hit := λ (i : nat) (t : task),
    r ← copy_out ustatus (status_of HZ t);
    return_if (S := world U) (negb (r =? 0)) (- EFAULT) ;; return_ (A := ()) 0).
  assert (Hhit : ∀ i x s, hit i x s =
    let '(r, u) := copy_to_user (w_user s) ustatus (encode (status_of HZ x)) in
    (Ret (if r =? 0 then 0 else - EFAULT), set_w_user u s)).
  { intros i x s. unfold hit, copy_out. km_unfold.
    destruct (copy_to_user _ _ _) as [r u]. by destruct (r =? 0). }
  unfold call, mbind at 1, KM_bind at 1.
  rewrite (scan_loop (λ w, dev_tasks (w_dev w)) (task_matches task_id) hit); cycle 1.
  { cbn. lia. }
  { intros i x _ _. rewrite Hhit. destruct (copy_to_user _ _ _). eauto. }
  rewrite take_all_tasks by done. fold (find_task task_id (w_dev w)).
  destruct (find_task task_id (w_dev w)) as [[i t]|]; [|done].
  rewrite Hhit. by destruct (copy_to_user _ _ _) as [r u].
Qed.
End Query.
