(* ===== verification/Pool.v ===== *)
(** * The pool invariant

    What holds of the task slots of a device whenever no pool operation is in
    progress, and that task_pool_init establishes it and every operation of
    TaskManager.v keeps it.  [accounted] is the ledger of the driver as a whole:
    every slot that left the free list took one identifier, and none came
    back (the driver never frees a task it queued). *)

From S2P Require Import Prelude CLayout Device UserMem Uapi TaskManager.

Record pool_inv (d : dev) : Prop := {
  pi_tasks : length (dev_tasks d) = MAX_TASKS;
  pi_nodup : NoDup (dev_free_tasks d);
  pi_bound : ∀ i, i ∈ dev_free_tasks d → (i < MAX_TASKS)%nat;
  pi_next : 0 <= dev_next_task_id d;
  pi_free : ∀ i t, dev_tasks d !! i = Some t → i ∈ dev_free_tasks d →
    t_state t = TASK_STATE_FREE;
  pi_id : ∀ i t, dev_tasks d !! i = Some t → 0 <= t_id t <= dev_next_task_id d;
  pi_live : ∀ i t, dev_tasks d !! i = Some t → i ∉ dev_free_tasks d → 0 < t_id t;
  pi_unique : ∀ i j t u, dev_tasks d !! i = Some t → dev_tasks d !! j = Some u →
    t_id t = t_id u → 0 < t_id t → i = j;
}.

Definition accounted (d : dev) : Prop :=
  dev_next_task_id d + Z.of_nat (length (dev_free_tasks d)) = Z.of_nat MAX_TASKS.

#[export] Hint Resolve pi_tasks pi_nodup pi_bound pi_next : cortex.

(** ** Preservation *)

(** Updates of accelerators, and of a task that keeps its id, leave the pool alone. *)
Lemma pool_inv_upd_accelerators f d : pool_inv d → pool_inv (upd_accelerators f d).
Proof. intros []. by split. Qed.

Lemma accounted_upd_accelerators f d : accounted d → accounted (upd_accelerators f d).
Proof. done. Qed.

Lemma pool_inv_upd_task i f d :
  (∀ t, t_id (f t) = t_id t) →
  (i ∈ dev_free_tasks d → ∀ t, t_state t = TASK_STATE_FREE → t_state (f t) = TASK_STATE_FREE) →
  pool_inv d → pool_inv (upd_tasks (arr_upd i f) d).
Proof.
  intros Hid Hst [].
  assert (Hlk : ∀ j t, dev_tasks (upd_tasks (arr_upd i f) d) !! j = Some t →
    ∃ t0, dev_tasks d !! j = Some t0 ∧ t_id t = t_id t0 ∧ (t = t0 ∨ (i = j ∧ t = f t0))).
  { intros j t. cbn. rewrite arr_upd_lookup. case_decide; subst; [|eauto].
    destruct (dev_tasks d !! j) as [t0|]; [|done]. intros [= <-]. exists t0. eauto. }
  split; cbn; [by rewrite arr_upd_length|done..| | | |].
  - intros j t (t0 & Hj & _ & [->|[-> ->]])%Hlk Hf; eauto.
  - intros j t (t0 & Hj & -> & _)%Hlk. eauto.
  - intros j t (t0 & Hj & -> & _)%Hlk. eauto.
  - intros j k t u (t0 & Hj & -> & _)%Hlk (u0 & Hk & -> & _)%Hlk. eauto.
Qed.

(** A live task can be updated in any way that keeps its id. *)
Lemma pool_inv_upd_live i f d :
  (∀ t, t_id (f t) = t_id t) → i ∉ dev_free_tasks d →
  pool_inv d → pool_inv (upd_tasks (arr_upd i f) d).
Proof. intros ? ?. apply pool_inv_upd_task; [done|]. by intros ?. Qed.

Lemma pool_inv_head i l d :
  pool_inv d → dev_free_tasks d = i :: l →
  (i < length (dev_tasks d))%nat ∧ list_del i (dev_free_tasks d) = l ∧ (i ∉ l) ∧
  (∃ t, dev_tasks d !! i = Some t ∧ t_state t = TASK_STATE_FREE).
Proof.
  intros Hinv Hf. assert (Hi : (i < length (dev_tasks d))%nat).
  { rewrite pi_tasks by done. apply (pi_bound d Hinv). rewrite Hf. set_solver. }
  pose proof (pi_nodup d Hinv) as Hnd. rewrite Hf in Hnd. apply NoDup_cons in Hnd as [Hil _].
  split_and!; [done|by rewrite Hf, list_del_head|done|].
  apply lookup_lt_is_Some in Hi as [t Ht]. exists t. split; [done|].
  apply (pi_free d Hinv i); [done|]. rewrite Hf. set_solver.
Qed.

(** The device after [task_alloc] handed out [i]. *)
Definition alloc_dev (i : nat) (d : dev) : dev :=
  set_next_task_id (dev_next_task_id d + 1)
    (upd_tasks (arr_upd i (λ _, fresh_task (dev_next_task_id d + 1)))
       (upd_free_tasks (list_del i) d)).

Lemma task_alloc_ok d :
  pool_inv d → dev_next_task_id d < 2 ^ 31 - 1 →
  task_alloc d =
  match dev_free_tasks d with
  | [] => (Ok None, d)
  | i :: _ => (Ok (Some i), alloc_dev i d)
  end.
Proof.
  intros Hinv Hn. rewrite task_alloc_run. destruct (dev_free_tasks d) as [|i l] eqn:Hf; [done|].
  destruct (pool_inv_head i l d Hinv Hf) as (Hi & _). rewrite decide_True by done.
  pose proof (pi_next d Hinv). unfold alloc_dev, next_id.
  rewrite s32_id, u32_id by (unfold is_s32, is_u32; lia). done.
Qed.

Lemma pool_inv_alloc i l d :
  pool_inv d → dev_free_tasks d = i :: l → pool_inv (alloc_dev i d).
Proof.
  intros Hinv Hf. destruct (pool_inv_head i l d Hinv Hf) as (Hi & Hdel & Hil & _).
  pose proof (pi_nodup d Hinv) as Hnd. rewrite Hf in Hnd. apply NoDup_cons in Hnd as [_ Hnd].
  assert (Hlk : ∀ j t, dev_tasks (alloc_dev i d) !! j = Some t →
    (j = i ∧ t = fresh_task (dev_next_task_id d + 1)) ∨ (j ≠ i ∧ dev_tasks d !! j = Some t)).
  { intros j t. cbn. rewrite arr_upd_lookup. case_decide as E; subst; [|eauto].
    destruct (dev_tasks d !! j); intros [= <-]. eauto. }
  assert (Hold : ∀ j, j ≠ i → j ∉ l → j ∉ dev_free_tasks d) by (rewrite Hf; set_solver).
  destruct Hinv. split; cbn -[fresh_task]; rewrite ?Hdel, ?arr_upd_length; [done..| | | | | |].
  - intros j Hj. apply pi_bound0. rewrite Hf. set_solver.
  - lia.
  - intros j t [[-> ->]|[Hne Hj]]%Hlk Hjl; [done|]. eapply pi_free0; [done|]. rewrite Hf. set_solver.
  - intros j t [[-> ->]|[Hne Hj]]%Hlk; cbn; [lia|]. specialize (pi_id0 j t Hj). lia.
  - intros j t [[-> ->]|[Hne Hj]]%Hlk Hjl; cbn; [lia|]. eauto.
  - intros j k t u [[-> ->]|[Hne Hj]]%Hlk [[-> ->]|[Hne' Hk]]%Hlk; cbn; intros Hid Hp; [done| | |].
    + specialize (pi_id0 k u Hk). lia.
    + specialize (pi_id0 j t Hj). lia.
    + eauto.
Qed.

Lemma accounted_alloc i l d :
  pool_inv d → dev_free_tasks d = i :: l → accounted d → accounted (alloc_dev i d).
Proof.
  intros Hinv Hf. destruct (pool_inv_head i l d Hinv Hf) as (_ & Hdel & _).
  unfold accounted. cbn -[MAX_TASKS]. rewrite Hdel, Hf. cbn -[MAX_TASKS]. lia.
Qed.

Lemma accounted_next d : accounted d → pool_inv d → dev_next_task_id d <= 256.
Proof. unfold accounted, MAX_TASKS. lia. Qed.

(** [task_free] of a task that is in use. *)
Lemma pool_inv_free i d :
  (i < MAX_TASKS)%nat → i ∉ dev_free_tasks d → pool_inv d →
  pool_inv (upd_free_tasks (λ l, l ++ [i])
              (upd_tasks (arr_upd i (set_t_state TASK_STATE_FREE)) d)).
Proof.
  intros Hi Hnf Hinv.
  apply (pool_inv_upd_live i (set_t_state TASK_STATE_FREE)) in Hinv; [|done..].
  set (d1 := upd_tasks _ d) in *. destruct Hinv. split; cbn -[d1]; try done.
  - apply NoDup_app. split_and!; [done| |apply NoDup_singleton].
    intros x Hx Hxi. apply list_elem_of_singleton in Hxi as ->. done.
  - intros j [Hj|Hj%list_elem_of_singleton]%elem_of_app; [auto|by subst].
  - intros j t Hj [Hf|Hf%list_elem_of_singleton]%elem_of_app; [eauto|].
    subst j. unfold d1 in Hj. cbn in Hj. rewrite arr_upd_same in Hj.
    destruct (dev_tasks d !! i); [|done]. by injection Hj as <-.
  - intros j t Hj Hf. eapply pi_live0; [done|]. set_solver.
Qed.

(** ** Initialisation *)

(** The body of the loop. *)
Definition init_slot (i : nat) : KM dev unit :=
  upd_task i (set_t_state TASK_STATE_FREE) ;;
  upd_task i (set_t_done false) ;;
  modify (upd_free_tasks (λ l, l ++ [i])).

Definition slot_reset : task → task := set_t_done false ∘ set_t_state TASK_STATE_FREE.

Lemma init_slot_run i d :
  (i < length (dev_tasks d))%nat →
  init_slot i d =
  (Ok (), upd_free_tasks (λ l, l ++ [i]) (upd_tasks (arr_upd i slot_reset) d)).
Proof.
  intros [t Ht]%lookup_lt_is_Some. unfold init_slot, mbind, KM_bind, modify.
  rewrite (upd_task_run i _ _ t) by done. cbn -[upd_task].
  erewrite (upd_task_run i) by lookup_solve.
  unfold upd_free_tasks, upd_tasks, set_tasks. cbn. by rewrite arr_upd_compose.
Qed.

Lemma task_pool_init_loop n from d :
  (from + n ≤ length (dev_tasks d))%nat →
  for_loop n from init_slot d =
  (Ok (), upd_free_tasks (λ l, l ++ seq from n)
            (upd_tasks (map_range from n (λ _, slot_reset)) d)).
Proof.
  revert from d. induction n as [|n IH]; intros from d Hlen.
  { unfold upd_free_tasks, upd_tasks, set_tasks, set_free_tasks. cbn.
    rewrite app_nil_r, map_range_0. by destruct d. }
  cbn [for_loop]. unfold mbind, KM_bind. rewrite init_slot_run by lia.
  rewrite IH by (cbn; rewrite arr_upd_length; lia).
  unfold upd_free_tasks, upd_tasks, set_tasks, set_free_tasks. cbn [dev_tasks dev_free_tasks
    dev_accelerators dev_next_task_id dev_num_clks dev_irq].
  rewrite <- app_assoc. by rewrite (map_range_S from n (λ _, slot_reset)).
Qed.

Lemma task_pool_init_run d :
  length (dev_tasks d) = MAX_TASKS →
  task_pool_init d =
  (Ok (), upd_free_tasks (λ l, l ++ seq 0 MAX_TASKS)
            (upd_tasks (fmap (slot_reset)) d)).
Proof.
  intros Hl. change task_pool_init with (for_loop MAX_TASKS 0 init_slot). rewrite task_pool_init_loop by lia.
  f_equal. f_equal. unfold upd_tasks. f_equal. apply list_eq. intros i.
  rewrite map_range_lookup, list_lookup_fmap. case_bool_decide; [done|].
  by rewrite lookup_ge_None_2 by lia.
Qed.

(** The initialised pool satisfies the invariant, with every slot free. *)
Lemma task_pool_init_inv d d' :
  length (dev_tasks d) = MAX_TASKS → dev_free_tasks d = [] → dev_next_task_id d = 0 →
  Forall (λ t, t_id t = 0) (dev_tasks d) →
  task_pool_init d = (Ok (), d') → pool_inv d' ∧ accounted d'.
Proof.
  intros Hl Hf Hn Hid. rewrite task_pool_init_run by done. intros E.
  apply (f_equal snd) in E. cbn [snd] in E. subst d'.
  assert (Hlk : ∀ i t, (slot_reset <$> dev_tasks d) !! i = Some t →
    t_id t = 0 ∧ t_state t = TASK_STATE_FREE ∧ (i < MAX_TASKS)%nat).
  { intros i t. rewrite list_lookup_fmap. destruct (dev_tasks d !! i) as [t0|] eqn:Hi; [|done].
    intros [= <-]. rewrite Forall_lookup in Hid. split_and!; [exact (Hid i t0 Hi)|done|].
    rewrite <- Hl. by apply lookup_lt_Some in Hi. }
  split; [split|]; unfold accounted;
    cbn [dev_tasks dev_free_tasks dev_next_task_id upd_free_tasks upd_tasks set_tasks
      set_free_tasks]; rewrite ?Hf, ?Hn, ?app_nil_l.
  - by rewrite length_fmap.
  - apply NoDup_seq.
  - intros i Hi%elem_of_seq. lia.
  - done.
  - intros i t (? & ? & ?)%Hlk. done.
  - intros i t (-> & _)%Hlk. lia.
  - intros i t (_ & _ & Hi)%Hlk Hni. exfalso. apply Hni. apply elem_of_seq. lia.
  - intros i j t u (-> & _)%Hlk. lia.
  - by rewrite length_seq.
Qed.
