(* ===== verification/AccelManager.v ===== *)
(** * Accelerator management: src/accel_manager.c (all but the worker body)

    Initialisation, information query, and the start and stop of the worker
    threads.  The worker's body is Worker.v.

    Kernel calls that acquire or release something are recorded in a ledger
    ([kcall]), and what they return is given by an environment ([kenv]). *)

From S2P Require Import Prelude CLayout Device Uapi.

(** ** Initialisation *)

(** [strncpy(dst, src, n)] with [src] the characters of a C string: at most
    [n] characters are copied, and the rest of the [n] are NULs. *)
Definition strncpy (dst src : list Ascii.ascii) (n : nat) : list Ascii.ascii :=
  take n (src ++ replicate n Ascii.zero) ++ drop n dst.

(** The C string in a buffer: the characters before the first NUL. *)
Fixpoint c_string (buf : list Ascii.ascii) : list Ascii.ascii :=
  match buf with
  | [] => []
  | c :: buf' => if Ascii.eqb c Ascii.zero then [] else c :: c_string buf'
  end.

Definition accel_init (type : Z) (name : string) (a : accel) : accel :=
  {| a_type := type;
     a_name := strncpy (a_name a) (String.list_ascii_of_string name) (16 - 1);
     a_freq_hz := 1000000000;
     a_temp_celsius := 40;
     a_load_percent := 0;
     a_fw_version := 0x00010000;
     a_hw_version := 0x02000000;
     a_mem_total := u64 (1024 * 1024 * 1024);
     a_mem_free := u64 (1024 * 1024 * 1024);
     a_state := 2;
     a_task_queue := [];
     a_active_tasks := [];
     a_worker_thread := a_worker_thread a;
     a_running := 1 |}.

(** ** Information query *)

Definition accel_get_info (a : accel) (info : accel_info) : accel_info :=
  {| i_accel_type := i_accel_type info;
     i_freq_hz := a_freq_hz a;
     i_temp_celsius := a_temp_celsius a;
     i_load_percent := a_load_percent a;
     i_fw_version := a_fw_version a;
     i_hw_version := a_hw_version a;
     i_mem_total := a_mem_total a;
     i_mem_free := a_mem_free a;
     i_state := a_state a;
     i_reserved := i_reserved info |}.

(** The fields of an accelerator that the report copies have their C types. *)
Definition accel_in_range (a : accel) : Prop :=
  is_u32 (a_freq_hz a) ∧ is_s32 (a_temp_celsius a) ∧ is_u32 (a_load_percent a) ∧
  is_u32 (a_fw_version a) ∧ is_u32 (a_hw_version a) ∧ is_u64 (a_mem_total a) ∧
  is_u64 (a_mem_free a) ∧ is_u32 (a_state a).

Lemma accel_get_info_representable a info :
  accel_in_range a → representable info → representable (accel_get_info a info).
Proof.
  intros (H1 & H2 & H3 & H4 & H5 & H6 & H7 & H8) Hrep. destruct info.
  destruct i_reserved as [[r0 r1] r2]. representable_fields Hrep.
  split; [exact H2|]. unfold is_u32, is_u64 in *. cbn.
  pose proof (u32_range (a_temp_celsius a)) as Ht. unfold is_u32 in Ht.
  repeat (apply Forall2_cons; split); try apply Forall2_nil; unfold fits; cbn; lia.
Qed.

(** ** Kernel calls with an effect on resources *)

Inductive kcall : Type :=
  | KC_kthread_run (tid : nat)
  | KC_kthread_stop (tid : nat)
  | KC_alloc_chrdev_region
  | KC_unregister_chrdev_region
  | KC_cdev_add
  | KC_cdev_del
  | KC_device_create
  | KC_device_destroy
  | KC_class_register
  | KC_class_unregister
  | KC_driver_register
  | KC_driver_unregister.

#[export] Instance kcall_eq_dec : EqDecision kcall.
Proof. solve_decision. Defined.

(** What the kernel answers: 0 or a count on success, a negative errno on
    failure.  [ke_kthread_run i] is the answer for accelerator [i]. *)
Record kenv : Type := {
  ke_kzalloc : bool;
  ke_ioremap : Z;
  ke_clk_bulk_get_all : Z;
  ke_reset_control_get : Z;
  ke_platform_get_irq : Z;
  ke_kthread_run : nat → Z;
  ke_alloc_chrdev_region : Z;
  ke_cdev_add : Z;
  ke_device_create : Z;
  ke_device_create_null : Z;                (* ... when the class is NULL *)
  ke_class_register : Z;
  ke_driver_register : Z;
}.

(** The device and the ledger, oldest call first. *)
Record pstate : Type := { ps_dev : dev; ps_log : list kcall }.

Definition set_ps_dev (d : dev) (p : pstate) : pstate := {| ps_dev := d; ps_log := ps_log p |}.
Definition kcall_ (c : kcall) : KM pstate unit :=
  modify (λ p, {| ps_dev := ps_dev p; ps_log := ps_log p ++ [c] |}).
Definition on_ps_dev {A} (m : KM dev A) : KM pstate A := zoom ps_dev set_ps_dev m.

(** [IS_ERR] of a [struct task_struct *]; [PTR_ERR] is its argument. *)
Definition kthread_run (env : kenv) (i : nat) : KM pstate kthread :=
  if ke_kthread_run env i <? 0 then mret (KT_ERR (ke_kthread_run env i))
  else kcall_ (KC_kthread_run i) ;; mret (KT_THREAD i).

(** Stopping anything but a thread is an invalid access.  The ledger records
    which thread is stopped; that its task structure must still exist, which
    clearing [running] first does not guarantee, is a condition on the ledger
    ([Lifetime.stops_gone]). *)
Definition kthread_stop (t : kthread) : KM pstate unit :=
  match t with
  | KT_THREAD tid => kcall_ (KC_kthread_stop tid)
  | _ => oops
  end.

(** ** Worker threads *)

(** The body of the stop loop. *)
Definition stop_worker (i : nat) : KM pstate unit :=
  a ← on_ps_dev (get_accel i);
  match a_worker_thread a with
  | KT_NULL => mret ()
  | th =>
      on_ps_dev (upd_accel i (set_a_running 0)) ;;
      kthread_stop th ;;
      on_ps_dev (upd_accel i (set_a_worker_thread KT_NULL))
  end.

Definition accel_stop_workers (num : nat) : KM pstate unit := for_loop num 0 stop_worker.

(** The body of the start loop, with its error exit. *)
Definition start_worker (env : kenv) (i : nat) : KM pstate unit :=
  th ← kthread_run env i;
  on_ps_dev (upd_accel i (set_a_worker_thread th)) ;;
  match th with
  | KT_ERR e => accel_stop_workers i ;; return_ e
  | _ => mret ()
  end.

Definition accel_start_workers (env : kenv) (num : nat) : KM pstate Z :=
  call (for_loop num 0 (start_worker env) ;; mret 0).

(** ** Lemmas *)

Lemma strncpy_length dst src n :
  (n ≤ length dst)%nat → length (strncpy dst src n) = length dst.
Proof.
  intros Hn. unfold strncpy.
  rewrite length_app, length_take, length_app, length_replicate, length_drop. lia.
Qed.

(** The byte after the copied ones is not touched. *)
Lemma strncpy_last dst src n x :
  dst !! n = Some x → strncpy dst src n !! n = Some x.
Proof.
  intros Hx. unfold strncpy.
  rewrite lookup_app_r by (rewrite length_take, length_app, length_replicate; lia).
  rewrite length_take, length_app, length_replicate.
  replace (n - _)%nat with 0%nat by lia.
  by rewrite lookup_drop, Nat.add_0_r.
Qed.

Lemma c_string_app s n rest :
  Forall (λ c, c ≠ Ascii.zero) s → (0 < n)%nat →
  c_string (s ++ replicate n Ascii.zero ++ rest) = s.
Proof.
  intros Hs Hn. induction Hs as [|c s Hc _ IH]; cbn [app c_string].
  - destruct n; [lia|]. done.
  - rewrite IH. destruct (Ascii.eqb_spec c Ascii.zero); done.
Qed.

(** A string shorter than the bound is copied whole. *)
Lemma strncpy_c_string dst src n :
  Forall (λ c, c ≠ Ascii.zero) src → (length src < n)%nat →
  c_string (strncpy dst src n) = src.
Proof.
  intros Hs Hn. unfold strncpy.
  rewrite take_app_ge by lia. rewrite take_replicate, <- app_assoc.
  apply c_string_app; [done|lia].
Qed.

(** The copy into a buffer of zeros, one longer than the bound, is the string
    cut at the bound. *)
Lemma c_string_prefix s rest :
  Forall (λ c, c ≠ Ascii.zero) s → c_string (s ++ Ascii.zero :: rest) = s.
Proof. intros Hs. by apply (c_string_app s 1 rest Hs ltac:(lia)). Qed.

Lemma strncpy_truncated s n :
  Forall (λ c, c ≠ Ascii.zero) s →
  c_string (strncpy (replicate (S n) Ascii.zero) s n) = take n s.
Proof.
  intros Hs. unfold strncpy. rewrite drop_replicate.
  replace (S n - n)%nat with 1%nat by lia. cbn [replicate].
  destruct (decide (length s < n)%nat) as [Hlt|Hge].
  - rewrite take_app_ge, take_replicate, <- app_assoc by lia.
    rewrite c_string_app by (done || lia). by rewrite take_ge by lia.
  - rewrite take_app_le by lia. apply c_string_prefix. by apply Forall_take.
Qed.

(** *** Stopping *)

Definition stopped (a : accel) : accel :=
  match a_worker_thread a with
  | KT_NULL => a
  | _ => set_a_worker_thread KT_NULL (set_a_running 0 a)
  end.

Definition thread_stops (l : list accel) : list kcall :=
  omap (λ a, match a_worker_thread a with
             | KT_THREAD tid => Some (KC_kthread_stop tid)
             | _ => None
             end) l.

Lemma thread_stops_app l k : thread_stops (l ++ k) = thread_stops l ++ thread_stops k.
Proof. apply omap_app. Qed.

Definition not_err (a : accel) : Prop :=
  match a_worker_thread a with KT_ERR _ => False | _ => True end.

Lemma stop_worker_run i d log a :
  dev_accelerators d !! i = Some a → not_err a →
  stop_worker i {| ps_dev := d; ps_log := log |} =
  (Ok (), {| ps_dev := upd_accelerators (arr_upd i stopped) d;
             ps_log := log ++ thread_stops [a] |}).
Proof.
  intros Ha Herr. unfold stop_worker, on_ps_dev, zoom, get_accel, arr_get. km_unfold.
  cbn -[upd_accel]. rewrite Ha. cbn -[upd_accel].
  assert (Hst : ∀ f, f a = stopped a →
    arr_upd i f (dev_accelerators d) = arr_upd i stopped (dev_accelerators d)).
  { intros f Hf. apply list_eq. intros j. rewrite !arr_upd_lookup. case_decide; subst; [|done].
    rewrite Ha. cbn. by rewrite Hf. }
  unfold thread_stops, upd_accelerators, set_ps_dev. cbn [omap list_omap].
  unfold not_err in Herr. unfold stopped in Hst at 1.
  destruct (a_worker_thread a) as [|tid|e] eqn:Hth; [| |done].
  - cbn. rewrite <- (Hst id) by done. rewrite app_nil_r. unfold arr_upd.
    rewrite list_alter_id by done. by destruct d.
  - rewrite (upd_accel_run i _ _ a) by done. cbn -[upd_accel].
    erewrite (upd_accel_run i) by (cbn; by rewrite arr_upd_same, Ha). cbn.
    unfold upd_accelerators, set_accelerators. cbn. rewrite arr_upd_compose.
    by rewrite (Hst (set_a_worker_thread KT_NULL ∘ set_a_running 0)).
Qed.

Lemma stop_workers_loop n from d log :
  (from + n ≤ length (dev_accelerators d))%nat →
  Forall not_err (take n (drop from (dev_accelerators d))) →
  for_loop n from stop_worker {| ps_dev := d; ps_log := log |} =
  (Ok (), {| ps_dev := upd_accelerators (map_range from n (λ _, stopped)) d;
             ps_log := log ++ thread_stops (take n (drop from (dev_accelerators d))) |}).
Proof.
  revert from d log. induction n as [|n IH]; intros from d log Hlen Herr.
  { cbn. by rewrite (upd_accelerators_id _ d), app_nil_r by apply map_range_0. }
  destruct (lookup_lt_is_Some_2 (dev_accelerators d) from) as [a Ha]; [lia|].
  rewrite (drop_S _ _ _ Ha) in *. cbn [take] in *.
  apply Forall_cons in Herr as [Ha_err Herr].
  cbn [for_loop]. unfold mbind, KM_bind. rewrite (stop_worker_run _ _ _ a) by done.
  rewrite IH.
  - rewrite upd_accelerators_compose. change (dev_accelerators (upd_accelerators ?f d))
      with (f (dev_accelerators d)). rewrite drop_arr_upd, <- app_assoc, <- thread_stops_app.
    cbn [app]. by rewrite (upd_accelerators_ext _ (map_range from (S n) (λ _, stopped)))
      by apply (map_range_S from n (λ _, stopped)).
  - cbn. rewrite arr_upd_length. lia.
  - cbn. by rewrite drop_arr_upd.
Qed.

Lemma accel_stop_workers_run n d log :
  (n ≤ length (dev_accelerators d))%nat →
  Forall not_err (take n (dev_accelerators d)) →
  accel_stop_workers n {| ps_dev := d; ps_log := log |} =
  (Ok (), {| ps_dev := upd_accelerators (map_range 0 n (λ _, stopped)) d;
             ps_log := log ++ thread_stops (take n (dev_accelerators d)) |}).
Proof.
  intros Hn Herr. unfold accel_stop_workers. rewrite stop_workers_loop; rewrite ?drop_0; auto.
Qed.

(** *** Starting *)

(** The first accelerator of the range whose thread cannot be created. *)
Fixpoint first_fail (env : kenv) (from n : nat) : option nat :=
  match n with
  | O => None
  | S n' => if ke_kthread_run env from <? 0 then Some from else first_fail env (S from) n'
  end.

Definition started (i : nat) (a : accel) : accel := set_a_worker_thread (KT_THREAD i) a.
Definition failed (env : kenv) (k : nat) (a : accel) : accel :=
  set_a_worker_thread (KT_ERR (ke_kthread_run env k)) a.

Lemma first_fail_Some env from n k :
  first_fail env from n = Some k →
  (from ≤ k < from + n)%nat ∧ ke_kthread_run env k < 0 ∧
  ∀ i, (from ≤ i < k)%nat → 0 ≤ ke_kthread_run env i.
Proof.
  revert from. induction n as [|n IH]; intros from; cbn; [done|].
  destruct (Z.ltb_spec (ke_kthread_run env from) 0).
  - intros [= <-]. split_and!; [lia..|done|intros; lia].
  - intros (? & ? & Hi)%IH. split_and!; [lia..|done|]. intros i ?.
    destruct (decide (i = from)) as [->|]; [done|]. apply Hi. lia.
Qed.

Lemma start_worker_ok env i d log :
  (i < length (dev_accelerators d))%nat → 0 ≤ ke_kthread_run env i →
  start_worker env i {| ps_dev := d; ps_log := log |} =
  (Ok (), {| ps_dev := upd_accelerators (arr_upd i (started i)) d;
             ps_log := log ++ [KC_kthread_run i] |}).
Proof.
  intros [a Ha]%lookup_lt_is_Some He. unfold start_worker, kthread_run, on_ps_dev, zoom.
  destruct (Z.ltb_spec (ke_kthread_run env i) 0); [lia|]. km_unfold.
  cbn -[upd_accel]. by rewrite (upd_accel_run i _ _ a).
Qed.

Lemma start_worker_err env i d log :
  (i < length (dev_accelerators d))%nat → ke_kthread_run env i < 0 →
  Forall not_err (take i (dev_accelerators d)) →
  start_worker env i {| ps_dev := d; ps_log := log |} =
  (Ret (ke_kthread_run env i),
   {| ps_dev := upd_accelerators (map_range 0 i (λ _, stopped))
                  (upd_accelerators (arr_upd i (failed env i)) d);
      ps_log := log ++ thread_stops (take i (dev_accelerators d)) |}).
Proof.
  intros [a Ha]%lookup_lt_is_Some He Herr. pose proof (lookup_lt_Some _ _ _ Ha).
  unfold start_worker, kthread_run, on_ps_dev, zoom.
  destruct (Z.ltb_spec (ke_kthread_run env i) 0); [|lia]. km_unfold.
  cbn -[upd_accel accel_stop_workers]. rewrite (upd_accel_run i _ _ a) by done.
  cbn -[accel_stop_workers upd_accelerators].
  assert (Htake : take i (arr_upd i (failed env i) (dev_accelerators d)) =
                  take i (dev_accelerators d)) by (unfold arr_upd; by rewrite take_alter, decide_False by lia).
  unfold set_ps_dev. cbn [ps_log].
  change (set_a_worker_thread (KT_ERR (ke_kthread_run env i))) with (failed env i).
  rewrite accel_stop_workers_run.
  - change (dev_accelerators (upd_accelerators ?f d)) with (f (dev_accelerators d)).
    by rewrite Htake.
  - cbn. rewrite arr_upd_length. lia.
  - cbn. by rewrite Htake.
Qed.

(** The accelerators after the start loop has run over [from .. from + n - 1]. *)
Definition start_outcome (env : kenv) (from n : nat) (d : dev) (log : list kcall)
    : res () * pstate :=
  match first_fail env from n with
  | None =>
      (Ok (), {| ps_dev := upd_accelerators (map_range from n started) d;
                 ps_log := log ++ (KC_kthread_run <$> seq from n) |})
  | Some k =>
      let d' := upd_accelerators (map_range from (k - from) started) d in
      (Ret (ke_kthread_run env k),
       {| ps_dev := upd_accelerators (map_range 0 k (λ _, stopped))
                      (upd_accelerators (arr_upd k (failed env k)) d');
          ps_log := log ++ (KC_kthread_run <$> seq from (k - from)) ++
                    thread_stops (take k (dev_accelerators d')) |})
  end.

Lemma start_workers_loop env n from d log :
  (from + n ≤ length (dev_accelerators d))%nat →
  Forall not_err (take (from + n) (dev_accelerators d)) →
  for_loop n from (start_worker env) {| ps_dev := d; ps_log := log |} =
  start_outcome env from n d log.
Proof.
  revert from d log. induction n as [|n IH]; intros from d log Hlen Herr;
    unfold start_outcome; cbn [for_loop first_fail].
  { cbn. by rewrite (upd_accelerators_id _ d), app_nil_r by apply map_range_0. }
  unfold mbind, KM_bind. destruct (Z.ltb_spec (ke_kthread_run env from) 0) as [He|He].
  - rewrite start_worker_err; [|lia|done|].
    + rewrite Nat.sub_diag. cbn [seq fmap list_fmap app].
      by rewrite (upd_accelerators_id (map_range from 0 started) d) by apply map_range_0.
    + replace (take from (dev_accelerators d))
        with (take from (take (from + S n) (dev_accelerators d)))
        by (rewrite take_take; f_equal; lia).
      by apply Forall_take.
  - rewrite start_worker_ok by (lia || done).
    set (d' := upd_accelerators (arr_upd from (started from)) d).
    assert (Hd' : length (dev_accelerators d') = length (dev_accelerators d))
      by apply arr_upd_length.
    assert (Hmap : ∀ m, upd_accelerators (map_range (S from) m started) d' =
                        upd_accelerators (map_range from (S m) started) d).
    { intros m. unfold d'. rewrite upd_accelerators_compose.
      apply upd_accelerators_ext, (map_range_S from m started). }
    rewrite IH; [|lia|].
    2: { apply Forall_lookup. intros j a Hj%lookup_take_Some. destruct Hj as [Hj Hjn].
         unfold d' in Hj. cbn in Hj. rewrite arr_upd_lookup in Hj. case_decide; subst.
         - destruct (dev_accelerators d !! j); [|done]. by injection Hj as <-.
         - rewrite Forall_lookup in Herr. apply (Herr j). apply lookup_take_Some.
           split; [done|lia]. }
    unfold start_outcome. destruct (first_fail env (S from) n) as [k|] eqn:Hk.
    + apply first_fail_Some in Hk as (Hk & _).
      replace (k - from)%nat with (S (k - S from)) by lia.
      rewrite Hmap. cbn [seq fmap list_fmap]. by rewrite <- !app_assoc.
    + rewrite Hmap. cbn [seq fmap list_fmap]. by rewrite <- app_assoc.
Qed.

Lemma accel_start_workers_run env n d log :
  (n ≤ length (dev_accelerators d))%nat →
  Forall not_err (take n (dev_accelerators d)) →
  accel_start_workers env n {| ps_dev := d; ps_log := log |} =
  match start_outcome env 0 n d log with
  | (Ret e, p) => (Ok e, p)
  | (_, p) => (Ok 0, p)
  end.
Proof.
  intros Hn Herr. unfold accel_start_workers, call, mbind at 1, KM_bind at 1.
  rewrite start_workers_loop by done. unfold start_outcome. by destruct (first_fail env 0 n).
Qed.

Lemma take_map_range_started n l :
  (n ≤ length l)%nat → thread_stops (take n (map_range 0 n started l)) = KC_kthread_stop <$> seq 0 n.
Proof.
  intros Hn. revert Hn. induction n as [|n IH]; intros Hn; [done|].
  destruct (lookup_lt_is_Some_2 l n) as [a Ha]; [lia|].
  rewrite (take_S_r _ _ (started n a)).
  2: { rewrite map_range_lookup, bool_decide_true by lia. by rewrite Ha. }
  rewrite thread_stops_app, seq_S, fmap_app, <- IH by lia. f_equal. f_equal.
  apply list_eq. intros i. rewrite !lookup_take.
  case_decide; [|done]. rewrite !map_range_lookup.
  by rewrite !bool_decide_true by lia.
Qed.

Lemma all_null_not_err n l :
  (∀ i a, (i < n)%nat → l !! i = Some a → a_worker_thread a = KT_NULL) →
  Forall not_err (take n l).
Proof.
  intros Hnull. apply Forall_lookup. intros i a [Ha Hi]%lookup_take_Some.
  unfold not_err. by rewrite (Hnull i a).
Qed.

(** *** Main results *)

(** What becomes of accelerator [i] when [num] workers are started. *)
Definition start_effect (env : kenv) (num i : nat) (a : accel) : accel :=
  match first_fail env 0 num with
  | None => if bool_decide (i < num)%nat then started i a else a
  | Some k =>
      if bool_decide (i < k)%nat then set_a_worker_thread KT_NULL (set_a_running 0 (started i a))
      else if bool_decide (i = k) then failed env k a else a
  end.

(** [accel_start_workers] is all-or-nothing.  With no worker running yet it
    returns 0 and has created one thread per accelerator, in order; or some
    [kthread_run] failed, and then it returns that error, having stopped
    exactly the threads it had created, in order, each with its [running] flag
    cleared and its pointer reset, and without touching the error pointer or
    the accelerators after it. *)
Theorem accel_start_workers_all_or_nothing env num d log :
  (num ≤ length (dev_accelerators d))%nat →
  (∀ i a, (i < num)%nat → dev_accelerators d !! i = Some a → a_worker_thread a = KT_NULL) →
  ∃ p', accel_start_workers env num {| ps_dev := d; ps_log := log |} =
      (Ok match first_fail env 0 num with None => 0 | Some k => ke_kthread_run env k end, p') ∧
    ps_log p' = log ++
      match first_fail env 0 num with
      | None => KC_kthread_run <$> seq 0 num
      | Some k => (KC_kthread_run <$> seq 0 k) ++ (KC_kthread_stop <$> seq 0 k)
      end ∧
    ∀ i a, dev_accelerators d !! i = Some a →
      dev_accelerators (ps_dev p') !! i = Some (start_effect env num i a).
Proof.
  intros Hn Hnull. rewrite accel_start_workers_run by auto using all_null_not_err.
  unfold start_outcome, start_effect.
  destruct (first_fail env 0 num) as [k|] eqn:Hk; eexists; (split; [reflexivity|]); cbn [ps_log ps_dev].
  - apply first_fail_Some in Hk as (Hk & _). rewrite Nat.sub_0_r. split.
    + cbn [upd_accelerators set_accelerators dev_accelerators].
      rewrite take_map_range_started by lia. by rewrite !app_assoc.
    + intros i a Ha. cbn [upd_accelerators set_accelerators dev_accelerators].
      rewrite map_range_lookup, arr_upd_lookup, map_range_lookup, Ha.
      destruct (decide (i < k)%nat) as [Hi|Hi].
      * rewrite !bool_decide_true by lia. rewrite decide_False by lia. done.
      * rewrite !(bool_decide_false (_ ≤ i < _)%nat), (bool_decide_false (i < k)%nat) by lia.
        repeat case_decide; case_bool_decide; subst; done || lia.
  - split; [done|]. intros i a Ha. cbn [upd_accelerators set_accelerators dev_accelerators].
    rewrite map_range_lookup, Ha. by repeat case_bool_decide; try lia.
Qed.

(** The second of three threads cannot be created. *)
Definition demo_env : kenv :=
  {| ke_kzalloc := true; ke_ioremap := 0; ke_clk_bulk_get_all := 1; ke_reset_control_get := 0;
     ke_platform_get_irq := 1; ke_kthread_run i := if decide (i = 1%nat) then - ENOMEM else 0;
     ke_alloc_chrdev_region := 0; ke_cdev_add := 0; ke_device_create := 0;
     ke_device_create_null := - 19; ke_class_register := 0; ke_driver_register := 0 |}.

Lemma accel_start_workers_all_or_nothing_witness :
  ∃ p', accel_start_workers demo_env 3 {| ps_dev := zero_dev; ps_log := [] |} =
      (Ok (- ENOMEM), p') ∧
    ps_log p' = [KC_kthread_run 0; KC_kthread_stop 0].
Proof.
  destruct (accel_start_workers_all_or_nothing demo_env 3 zero_dev []) as (p' & Hr & Hl & _).
  - cbn. unfold NUM_ACCELERATORS. lia.
  - intros i a _ Ha. change (replicate 3 zero_accel !! i = Some a) in Ha.
    by apply lookup_replicate in Ha as [-> _].
  - exact (ex_intro _ p' (conj Hr Hl)).
Defined.
