(* ===== verification/Worker.v ===== *)
(** * The worker thread: accel_worker_thread in src/accel_manager.c

    One kernel thread per accelerator.  Its body is a machine whose control
    points ([wpc]) are the statements of the C function; [worker_step] runs
    the statement at a control point on the shared device.  A statement under
    [accel->lock] is one step together with its critical section.  The
    environment gives each step the value of [jiffies] and the answer of
    [kthread_should_stop]; [msecs_to_jiffies] is the kernel's. *)

From S2P Require Import Prelude Device.

(** [timeout] and [start] are the locals of the timed branch. *)
Inductive wpc : Type :=
  | W_while                                      (* while (running) *)
  | W_wait                                       (* wait_event_interruptible_timeout *)
  | W_check                                      (* if (!running) break; *)
  | W_lock                                       (* dequeue, under the lock *)
  | W_run (t : nat)                              (* task->state = RUNNING *)
  | W_load_up (t : nat)                          (* load_percent += 10 *)
  | W_timeout (t : nat)                          (* if (task->timeout_ms > 0) *)
  | W_start (t : nat) (timeout : Z)              (* start = jiffies *)
  | W_spin (t : nat) (timeout start : Z)         (* jiffies - start < timeout && *)
  | W_spin_state (t : nat) (timeout start : Z)   (*   task->state == RUNNING *)
  | W_sleep (t : nat) (timeout start : Z)        (* msleep(1) *)
  | W_stop (t : nat) (timeout start : Z)         (* if (kthread_should_stop()) break; *)
  | W_msleep (t : nat)                           (* msleep(10) *)
  | W_stamp (t : nat)                            (* complete_jiffies = jiffies *)
  | W_complete (t : nat)                         (* task->state = COMPLETE *)
  | W_error_code (t : nat)                       (* task->error_code = 0 *)
  | W_load_down (t : nat)                        (* load_percent -= 10 *)
  | W_done (t : nat)                             (* complete_all(&task->done) *)
  | W_unlink (t : nat)                           (* list_del, under the lock *)
  | W_exit.                                      (* return 0 *)

#[export] Instance wpc_eq_dec : EqDecision wpc.
Proof. solve_decision. Defined.

(** The task the worker is processing. *)
Definition wpc_task (pc : wpc) : option nat :=
  match pc with
  | W_while | W_wait | W_check | W_lock | W_exit => None
  | W_run t | W_load_up t | W_timeout t | W_start t _ | W_spin t _ _ | W_spin_state t _ _
  | W_sleep t _ _ | W_stop t _ _ | W_msleep t | W_stamp t | W_complete t | W_error_code t
  | W_load_down t | W_done t | W_unlink t => Some t
  end.

(** [min(100U, load + 10)] and [max(0, (int)load - 10)] *)
Definition load_up (load : Z) : Z := Z.min 100 (u32 (load + 10)).
Definition load_down (load : Z) : Z := Z.max 0 (s32 load - 10).

(** The critical section that takes the head of the queue. *)
Definition dequeue (i : nat) : KM dev (option nat) :=
  a ← get_accel i;
  match a_task_queue a with
  | [] => mret None
  | t :: _ =>
      upd_accel i (λ a, set_a_task_queue (list_del t (a_task_queue a)) a) ;;
      upd_accel i (λ a, set_a_active_tasks (a_active_tasks a ++ [t]) a) ;;
      mret (Some t)
  end.

Section Worker.
Context (msecs_to_jiffies : Z → Z).

Definition worker_step (i : nat) (now : Z) (should_stop : bool) (pc : wpc) : KM dev wpc :=
  match pc with
  | W_while =>
      a ← get_accel i; mret (if a_running a =? 0 then W_exit else W_wait)
  | W_wait => mret W_check
  | W_check =>
      a ← get_accel i; mret (if a_running a =? 0 then W_exit else W_lock)
  | W_lock =>
      r ← dequeue i; mret (match r with Some t => W_run t | None => W_while end)
  | W_run t => upd_task t (set_t_state TASK_STATE_RUNNING) ;; mret (W_load_up t)
  | W_load_up t =>
      upd_accel i (λ a, set_a_load_percent (load_up (a_load_percent a)) a) ;;
      mret (W_timeout t)
  | W_timeout t =>
      tk ← get_task t;
      mret (if 0 <? t_timeout_ms tk then W_start t (msecs_to_jiffies (t_timeout_ms tk))
            else W_msleep t)
  | W_start t timeout => mret (W_spin t timeout now)
  | W_spin t timeout start =>
      mret (if u64 (now - start) <? timeout then W_spin_state t timeout start else W_stamp t)
  | W_spin_state t timeout start =>
      tk ← get_task t;
      mret (if decide (t_state tk = TASK_STATE_RUNNING) then W_sleep t timeout start
            else W_stamp t)
  | W_sleep t timeout start => mret (W_stop t timeout start)
  | W_stop t timeout start => mret (if should_stop then W_stamp t else W_spin t timeout start)
  | W_msleep t => mret (W_stamp t)
  | W_stamp t => upd_task t (set_t_complete_jiffies now) ;; mret (W_complete t)
  | W_complete t => upd_task t (set_t_state TASK_STATE_COMPLETE) ;; mret (W_error_code t)
  | W_error_code t => upd_task t (set_t_error_code 0) ;; mret (W_load_down t)
  | W_load_down t =>
      upd_accel i (λ a, set_a_load_percent (load_down (a_load_percent a)) a) ;;
      mret (W_done t)
  | W_done t => upd_task t (set_t_done true) ;; mret (W_unlink t)
  | W_unlink t =>
      upd_accel i (λ a, set_a_active_tasks (list_del t (a_active_tasks a)) a) ;;
      mret W_while
  | W_exit => mret W_exit
  end.

(** ** Undisturbed runs

    The worker alone on the device.  [tick n pc] is the number of jiffies
    the [n]-th step, at [pc], takes; [stop n] what [kthread_should_stop]
    answers then.  A run carries the (unwrapped) time and the number of
    steps made. *)
Context (tick : nat → wpc → Z) (stop : nat → bool).

Record wstate : Type := { ws_n : nat; ws_now : Z; ws_pc : wpc; ws_dev : dev }.

Definition wnext (i : nat) (s : wstate) : option wstate :=
  match worker_step i (u64 (ws_now s)) (stop (ws_n s)) (ws_pc s) (ws_dev s) with
  | (Ok pc', d') =>
      Some {| ws_n := S (ws_n s); ws_now := ws_now s + tick (ws_n s) (ws_pc s);
              ws_pc := pc'; ws_dev := d' |}
  | _ => None
  end.

Fixpoint wrun (i n : nat) (s : wstate) : option wstate :=
  match n with
  | O => Some s
  | S n' => s' ← wnext i s; wrun i n' s'
  end.

Lemma wrun_app i n m s : wrun i (n + m) s = s' ← wrun i n s; wrun i m s'.
Proof.
  revert s. induction n as [|n IH]; intros s; [done|].
  cbn [Nat.add wrun]. destruct (wnext i s); [apply IH|done].
Qed.
End Worker.

(** ** Bounds of the load estimate *)

Lemma load_up_range l : 0 <= l <= 100 → 0 <= load_up l <= 100.
Proof. intros H. unfold load_up. rewrite u32_id by (unfold is_u32; lia). lia. Qed.

Lemma load_down_range l : 0 <= l <= 100 → 0 <= load_down l <= 100.
Proof. intros H. unfold load_down. rewrite s32_id by (unfold is_s32; lia). lia. Qed.

Lemma load_down_up l : 0 <= l <= 90 → load_down (load_up l) = l.
Proof.
  intros H. unfold load_down, load_up.
  rewrite u32_id by (unfold is_u32; lia). rewrite s32_id by (unfold is_s32; lia). lia.
Qed.

#[export] Hint Resolve load_up_range load_down_range : cortex.

(** ** Steps *)

(** The accelerator once [t] moved from its queue to its active list. *)
Definition take_head (t : nat) (a : accel) : accel :=
  set_a_active_tasks (a_active_tasks a ++ [t])
    (set_a_task_queue (list_del t (a_task_queue a)) a).

Lemma dequeue_run i d a :
  dev_accelerators d !! i = Some a →
  dequeue i d =
  match a_task_queue a with
  | [] => (Ok None, d)
  | t :: _ => (Ok (Some t), upd_accelerators (arr_upd i (take_head t)) d)
  end.
Proof.
  intros Ha. unfold dequeue, get_accel, mbind, KM_bind, arr_get. rewrite Ha.
  destruct (a_task_queue a) as [|t q] eqn:Hq; [done|].
  rewrite (upd_accel_run i _ _ a) by done.
  rewrite (upd_accel_run i _ _ (set_a_task_queue (list_del t (a_task_queue a)) a))
    by (cbn; by rewrite arr_upd_same, Ha).
  cbn -[upd_accelerators]. rewrite upd_accelerators_compose.
  by rewrite (upd_accelerators_ext _ (arr_upd i (take_head t))) by apply arr_upd_compose.
Qed.

Lemma wrun_S m2j tick stop i n s pc' d' :
  worker_step m2j i (u64 (ws_now s)) (stop (ws_n s)) (ws_pc s) (ws_dev s) = (Ok pc', d') →
  wrun m2j tick stop i (S n) s =
  wrun m2j tick stop i n
    {| ws_n := S (ws_n s); ws_now := ws_now s + tick (ws_n s) (ws_pc s);
       ws_pc := pc'; ws_dev := d' |}.
Proof. intros E. cbn [wrun]. unfold wnext. by rewrite E. Qed.

(** One step of a run whose next statement is [pc]; the accesses it makes are
    found by the hypotheses named. *)
Ltac wstep :=
  erewrite wrun_S;
  [ | cbn [ws_n ws_now ws_pc ws_dev worker_step]; unfold mbind, KM_bind, mret, KM_ret;
      first
        [ reflexivity
        | erewrite upd_task_run; [reflexivity|lookup_solve]
        | erewrite upd_accel_run; [reflexivity|lookup_solve]
        | erewrite get_task_run; [reflexivity|lookup_solve]
        | erewrite get_accel_run; [reflexivity|lookup_solve]
        ] ];
  cbn [ws_n ws_now ws_pc ws_dev].

(** ** A task from the queue to completion *)

(** The effect on the task, when it completes at time [c]. *)
Definition completed (c : Z) (t : task) : task :=
  set_t_done true (set_t_error_code 0 (set_t_state TASK_STATE_COMPLETE
    (set_t_complete_jiffies (u64 c) t))).

(** The device once the worker of accelerator [i] is busy with [t]. *)
Definition dev_started (i t : nat) (d : dev) : dev :=
  upd_accelerators
    (arr_upd i (λ a, set_a_load_percent (load_up (a_load_percent a))
                       (set_a_active_tasks (a_active_tasks a ++ [t])
                          (set_a_task_queue (list_del t (a_task_queue a)) a))))
    (upd_tasks (arr_upd t (set_t_state TASK_STATE_RUNNING)) d).

(** ... and once it is done with it, at time [c]. *)
Definition dev_finished (i t : nat) (c : Z) (d : dev) : dev :=
  upd_accelerators
    (arr_upd i (λ a, set_a_active_tasks (list_del t (a_active_tasks a))
                       (set_a_load_percent (load_down (a_load_percent a)) a)))
    (upd_tasks (arr_upd t (completed c)) d).

Section Run.
Context (m2j : Z → Z) (tick : nat → wpc → Z) (stop : nat → bool).
Hypothesis tick_range : ∀ n pc, 0 <= tick n pc < 2 ^ 32.
Hypothesis tick_sleep : ∀ n t timeout start, 1 <= tick n (W_sleep t timeout start).
Hypothesis m2j_range : ∀ ms, 0 <= m2j ms < 2 ^ 62.

Local Abbreviation run := (wrun m2j tick stop).

Lemma run_started i n now d a t q tk :
  dev_accelerators d !! i = Some a → a_task_queue a = t :: q →
  dev_tasks d !! t = Some tk →
  ∃ now', now <= now' ∧
    run i 3 {| ws_n := n; ws_now := now; ws_pc := W_lock; ws_dev := d |} =
    Some {| ws_n := n + 3; ws_now := now'; ws_pc := W_timeout t; ws_dev := dev_started i t d |}.
Proof.
  intros Ha Hq Ht.
  eexists. split; cycle 1.
  - erewrite wrun_S; cycle 1.
    { cbn [ws_n ws_now ws_pc ws_dev worker_step]. unfold mbind, KM_bind.
      rewrite (dequeue_run _ _ a), Hq by done. reflexivity. }
    wstep. wstep. cbn [wrun]. do 2 f_equal; [lia|].
    unfold dev_started, upd_accelerators, upd_tasks, set_accelerators, set_tasks. cbn.
    by rewrite !arr_upd_compose.
  - pose proof (tick_range n W_lock). pose proof (tick_range (S n) (W_run t)).
    pose proof (tick_range (S (S n)) (W_load_up t)). lia.
Qed.

(** The timed wait ends: within four steps per remaining jiffy it has seen
    the timeout pass, the task leave RUNNING or the stop request.  Without
    the latter two, the full timeout has passed. *)
Lemma run_spin i d t tk timeout st :
  dev_tasks d !! t = Some tk → timeout < 2 ^ 62 →
  ∀ k n now, k = Z.to_nat (timeout - (now - st)) → st <= now → now - st < 2 ^ 63 →
  ∃ m now', (m ≤ 4 * k + 1)%nat ∧ now <= now' ∧
    run i m {| ws_n := n; ws_now := now; ws_pc := W_spin t timeout (u64 st); ws_dev := d |} =
    Some {| ws_n := n + m; ws_now := now'; ws_pc := W_stamp t; ws_dev := d |} ∧
    ((∀ j, stop j = false) → t_state tk = TASK_STATE_RUNNING → timeout <= now' - st).
Proof.
  intros Ht Hto k. induction k as [k IH] using lt_wf_ind. intros n now -> Hst Hnow.
  assert (Hel : u64 (u64 now - u64 st) = now - st).
  { unfold u64. rewrite <- Zminus_mod. apply Z.mod_small. lia. }
  destruct (Z.ltb_spec (now - st) timeout) as [Hlt|Hge].
  2: { exists 1%nat. eexists. split; [lia|]. split; cycle 1.
       - split; [wstep|].
         + rewrite Hel. rewrite (proj2 (Z.ltb_ge _ _)) by done. cbn [wrun].
           do 2 f_equal. lia.
         + intros _ _. pose proof (tick_range n (W_spin t timeout (u64 st))). lia.
       - pose proof (tick_range n (W_spin t timeout (u64 st))). lia. }
  pose proof (tick_range n (W_spin t timeout (u64 st))).
  pose proof (tick_range (S n) (W_spin_state t timeout (u64 st))).
  pose proof (tick_range (S (S n)) (W_sleep t timeout (u64 st))).
  pose proof (tick_sleep (S (S n)) t timeout (u64 st)).
  pose proof (tick_range (S (S (S n))) (W_stop t timeout (u64 st))).
  destruct (decide (t_state tk = TASK_STATE_RUNNING)) as [Hrun|Hrun].
  2: { exists 2%nat. eexists. split; [lia|]. split; cycle 1.
       - split; [wstep|].
         + rewrite Hel. rewrite (proj2 (Z.ltb_lt _ _)) by done. wstep.
           rewrite decide_False by done. cbn [wrun]. do 2 f_equal. lia.
         + done.
       - lia. }
  destruct (stop (S (S (S n)))) eqn:Hstop.
  { exists 4%nat. eexists. split; [lia|]. split; cycle 1.
    - split; [wstep|].
      + rewrite Hel. rewrite (proj2 (Z.ltb_lt _ _)) by done. wstep.
        rewrite decide_True by done. wstep. wstep. rewrite Hstop. cbn [wrun]. do 2 f_equal. lia.
      + intros Hs. by rewrite Hs in Hstop.
    - lia. }
  set (now1 := now + tick n (W_spin t timeout (u64 st))
                 + tick (S n) (W_spin_state t timeout (u64 st))
                 + tick (S (S n)) (W_sleep t timeout (u64 st))
                 + tick (S (S (S n))) (W_stop t timeout (u64 st))).
  destruct (IH (Z.to_nat (timeout - (now1 - st))) ltac:(lia) (4 + n)%nat now1)
    as (m & now' & Hm & Hnow' & Hrun' & Hfull); [done|lia..|].
  exists (4 + m)%nat, now'. split_and!; [lia..| |done].
  cbn [Nat.add]. wstep. rewrite Hel. rewrite (proj2 (Z.ltb_lt _ _)) by done. wstep.
  rewrite decide_True by done. wstep. wstep. rewrite Hstop.
  etransitivity; [exact Hrun'|]. do 2 f_equal. lia.
Qed.

(** The whole simulated execution, timed or not; the device is untouched. *)
Lemma run_execution i n now d t tk :
  dev_tasks d !! t = Some tk → t_state tk = TASK_STATE_RUNNING →
  ∃ m now', (m ≤ 4 * Z.to_nat (m2j (t_timeout_ms tk)) + 3)%nat ∧ now <= now' ∧
    run i m {| ws_n := n; ws_now := now; ws_pc := W_timeout t; ws_dev := d |} =
    Some {| ws_n := n + m; ws_now := now'; ws_pc := W_stamp t; ws_dev := d |} ∧
    (0 < t_timeout_ms tk → (∀ j, stop j = false) → m2j (t_timeout_ms tk) <= now' - now).
Proof.
  intros Ht Hrun. pose proof (tick_range n (W_timeout t)).
  pose proof (m2j_range (t_timeout_ms tk)).
  destruct (Z.ltb_spec 0 (t_timeout_ms tk)) as [Hpos|Hnp].
  - pose proof (tick_range (S n) (W_start t (m2j (t_timeout_ms tk)))).
    set (st := now + tick n (W_timeout t)).
    set (now1 := st + tick (S n) (W_start t (m2j (t_timeout_ms tk)))).
    destruct (run_spin i d t tk (m2j (t_timeout_ms tk)) st Ht ltac:(lia)
                (Z.to_nat (m2j (t_timeout_ms tk) - (now1 - st))) (2 + n)%nat now1)
      as (m & now' & Hm & Hnow' & Hr & Hfull); [done|lia..|].
    exists (2 + m)%nat, now'. split_and!; [lia|lia| |].
    + cbn [Nat.add]. wstep. rewrite (proj2 (Z.ltb_lt _ _)) by done. wstep.
      etransitivity; [exact Hr|]. do 2 f_equal. lia.
    + intros _ Hs. specialize (Hfull Hs Hrun). lia.
  - pose proof (tick_range (S n) (W_msleep t)).
    exists 2%nat. eexists. split; [lia|]. split; cycle 1.
    + split; [|lia]. wstep. rewrite (proj2 (Z.ltb_ge _ _)) by done. wstep. cbn [wrun].
      do 2 f_equal. lia.
    + lia.
Qed.

Lemma run_finished i n now d a t tk :
  dev_accelerators d !! i = Some a → dev_tasks d !! t = Some tk →
  ∃ now', now <= now' ∧
    run i 6 {| ws_n := n; ws_now := now; ws_pc := W_stamp t; ws_dev := d |} =
    Some {| ws_n := n + 6; ws_now := now'; ws_pc := W_while; ws_dev := dev_finished i t now d |}.
Proof.
  intros Ha Ht. eexists. split; cycle 1.
  - do 6 wstep. cbn [wrun]. do 2 f_equal; [lia|].
    unfold dev_finished, upd_accelerators, upd_tasks, set_accelerators, set_tasks. cbn.
    by rewrite !arr_upd_compose.
  - pose proof (tick_range n (W_stamp t)). pose proof (tick_range (S n) (W_complete t)).
    pose proof (tick_range (2 + n) (W_error_code t)).
    pose proof (tick_range (3 + n) (W_load_down t)).
    pose proof (tick_range (4 + n) (W_done t)). pose proof (tick_range (5 + n) (W_unlink t)).
    cbn [Nat.add] in *. lia.
Qed.

Lemma completes_head i n now d a t q tk :
  dev_accelerators d !! i = Some a → a_task_queue a = t :: q → t ∉ q →
  a_active_tasks a = [] → 0 <= a_load_percent a <= 90 →
  dev_tasks d !! t = Some tk →
  ∃ m now' c, (m ≤ 4 * Z.to_nat (m2j (t_timeout_ms tk)) + 12)%nat ∧
    now <= c <= now' ∧
    (0 < t_timeout_ms tk → (∀ j, stop j = false) → now + m2j (t_timeout_ms tk) <= c) ∧
    run i m {| ws_n := n; ws_now := now; ws_pc := W_lock; ws_dev := d |} =
    Some {| ws_n := n + m; ws_now := now'; ws_pc := W_while;
            ws_dev := upd_accelerators (arr_upd i (set_a_task_queue q))
                        (upd_tasks (arr_upd t (completed c)) d) |}.
Proof.
  intros Ha Hq Htq Hact Hload Ht.
  destruct (run_started i n now d a t q tk) as (now1 & Hn1 & H1); [done..|].
  set (tk' := set_t_state TASK_STATE_RUNNING tk).
  set (d1 := dev_started i t d) in *.
  assert (Ht1 : dev_tasks d1 !! t = Some tk') by (unfold d1, dev_started; lookup_solve).
  destruct (run_execution i (n + 3) now1 d1 t tk') as (m & c & Hm & Hc & H2 & Hfull); [done..|].
  assert (∃ a1, dev_accelerators d1 !! i = Some a1) as [a1 Ha1].
  { unfold d1, dev_started. cbn. rewrite arr_upd_same, Ha. by eexists. }
  destruct (run_finished i (n + 3 + m) c d1 a1 t tk') as (now' & Hn' & H3); [done..|].
  exists (3 + (m + 6))%nat, now', c. split_and!; [cbn in Hm; lia..| |].
  { intros Hpos Hs. specialize (Hfull Hpos Hs). cbn in Hfull. lia. }
  rewrite wrun_app, H1. cbn [mbind option_bind]. rewrite wrun_app, H2.
  cbn [mbind option_bind]. rewrite H3. do 2 f_equal; [lia|].
  unfold d1, dev_finished, dev_started, upd_accelerators, upd_tasks, set_accelerators, set_tasks.
  cbn -[arr_upd]. rewrite !arr_upd_compose.
  rewrite (arr_upd_ext i _ (set_a_task_queue q) _ a).
  - by rewrite (arr_upd_ext t _ (completed c) _ tk).
  - exact Ha.
  - unfold compose. cbn. rewrite Hact, Hq, list_del_head, load_down_up by done. cbn [app].
    rewrite list_del_head by set_solver. unfold set_a_active_tasks, set_a_task_queue. cbn.
    by rewrite Hact.
Qed.

(** A worker that finds work always finishes it.  Whatever the state of
    the task at the head of the queue (cancelled included), an undisturbed
    worker at its dequeue point comes back to its loop head within
    [4 * timeout + 12] steps; the task is then COMPLETE with error code 0 and
    its completion signalled, is off every list of the accelerator, the rest
    of the queue is unchanged, the load estimate is back to its value (below
    the cap) and no other task was touched.  Unless the worker was told to
    stop, a task with a timeout occupies it for the full timeout. *)
Theorem worker_completes_head i n now d a t q tk :
  dev_accelerators d !! i = Some a → a_task_queue a = t :: q → t ∉ q →
  a_active_tasks a = [] → 0 <= a_load_percent a <= 90 →
  dev_tasks d !! t = Some tk →
  ∃ m now' c, (m ≤ 4 * Z.to_nat (m2j (t_timeout_ms tk)) + 12)%nat ∧
    now <= c <= now' ∧
    (0 < t_timeout_ms tk → (∀ j, stop j = false) → now + m2j (t_timeout_ms tk) <= c) ∧
    run i m {| ws_n := n; ws_now := now; ws_pc := W_lock; ws_dev := d |} =
    Some {| ws_n := n + m; ws_now := now'; ws_pc := W_while;
            ws_dev := upd_accelerators (arr_upd i (set_a_task_queue q))
                        (upd_tasks (arr_upd t (completed c)) d) |}.
Proof. apply completes_head. Qed.
End Run.

(** Slot 0, cancelled while queued, with a timeout of 8 ms. *)
Definition demo_queue_dev : dev :=
  upd_accelerators (arr_upd 0 (set_a_task_queue [0%nat]))
    (upd_tasks (arr_upd 0 (λ _, Build_task 1 TASK_STATE_CANCELLED 0 0 0 0 0 0 8 5 0 (- ECANCELED) true))
       zero_dev).

Lemma worker_completes_head_witness :
  ∃ m now' c d',
    wrun (λ _, 2) (λ _ _, 1) (λ _, false) 0 m
      {| ws_n := 0; ws_now := 100; ws_pc := W_lock; ws_dev := demo_queue_dev |} =
    Some {| ws_n := 0 + m; ws_now := now'; ws_pc := W_while; ws_dev := d' |} ∧ 102 <= c <= now'.
Proof.
  destruct (worker_completes_head (λ _, 2) (λ _ _, 1) (λ _, false) ltac:(lia) ltac:(lia)
    ltac:(lia) 0 0 100 demo_queue_dev (set_a_task_queue [0%nat] zero_accel) 0 []
    (Build_task 1 TASK_STATE_CANCELLED 0 0 0 0 0 0 8 5 0 (- ECANCELED) true))
    as (m & now' & c & _ & Hc & Hfull & Hr).
  - vm_compute. reflexivity.
  - reflexivity.
  - by intros ?%not_elem_of_nil.
  - reflexivity.
  - cbn. lia.
  - vm_compute. reflexivity.
  - cbn [t_timeout_ms] in Hfull. specialize (Hfull ltac:(lia) ltac:(reflexivity)).
    assert (Hc' : 102 <= c <= now') by lia.
    exact (ex_intro _ m (ex_intro _ now' (ex_intro _ c (ex_intro _ _ (conj Hr Hc'))))).
Defined.
