(* ===== verification/DevInit.v ===== *)
(** * The device before its first request

    The part of cortex_forge_probe (src/main.c) that initialises the device
    structure: its counters, the task pool and the accelerators. *)

From S2P Require Import Prelude Device TaskManager Pool AccelManager.

Local Open Scope string_scope.

Definition dev_init : KM dev unit :=
  modify (set_free_tasks []) ;;
  modify (set_next_task_id 0) ;;
  task_pool_init ;;
  upd_accel 0 (accel_init ACCEL_TYPE_DLA0 "nvdla0") ;;
  upd_accel 1 (accel_init ACCEL_TYPE_DLA1 "nvdla1") ;;
  upd_accel 2 (accel_init ACCEL_TYPE_PVA0 "pva0").

(** A device as probe leaves it and every operation keeps it. *)
Record dev_ok (d : dev) : Prop := {
  dok_pool : pool_inv d;
  dok_accounted : accounted d;
  dok_accels : length (dev_accelerators d) = NUM_ACCELERATORS;
}.
#[export] Hint Resolve dok_pool dok_accounted dok_accels : cortex.


(** The device [probe] builds from the zeroed allocation. *)
Definition boot_dev : dev := (dev_init zero_dev).2.

(** The initialised accelerators. *)
Definition boot_accels : list accel :=
  [accel_init ACCEL_TYPE_DLA0 "nvdla0" zero_accel;
   accel_init ACCEL_TYPE_DLA1 "nvdla1" zero_accel;
   accel_init ACCEL_TYPE_PVA0 "pva0" zero_accel].

Lemma dev_init_run :
  dev_init zero_dev = (Ok (), boot_dev).
Proof. by vm_compute. Qed.

Lemma boot_dev_accels : dev_accelerators boot_dev = boot_accels.
Proof. by vm_compute. Qed.

Lemma boot_dev_free : dev_free_tasks boot_dev = seq 0 MAX_TASKS.
Proof. by vm_compute. Qed.

Lemma boot_dev_tasks : dev_tasks boot_dev = replicate MAX_TASKS zero_task.
Proof. by vm_compute. Qed.

Lemma boot_dev_next : dev_next_task_id boot_dev = 0.
Proof. by vm_compute. Qed.

Lemma zero_dev_tasks : length (dev_tasks zero_dev) = MAX_TASKS.
Proof. reflexivity. Qed.

Lemma pool_inv_same d d' :
  dev_tasks d' = dev_tasks d → dev_free_tasks d' = dev_free_tasks d →
  dev_next_task_id d' = dev_next_task_id d →
  pool_inv d ∧ accounted d → pool_inv d' ∧ accounted d'.
Proof.
  intros Ht Hf Hn [[] Hacc]. unfold accounted in *.
  split; [split|]; rewrite ?Ht, ?Hf, ?Hn; auto.
Qed.

Lemma boot_pool : pool_inv boot_dev ∧ accounted boot_dev.
Proof.
  apply (pool_inv_same (task_pool_init zero_dev).2); [by vm_compute..|].
  apply (task_pool_init_inv zero_dev); [apply zero_dev_tasks|reflexivity..| |].
  - apply Forall_replicate. reflexivity.
  - rewrite (task_pool_init_run zero_dev zero_dev_tasks). reflexivity.
Qed.

Lemma boot_dev_ok : dev_ok boot_dev.
Proof. destruct boot_pool. split; [done..|]. by rewrite boot_dev_accels. Qed.
