(* ===== verification/Chardev.v ===== *)
(** * The character device: src/chardev.c

    The ioctl handler, one definition per [case] of its [switch].  [uarg] is
    the user address carried by the argument; [HZ] the kernel's tick rate.
    Log messages ([dev_info]) are not modelled. *)

From S2P Require Import Prelude CLayout Device UserMem Uapi TaskManager Pool AccelManager DevInit.

Section Chardev.
Context {U : Type} `{UserMemory U}.
Context (HZ : Z).

(** [if (copy_to_user(uarg, &v, sizeof v)) return -EFAULT; return 0;] *)
Definition copy_out_or_fault {A} `{Repr A} (uarg : Z) (v : A) : KM (world U) Z :=
  r ← copy_out uarg v;
  return_if (negb (r =? 0)) (- EFAULT) ;;
  mret 0.

(** The assignments of the descriptor's fields to the allocated task. *)
Definition fill_task (desc : task_desc) (t : task) : task :=
  {| t_id := t_id t;
     t_state := t_state t;
     t_accel_type := d_accel_type desc;
     t_priority := d_priority desc;
     t_input_addr := d_input_addr desc;
     t_input_size := d_input_size desc;
     t_output_addr := d_output_addr desc;
     t_output_size := d_output_size desc;
     t_timeout_ms := d_timeout_ms desc;
     t_submit_jiffies := t_submit_jiffies t;
     t_complete_jiffies := t_complete_jiffies t;
     t_error_code := t_error_code t;
     t_done := t_done t |}.

Definition set_d_task_id (v : Z) (desc : task_desc) : task_desc :=
  {| d_task_id := v;
     d_accel_type := d_accel_type desc;
     d_priority := d_priority desc;
     d_input_size := d_input_size desc;
     d_output_size := d_output_size desc;
     d_pad := d_pad desc;
     d_input_addr := d_input_addr desc;
     d_output_addr := d_output_addr desc;
     d_timeout_ms := d_timeout_ms desc;
     d_flags := d_flags desc;
     d_reserved := d_reserved desc |}.

Definition ioctl_submit_task (uarg : Z) : KM (world U) Z :=
  desc ← copy_in task_desc uarg;
  return_if (Z.of_nat NUM_ACCELERATORS <=? d_accel_type desc) (- EINVAL) ;;
  return_if (negb (d_flags desc =? 0)) (- EINVAL) ;;
  return_if (64 * 1024 * 1024 <? d_input_size desc) (- E2BIG) ;;
  return_if (64 * 1024 * 1024 <? d_output_size desc) (- E2BIG) ;;
  r ← on_dev task_alloc;
  match r with
  | None => return_ (- ENOMEM)
  | Some task =>
      on_dev (upd_task task (fill_task desc)) ;;
      now ← gets w_jiffies;
      ret ← on_dev (task_submit now task (Z.to_nat (d_accel_type desc)));
      (if negb (ret =? 0) then on_dev (task_free task) ;; return_ ret else mret ()) ;;
      t ← on_dev (get_task task);
      copy_out_or_fault uarg (set_d_task_id (t_id t) desc)
  end.

Definition ioctl_query_task (uarg : Z) : KM (world U) Z :=
  status ← copy_in task_status uarg;
  task_query HZ (s_task_id status) uarg.

Definition ioctl_cancel_task (uarg : Z) : KM (world U) Z :=
  task_id ← copy_in Z uarg;
  on_dev (task_cancel task_id).

Definition ioctl_get_accel_info (uarg : Z) : KM (world U) Z :=
  info ← copy_in accel_info uarg;
  return_if (Z.of_nat NUM_ACCELERATORS <=? i_accel_type info) (- EINVAL) ;;
  a ← on_dev (get_accel (Z.to_nat (i_accel_type info)));
  copy_out_or_fault uarg (accel_get_info a info).

Definition ioctl_set_power (uarg : Z) : KM (world U) Z :=
  mode ← copy_in Z uarg;
  return_if (2 <? mode) (- EINVAL) ;;
  mret 0.

Definition ioctl_get_version (uarg : Z) : KM (world U) Z :=
  copy_out_or_fault uarg 0x00010000.

Definition profile : profile_metrics :=
  {| p_compute_us := 1000;
     p_memory_us := 500;
     p_storage_us := 200;
     p_network_us := 300;
     p_thermal_celsius := 45;
     p_power_mw := 15000;
     p_reserved := (0, 0, 0, 0) |}.

Definition ioctl_get_profile (uarg : Z) : KM (world U) Z :=
  copy_out_or_fault uarg profile.

Definition ioctl_set_accel (uarg : Z) : KM (world U) Z :=
  accel ← copy_in Z uarg;
  return_if (4 <? accel) (- EINVAL) ;;
  mret 0.

Definition cortex_forge_ioctl (cmd uarg : Z) : KM (world U) Z :=
  call (
    if cmd =? CORTEX_FORGE_IOCTL_SUBMIT_TASK then ioctl_submit_task uarg
    else if cmd =? CORTEX_FORGE_IOCTL_QUERY_TASK then ioctl_query_task uarg
    else if cmd =? CORTEX_FORGE_IOCTL_CANCEL_TASK then ioctl_cancel_task uarg
    else if cmd =? CORTEX_FORGE_IOCTL_GET_ACCEL_INFO then ioctl_get_accel_info uarg
    else if cmd =? CORTEX_FORGE_IOCTL_SET_POWER then ioctl_set_power uarg
    else if cmd =? CORTEX_FORGE_IOCTL_GET_VERSION then ioctl_get_version uarg
    else if cmd =? CORTEX_FORGE_IOCTL_GET_PROFILE then ioctl_get_profile uarg
    else if cmd =? CORTEX_FORGE_IOCTL_SET_ACCEL then ioctl_set_accel uarg
    else return_ (- ENOTTY)).

(** [open] and [release] keep no state of their own. *)
Definition cortex_forge_open : KM (world U) Z := mret 0.
Definition cortex_forge_release : KM (world U) Z := mret 0.
End Chardev.

Arguments fill_task : simpl never.

(** ** What each request does *)

(** The task of an accepted submission. *)
Definition new_task (id now : Z) (desc : task_desc) : task :=
  set_t_submit_jiffies now (set_t_state TASK_STATE_PENDING (fill_task desc (fresh_task id))).

Definition enqueue (i : nat) (a : accel) : accel := set_a_task_queue (a_task_queue a ++ [i]) a.

(** The device after slot [i] was allocated, filled and queued. *)
Definition submitted (i : nat) (now : Z) (desc : task_desc) (d : dev) : dev :=
  upd_accelerators (arr_upd (Z.to_nat (d_accel_type desc)) (enqueue i))
    (upd_tasks (arr_upd i (λ _, new_task (dev_next_task_id d + 1) now desc)) (alloc_dev i d)).

(** The checks on the descriptor, in order. *)
Definition submit_error (desc : task_desc) : option Z :=
  if 3 <=? d_accel_type desc then Some (- EINVAL)
  else if negb (d_flags desc =? 0) then Some (- EINVAL)
  else if 64 * 1024 * 1024 <? d_input_size desc then Some (- E2BIG)
  else if 64 * 1024 * 1024 <? d_output_size desc then Some (- E2BIG)
  else None.

(** The effect a request can have on the device. *)
Inductive dev_effect (now : Z) (d : dev) : dev → Prop :=
  | eff_none : dev_effect now d d
  | eff_submit i l desc :
      dev_free_tasks d = i :: l → 0 <= d_accel_type desc < 3 → submit_error desc = None →
      dev_effect now d (submitted i now desc d)
  | eff_cancel id i t :
      find_task id d = Some (i, t) → dev_effect now d (upd_tasks (arr_upd i cancelled) d).

(** Everything the handler returns. *)
Definition ioctl_codes : list Z :=
  [0; - EFAULT; - EINVAL; - E2BIG; - ENOMEM; - ENOENT; - ENOTTY].

Section ChardevSpec.
Context {U : Type} `{UserMemoryLaws U}.
Context (HZ : Z).
Implicit Types (w : world U).

Lemma copy_out_or_fault_run {A} `{Repr A} uarg (v : A) w :
  copy_out_or_fault uarg v w =
  let '(r, u) := copy_to_user (w_user w) uarg (encode v) in
  (if r =? 0 then Ok 0 else Ret (- EFAULT), set_w_user u w).
Proof.
  unfold copy_out_or_fault, copy_out. km_unfold. destruct (copy_to_user _ _ _) as [r u].
  by destruct (r =? 0).
Qed.

Lemma fill_and_submit i l now desc d :
  dev_ok d → dev_free_tasks d = i :: l → 0 <= d_accel_type desc < 3 →
  ∃ d2, upd_task i (fill_task desc) (alloc_dev i d) = (Ok (), d2) ∧
    task_submit now i (Z.to_nat (d_accel_type desc)) d2 = (Ok 0, submitted i now desc d) ∧
    get_task i (submitted i now desc d) =
    (Ok (new_task (dev_next_task_id d + 1) now desc), submitted i now desc d).
Proof.
  intros [Hp Hacc Hlen] Hf Hty.
  destruct (pool_inv_head i l d Hp Hf) as (_ & _ & _ & t & Ht & _).
  destruct (lookup_lt_is_Some_2 (dev_accelerators d) (Z.to_nat (d_accel_type desc))) as [a Ha].
  { rewrite Hlen. unfold NUM_ACCELERATORS. lia. }
  eexists. split; [|split].
  - eapply upd_task_run. cbn. rewrite arr_upd_same, Ht. reflexivity.
  - erewrite task_submit_run; [|cbn; by rewrite !arr_upd_same, Ht|cbn; exact Ha].
    unfold fill_task at 1. cbn [t_accel_type]. change (Z.of_nat NUM_ACCELERATORS) with 3.
    rewrite (proj2 (Z.leb_gt _ _)) by lia. f_equal.
    unfold submitted, upd_accelerators, upd_tasks, set_accelerators, set_tasks. cbn.
    by rewrite !arr_upd_compose.
  - apply get_task_run. cbn. by rewrite !arr_upd_same, Ht.
Qed.

(** The submission proper, from allocation to the copy back. *)
Lemma submit_accepted_run uarg desc w :
  dev_ok (w_dev w) → 0 <= d_accel_type desc → submit_error desc = None →
  copy_in task_desc uarg w = (Ok desc, w) →
  ioctl_submit_task uarg w =
  match dev_free_tasks (w_dev w) with
  | [] => (Ret (- ENOMEM), w)
  | i :: _ =>
      copy_out_or_fault uarg (set_d_task_id (dev_next_task_id (w_dev w) + 1) desc)
        (set_w_dev (submitted i (w_jiffies w) desc (w_dev w)) w)
  end.
Proof.
  intros Hok Hty Herr Hin. pose proof Hok as [Hp Hacc Hlen].
  unfold submit_error in Herr.
  destruct (Z.leb_spec 3 (d_accel_type desc)) as [|E1]; [done|].
  destruct (d_flags desc =? 0) eqn:E2; [|done].
  destruct (64 * 1024 * 1024 <? d_input_size desc) eqn:E3; [done|].
  destruct (64 * 1024 * 1024 <? d_output_size desc) eqn:E4; [done|].
  unfold ioctl_submit_task, return_if, gets, mbind, KM_bind. rewrite Hin.
  change (Z.of_nat NUM_ACCELERATORS) with 3. rewrite (proj2 (Z.leb_gt _ _)), E2, E3, E4 by lia.
  cbn [negb]. unfold mret, KM_ret. pose proof (accounted_next _ Hacc Hp).
  pose proof (task_alloc_ok _ Hp ltac:(lia)) as Halloc.
  destruct (dev_free_tasks (w_dev w)) as [|i l] eqn:Hf; rewrite (on_dev_run _ _ _ _ Halloc).
  { by rewrite set_w_dev_id. }
  destruct (fill_and_submit i l (w_jiffies w) desc (w_dev w)) as (d2 & Hfill & Hsub & Hget);
    [done..|].
  cbn beta iota. rewrite (on_dev_run _ (set_w_dev _ w) _ _ Hfill). cbn beta iota. cbn [w_jiffies set_w_dev].
  rewrite (on_dev_run _ (set_w_dev d2 _) _ _ Hsub). cbn beta iota. cbn [Z.eqb negb].
  by rewrite (on_dev_run _ (set_w_dev (submitted i _ desc _) _) _ _ Hget).
Qed.

(** *** Invariant *)

Lemma dev_ok_submitted i l now desc d :
  dev_ok d → dev_free_tasks d = i :: l → dev_ok (submitted i now desc d).
Proof.
  intros [Hp Hacc Hlen] Hf. unfold submitted.
  destruct (pool_inv_head i l d Hp Hf) as (_ & Hdel & Hil & t & Ht & _). split.
  - apply pool_inv_upd_accelerators.
    assert (Heq : upd_tasks (arr_upd i (λ _, new_task (dev_next_task_id d + 1) now desc))
                    (alloc_dev i d) =
                  upd_tasks (arr_upd i (set_t_submit_jiffies now ∘
                    set_t_state TASK_STATE_PENDING ∘ fill_task desc)) (alloc_dev i d)).
    { unfold upd_tasks. f_equal. eapply arr_upd_ext; [cbn; by rewrite arr_upd_same, Ht|].
      done. }
    rewrite Heq. apply pool_inv_upd_live; [done| |by eapply pool_inv_alloc].
    cbn. by rewrite Hdel.
  - apply accounted_upd_accelerators. by apply (accounted_alloc i l).
  - cbn. by rewrite arr_upd_length.
Qed.

Lemma dev_ok_cancelled i id t d :
  dev_ok d → find_task id d = Some (i, t) → dev_ok (upd_tasks (arr_upd i cancelled) d).
Proof.
  intros [Hp Hacc Hlen] (Ht & _ & Hst)%find_task_Some. split; [|done..].
  apply pool_inv_upd_live; [done| |done]. intros Hf. apply Hst. by apply (pi_free d Hp i).
Qed.

(** *** The requests, each on every branch *)

Local Abbreviation ioctl := (cortex_forge_ioctl HZ).

(** A request whose handler starts with [copy_from_user] of an [A]. *)
Lemma with_copy_in (A : Type) `{ReprLaws A} uarg w (k : A → KM (world U) Z) :
  match copy_from_user (w_user w) uarg (sizeof lp64 (decl A)) with
  | None => call (v ← copy_in A uarg; k v) w = (Ok (- EFAULT), w)
  | Some bs => ∃ v : A, encode v = bs ∧ representable v ∧
      copy_in A uarg w = (Ok v, w) ∧ call (v ← copy_in A uarg; k v) w = call (k v) w
  end.
Proof.
  pose proof (copy_in_run (A := A) uarg w) as Hin. unfold call, mbind, KM_bind.
  destruct (copy_from_user _ _ _) as [bs|]; [|by rewrite Hin].
  destruct Hin as (v & _ & He & Hr & Hin). exists v. by rewrite Hin.
Qed.

Lemma ioctl_submit_run uarg w :
  dev_ok (w_dev w) →
  match copy_from_user (w_user w) uarg (sizeof lp64 task_desc_decl) with
  | None => ioctl CORTEX_FORGE_IOCTL_SUBMIT_TASK uarg w = (Ok (- EFAULT), w)
  | Some bs => ∃ desc : task_desc, encode desc = bs ∧ representable desc ∧
      ioctl CORTEX_FORGE_IOCTL_SUBMIT_TASK uarg w =
      match submit_error desc, dev_free_tasks (w_dev w) with
      | Some e, _ => (Ok e, w)
      | None, [] => (Ok (- ENOMEM), w)
      | None, i :: _ =>
          let '(r, u) := copy_to_user (w_user w) uarg
            (encode (set_d_task_id (dev_next_task_id (w_dev w) + 1) desc)) in
          (Ok (if r =? 0 then 0 else - EFAULT),
           set_w_user u (set_w_dev (submitted i (w_jiffies w) desc (w_dev w)) w))
      end
  end.
Proof.
  intros Hok. change (ioctl CORTEX_FORGE_IOCTL_SUBMIT_TASK uarg) with (call (ioctl_submit_task uarg)).
  pose proof (copy_in_run (A := task_desc) uarg w) as Hin. cbn [decl task_desc_repr] in Hin.
  destruct (copy_from_user _ _ _) as [bs|].
  2: { unfold call, ioctl_submit_task, mbind, KM_bind. by rewrite Hin. }
  destruct Hin as (desc & _ & He & Hr & Hin). exists desc. split_and!; [done..|].
  pose proof (task_desc_range desc Hr) as (_ & Hty & _). unfold is_u32 in Hty.
  destruct (submit_error desc) as [e|] eqn:Herr.
  - unfold call, ioctl_submit_task, return_if, mbind, KM_bind. rewrite Hin.
    unfold submit_error in Herr. change (Z.of_nat NUM_ACCELERATORS) with 3.
    destruct (3 <=? d_accel_type desc); [by injection Herr as <-|].
    destruct (d_flags desc =? 0); cbn [negb] in *; [|by injection Herr as <-].
    destruct (64 * 1024 * 1024 <? d_input_size desc); [by injection Herr as <-|].
    destruct (64 * 1024 * 1024 <? d_output_size desc); [by injection Herr as <-|done].
  - unfold call. rewrite (submit_accepted_run uarg desc) by (done || lia).
    destruct (dev_free_tasks (w_dev w)) as [|i l]; [done|].
    rewrite copy_out_or_fault_run. cbn [w_user set_w_dev].
    destruct (copy_to_user _ _ _) as [r u]. by destruct (r =? 0).
Qed.

Lemma ioctl_query_run uarg w :
  dev_ok (w_dev w) →
  match copy_from_user (w_user w) uarg (sizeof lp64 task_status_decl) with
  | None => ioctl CORTEX_FORGE_IOCTL_QUERY_TASK uarg w = (Ok (- EFAULT), w)
  | Some bs => ∃ st : task_status, encode st = bs ∧ representable st ∧
      ioctl CORTEX_FORGE_IOCTL_QUERY_TASK uarg w =
      match find_task (s_task_id st) (w_dev w) with
      | None => (Ok (- ENOENT), w)
      | Some (_, t) =>
          let '(r, u) := copy_to_user (w_user w) uarg (encode (status_of HZ t)) in
          (Ok (if r =? 0 then 0 else - EFAULT), set_w_user u w)
      end
  end.
Proof.
  intros Hok. change (ioctl CORTEX_FORGE_IOCTL_QUERY_TASK uarg)
    with (call (ioctl_query_task HZ uarg)).
  pose proof (with_copy_in task_status uarg w (λ st, task_query HZ (s_task_id st) uarg)) as Hin.
  cbn [decl task_status_repr] in Hin.
  destruct (copy_from_user _ _ _) as [bs|]; [|exact Hin].
  destruct Hin as (st & He & Hr & _ & Hcall). exists st. split_and!; [done..|].
  etransitivity; [exact Hcall|]. unfold call. rewrite task_query_run by auto with cortex.
  destruct (find_task _ _) as [[i t]|]; [|done]. by destruct (copy_to_user _ _ _).
Qed.

Lemma ioctl_cancel_run uarg w :
  dev_ok (w_dev w) →
  match copy_from_user (w_user w) uarg 4 with
  | None => ioctl CORTEX_FORGE_IOCTL_CANCEL_TASK uarg w = (Ok (- EFAULT), w)
  | Some bs => ∃ id : Z, encode id = bs ∧ representable id ∧
      ioctl CORTEX_FORGE_IOCTL_CANCEL_TASK uarg w =
      match find_task id (w_dev w) with
      | None => (Ok (- ENOENT), w)
      | Some (i, _) => (Ok 0, set_w_dev (upd_tasks (arr_upd i cancelled) (w_dev w)) w)
      end
  end.
Proof.
  intros Hok. change (ioctl CORTEX_FORGE_IOCTL_CANCEL_TASK uarg)
    with (call (ioctl_cancel_task uarg)).
  pose proof (with_copy_in Z uarg w (λ id, on_dev (task_cancel id))) as Hin.
  change (sizeof lp64 (decl Z)) with 4%nat in Hin.
  destruct (copy_from_user _ _ _) as [bs|]; [|exact Hin].
  destruct Hin as (id & He & Hr & _ & Hcall). exists id. split_and!; [done..|].
  etransitivity; [exact Hcall|]. unfold call, on_dev, zoom.
  rewrite task_cancel_run by auto with cortex.
  destruct (find_task _ _) as [[i t]|]; [done|]. by rewrite set_w_dev_id.
Qed.

Lemma ioctl_get_accel_info_run uarg w :
  dev_ok (w_dev w) →
  match copy_from_user (w_user w) uarg (sizeof lp64 accel_info_decl) with
  | None => ioctl CORTEX_FORGE_IOCTL_GET_ACCEL_INFO uarg w = (Ok (- EFAULT), w)
  | Some bs => ∃ info : accel_info, encode info = bs ∧ representable info ∧
      ioctl CORTEX_FORGE_IOCTL_GET_ACCEL_INFO uarg w =
      match dev_accelerators (w_dev w) !! Z.to_nat (i_accel_type info) with
      | None => (Ok (- EINVAL), w)
      | Some a =>
          let '(r, u) := copy_to_user (w_user w) uarg (encode (accel_get_info a info)) in
          (Ok (if r =? 0 then 0 else - EFAULT), set_w_user u w)
      end
  end.
Proof.
  intros Hok. change (ioctl CORTEX_FORGE_IOCTL_GET_ACCEL_INFO uarg)
    with (call (ioctl_get_accel_info uarg)).
  pose proof (copy_in_run (A := accel_info) uarg w) as Hin. cbn [decl accel_info_repr] in Hin.
  unfold call, ioctl_get_accel_info, return_if, mbind, KM_bind.
  destruct (copy_from_user _ _ _) as [bs|]; [|by rewrite Hin].
  destruct Hin as (info & _ & He & Hr & Hin). exists info. split_and!; [done..|]. rewrite Hin.
  pose proof (accel_info_type_range info Hr) as Hty. unfold is_u32 in Hty.
  change (Z.of_nat NUM_ACCELERATORS) with 3.
  destruct (dev_accelerators (w_dev w) !! Z.to_nat (i_accel_type info)) as [a|] eqn:Ha.
  - pose proof (lookup_lt_Some _ _ _ Ha) as Hlt.
    rewrite (dok_accels _ Hok) in Hlt. unfold NUM_ACCELERATORS in Hlt.
    rewrite (proj2 (Z.leb_gt _ _)) by lia. unfold mret, KM_ret.
    rewrite (on_dev_run _ w _ _ (get_accel_run _ _ _ Ha)). cbn beta iota.
    rewrite copy_out_or_fault_run, set_w_dev_id.
    destruct (copy_to_user _ _ _) as [r u]. by destruct (r =? 0).
  - apply lookup_ge_None in Ha. rewrite (dok_accels _ Hok) in Ha. unfold NUM_ACCELERATORS in Ha.
    by rewrite (proj2 (Z.leb_le _ _)) by lia.
Qed.

(** The two requests that only check a [u32] argument. *)
Lemma ioctl_checked_u32_run (cmd bound uarg : Z) w :
  (cmd = CORTEX_FORGE_IOCTL_SET_POWER ∧ bound = 2) ∨
  (cmd = CORTEX_FORGE_IOCTL_SET_ACCEL ∧ bound = 4) →
  match copy_from_user (w_user w) uarg 4 with
  | None => ioctl cmd uarg w = (Ok (- EFAULT), w)
  | Some bs => ∃ v : Z, encode v = bs ∧ representable v ∧
      ioctl cmd uarg w = (Ok (if bound <? v then - EINVAL else 0), w)
  end.
Proof.
  intros Hc.
  assert (Hd : ioctl cmd uarg w =
    call (v ← copy_in Z uarg; return_if (bound <? v) (- EINVAL) ;; mret 0) w)
    by (destruct Hc as [[-> ->]|[-> ->]]; reflexivity).
  rewrite Hd.
  pose proof (with_copy_in Z uarg w (λ v, return_if (bound <? v) (- EINVAL) ;; mret 0)) as Hin.
  change (sizeof lp64 (decl Z)) with 4%nat in Hin.
  destruct (copy_from_user _ _ _) as [bs|]; [|exact Hin].
  destruct Hin as (v & He & Hr & _ & Hcall). exists v. split_and!; [done..|].
  etransitivity; [exact Hcall|]. unfold call, return_if, mbind, KM_bind.
  by destruct (bound <? v).
Qed.

(** The two requests that only report a constant. *)
Lemma ioctl_constant_run uarg w :
  (ioctl CORTEX_FORGE_IOCTL_GET_VERSION uarg w =
   let '(r, u) := copy_to_user (w_user w) uarg (encode 0x00010000) in
   (Ok (if r =? 0 then 0 else - EFAULT), set_w_user u w)) ∧
  (ioctl CORTEX_FORGE_IOCTL_GET_PROFILE uarg w =
   let '(r, u) := copy_to_user (w_user w) uarg (encode profile) in
   (Ok (if r =? 0 then 0 else - EFAULT), set_w_user u w)).
Proof.
  split.
  - change (ioctl CORTEX_FORGE_IOCTL_GET_VERSION uarg w)
      with (call (copy_out_or_fault uarg 0x00010000) w).
    unfold call. rewrite copy_out_or_fault_run. destruct (copy_to_user _ _ _) as [r u].
    by destruct (r =? 0).
  - change (ioctl CORTEX_FORGE_IOCTL_GET_PROFILE uarg w)
      with (call (copy_out_or_fault uarg profile) w).
    unfold call. rewrite copy_out_or_fault_run. destruct (copy_to_user _ _ _) as [r u].
    by destruct (r =? 0).
Qed.

Lemma ioctl_unknown_run cmd uarg w :
  cmd ∉ ioctl_requests → ioctl cmd uarg w = (Ok (- ENOTTY), w).
Proof.
  intros Hn. unfold cortex_forge_ioctl, call.
  repeat match goal with
  | |- context [if cmd =? ?c then _ else _] =>
      destruct (Z.eqb_spec cmd c) as [E|_];
      [exfalso; apply Hn; rewrite E; unfold ioctl_requests; set_solver|]
  end. done.
Qed.

Lemma submit_error_None desc :
  submit_error desc = None → representable desc → 0 <= d_accel_type desc < 3.
Proof.
  intros He Hr. pose proof (task_desc_range desc Hr) as (_ & Hty & _).
  unfold submit_error, is_u32 in *. destruct (Z.leb_spec 3 (d_accel_type desc)); [done|lia].
Qed.

Lemma submit_error_codes desc e :
  submit_error desc = Some e → e = - EINVAL ∨ e = - E2BIG.
Proof. unfold submit_error. intros He. repeat case_match; simplify_eq; auto. Qed.

(** One result of a request: a code, the kernel state after it, and the
    caller's memory changed by a copy at most. *)
Definition outcome (w : world U) (r : res Z * world U) : Prop :=
  ∃ code w', r = (Ok code, w') ∧ code ∈ ioctl_codes ∧ w_jiffies w' = w_jiffies w ∧
    dev_effect (w_jiffies w) (w_dev w) (w_dev w') ∧
    (code ≠ 0 → code ≠ - EFAULT → w' = w).

Lemma outcome_same w code :
  code ∈ ioctl_codes → outcome w (Ok code, w).
Proof. intros Hc. exists code, w. split_and!; [done..|apply eff_none|done]. Qed.

Lemma outcome_copy w d' uarg bs :
  dev_effect (w_jiffies w) (w_dev w) d' →
  outcome w (let '(r, u) := copy_to_user (w_user w) uarg bs in
             (Ok (if r =? 0 then 0 else - EFAULT), set_w_user u (set_w_dev d' w))).
Proof.
  intros He. destruct (copy_to_user _ _ _) as [r u]. eexists _, _. split; [done|].
  split_and!; [|done|done|].
  - destruct (r =? 0); unfold ioctl_codes; set_solver.
  - destruct (r =? 0); congruence.
Qed.

Lemma outcome_copy_same w uarg bs :
  outcome w (let '(r, u) := copy_to_user (w_user w) uarg bs in
             (Ok (if r =? 0 then 0 else - EFAULT), set_w_user u w)).
Proof.
  pose proof (outcome_copy w (w_dev w) uarg bs (eff_none _ _)) as Ho.
  by rewrite set_w_dev_id in Ho.
Qed.

#[local] Hint Resolve outcome_same outcome_copy_same : cortex.
#[local] Hint Extern 4 (_ ∈ ioctl_codes) => (unfold ioctl_codes; set_solver) : cortex.

Lemma ioctl_outcome cmd uarg w : dev_ok (w_dev w) → outcome w (ioctl cmd uarg w).
Proof.
  intros Hok.
  destruct (decide (cmd ∈ ioctl_requests)) as [Hc|Hc];
    [|rewrite ioctl_unknown_run by done; auto with cortex].
  unfold ioctl_requests in Hc.
  repeat (apply elem_of_cons in Hc as [->|Hc]); [..|by apply elem_of_nil in Hc].
  - pose proof (ioctl_submit_run uarg w Hok) as Hr.
    destruct (copy_from_user _ _ _) as [bs|]; [|rewrite Hr; auto with cortex].
    destruct Hr as (desc & _ & Hrep & ->). destruct (submit_error desc) as [e|] eqn:He.
    + destruct (submit_error_codes desc e He) as [-> | ->]; auto with cortex.
    + destruct (dev_free_tasks (w_dev w)) as [|i l] eqn:Hf; [auto with cortex|].
      apply outcome_copy. eapply eff_submit; eauto using submit_error_None.
  - pose proof (ioctl_query_run uarg w Hok) as Hr.
    destruct (copy_from_user _ _ _) as [bs|]; [|rewrite Hr; auto with cortex].
    destruct Hr as (st & _ & _ & ->). destruct (find_task _ _) as [[i t]|]; auto with cortex.
  - pose proof (ioctl_cancel_run uarg w Hok) as Hr.
    destruct (copy_from_user _ _ _) as [bs|]; [|rewrite Hr; auto with cortex].
    destruct Hr as (id & _ & _ & ->).
    destruct (find_task _ _) as [[i t]|] eqn:Hf; [|auto with cortex].
    eexists _, _. split; [done|]. split_and!; [auto with cortex|done| |done].
    by eapply eff_cancel.
  - pose proof (ioctl_get_accel_info_run uarg w Hok) as Hr.
    destruct (copy_from_user _ _ _) as [bs|]; [|rewrite Hr; auto with cortex].
    destruct Hr as (info & _ & _ & ->). destruct (_ !! _) as [a|]; auto with cortex.
  - pose proof (ioctl_checked_u32_run CORTEX_FORGE_IOCTL_SET_POWER 2 uarg w ltac:(auto)) as Hr.
    destruct (copy_from_user _ _ _) as [bs|]; [|rewrite Hr; auto with cortex].
    destruct Hr as (v & _ & _ & ->). destruct (2 <? v); auto with cortex.
  - rewrite (proj1 (ioctl_constant_run uarg w)). auto with cortex.
  - rewrite (proj2 (ioctl_constant_run uarg w)). auto with cortex.
  - pose proof (ioctl_checked_u32_run CORTEX_FORGE_IOCTL_SET_ACCEL 4 uarg w ltac:(auto)) as Hr.
    destruct (copy_from_user _ _ _) as [bs|]; [|rewrite Hr; auto with cortex].
    destruct Hr as (v & _ & _ & ->). destruct (4 <? v); auto with cortex.
Qed.

(** Only a submission and a cancellation write the device. *)
Lemma ioctl_readonly cmd uarg w :
  dev_ok (w_dev w) →
  cmd ≠ CORTEX_FORGE_IOCTL_SUBMIT_TASK → cmd ≠ CORTEX_FORGE_IOCTL_CANCEL_TASK →
  ∃ code w', ioctl cmd uarg w = (Ok code, w') ∧ w_dev w' = w_dev w.
Proof.
  intros Hok H1 H2.
  destruct (decide (cmd ∈ ioctl_requests)) as [Hc|Hc];
    [|rewrite ioctl_unknown_run by done; eauto].
  unfold ioctl_requests in Hc.
  repeat (apply elem_of_cons in Hc as [->|Hc]); [done| |done|..|by apply elem_of_nil in Hc].
  - pose proof (ioctl_query_run uarg w Hok) as Hr.
    destruct (copy_from_user _ _ _) as [bs|]; [|by eauto].
    destruct Hr as (st & _ & _ & ->). destruct (find_task _ _) as [[i t]|]; [|by eauto].
    destruct (copy_to_user _ _ _); eauto.
  - pose proof (ioctl_get_accel_info_run uarg w Hok) as Hr.
    destruct (copy_from_user _ _ _) as [bs|]; [|by eauto].
    destruct Hr as (info & _ & _ & ->). destruct (_ !! _) as [a|]; [|by eauto].
    destruct (copy_to_user _ _ _); eauto.
  - pose proof (ioctl_checked_u32_run CORTEX_FORGE_IOCTL_SET_POWER 2 uarg w ltac:(auto)) as Hr.
    destruct (copy_from_user _ _ _) as [bs|]; [|by eauto].
    destruct Hr as (v & _ & _ & ->). eauto.
  - rewrite (proj1 (ioctl_constant_run uarg w)). destruct (copy_to_user _ _ _); eauto.
  - rewrite (proj2 (ioctl_constant_run uarg w)). destruct (copy_to_user _ _ _); eauto.
  - pose proof (ioctl_checked_u32_run CORTEX_FORGE_IOCTL_SET_ACCEL 4 uarg w ltac:(auto)) as Hr.
    destruct (copy_from_user _ _ _) as [bs|]; [|by eauto].
    destruct Hr as (v & _ & _ & ->). eauto.
Qed.

Lemma dev_ok_effect now d d' : dev_ok d → dev_effect now d d' → dev_ok d'.
Proof.
  intros Hok []; [done|by eapply dev_ok_submitted|by eapply dev_ok_cancelled].
Qed.
End ChardevSpec.
