(* ===== verification/TaskTable.v ===== *)
(** * The driver as a task table

    What the ioctl interface promises: a finite map from identifiers to tasks,
    with identifiers handed out in order and a bound on how many.  [table] is
    that specification and [table_request] its operations; [abs] reads it off
    a device.  The refinement says that every request, and every sequence of
    requests from any user memory, acts on the device as the specification
    acts on the table. *)

From S2P Require Import Prelude CLayout Device UserMem Uapi TaskManager Pool DevInit Chardev.

(** ** The specification *)

Record table : Type := { tb_tasks : gmap Z task; tb_next : Z }.

Inductive request : Type :=
  | R_submit (desc : task_desc) (now : Z)
  | R_query (id : Z)
  | R_cancel (id : Z).

(** The answer (a code) and the table after the request. *)
Definition table_request (r : request) (T : table) : Z * table :=
  match r with
  | R_submit desc now =>
      match submit_error desc with
      | Some e => (e, T)
      | None =>
          if tb_next T <? Z.of_nat MAX_TASKS then
            let id := tb_next T + 1 in
            (0, {| tb_tasks := <[id := new_task id now desc]> (tb_tasks T); tb_next := id |})
          else (- ENOMEM, T)
      end
  | R_query id =>
      (match tb_tasks T !! id with Some _ => 0 | None => - ENOENT end, T)
  | R_cancel id =>
      match tb_tasks T !! id with
      | Some t => (0, {| tb_tasks := <[id := cancelled t]> (tb_tasks T); tb_next := tb_next T |})
      | None => (- ENOENT, T)
      end
  end.

(** ** The abstraction *)

Definition is_live (t : task) : Prop := t_state t ≠ TASK_STATE_FREE.
#[export] Instance is_live_dec t : Decision (is_live t).
Proof. unfold is_live. apply _. Defined.

Definition view (d : dev) : gmap Z task :=
  list_to_map ((λ t, (t_id t, t)) <$> filter is_live (dev_tasks d)).

Definition abs (d : dev) : table := {| tb_tasks := view d; tb_next := dev_next_task_id d |}.

Lemma NoDup_fmap_filter {A B} (f : A → B) (P : A → Prop) `{∀ x, Decision (P x)} (l : list A) :
  (∀ i j x y, l !! i = Some x → l !! j = Some y → P x → P y → f x = f y → i = j) →
  NoDup (f <$> filter P l).
Proof.
  induction l as [|x l IH]; intros Hinj; [constructor|].
  assert (Hl : NoDup (f <$> filter P l)).
  { apply IH. intros i j y z Hi Hj Hy Hz Heq.
    enough (S i = S j) by lia. by eapply Hinj. }
  rewrite filter_cons. case_decide as Hx; [|done]. cbn. constructor; [|done].
  intros (y & Hy & Hin)%list_elem_of_fmap. apply list_elem_of_filter in Hin as [Py Hin].
  apply list_elem_of_lookup in Hin as [i Hi].
  enough (0 = S i)%nat by lia. eapply Hinj; [done|exact Hi|done..].
Qed.

Lemma live_not_free d i t :
  pool_inv d → dev_tasks d !! i = Some t → is_live t → i ∉ dev_free_tasks d.
Proof. intros Hinv Ht Hlive Hf. apply Hlive. by apply (pi_free d Hinv i). Qed.

Lemma view_lookup d id t :
  pool_inv d →
  view d !! id = Some t ↔ ∃ i, dev_tasks d !! i = Some t ∧ t_id t = id ∧ is_live t.
Proof.
  intros Hinv. unfold view.
  rewrite <- elem_of_list_to_map.
  - rewrite list_elem_of_fmap. split.
    + intros (u & [= -> ->] & [Hu Hin]%list_elem_of_filter).
      apply list_elem_of_lookup in Hin as [i Hi]. eauto.
    + intros (i & Hi & <- & Hl). exists t. split; [done|]. apply list_elem_of_filter.
      split; [done|]. by apply list_elem_of_lookup_2 in Hi.
  - rewrite <- list_fmap_compose. apply NoDup_fmap_filter.
    intros i j x y Hi Hj Hx Hy Heq. apply (pi_unique d Hinv i j x y); [done..|].
    apply (pi_live d Hinv i); [done|]. by eapply live_not_free.
Qed.

Lemma view_find d id :
  pool_inv d → view d !! id = snd <$> find_task id d.
Proof.
  intros Hinv. destruct (find_task id d) as [[i t]|] eqn:Hf; cbn.
  - apply view_lookup; [done|]. apply find_task_Some in Hf as (? & ? & ?). eauto.
  - destruct (view d !! id) as [t|] eqn:Hv; [|done].
    apply view_lookup in Hv as (i & Hi & Hid & Hl); [|done].
    destruct Hl. by eapply find_task_None.
Qed.

(** A change of one live task is a change of one entry. *)
Lemma view_upd_live d i t f :
  pool_inv d → dev_tasks d !! i = Some t → is_live t →
  (∀ t, t_id (f t) = t_id t) → is_live (f t) →
  view (upd_tasks (arr_upd i f) d) = <[t_id t := f t]> (view d).
Proof.
  intros Hinv Ht Hl Hid Hfl.
  assert (Hinv' : pool_inv (upd_tasks (arr_upd i f) d))
    by (apply pool_inv_upd_live; eauto using live_not_free).
  assert (Hpos : 0 < t_id t)
    by (apply (pi_live d Hinv i); eauto using live_not_free).
  apply map_eq. intros k. apply option_eq. intros u. rewrite view_lookup by done.
  cbn [dev_tasks upd_tasks set_tasks]. rewrite lookup_insert. case_decide as Hk.
  - subst k. split.
    + intros (j & Hj & Hju & Hlu). rewrite arr_upd_lookup in Hj. case_decide as Hij.
      * subst j. rewrite Ht in Hj. by injection Hj as <-.
      * destruct Hij. by eapply (pi_unique d Hinv i j t u).
    + intros [= <-]. exists i. rewrite arr_upd_same, Ht, Hid. done.
  - rewrite view_lookup by done. split; intros (j & Hj & Hju & Hlu); exists j.
    + rewrite arr_upd_lookup in Hj. case_decide as Hij; [|done].
      subst j. rewrite Ht in Hj. injection Hj as <-. rewrite Hid in Hju. done.
    + rewrite arr_upd_other; [done|]. intros <-. rewrite Ht in Hj. congruence.
Qed.

Lemma view_cancel d id i t :
  pool_inv d → find_task id d = Some (i, t) →
  view (upd_tasks (arr_upd i cancelled) d) = <[id := cancelled t]> (view d).
Proof.
  intros Hinv (Hi & <- & Hl)%find_task_Some. by apply view_upd_live.
Qed.

(** A new slot is a new entry. *)
Lemma view_submitted d i l now desc :
  dev_ok d → dev_free_tasks d = i :: l →
  view (submitted i now desc d) =
  <[dev_next_task_id d + 1 := new_task (dev_next_task_id d + 1) now desc]> (view d).
Proof.
  intros Hok Hf. pose proof (dok_pool d Hok) as Hinv.
  pose proof (dok_pool _ (dev_ok_submitted i l now desc d Hok Hf)) as Hinv'.
  destruct (pool_inv_head i l d Hinv Hf) as (_ & _ & _ & t & Ht & Hfree).
  set (id := dev_next_task_id d + 1).
  assert (Hlk : ∀ j, dev_tasks (submitted i now desc d) !! j =
    if decide (i = j) then Some (new_task id now desc) else dev_tasks d !! j).
  { intros j. cbn. rewrite !arr_upd_lookup. case_decide; subst; [by rewrite Ht|done]. }
  apply map_eq. intros k. apply option_eq. intros u. rewrite view_lookup by done.
  rewrite lookup_insert. case_decide as Hk.
  - subst k. split.
    + intros (j & Hj & Hju & Hlu). rewrite Hlk in Hj. case_decide; [done|].
      pose proof (pi_id d Hinv j u Hj). lia.
    + intros [= <-]. exists i. rewrite Hlk, decide_True by done. done.
  - rewrite view_lookup by done. split; intros (j & Hj & Hju & Hlu); exists j.
    + rewrite Hlk in Hj. case_decide; [|done]. injection Hj as <-. done.
    + rewrite Hlk, decide_False; [done|]. intros <-. rewrite Ht in Hj. by injection Hj as <-.
Qed.

Lemma free_nil_full d :
  dev_ok d → dev_free_tasks d = [] ↔ Z.of_nat MAX_TASKS <= dev_next_task_id d.
Proof.
  intros [_ Hacc _]. unfold accounted in Hacc. split.
  - intros Hf. rewrite Hf in Hacc. cbn in Hacc. lia.
  - intros Hn. destruct (dev_free_tasks d); [done|]. cbn in Hacc. lia.
Qed.

(** ** The refinement *)

Section Refinement.
Context {U : Type} `{UserMemoryLaws U}.
Context (HZ : Z).

(** A system call: the request, the caller's memory and the time it finds. *)
Record syscall : Type := { c_cmd : Z; c_uarg : Z; c_user : U; c_now : Z }.

(** The table request a system call amounts to, if any. *)
Definition request_of (c : syscall) : option request :=
  if c_cmd c =? CORTEX_FORGE_IOCTL_SUBMIT_TASK then
    (λ desc, R_submit desc (c_now c)) <$> read_user task_desc (c_user c) (c_uarg c)
  else if c_cmd c =? CORTEX_FORGE_IOCTL_QUERY_TASK then
    (λ st, R_query (s_task_id st)) <$> read_user task_status (c_user c) (c_uarg c)
  else if c_cmd c =? CORTEX_FORGE_IOCTL_CANCEL_TASK then R_cancel <$> read_user Z (c_user c) (c_uarg c)
  else None.

Definition call_world (c : syscall) (d : dev) : world U :=
  {| w_dev := d; w_user := c_user c; w_jiffies := c_now c |}.

Definition driver_call (c : syscall) (d : dev) : res Z * world U :=
  cortex_forge_ioctl HZ (c_cmd c) (c_uarg c) (call_world c d).

Lemma driver_call_cmd c d cmd r :
  c_cmd c = cmd → cortex_forge_ioctl HZ cmd (c_uarg c) (call_world c d) = r →
  driver_call c d = r.
Proof. by intros <- <-. Qed.

Definition table_call (c : syscall) (T : table) : option Z * table :=
  match request_of c with
  | Some r => let '(z, T') := table_request r T in (Some z, T')
  | None => (None, T)
  end.

(** The driver answers as specified, except that it reports a failure to
    copy the answer back. *)
Definition answers (code : Z) (spec : option Z) : Prop :=
  match spec with
  | Some z => code = z ∨ (code = - EFAULT ∧ z = 0)
  | None => True
  end.

Lemma copied_answers (r : Z) : answers (if r =? 0 then 0 else - EFAULT) (Some 0).
Proof. cbn. destruct (r =? 0); auto. Qed.

(** One call: answered as specified, with the specified effect. *)
Definition refined (c : syscall) (d : dev) : Prop :=
  ∃ code w', driver_call c d = (Ok code, w') ∧ dev_ok (w_dev w') ∧
    answers code (table_call c (abs d)).1 ∧ abs (w_dev w') = (table_call c (abs d)).2.

Lemma refined_none c d code w' :
  dev_ok d → request_of c = None → driver_call c d = (Ok code, w') → w_dev w' = d → refined c d.
Proof.
  intros Hok Hn Hd Hw. exists code, w'. unfold table_call. rewrite Hn, Hw. done.
Qed.

Lemma refined_submit c d :
  c_cmd c = CORTEX_FORGE_IOCTL_SUBMIT_TASK → dev_ok d → refined c d.
Proof.
  intros Hc Hok.
  assert (Hreq : request_of c = (λ desc, R_submit desc (c_now c)) <$> read_user task_desc (c_user c) (c_uarg c))
    by (unfold request_of; by rewrite Hc).
  unfold read_user in Hreq.
  pose proof (ioctl_submit_run HZ (c_uarg c) (call_world c d) Hok) as Hr.
  cbn [w_user w_dev w_jiffies call_world] in Hr. cbn [decl task_desc_repr] in Hreq.
  destruct (copy_from_user _ _ _) as [bs|];
    [|by eapply refined_none; eauto using driver_call_cmd].
  destruct Hr as (desc & <- & Hrep & Hr%(driver_call_cmd c d _ _ Hc)). cbn [mbind option_bind] in Hreq.
  rewrite decode_encode in Hreq by done. cbn in Hreq.
  unfold refined, table_call. rewrite Hreq. cbn [table_request].
  destruct (submit_error desc) as [e|] eqn:He.
  { eexists _, _. split; [exact Hr|]. cbn. auto. }
  cbn [tb_next abs]. pose proof (free_nil_full d Hok) as Hfull.
  destruct (dev_free_tasks d) as [|i l] eqn:Hf.
  - rewrite (proj2 (Z.ltb_ge _ _)) by (by apply Hfull).
    eexists _, _. split; [exact Hr|]. cbn. auto.
  - rewrite (proj2 (Z.ltb_lt _ _)).
    2: { apply Z.nle_gt. intros Hle. by apply Hfull in Hle. }
    destruct (copy_to_user _ _ _) as [r u]. eexists _, _. split; [exact Hr|].
    cbn [fst snd w_dev set_w_user set_w_dev w_user]. split_and!.
    + by eapply dev_ok_submitted.
    + apply copied_answers.
    + unfold abs. f_equal. by eapply view_submitted.
Qed.

Lemma refined_query c d :
  c_cmd c = CORTEX_FORGE_IOCTL_QUERY_TASK → dev_ok d → refined c d.
Proof.
  intros Hc Hok.
  assert (Hreq : request_of c = (λ st, R_query (s_task_id st)) <$> read_user task_status (c_user c) (c_uarg c))
    by (unfold request_of; by rewrite Hc).
  unfold read_user in Hreq.
  pose proof (ioctl_query_run HZ (c_uarg c) (call_world c d) Hok) as Hr.
  cbn [w_user w_dev call_world] in Hr. cbn [decl task_status_repr] in Hreq.
  destruct (copy_from_user _ _ _) as [bs|];
    [|by eapply refined_none; eauto using driver_call_cmd].
  destruct Hr as (st & <- & Hrep & Hr%(driver_call_cmd c d _ _ Hc)). cbn [mbind option_bind] in Hreq.
  rewrite decode_encode in Hreq by done. cbn in Hreq.
  unfold refined, table_call. rewrite Hreq. cbn [table_request abs tb_tasks].
  rewrite view_find by auto with cortex.
  destruct (find_task (s_task_id st) d) as [[i t]|].
  - destruct (copy_to_user _ _ _) as [r u]. eexists _, _. split; [exact Hr|].
    split_and!; [done|apply copied_answers|done].
  - eexists _, _. split; [exact Hr|]. cbn. auto.
Qed.

Lemma refined_cancel c d :
  c_cmd c = CORTEX_FORGE_IOCTL_CANCEL_TASK → dev_ok d → refined c d.
Proof.
  intros Hc Hok.
  assert (Hreq : request_of c = R_cancel <$> read_user Z (c_user c) (c_uarg c))
    by (unfold request_of; by rewrite Hc).
  unfold read_user in Hreq. change (sizeof lp64 (decl Z)) with 4%nat in Hreq.
  pose proof (ioctl_cancel_run HZ (c_uarg c) (call_world c d) Hok) as Hr.
  cbn [w_user w_dev call_world] in Hr.
  destruct (copy_from_user _ _ _) as [bs|];
    [|by eapply refined_none; eauto using driver_call_cmd].
  destruct Hr as (id & <- & Hrep & Hr%(driver_call_cmd c d _ _ Hc)). cbn [mbind option_bind] in Hreq.
  rewrite decode_encode in Hreq by done. cbn in Hreq.
  unfold refined, table_call. rewrite Hreq. cbn [table_request abs tb_tasks].
  rewrite view_find by auto with cortex.
  destruct (find_task id d) as [[i t]|] eqn:Hf; cbn.
  - eexists _, _. split; [exact Hr|]. cbn [w_dev set_w_dev].
    split_and!; [by eapply dev_ok_cancelled|auto|].
    unfold abs. f_equal. apply view_cancel; [by apply dok_pool|done].
  - eexists _, _. split; [exact Hr|]. cbn. auto.
Qed.

Lemma refined_call c d : dev_ok d → refined c d.
Proof.
  intros Hok.
  destruct (decide (c_cmd c = CORTEX_FORGE_IOCTL_SUBMIT_TASK)); [by apply refined_submit|].
  destruct (decide (c_cmd c = CORTEX_FORGE_IOCTL_QUERY_TASK)); [by apply refined_query|].
  destruct (decide (c_cmd c = CORTEX_FORGE_IOCTL_CANCEL_TASK)); [by apply refined_cancel|].
  destruct (ioctl_readonly HZ (c_cmd c) (c_uarg c)
    (call_world c d)) as (code & w' & Hr & Hw);
    [done..|].
  eapply refined_none; [done| |exact Hr|done].
  unfold request_of. by rewrite !(proj2 (Z.eqb_neq _ _)) by done.
Qed.

(** *** Sequences of calls *)

Fixpoint driver_run (cs : list syscall) (d : dev) : option (list Z * dev) :=
  match cs with
  | [] => Some ([], d)
  | c :: cs' =>
      match driver_call c d with
      | (Ok code, w') =>
          '(codes, d') ← driver_run cs' (w_dev w'); Some (code :: codes, d')
      | _ => None
      end
  end.

Fixpoint table_run (cs : list syscall) (T : table) : list (option Z) * table :=
  match cs with
  | [] => ([], T)
  | c :: cs' =>
      let '(z, T1) := table_call c T in
      let '(zs, T2) := table_run cs' T1 in (z :: zs, T2)
  end.

(** C2: The driver refines the task table.  Any sequence of system calls, each
    from any user memory and at any time, runs to the end without an invalid
    access; every submission, query and cancellation is answered as the
    table specifies (or with -EFAULT when the answer cannot be copied back),
    and the device afterwards represents the table's final state. *)
Theorem driver_refines_table cs d :
  dev_ok d →
  ∃ codes d', driver_run cs d = Some (codes, d') ∧ dev_ok d' ∧
    Forall2 answers codes (table_run cs (abs d)).1 ∧ abs d' = (table_run cs (abs d)).2.
Proof.
  revert d. induction cs as [|c cs IH]; intros d Hok; cbn [driver_run table_run].
  { exists [], d. split_and!; [done|done|constructor|done]. }
  destruct (refined_call c d Hok) as (code & w' & Hr & Hok' & Hans & Habs).
  destruct (IH (w_dev w') Hok') as (codes & d' & Hrun & Hok'' & Hall & Habs').
  rewrite Hr, Hrun. cbn [mbind option_bind].
  destruct (table_call c (abs d)) as [z T1] eqn:HT. cbn [fst snd] in Hans, Habs. subst T1.
  destruct (table_run cs (abs (w_dev w'))) as [zs T2] eqn:HT2. cbn [fst snd] in *.
  exists (code :: codes), d'. split_and!; [done..| |done]. by constructor.
Qed.
End Refinement.

(** A submission of an all-zero descriptor and the cancellation of task 1. *)
Definition demo_calls : list (syscall (U := flatmem)) :=
  [{| c_cmd := CORTEX_FORGE_IOCTL_SUBMIT_TASK; c_uarg := 4096; c_now := 1000;
      c_user := {| fm_bytes := fm_write ∅ 4096 (replicate 80 Byte.x00) |} |};
   {| c_cmd := CORTEX_FORGE_IOCTL_CANCEL_TASK; c_uarg := 4096; c_now := 1001;
      c_user := {| fm_bytes := fm_write ∅ 4096 (encode (A := Z) 1) |} |}].

Lemma demo_calls_table : (table_run demo_calls (abs boot_dev)).1 = [Some 0; Some 0].
Proof. vm_compute. reflexivity. Qed.

Lemma driver_refines_table_witness :
  ∃ codes d', driver_run 250 demo_calls boot_dev = Some (codes, d') ∧
    Forall2 answers codes [Some 0; Some 0].
Proof.
  destruct (driver_refines_table 250 demo_calls boot_dev boot_dev_ok)
    as (codes & d' & Hr & _ & Ha & _).
  rewrite demo_calls_table in Ha. exact (ex_intro _ codes (ex_intro _ d' (conj Hr Ha))).
Defined.
