(* ===== verification/System.v ===== *)
(** * The driver under concurrency

    Any number of system calls, the three worker threads and the removal of
    the driver, interleaved statement by statement on one device.

    A system call is a machine ([upc]) whose control points are the statements
    of its handler that touch shared data; [ustep] runs one.  Statements under
    a lock are one step together with their critical section (the spinlock
    [task_lock] in task_alloc and task_free, the mutex [accel->lock] around the
    list operations); task_query and task_cancel scan the slots without a lock,
    so each slot they test and each field they write is a step of its own, and
    the answer of a query is filled in three.  accel_get_info is
    one step: of what it reads under the mutex, only the load is ever written.
    A call enters after its copy from user memory (any value), and learns at
    the end whether the copy back succeeds.

    [y_enq] and [y_deq] are history variables: for each accelerator, the slots
    queued so far and the slots its worker has taken, in order. *)

From S2P Require Import Prelude CLayout Device UserMem Uapi TaskManager Pool AccelManager Worker DevInit Chardev.

(** ** System calls *)

Inductive upc : Type :=
  | U_check (desc : task_desc)                 (* the checks on the descriptor *)
  | U_alloc (desc : task_desc)                 (* task_alloc *)
  | U_fill (t : nat) (desc : task_desc)        (* task->accel_type = ... *)
  | U_pending (t : nat) (desc : task_desc)     (* task_submit: check, state = PENDING *)
  | U_free (t : nat)                           (* task_free, return -EINVAL *)
  | U_stamp (t : nat) (desc : task_desc)       (* submit_jiffies = jiffies *)
  | U_enqueue (t : nat) (desc : task_desc)     (* list_add_tail, under the lock *)
  | U_copy (t : nat)                           (* desc.task_id = task->id; copy_to_user *)
  | U_cancel (id : Z) (i : nat)                (* task_cancel: loop at i *)
  | U_c_state (i : nat)                        (* state = CANCELLED *)
  | U_c_error (i : nat)                        (* error_code = -ECANCELED *)
  | U_c_done (i : nat)                         (* complete_all *)
  | U_query (id : Z) (i : nat)                 (* task_query: loop at i *)
  | U_q_state (i : nat)                        (* status.task_id, status.status *)
  | U_q_usec (i : nat) (id st : Z)             (* status.exec_usec *)
  | U_q_error (i : nat) (id st usec : Z)       (* status.error_code *)
  | U_q_copy (status : task_status)            (* copy_to_user *)
  | U_info (info : accel_info)                 (* check; accel_get_info, under the lock *)
  | U_i_copy (info : accel_info)               (* copy_to_user *)
  | U_limit (v bound : Z)                      (* if (v > bound) return -EINVAL; return 0 *)
  | U_const                                    (* copy_to_user of a constant *)
  | U_ret (code : Z).

Section UStep.
Context (HZ : Z).

Definition ustep (now : Z) (copied : bool) (pc : upc) : KM dev upc :=
  match pc with
  | U_check desc =>
      mret (match submit_error desc with Some e => U_ret e | None => U_alloc desc end)
  | U_alloc desc =>
      r ← task_alloc;
      mret (match r with Some t => U_fill t desc | None => U_ret (- ENOMEM) end)
  | U_fill t desc => upd_task t (fill_task desc) ;; mret (U_pending t desc)
  | U_pending t desc =>
      tk ← get_task t;
      if Z.of_nat NUM_ACCELERATORS <=? t_accel_type tk then mret (U_free t)
      else upd_task t (set_t_state TASK_STATE_PENDING) ;; mret (U_stamp t desc)
  | U_free t => task_free t ;; mret (U_ret (- EINVAL))
  | U_stamp t desc => upd_task t (set_t_submit_jiffies now) ;; mret (U_enqueue t desc)
  | U_enqueue t desc =>
      upd_accel (Z.to_nat (d_accel_type desc)) (enqueue t) ;; mret (U_copy t)
  | U_copy t => _ ← get_task t; mret (U_ret (if copied then 0 else - EFAULT))
  | U_cancel id i =>
      if decide (i < MAX_TASKS)%nat then
        tk ← get_task i;
        mret (if task_matches id tk then U_c_state i else U_cancel id (S i))
      else mret (U_ret (- ENOENT))
  | U_c_state i => upd_task i (set_t_state TASK_STATE_CANCELLED) ;; mret (U_c_error i)
  | U_c_error i => upd_task i (set_t_error_code (- ECANCELED)) ;; mret (U_c_done i)
  | U_c_done i => upd_task i (set_t_done true) ;; mret (U_ret 0)
  | U_query id i =>
      if decide (i < MAX_TASKS)%nat then
        tk ← get_task i;
        mret (if task_matches id tk then U_q_state i else U_query id (S i))
      else mret (U_ret (- ENOENT))
  | U_q_state i => tk ← get_task i; mret (U_q_usec i (t_id tk) (task_state_val (t_state tk)))
  | U_q_usec i id st => tk ← get_task i; mret (U_q_error i id st (exec_usec HZ tk))
  | U_q_error i id st usec =>
      tk ← get_task i;
      mret (U_q_copy {| s_task_id := id; s_status := st; s_exec_usec := usec;
                        s_error_code := t_error_code tk; s_reserved := (0, 0, 0) |})
  | U_q_copy _ => mret (U_ret (if copied then 0 else - EFAULT))
  | U_info info =>
      if Z.of_nat NUM_ACCELERATORS <=? i_accel_type info then mret (U_ret (- EINVAL))
      else a ← get_accel (Z.to_nat (i_accel_type info)); mret (U_i_copy (accel_get_info a info))
  | U_i_copy _ | U_const => mret (U_ret (if copied then 0 else - EFAULT))
  | U_limit v bound => mret (U_ret (if bound <? v then - EINVAL else 0))
  | U_ret code => mret (U_ret code)
  end.
(** GET_ACCEL_INFO reads one accelerator and writes nothing. *)
Lemma ustep_info now copied info d pc' d' :
  ustep now copied (U_info info) d = (Ok pc', d') →
  d' = d ∧
  (pc' = U_ret (- EINVAL) ∨
   ∃ a, dev_accelerators d !! Z.to_nat (i_accel_type info) = Some a ∧
     i_accel_type info < 3 ∧ pc' = U_i_copy (accel_get_info a info)).
Proof.
  cbn [ustep]. change (Z.of_nat NUM_ACCELERATORS) with 3.
  destruct (Z.leb_spec 3 (i_accel_type info)) as [Hi|Hi].
  - intros [= <- <-]. auto.
  - unfold mbind, KM_bind, get_accel, arr_get. destruct (dev_accelerators d !! _) as [a|] eqn:Ha; [|done].
    intros [= <- <-]. eauto 10.
Qed.
End UStep.

(** Where a call can start: after [copy_from_user] and the switch. *)
Definition is_entry (pc : upc) : Prop :=
  match pc with
  | U_check desc => representable desc
  | U_cancel _ O | U_query _ O => True
  | U_info info => representable info
  | U_limit v bound => is_u32 v ∧ (bound = 2 ∨ bound = 4)
  | U_const => True
  | U_ret code => code = - EFAULT ∨ code = - ENOTTY
  | _ => False
  end.

(** Where the request [cmd] with argument [uarg] enters. *)
Definition request_entry {U} `{UserMemory U} (cmd uarg : Z) (u : U) : upc :=
  let read A `{Repr A} (k : A → upc) :=
    match read_user A u uarg with Some v => k v | None => U_ret (- EFAULT) end in
  if cmd =? CORTEX_FORGE_IOCTL_SUBMIT_TASK then read task_desc U_check
  else if cmd =? CORTEX_FORGE_IOCTL_QUERY_TASK then
    read task_status (λ status, U_query (s_task_id status) 0)
  else if cmd =? CORTEX_FORGE_IOCTL_CANCEL_TASK then read Z (λ task_id, U_cancel task_id 0)
  else if cmd =? CORTEX_FORGE_IOCTL_GET_ACCEL_INFO then read accel_info U_info
  else if cmd =? CORTEX_FORGE_IOCTL_SET_POWER then read Z (λ mode, U_limit mode 2)
  else if cmd =? CORTEX_FORGE_IOCTL_GET_VERSION then U_const
  else if cmd =? CORTEX_FORGE_IOCTL_GET_PROFILE then U_const
  else if cmd =? CORTEX_FORGE_IOCTL_SET_ACCEL then read Z (λ accel, U_limit accel 4)
  else U_ret (- ENOTTY).

(** ** Removal of the driver: accel_stop_workers, with kthread_stop's wait *)

Inductive rpc : Type :=
  | R_idle                    (* the driver is in use *)
  | R_clear (i : nat)         (* if (worker_thread) running = 0; wake_up *)
  | R_kthread (i : nat)       (* kthread_stop: ask *)
  | R_join (i : nat)          (* kthread_stop: wait; worker_thread = NULL *)
  | R_done.

(** ** The whole system *)

Record sys : Type := {
  y_dev : dev;
  y_now : Z;
  y_workers : list wpc;
  y_stop : list bool;
  y_calls : list upc;
  y_remover : rpc;
  y_enq : list (list nat);
  y_deq : list (list nat);
}.

(** One statement of the removal. *)
Inductive remover_step (s : sys) : rpc → dev → list bool → Prop :=
  | rem_start :
      y_remover s = R_idle → remover_step s (R_clear 0) (y_dev s) (y_stop s)
  | rem_skip i a :
      y_remover s = R_clear i → dev_accelerators (y_dev s) !! i = Some a →
      a_worker_thread a = KT_NULL →
      remover_step s (R_clear (S i)) (y_dev s) (y_stop s)
  | rem_clear i a :
      y_remover s = R_clear i → dev_accelerators (y_dev s) !! i = Some a →
      a_worker_thread a ≠ KT_NULL →
      remover_step s (R_kthread i)
        (upd_accelerators (arr_upd i (set_a_running 0)) (y_dev s)) (y_stop s)
  | rem_ask i :
      y_remover s = R_kthread i →
      remover_step s (R_join i) (y_dev s) (arr_upd i (λ _, true) (y_stop s))
  | rem_join i :
      y_remover s = R_join i → y_workers s !! i = Some W_exit →
      remover_step s (R_clear (S i))
        (upd_accelerators (arr_upd i (set_a_worker_thread KT_NULL)) (y_dev s)) (y_stop s)
  | rem_done :
      y_remover s = R_clear NUM_ACCELERATORS → remover_step s R_done (y_dev s) (y_stop s).

Section System.
Context (HZ : Z) (msecs_to_jiffies : Z → Z).

(** The slot a call puts on a queue, and the slot a worker takes off one. *)
Definition enq_effect (pc : upc) (enq : list (list nat)) : list (list nat) :=
  match pc with
  | U_enqueue t desc => arr_upd (Z.to_nat (d_accel_type desc)) (λ l, l ++ [t]) enq
  | _ => enq
  end.

Definition deq_effect (i : nat) (pc pc' : wpc) (deq : list (list nat)) : list (list nat) :=
  match pc, pc' with
  | W_lock, W_run t => arr_upd i (λ l, l ++ [t]) deq
  | _, _ => deq
  end.

Inductive sys_step (s : sys) : sys → Prop :=
  | step_tick n :
      0 <= n →
      sys_step s {| y_dev := y_dev s; y_now := u64 (y_now s + n); y_workers := y_workers s;
                    y_stop := y_stop s; y_calls := y_calls s; y_remover := y_remover s;
                    y_enq := y_enq s; y_deq := y_deq s |}
  | step_call pc :
      is_entry pc →
      sys_step s {| y_dev := y_dev s; y_now := y_now s; y_workers := y_workers s;
                    y_stop := y_stop s; y_calls := y_calls s ++ [pc];
                    y_remover := y_remover s; y_enq := y_enq s; y_deq := y_deq s |}
  | step_user k pc copied pc' d' :
      y_calls s !! k = Some pc →
      ustep HZ (y_now s) copied pc (y_dev s) = (Ok pc', d') →
      sys_step s {| y_dev := d'; y_now := y_now s; y_workers := y_workers s;
                    y_stop := y_stop s; y_calls := <[k := pc']> (y_calls s);
                    y_remover := y_remover s; y_enq := enq_effect pc (y_enq s);
                    y_deq := y_deq s |}
  | step_worker i pc stop pc' d' :
      y_workers s !! i = Some pc → y_stop s !! i = Some stop →
      worker_step msecs_to_jiffies i (y_now s) stop pc (y_dev s) = (Ok pc', d') →
      sys_step s {| y_dev := d'; y_now := y_now s; y_workers := <[i := pc']> (y_workers s);
                    y_stop := y_stop s; y_calls := y_calls s; y_remover := y_remover s;
                    y_enq := y_enq s; y_deq := deq_effect i pc pc' (y_deq s) |}
  | step_remove r' d' stop' :
      remover_step s r' d' stop' →
      sys_step s {| y_dev := d'; y_now := y_now s; y_workers := y_workers s;
                    y_stop := stop'; y_calls := y_calls s; y_remover := r';
                    y_enq := y_enq s; y_deq := y_deq s |}.

(** The device after a successful probe, at any time; the interrupt and clocks
    probe also stores play no part (Life.v). *)
Definition running_dev : dev := upd_accelerators (map_range 0 NUM_ACCELERATORS started) boot_dev.

Definition sys_init (s : sys) : Prop :=
  s = {| y_dev := running_dev; y_now := y_now s;
         y_workers := replicate NUM_ACCELERATORS W_while;
         y_stop := replicate NUM_ACCELERATORS false; y_calls := []; y_remover := R_idle;
         y_enq := replicate NUM_ACCELERATORS []; y_deq := replicate NUM_ACCELERATORS [] |}.

Definition reachable : sys → Prop := reach sys_init sys_step.
End System.

Lemma running_dev_tasks : dev_tasks running_dev = replicate MAX_TASKS zero_task.
Proof. by vm_compute. Qed.

Lemma running_dev_next : dev_next_task_id running_dev = 0.
Proof. by vm_compute. Qed.
