(* ===== verification/Frame.v ===== *)
(** * What calls and workers leave alone in an accelerator

    The statements of calls and workers write an accelerator's queue, active
    list and load estimate, and nothing else of it: every other observation of
    the accelerators stays. *)

From S2P Require Import Prelude CLayout Device UserMem Uapi TaskManager Pool AccelManager Worker DevInit Chardev System.

(** An observation of an accelerator that does not look at these fields. *)
Class Untouched {P} (obs : accel → P) : Prop := {
  untouched_load v a : obs (set_a_load_percent v a) = obs a;
  untouched_queue v a : obs (set_a_task_queue v a) = obs a;
  untouched_active v a : obs (set_a_active_tasks v a) = obs a;
}.

#[export] Instance untouched_running : Untouched a_running.
Proof. by split. Qed.

(** What is written at initialisation only. *)
Definition a_static (a : accel) : Z * list Ascii.ascii * Z * Z * Z * Z * Z * Z * Z :=
  (a_type a, a_name a, a_freq_hz a, a_temp_celsius a, a_fw_version a, a_hw_version a,
   a_mem_total a, a_mem_free a, a_state a).

#[export] Instance untouched_static : Untouched a_static.
Proof. by split. Qed.

Create HintDb frame.

Section Frame.
Context {P : Type} (obs : accel → P) `{!Untouched obs}.

Definition observed (d : dev) : list P := obs <$> dev_accelerators d.

Definition keeps {A} (m : KM dev A) : Prop := ∀ d, observed (m d).2 = observed d.

Lemma observed_lookup d i a :
  dev_accelerators d !! i = Some a → observed d !! i = Some (obs a).
Proof. intros Ha. unfold observed. by rewrite list_lookup_fmap, Ha. Qed.

Lemma observed_upd i f d :
  (∀ a, obs (f a) = obs a) → observed (upd_accelerators (arr_upd i f) d) = observed d.
Proof.
  intros Hf. unfold observed. cbn. apply list_eq. intros j.
  rewrite !list_lookup_fmap, arr_upd_lookup.
  case_decide; [|done]. destruct (dev_accelerators d !! j); cbn; by rewrite ?Hf.
Qed.

Lemma keeps_ret {A} (x : A) : keeps (mret x).
Proof. done. Qed.

Lemma keeps_bind {A B} (m : KM dev A) (f : A → KM dev B) :
  keeps m → (∀ x, keeps (f x)) → keeps (m ≫= f).
Proof.
  intros Hm Hf d. unfold mbind, KM_bind. specialize (Hm d).
  destruct (m d) as [[x| |] d']; cbn in *; [by rewrite Hf|done..].
Qed.

Lemma keeps_get_task t : keeps (get_task t).
Proof. intros d. unfold get_task, arr_get. by destruct (_ !! t). Qed.

Lemma keeps_get_accel i : keeps (get_accel i).
Proof. intros d. unfold get_accel, arr_get. by destruct (_ !! i). Qed.

Lemma keeps_modify f :
  (∀ d, dev_accelerators (f d) = dev_accelerators d) → keeps (modify f).
Proof. intros Hf d. unfold observed. cbn. by rewrite Hf. Qed.

Lemma keeps_upd_task t f : keeps (upd_task t f).
Proof. apply keeps_bind; [apply keeps_get_task|]. by intros ? ?. Qed.

Lemma keeps_upd_accel i f : (∀ a, obs (f a) = obs a) → keeps (upd_accel i f).
Proof.
  intros Hf. apply keeps_bind; [apply keeps_get_accel|]. intros ? d. by apply observed_upd.
Qed.

#[local] Hint Resolve keeps_ret keeps_bind keeps_get_task keeps_get_accel keeps_upd_task
  keeps_upd_accel untouched_load untouched_queue untouched_active : frame.

Lemma keeps_alloc : keeps task_alloc.
Proof. intros d. rewrite task_alloc_run. destruct (dev_free_tasks d); [done|]. by case_decide. Qed.

Lemma keeps_free t : keeps (task_free t).
Proof. apply keeps_bind; [auto with frame|]. intros ?. by apply keeps_modify. Qed.

#[local] Hint Resolve keeps_alloc keeps_free : frame.

Lemma keeps_enqueue i t : keeps (upd_accel i (enqueue t)).
Proof. apply keeps_upd_accel. intros a. apply untouched_queue. Qed.

#[local] Hint Resolve keeps_enqueue : frame.

Lemma ustep_keeps HZ now copied pc : keeps (ustep HZ now copied pc).
Proof.
  destruct pc; cbn [ustep]; try case_decide; auto with frame.
  - apply keeps_bind; [auto with frame|]. intros tk. destruct (_ <=? _); auto with frame.
  - destruct (_ <=? _); auto with frame.
Qed.

Lemma dequeue_keeps i : keeps (dequeue i).
Proof.
  apply keeps_bind; [auto with frame|]. intros a. destruct (a_task_queue a); auto with frame.
Qed.

Lemma worker_step_keeps m2j i now stop pc : keeps (worker_step m2j i now stop pc).
Proof.
  destruct pc; cbn [worker_step]; auto with frame.
  apply keeps_bind; [apply dequeue_keeps|auto with frame].
Qed.
End Frame.
