(* ===== verification/SystemInv.v ===== *)
(** * The invariant of the concurrent driver

    Ownership of the task slots (free, held by one submission, or queued once
    and for all), the state of each slot by its owner's control point, the
    worker's lists and load, and that every statement keeps all of it. *)

From S2P Require Import Prelude CLayout Device UserMem Uapi TaskManager Pool AccelManager Worker DevInit Chardev System.

(** ** What a control point says of the slots *)

(** The slot a call has allocated and not yet queued. *)
Definition upc_held (pc : upc) : list nat :=
  match pc with
  | U_fill t _ | U_pending t _ | U_free t | U_stamp t _ | U_enqueue t _ => [t]
  | _ => []
  end.

(** The slot a call is about to access. *)
Definition upc_slot (pc : upc) : option nat :=
  match pc with
  | U_fill t _ | U_pending t _ | U_free t | U_stamp t _ | U_enqueue t _ | U_copy t => Some t
  | U_c_state i | U_c_error i | U_c_done i => Some i
  | U_q_state i | U_q_usec i _ _ | U_q_error i _ _ _ => Some i
  | _ => None
  end.

Definition queued_states : list task_state := [TASK_STATE_PENDING; TASK_STATE_CANCELLED].
Definition running_states : list task_state := [TASK_STATE_RUNNING; TASK_STATE_CANCELLED].
Definition final_states : list task_state := [TASK_STATE_COMPLETE; TASK_STATE_CANCELLED].

Definition valid_desc (desc : task_desc) : Prop := 0 <= d_accel_type desc < 3.

(** What a call relies on, given its slot [tk]. *)
Definition call_slot_ok (pc : upc) (tk : task) : Prop :=
  match pc with
  | U_fill _ _ => t_state tk = TASK_STATE_FREE
  | U_pending _ desc => t_state tk = TASK_STATE_FREE ∧ t_accel_type tk = d_accel_type desc
  | U_stamp _ desc | U_enqueue _ desc =>
      t_state tk ∈ queued_states ∧ t_accel_type tk = d_accel_type desc
  | U_copy _ | U_c_state _ | U_c_error _ | U_c_done _
  | U_q_state _ | U_q_usec _ _ _ | U_q_error _ _ _ _ => t_state tk ≠ TASK_STATE_FREE
  | _ => True
  end.

Definition call_ok (pc : upc) : Prop :=
  match pc with
  | U_check desc => 0 <= d_accel_type desc
  | U_alloc desc | U_fill _ desc | U_pending _ desc | U_stamp _ desc | U_enqueue _ desc =>
      valid_desc desc
  | U_free _ => False
  | _ => True
  end.

(** The states of a task on accelerator with worker at [pc] and queue [q]. *)
Definition run_states (pc : wpc) : list task_state :=
  match pc with
  | W_run _ => queued_states
  | W_error_code _ | W_load_down _ | W_done _ | W_unlink _ => final_states
  | _ => running_states
  end.

Definition slot_states (pc : wpc) (q : list nat) (t : nat) : list task_state :=
  if decide (wpc_task pc = Some t) then run_states pc
  else if decide (t ∈ q) then queued_states else final_states.

(** The load estimate is raised while the worker is between its two updates. *)
Definition expected_load (pc : wpc) : Z :=
  match pc with
  | W_while | W_wait | W_check | W_lock | W_exit | W_run _ | W_load_up _ | W_done _ | W_unlink _ => 0
  | _ => 10
  end.

(** ** The invariant *)

Record worker_inv (tasks : list task) (i : nat) (a : accel) (pc : wpc) (enq deq : list nat)
    : Prop := {
  wi_fifo : enq = deq ++ a_task_queue a;
  wi_active : a_active_tasks a = option_list (wpc_task pc);
  wi_current : ∀ t, wpc_task pc = Some t → t ∈ deq;
  wi_load : a_load_percent a = expected_load pc;
  wi_tasks : ∀ t, t ∈ enq → ∃ tk, tasks !! t = Some tk ∧
    t_accel_type tk = Z.of_nat i ∧ t_state tk ∈ slot_states pc (a_task_queue a) t;
}.

Definition held (calls : list upc) : list nat := concat (upc_held <$> calls).

Definition calls_inv (calls : list upc) (tasks : list task) : Prop :=
  ∀ k pc, calls !! k = Some pc → call_ok pc ∧
    ∀ t, upc_slot pc = Some t → ∃ tk, tasks !! t = Some tk ∧ call_slot_ok pc tk.

Definition workers_inv (tasks : list task) (accels : list accel) (workers : list wpc)
    (enq deq : list (list nat)) : Prop :=
  ∀ i a, accels !! i = Some a → ∃ pc e q, workers !! i = Some pc ∧ enq !! i = Some e ∧
    deq !! i = Some q ∧ worker_inv tasks i a pc e q.

Record sys_inv (s : sys) : Prop := {
  si_pool : pool_inv (y_dev s);
  si_accounted : accounted (y_dev s);
  si_accels : length (dev_accelerators (y_dev s)) = NUM_ACCELERATORS;
  si_workers_len : length (y_workers s) = NUM_ACCELERATORS;
  si_stop_len : length (y_stop s) = NUM_ACCELERATORS;
  si_enq_len : length (y_enq s) = NUM_ACCELERATORS;
  si_deq_len : length (y_deq s) = NUM_ACCELERATORS;
  si_nodup : NoDup (dev_free_tasks (y_dev s) ++ held (y_calls s) ++ concat (y_enq s));
  si_calls : calls_inv (y_calls s) (dev_tasks (y_dev s));
  si_workers : workers_inv (dev_tasks (y_dev s)) (dev_accelerators (y_dev s)) (y_workers s)
                 (y_enq s) (y_deq s);
}.

(** ** Lists *)

Lemma concat_insert_perm {A B} (f : A → list B) (l : list A) k x y :
  l !! k = Some x → concat (f <$> <[k := y]> l) ++ f x ≡ₚ concat (f <$> l) ++ f y.
Proof.
  revert k. induction l as [|z l IH]; intros [|k]; cbn; [done..| |].
  - intros [= ->]. solve_Permutation.
  - intros Hk. rewrite <- !app_assoc. by rewrite (IH k).
Qed.

Lemma NoDup_perm {A} (l k : list A) : l ≡ₚ k → NoDup l → NoDup k.
Proof. by intros ->. Qed.

Lemma concat_arr_upd_snoc {B} (l : list (list B)) i x :
  (i < length l)%nat → concat (arr_upd i (λ e, e ++ [x]) l) ≡ₚ x :: concat l.
Proof.
  revert i. induction l as [|e l IH]; intros i; cbn; [lia|]. destruct i as [|i]; intros Hi.
  - unfold arr_upd. cbn. solve_Permutation.
  - change (arr_upd (S i) ?f (e :: l)) with (e :: arr_upd i f l). cbn.
    rewrite IH by lia. solve_Permutation.
Qed.

Lemma elem_of_concat {B} (l : list (list B)) i e x :
  l !! i = Some e → x ∈ e → x ∈ concat l.
Proof.
  revert i. induction l as [|e' l IH]; intros [|i] Hi Hx; cbn in *; [done..| |].
  - injection Hi as ->. set_solver.
  - apply elem_of_app. right. by eapply IH.
Qed.

Lemma elem_of_concat_inv {B} (l : list (list B)) x :
  x ∈ concat l → ∃ i e, l !! i = Some e ∧ x ∈ e.
Proof.
  induction l as [|e l IH]; cbn; [by intros []%not_elem_of_nil|].
  intros [Hx|(i & e' & ? & ?)%IH]%elem_of_app; [by exists 0%nat, e|by exists (S i), e'].
Qed.

Lemma NoDup_concat_disjoint {B} (l : list (list B)) i j a b x :
  NoDup (concat l) → l !! i = Some a → l !! j = Some b → x ∈ a → x ∈ b → i = j.
Proof.
  revert i j. induction l as [|e l IH]; intros [|i] [|j]; cbn; [done..| | |];
    intros (_ & Hd & Hnd)%NoDup_app Hi Hj Ha Hb.
  - injection Hi as ->. edestruct Hd; [done|]. by eapply elem_of_concat.
  - injection Hj as ->. edestruct Hd; [done|]. by eapply elem_of_concat.
  - f_equal. by eapply IH.
Qed.

Lemma NoDup_concat_elem {B} (l : list (list B)) i e : NoDup (concat l) → l !! i = Some e → NoDup e.
Proof.
  revert i. induction l as [|e' l IH]; intros [|i]; cbn; [done..| |];
    intros (? & _ & ?)%NoDup_app Hi; [by injection Hi as ->|eauto].
Qed.

(** ** Ownership *)

Section Owned.
Context (free : list nat) (calls : list upc) (enq : list (list nat)).
Context (Hnd : NoDup (free ++ held calls ++ concat enq)).

Lemma held_lookup k pc t : calls !! k = Some pc → t ∈ upc_held pc → t ∈ held calls.
Proof.
  intros Hk. apply elem_of_concat with (i := k). by rewrite list_lookup_fmap, Hk.
Qed.

Lemma owned_free t : t ∈ free → t ∉ held calls ∧ t ∉ concat enq.
Proof. intros Ht. apply NoDup_app in Hnd as (_ & Hd & _). specialize (Hd t Ht). set_solver. Qed.

Lemma owned_held k pc t : calls !! k = Some pc → t ∈ upc_held pc → t ∉ free ∧ t ∉ concat enq.
Proof.
  intros Hk Ht. pose proof (held_lookup k pc t Hk Ht) as Hh.
  apply NoDup_app in Hnd as (_ & Hd & (_ & Hd' & _)%NoDup_app). split; [|by apply Hd'].
  intros Hf. specialize (Hd t Hf). set_solver.
Qed.

Lemma owned_held_other k pc j pcj t :
  calls !! k = Some pc → t ∈ upc_held pc → calls !! j = Some pcj → t ∈ upc_held pcj → j = k.
Proof.
  intros Hk Ht Hj Htj. apply NoDup_app in Hnd as (_ & _ & (Hh & _ & _)%NoDup_app).
  eapply NoDup_concat_disjoint; [exact Hh|rewrite list_lookup_fmap..|exact Htj|exact Ht].
  - by rewrite Hj.
  - by rewrite Hk.
Qed.

Lemma owned_enq i e t : enq !! i = Some e → t ∈ e → t ∉ free ∧ t ∉ held calls ∧ NoDup e.
Proof.
  intros Hi Ht. pose proof (elem_of_concat _ _ _ _ Hi Ht) as Hc.
  apply NoDup_app in Hnd as (_ & Hd & (_ & Hd' & He)%NoDup_app). split_and!.
  - intros Hf. specialize (Hd t Hf). set_solver.
  - intros Hh. by specialize (Hd' t Hh).
  - by eapply NoDup_concat_elem.
Qed.

Lemma owned_enq_other i j e e' t :
  enq !! i = Some e → enq !! j = Some e' → t ∈ e → t ∈ e' → i = j.
Proof.
  apply NoDup_app in Hnd as (_ & _ & (_ & _ & He)%NoDup_app). by apply NoDup_concat_disjoint.
Qed.
End Owned.

(** A call reaches its slot as the holder, or knows only that it is not free. *)
Lemma upc_slot_cases pc t :
  upc_slot pc = Some t →
  upc_held pc = [t] ∨
  (upc_held pc = [] ∧ ∀ tk, call_slot_ok pc tk ↔ t_state tk ≠ TASK_STATE_FREE).
Proof. destruct pc; cbn; intros [= ->]; auto. Qed.

Lemma slot_states_cancelled pc q t : TASK_STATE_CANCELLED ∈ slot_states pc q t.
Proof.
  unfold slot_states, run_states, queued_states, running_states, final_states.
  repeat case_decide; destruct pc; set_solver.
Qed.

Lemma slot_states_live pc q t st : st ∈ slot_states pc q t → st ≠ TASK_STATE_FREE.
Proof.
  unfold slot_states, run_states, queued_states, running_states, final_states.
  repeat case_decide; destruct pc; set_solver.
Qed.

(** ** Updates of one slot *)

Lemma calls_inv_upd calls tasks t f :
  calls_inv calls tasks →
  (∀ j pc tk, calls !! j = Some pc → upc_slot pc = Some t → tasks !! t = Some tk →
    call_slot_ok pc tk → call_slot_ok pc (f tk)) →
  calls_inv calls (arr_upd t f tasks).
Proof.
  intros Hc Hf j pc Hj. destruct (Hc j pc Hj) as [Hok Hslot]. split; [done|].
  intros u Hu. destruct (Hslot u Hu) as (tk & Hk & Hs). rewrite arr_upd_lookup, Hk.
  case_decide; subst; cbn; eauto.
Qed.

Lemma calls_inv_insert calls tasks k pc' :
  calls_inv calls tasks → call_ok pc' →
  (∀ t, upc_slot pc' = Some t → ∃ tk, tasks !! t = Some tk ∧ call_slot_ok pc' tk) →
  calls_inv (<[k := pc']> calls) tasks.
Proof.
  intros Hc Hok Hs j pc. rewrite list_lookup_insert_Some.
  intros [(-> & -> & _)|[_ Hj]]; eauto.
Qed.

Lemma calls_inv_step calls tasks k pc' t f :
  calls_inv calls tasks → call_ok pc' →
  (∀ u, upc_slot pc' = Some u → ∃ tk, arr_upd t f tasks !! u = Some tk ∧ call_slot_ok pc' tk) →
  (∀ j pc tk, j ≠ k → calls !! j = Some pc → upc_slot pc = Some t → tasks !! t = Some tk →
    call_slot_ok pc tk → call_slot_ok pc (f tk)) →
  calls_inv (<[k := pc']> calls) (arr_upd t f tasks).
Proof.
  intros Hc Hok Hs Hf j pc. rewrite list_lookup_insert_Some.
  intros [(-> & -> & _)|[Hne Hj]]; [eauto|]. destruct (Hc j pc Hj) as [Hokj Hslot].
  split; [done|]. intros u Hu. destruct (Hslot u Hu) as (tk & Hk & Hsj).
  rewrite arr_upd_lookup, Hk. case_decide; subst; cbn; eauto.
Qed.

Lemma workers_inv_upd tasks accels workers enq deq t f :
  workers_inv tasks accels workers enq deq →
  (∀ i a pc e tk, accels !! i = Some a → workers !! i = Some pc → enq !! i = Some e → t ∈ e →
    tasks !! t = Some tk → t_state tk ∈ slot_states pc (a_task_queue a) t →
    t_accel_type (f tk) = t_accel_type tk ∧
    t_state (f tk) ∈ slot_states pc (a_task_queue a) t) →
  workers_inv (arr_upd t f tasks) accels workers enq deq.
Proof.
  intros Hw Hf i a Ha. destruct (Hw i a Ha) as (pc & e & q & Hpc & He & Hq & []).
  exists pc, e, q. split_and!; [done..|]. split; [done..|].
  intros u Hu. destruct (wi_tasks0 u Hu) as (tk & Hk & Hty & Hst). rewrite arr_upd_lookup, Hk.
  case_decide; subst; cbn; [|eauto].
  destruct (Hf i a pc _ tk Ha Hpc He Hu Hk Hst) as [Hty' Hst'].
  eexists. split; [done|]. by rewrite Hty'.
Qed.

(** ** Steps of a call *)

(** The system after call [k] moved to [pc'] with device [d']. *)
Definition user_next (s : sys) (k : nat) (pc pc' : upc) (d' : dev) : sys :=
  {| y_dev := d'; y_now := y_now s; y_workers := y_workers s; y_stop := y_stop s;
     y_calls := <[k := pc']> (y_calls s); y_remover := y_remover s;
     y_enq := enq_effect pc (y_enq s); y_deq := y_deq s |}.

Lemma held_same calls k pc pc' :
  calls !! k = Some pc → upc_held pc' = upc_held pc →
  held (<[k := pc']> calls) ≡ₚ held calls.
Proof.
  intros Hk Hh. pose proof (concat_insert_perm upc_held calls k pc pc' Hk) as Hp.
  rewrite Hh in Hp. by apply Permutation_app_inv_r in Hp.
Qed.

(** A step that keeps the ownership of the slots and updates one task at most. *)
Lemma user_keep_inv s k pc pc' t f :
  sys_inv s → y_calls s !! k = Some pc →
  upc_held pc' = upc_held pc → enq_effect pc (y_enq s) = y_enq s →
  t ∉ dev_free_tasks (y_dev s) → (∀ tk, t_id (f tk) = t_id tk) →
  calls_inv (<[k := pc']> (y_calls s)) (arr_upd t f (dev_tasks (y_dev s))) →
  workers_inv (arr_upd t f (dev_tasks (y_dev s))) (dev_accelerators (y_dev s)) (y_workers s)
    (y_enq s) (y_deq s) →
  sys_inv (user_next s k pc pc' (upd_tasks (arr_upd t f) (y_dev s))).
Proof.
  intros [] Hk Hh He Ht Hid Hc Hw. split; cbn -[accounted]; rewrite ?He; auto.
  - by apply pool_inv_upd_live.
  - cbn. by rewrite (held_same _ _ _ _ Hk Hh).
Qed.

(** ... and one that changes no task. *)
Lemma user_stay_inv s k pc pc' :
  sys_inv s → y_calls s !! k = Some pc →
  upc_held pc' = upc_held pc → enq_effect pc (y_enq s) = y_enq s →
  call_ok pc' →
  (∀ t, upc_slot pc' = Some t →
     ∃ tk, dev_tasks (y_dev s) !! t = Some tk ∧ call_slot_ok pc' tk) →
  sys_inv (user_next s k pc pc' (y_dev s)).
Proof.
  intros [] Hk Hh He Hok Hs. split; cbn -[accounted]; rewrite ?He; auto.
  - by rewrite (held_same _ _ _ _ Hk Hh).
  - by apply calls_inv_insert.
Qed.

(** A write by the call that holds the slot. *)
Lemma user_holder_inv s k pc pc' t f tk :
  sys_inv s → y_calls s !! k = Some pc →
  upc_held pc = [t] → upc_held pc' = [t] → upc_slot pc' = Some t →
  enq_effect pc (y_enq s) = y_enq s → call_ok pc' →
  dev_tasks (y_dev s) !! t = Some tk → call_slot_ok pc' (f tk) →
  (∀ tk, t_id (f tk) = t_id tk) →
  (t_state tk ≠ TASK_STATE_FREE → t_state (f tk) ≠ TASK_STATE_FREE) →
  sys_inv (user_next s k pc pc' (upd_tasks (arr_upd t f) (y_dev s))).
Proof.
  intros Hinv Hk Hh Hh' Hs' He Hok Ht Hslot Hid Hlive. pose proof Hinv as [].
  destruct (owned_held _ _ _ si_nodup0 k pc t) as [Hnf Hne]; [done|rewrite Hh; set_solver|].
  apply user_keep_inv; [done..|congruence|done|done|done| |].
  - apply calls_inv_step; [done..| |].
    + intros u Hu. rewrite Hs' in Hu. injection Hu as <-. rewrite arr_upd_same, Ht. eauto.
    + intros j pcj u Hjk Hj Hsj Hu. simplify_eq. destruct (upc_slot_cases pcj t Hsj) as [Hhj|[Hhj Hiff]].
      * destruct Hjk. eapply (owned_held_other _ _ _ si_nodup0 k pc j pcj t); rewrite ?Hh, ?Hhj;
          set_solver.
      * rewrite !Hiff. done.
  - apply workers_inv_upd; [done|]. intros i a pcw e u _ _ He' Hte. exfalso. apply Hne.
    by eapply elem_of_concat.
Qed.

(** A write of task_cancel, by a call that found the slot live. *)
Lemma user_cancel_inv s k pc pc' t f tk :
  sys_inv s → y_calls s !! k = Some pc →
  upc_held pc = [] → upc_held pc' = [] → (∀ u, upc_slot pc' = Some u → u = t) →
  enq_effect pc (y_enq s) = y_enq s → call_ok pc' →
  dev_tasks (y_dev s) !! t = Some tk → t_state tk ≠ TASK_STATE_FREE →
  (∀ tk, t_id (f tk) = t_id tk ∧ t_accel_type (f tk) = t_accel_type tk) →
  (t_state (f tk) = t_state tk ∨ t_state (f tk) = TASK_STATE_CANCELLED) →
  sys_inv (user_next s k pc pc' (upd_tasks (arr_upd t f) (y_dev s))).
Proof.
  intros Hinv Hk Hh Hh' Hs' He Hok Ht Hlive Hf Hst. pose proof Hinv as [].
  assert (Hlive' : t_state (f tk) ≠ TASK_STATE_FREE) by (destruct Hst as [-> | ->]; done).
  apply user_keep_inv; [done..|congruence|done| |apply Hf| |].
  - intros Hfree. by apply Hlive, (pi_free _ si_pool0 t).
  - apply calls_inv_step; [done..| |].
    + intros u Hu. pose proof (Hs' u Hu) as ->. rewrite arr_upd_same, Ht. eexists. split; [done|].
      destruct (upc_slot_cases pc' t Hu) as [Hhj|[_ Hiff]]; [congruence|]. by apply Hiff.
    + intros j pcj u Hjk Hj Hsj Hu. rewrite Ht in Hu. injection Hu as <-. destruct (Hf tk) as [_ Hty].
      destruct (upc_slot_cases pcj t Hsj) as [Hhj|[_ Hiff]]; [|by rewrite !Hiff].
      destruct pcj; cbn; rewrite ?Hty; try done; intros; destruct_and?; try done;
        split; try done; destruct Hst as [-> | ->]; try done; unfold queued_states; set_solver.
  - apply workers_inv_upd; [done|]. intros i a pcw e u _ _ _ _ Hu Hin. simplify_eq.
    split; [apply Hf|]. destruct Hst as [-> | ->]; [done|apply slot_states_cancelled].
Qed.

(** The allocation moves the head of the free list to the call. *)
Lemma user_alloc_inv s k desc i l :
  sys_inv s → y_calls s !! k = Some (U_alloc desc) → dev_free_tasks (y_dev s) = i :: l →
  sys_inv (user_next s k (U_alloc desc) (U_fill i desc) (alloc_dev i (y_dev s))).
Proof.
  intros Hinv Hk Hf. pose proof Hinv as [].
  destruct (pool_inv_head i l _ si_pool0 Hf) as (_ & Hdel & _ & t & Ht & Hfree).
  destruct (si_calls0 k _ Hk) as [Hok _].
  destruct (owned_free _ _ _ si_nodup0 i) as [Hnh Hne]; [rewrite Hf; set_solver|].
  split; cbn [user_next y_dev y_calls y_workers y_stop y_enq y_deq enq_effect]; try done.
  - by eapply pool_inv_alloc.
  - by eapply accounted_alloc.
  - cbn. rewrite Hdel. rewrite Hf in si_nodup0.
    pose proof (concat_insert_perm upc_held (y_calls s) k (U_alloc desc) (U_fill i desc) Hk) as Hp.
    cbn [upc_held] in Hp. rewrite app_nil_r in Hp. fold (held (<[k:=U_fill i desc]> (y_calls s))) in Hp.
    rewrite Hp. eapply NoDup_perm; [|exact si_nodup0]. unfold held. solve_Permutation.
  - cbn. apply calls_inv_step; [done..| |].
    + intros u [= <-]. rewrite arr_upd_same, Ht. eexists. split; [done|]. done.
    + intros j pc tk Hjk Hj Hsj Htk Hok'. destruct (upc_slot_cases pc i Hsj) as [Hh|[_ Hiff]].
      * destruct Hnh. eapply held_lookup; [done|]. rewrite Hh. set_solver.
      * apply Hiff in Hok'. by simplify_eq.
  - cbn. apply workers_inv_upd; [done|]. intros j a pc e tk _ _ He Hte. destruct Hne.
    by eapply elem_of_concat.
Qed.

(** The list_add_tail hands the slot over to the accelerator's queue. *)
Lemma user_enqueue_inv s k t desc :
  sys_inv s → y_calls s !! k = Some (U_enqueue t desc) →
  sys_inv (user_next s k (U_enqueue t desc) (U_copy t)
    (upd_accelerators (arr_upd (Z.to_nat (d_accel_type desc)) (enqueue t)) (y_dev s))).
Proof.
  intros Hinv Hk. pose proof Hinv as [].
  destruct (si_calls0 k _ Hk) as [Hok Hs]. destruct (Hs t eq_refl) as (tk & Ht & Hst & Hty).
  cbn in Hok, Hst. unfold valid_desc in Hok.
  assert (Hlt : (Z.to_nat (d_accel_type desc) < NUM_ACCELERATORS)%nat)
    by (unfold NUM_ACCELERATORS; lia).
  destruct (owned_held _ _ _ si_nodup0 k _ t Hk) as [Hnf Hne]; [cbn; set_solver|].
  split; cbn [user_next y_dev y_calls y_workers y_stop y_enq y_deq enq_effect]; try done.
  - by apply pool_inv_upd_accelerators.
  - cbn. by rewrite arr_upd_length.
  - by rewrite arr_upd_length.
  - pose proof (concat_insert_perm upc_held (y_calls s) k (U_enqueue t desc) (U_copy t) Hk) as Hp.
    cbn [upc_held] in Hp. rewrite app_nil_r in Hp. fold (held (y_calls s)) in Hp.
    eapply NoDup_perm; [|exact si_nodup0]. cbn.
    rewrite (concat_arr_upd_snoc _ _ t) by lia. rewrite <- Hp. unfold held. solve_Permutation.
  - cbn. apply calls_inv_insert; [done..|]. intros u [= <-]. exists tk. split; [done|].
    cbn. intros E. rewrite E in Hst. unfold queued_states in Hst. set_solver.
  - cbn. intros i a'. rewrite arr_upd_lookup. case_decide as Hi.
    2: { intros Ha. destruct (si_workers0 i a' Ha) as (pc & e & q & Hpc & He & Hq & Hw).
         exists pc, e, q. split_and!; [done|by rewrite arr_upd_other|done|done]. }
    subst i. set (i := Z.to_nat (d_accel_type desc)) in *. intros (a & Ha & ->)%fmap_Some.
    destruct (si_workers0 i a Ha) as (pc & e & q & Hpc & He & Hq & []).
    exists pc, (e ++ [t]), q. split_and!; [done|by rewrite arr_upd_same, He|done|].
    assert (Hte : t ∉ e) by (intros Hte; apply Hne; by eapply elem_of_concat).
    split; cbn; try done.
    + rewrite wi_fifo0. by rewrite app_assoc.
    + intros u [Hu|Hu%list_elem_of_singleton]%elem_of_app.
      * destruct (wi_tasks0 u Hu) as (tku & ? & ? & Hsu). exists tku. split_and!; [done..|].
        unfold slot_states in *. case_decide; [done|].
        destruct (decide (u ∈ a_task_queue a)) as [Huq|Huq].
        -- by rewrite decide_True by set_solver.
        -- rewrite decide_False; [done|]. intros [|Hut%list_elem_of_singleton]%elem_of_app; [done|].
           by subst.
      * subst u. exists tk. split_and!; [done|unfold i; lia|].
        unfold slot_states. rewrite decide_False, decide_True; [done|set_solver|].
        intros Hc. apply Hte. rewrite wi_fifo0. apply elem_of_app. left. by apply wi_current0.
Qed.

(** Every statement of a call runs and keeps the invariant. *)
Definition user_safe (HZ : Z) (s : sys) (k : nat) (copied : bool) (pc : upc) : Prop :=
  ∃ pc' d', ustep HZ (y_now s) copied pc (y_dev s) = (Ok pc', d') ∧
            sys_inv (user_next s k pc pc' d').

Section UserSafe.
Context (HZ : Z) (s : sys) (k : nat) (copied : bool).
Context (Hinv : sys_inv s).

Lemma call_slot pc t :
  y_calls s !! k = Some pc → upc_slot pc = Some t →
  call_ok pc ∧ ∃ tk, dev_tasks (y_dev s) !! t = Some tk ∧ call_slot_ok pc tk.
Proof. intros Hk Ht. destruct (si_calls s Hinv k pc Hk) as [Hok Hs]. eauto. Qed.

(** Statements that read one slot, or none, and write nothing. *)
Lemma user_read_safe pc t tk pc' :
  y_calls s !! k = Some pc →
  dev_tasks (y_dev s) !! t = Some tk →
  ustep HZ (y_now s) copied pc (y_dev s) = (Ok pc', y_dev s) →
  upc_held pc' = upc_held pc →
  enq_effect pc (y_enq s) = y_enq s → call_ok pc' →
  (∀ u, upc_slot pc' = Some u → u = t ∧ call_slot_ok pc' tk) →
  user_safe HZ s k copied pc.
Proof.
  intros Hk Ht Hrun Hh He Hok Hs. exists pc', (y_dev s). split; [done|].
  apply user_stay_inv; [done..|]. intros u Hu. destruct (Hs u Hu) as [-> ?]. eauto.
Qed.

Lemma user_pure_safe pc pc' :
  y_calls s !! k = Some pc →
  ustep HZ (y_now s) copied pc (y_dev s) = (Ok pc', y_dev s) →
  upc_held pc' = upc_held pc → upc_slot pc' = None →
  enq_effect pc (y_enq s) = y_enq s → call_ok pc' →
  user_safe HZ s k copied pc.
Proof.
  intros Hk Hrun Hh Hs He Hok. exists pc', (y_dev s). split; [done|].
  apply user_stay_inv; [done..|]. by rewrite Hs.
Qed.

Lemma scan_lookup i : (i < MAX_TASKS)%nat → ∃ tk, dev_tasks (y_dev s) !! i = Some tk.
Proof.
  intros Hi. apply lookup_lt_is_Some_2. by rewrite (pi_tasks _ (si_pool s Hinv)).
Qed.

Lemma task_matches_live id tk : task_matches id tk = true → t_state tk ≠ TASK_STATE_FREE.
Proof. unfold task_matches. intros [_ H]%andb_prop. by apply bool_decide_eq_true in H. Qed.

Lemma user_check_safe desc :
  y_calls s !! k = Some (U_check desc) → user_safe HZ s k copied (U_check desc).
Proof.
  intros Hk. destruct (si_calls s Hinv k _ Hk) as [Hok _]. cbn in Hok.
  destruct (submit_error desc) as [e|] eqn:He.
  - eapply user_pure_safe; [exact Hk|cbn [ustep]; by rewrite He|done..].
  - eapply user_pure_safe; [exact Hk|cbn [ustep]; by rewrite He|done..|].
    unfold submit_error in He. cbn. unfold valid_desc.
    destruct (Z.leb_spec 3 (d_accel_type desc)); [done|lia].
Qed.

Lemma user_alloc_safe desc :
  y_calls s !! k = Some (U_alloc desc) → user_safe HZ s k copied (U_alloc desc).
Proof.
  intros Hk. pose proof (si_pool s Hinv) as Hp. pose proof (si_accounted s Hinv) as Hacc.
  pose proof (accounted_next _ Hacc Hp).
  pose proof (task_alloc_ok _ Hp ltac:(lia)) as Hrun.
  destruct (dev_free_tasks (y_dev s)) as [|i l] eqn:Hf.
  - eapply user_pure_safe;
      [exact Hk|cbn [ustep]; unfold mbind, KM_bind; by rewrite Hrun|done..].
  - eexists _, _. split; [cbn [ustep]; unfold mbind, KM_bind; by rewrite Hrun|].
    by eapply user_alloc_inv.
Qed.

Lemma user_write_safe pc pc' t f tk :
  dev_tasks (y_dev s) !! t = Some tk →
  (∀ d, dev_tasks d !! t = Some tk →
    ustep HZ (y_now s) copied pc d = (Ok pc', upd_tasks (arr_upd t f) d)) →
  sys_inv (user_next s k pc pc' (upd_tasks (arr_upd t f) (y_dev s))) →
  user_safe HZ s k copied pc.
Proof. intros Ht Hrun Hn. eexists _, _. split; [by apply Hrun|done]. Qed.

Ltac slot_of Hk :=
  let Hok := fresh "Hok" in let tk := fresh "tk" in
  let Ht := fresh "Ht" in let Hs := fresh "Hs" in
  destruct (call_slot _ _ Hk eq_refl) as (Hok & tk & Ht & Hs); cbn in Hok, Hs.

Ltac run_ustep Ht :=
  cbn [ustep]; unfold mbind, KM_bind, mret, KM_ret;
  first [erewrite upd_task_run by exact Ht | erewrite get_task_run by exact Ht]; reflexivity.

Lemma user_hold_safe pc t desc :
  y_calls s !! k = Some pc →
  pc = U_fill t desc ∨ pc = U_pending t desc ∨ pc = U_stamp t desc →
  user_safe HZ s k copied pc.
Proof.
  intros Hk [-> | [-> | ->]]; slot_of Hk.
  - eapply user_write_safe; [done|intros d Hd; run_ustep Hd|].
    eapply user_holder_inv; try done.
  - destruct Hs as [Hfree Hty]. unfold valid_desc in Hok.
    eapply user_write_safe; [done| |].
    + intros d Hd. cbn [ustep]. unfold mbind, KM_bind, mret, KM_ret.
      rewrite (get_task_run _ _ _ Hd). change (Z.of_nat NUM_ACCELERATORS) with 3.
      rewrite Hty, (proj2 (Z.leb_gt _ _)) by lia.
      rewrite (upd_task_run _ _ _ _ Hd). reflexivity.
    + eapply user_holder_inv; try done. cbn. split; [|done]. unfold queued_states. set_solver.
  - eapply user_write_safe; [done|intros d Hd; run_ustep Hd|].
    eapply user_holder_inv; done.
Qed.

Lemma user_enqueue_safe t desc :
  y_calls s !! k = Some (U_enqueue t desc) → user_safe HZ s k copied (U_enqueue t desc).
Proof.
  intros Hk. slot_of Hk. unfold valid_desc in Hok.
  destruct (lookup_lt_is_Some_2 (dev_accelerators (y_dev s)) (Z.to_nat (d_accel_type desc)))
    as [a Ha]; [rewrite (si_accels s Hinv); unfold NUM_ACCELERATORS; lia|].
  eexists _, _. split; [|by apply user_enqueue_inv].
  cbn [ustep]. unfold mbind, KM_bind, mret, KM_ret. by rewrite (upd_accel_run _ _ _ _ Ha).
Qed.

Lemma user_cancel_safe pc i :
  y_calls s !! k = Some pc → pc = U_c_state i ∨ pc = U_c_error i ∨ pc = U_c_done i →
  user_safe HZ s k copied pc.
Proof.
  intros Hk [-> | [-> | ->]]; slot_of Hk;
    (eapply user_write_safe; [done|intros d Hd; run_ustep Hd|];
     eapply user_cancel_inv; try done; cbn; auto; congruence).
Qed.

Lemma user_scan_safe pc id i :
  y_calls s !! k = Some pc → pc = U_cancel id i ∨ pc = U_query id i →
  user_safe HZ s k copied pc.
Proof.
  intros Hk Hpc. destruct (decide (i < MAX_TASKS)%nat) as [Hi|Hi].
  - destruct (scan_lookup i Hi) as [tk Ht]. destruct (task_matches id tk) eqn:Hm.
    + pose proof (task_matches_live _ _ Hm). destruct Hpc as [-> | ->];
        (eapply user_read_safe; [exact Hk|exact Ht|cbn [ustep]; rewrite decide_True by done;
           unfold mbind, KM_bind; rewrite (get_task_run _ _ _ Ht), Hm; reflexivity|done..|]);
        by intros ? [= <-].
    + destruct Hpc as [-> | ->];
        (eapply user_pure_safe; [exact Hk|cbn [ustep]; rewrite decide_True by done;
           unfold mbind, KM_bind; rewrite (get_task_run _ _ _ Ht), Hm; reflexivity|done..]).
  - destruct Hpc as [-> | ->];
      (eapply user_pure_safe;
        [exact Hk|cbn [ustep]; rewrite decide_False by done; reflexivity|done..]).
Qed.

Lemma user_report_safe pc i :
  y_calls s !! k = Some pc →
  pc = U_q_state i ∨ (∃ id st, pc = U_q_usec i id st) ∨
  (∃ id st us, pc = U_q_error i id st us) ∨ pc = U_copy i →
  user_safe HZ s k copied pc.
Proof.
  intros Hk [-> | [(id & st & ->) | [(id & st & us & ->) | ->]]]; slot_of Hk;
    (eapply user_read_safe; [exact Hk|exact Ht|run_ustep Ht|done..|]); by intros ? [= <-].
Qed.

Lemma user_info_safe info :
  y_calls s !! k = Some (U_info info) → user_safe HZ s k copied (U_info info).
Proof.
  intros Hk. change (Z.of_nat NUM_ACCELERATORS) with 3.
  destruct (Z.leb_spec 3 (i_accel_type info)) as [Hi|Hi].
  - eapply user_pure_safe; [exact Hk|cbn [ustep]; change (Z.of_nat NUM_ACCELERATORS) with 3;
      by rewrite (proj2 (Z.leb_le 3 _) Hi)|done..].
  - destruct (lookup_lt_is_Some_2 (dev_accelerators (y_dev s)) (Z.to_nat (i_accel_type info)))
      as [a Ha]; [rewrite (si_accels s Hinv); unfold NUM_ACCELERATORS; lia|].
    eapply (user_pure_safe _ (U_i_copy (accel_get_info a info))); [exact Hk| |done..].
    cbn [ustep]. change (Z.of_nat NUM_ACCELERATORS) with 3.
    rewrite (proj2 (Z.leb_gt _ _)) by lia. unfold mbind, KM_bind.
    by rewrite (get_accel_run _ _ _ Ha).
Qed.

Lemma user_step_safe pc : y_calls s !! k = Some pc → user_safe HZ s k copied pc.
Proof.
  intros Hk. destruct pc;
    eauto using user_check_safe, user_alloc_safe, user_enqueue_safe, user_info_safe.
  - eapply user_hold_safe; eauto.
  - eapply user_hold_safe; eauto.
  - by destruct (si_calls s Hinv k _ Hk) as [[] _].
  - eapply user_hold_safe; eauto.
  - eapply user_report_safe; eauto.
  - eapply user_scan_safe; eauto.
  - eapply user_cancel_safe; eauto.
  - eapply user_cancel_safe; eauto.
  - eapply user_cancel_safe; eauto.
  - eapply user_scan_safe; eauto.
  - eapply user_report_safe; eauto.
  - eapply user_report_safe; eauto 10.
  - eapply user_report_safe; eauto 10.
  - by eapply user_pure_safe.
  - by eapply user_pure_safe.
  - by eapply user_pure_safe.
  - by eapply user_pure_safe.
  - by eapply user_pure_safe.
Qed.
End UserSafe.

(** ** Steps of a worker *)

Definition worker_next (s : sys) (i : nat) (pc pc' : wpc) (d' : dev) : sys :=
  {| y_dev := d'; y_now := y_now s; y_workers := <[i := pc']> (y_workers s);
     y_stop := y_stop s; y_calls := y_calls s; y_remover := y_remover s;
     y_enq := y_enq s; y_deq := deq_effect i pc pc' (y_deq s) |}.

(** Changing the part of accelerator [i] in the workers' invariant, and tasks
    the others do not have. *)
Lemma workers_inv_step tasks tasks' accels workers enq deq i g h pc pc' :
  workers_inv tasks accels workers enq deq → workers !! i = Some pc →
  (∀ j u e, j ≠ i → enq !! j = Some e → u ∈ e → tasks' !! u = tasks !! u) →
  (∀ a e q, accels !! i = Some a → enq !! i = Some e → deq !! i = Some q →
    worker_inv tasks i a pc e q → worker_inv tasks' i (g a) pc' e (h q)) →
  workers_inv tasks' (arr_upd i g accels) (<[i := pc']> workers) enq (arr_upd i h deq).
Proof.
  intros Hw Hpc Ho Hi j a'. rewrite arr_upd_lookup. case_decide as Hij.
  - subst j. intros (a & Ha & ->)%fmap_Some.
    destruct (Hw i a Ha) as (pc0 & e & q & Hpc0 & He & Hq & Hinv). simplify_eq.
    exists pc', e, (h q). rewrite list_lookup_insert_eq by (by eapply lookup_lt_Some).
    rewrite arr_upd_same, Hq. split_and!; [done..|]. by eapply Hi.
  - intros Ha. destruct (Hw j a' Ha) as (pc0 & e & q & ? & He & ? & []).
    exists pc0, e, q. rewrite list_lookup_insert_ne, arr_upd_other by done.
    split_and!; [done..|]. split; [done..|]. intros u Hu. rewrite (Ho j u e) by done. eauto.
Qed.

Lemma arr_upd_id {A} i (l : list A) : arr_upd i id l = l.
Proof. by apply list_alter_id. Qed.

Section WorkerSafe.
Context (s : sys) (i : nat) (pc : wpc).
Context (Hinv : sys_inv s) (Hpc : y_workers s !! i = Some pc).

Lemma worker_parts : ∃ a e q,
  dev_accelerators (y_dev s) !! i = Some a ∧ y_enq s !! i = Some e ∧ y_deq s !! i = Some q ∧
  worker_inv (dev_tasks (y_dev s)) i a pc e q.
Proof.
  destruct (lookup_lt_is_Some_2 (dev_accelerators (y_dev s)) i) as [a Ha].
  { rewrite (si_accels s Hinv), <- (si_workers_len s Hinv). by eapply lookup_lt_Some. }
  destruct (si_workers s Hinv i a Ha) as (pc0 & e & q & Hpc0 & He & Hq & Hw).
  simplify_eq. eauto 10.
Qed.

(** The worker's task: queued, so neither free nor held by a call. *)
Lemma worker_task_parts t :
  wpc_task pc = Some t →
  ∃ a e tk, dev_accelerators (y_dev s) !! i = Some a ∧ y_enq s !! i = Some e ∧ t ∈ e ∧
    t ∉ dev_free_tasks (y_dev s) ∧ t ∉ held (y_calls s) ∧ NoDup e ∧ t ∉ a_task_queue a ∧
    a_active_tasks a = [t] ∧ a_load_percent a = expected_load pc ∧
    dev_tasks (y_dev s) !! t = Some tk ∧ t_accel_type tk = Z.of_nat i ∧
    t_state tk ∈ run_states pc.
Proof.
  intros Ht. destruct worker_parts as (a & e & q & Ha & He & Hq & []).
  assert (Hte : t ∈ e) by (rewrite wi_fifo0; apply elem_of_app; left; by apply wi_current0).
  destruct (owned_enq _ _ _ (si_nodup s Hinv) i e t He Hte) as (Hf & Hh & Hnd).
  destruct (wi_tasks0 t Hte) as (tk & Htk & Hty & Hst).
  unfold slot_states in Hst. rewrite decide_True in Hst by done.
  exists a, e, tk. split_and!; try done; [|by rewrite wi_active0, Ht].
  intros Htq. rewrite wi_fifo0 in Hnd. apply NoDup_app in Hnd as (_ & Hd & _).
  by apply (Hd t (wi_current0 t Ht)).
Qed.

(** A step that keeps the worker at its task [t], which it may update. *)
Lemma worker_local_inv pc' t f g :
  wpc_task pc = Some t → wpc_task pc' = Some t →
  deq_effect i pc pc' (y_deq s) = y_deq s →
  (∀ tk, t_id (f tk) = t_id tk ∧ t_accel_type (f tk) = t_accel_type tk) →
  (∀ tk, t_state tk ∈ run_states pc → t_state (f tk) ∈ run_states pc') →
  (∀ a, a_task_queue (g a) = a_task_queue a ∧ a_active_tasks (g a) = a_active_tasks a) →
  (∀ a, a_load_percent a = expected_load pc → a_load_percent (g a) = expected_load pc') →
  sys_inv (worker_next s i pc pc'
    (upd_accelerators (arr_upd i g) (upd_tasks (arr_upd t f) (y_dev s)))).
Proof.
  intros Ht Ht' Hdeq Hf Hst Hg Hload.
  destruct (worker_task_parts t Ht) as (a & e & tk & Ha & He & Hte & Hnf & Hnh & _ & _ & _ & _
    & Htk & _ & Hrun).
  assert (Hlive : t_state (f tk) ≠ TASK_STATE_FREE).
  { apply (slot_states_live pc' [] t). unfold slot_states. rewrite decide_True by done. auto. }
  pose proof Hinv as []. split; cbn [worker_next y_dev y_calls y_workers y_stop y_enq y_deq];
    rewrite ?Hdeq; try done.
  - apply pool_inv_upd_accelerators, pool_inv_upd_live; [apply Hf|done..].
  - cbn. by rewrite arr_upd_length.
  - by rewrite length_insert.
  - cbn. apply calls_inv_upd; [done|]. intros j pcj tk0 Hj Hsj Htk0 Hok. simplify_eq.
    destruct (upc_slot_cases pcj t Hsj) as [Hh|[_ Hiff]]; [|by apply Hiff].
    destruct Hnh. eapply held_lookup; [done|]. rewrite Hh. set_solver.
  - cbn. rewrite <- (arr_upd_id i (y_deq s)).
    apply (workers_inv_step (dev_tasks (y_dev s)) _ _ _ _ _ i g id pc); [done..| |].
    + intros j u e' Hji He' Hu. apply arr_upd_other. intros <-. destruct Hji.
      by eapply (owned_enq_other _ _ _ si_nodup0 j i).
    + intros a0 e0 q _ _ _ []. destruct (Hg a0) as [Hq Hact].
      split; rewrite ?Hq, ?Hact, ?Ht'; auto; [congruence|intros; apply wi_current0; congruence|].
      intros u Hu. destruct (wi_tasks0 u Hu) as (tku & Hku & Hty & Hsu).
      unfold slot_states in *. rewrite Ht, Ht' in *. rewrite arr_upd_lookup, Hku.
      destruct (decide (t = u)) as [<-|Hne]; cbn.
      * rewrite decide_True in Hsu |- * by done. eexists. split; [done|].
        destruct (Hf tku) as [_ ->]. auto.
      * rewrite decide_False in Hsu |- * by congruence. eauto.
Qed.

(** A step that takes and leaves no task. *)
Lemma worker_idle_inv pc' :
  wpc_task pc = None → wpc_task pc' = None → deq_effect i pc pc' (y_deq s) = y_deq s →
  sys_inv (worker_next s i pc pc' (y_dev s)).
Proof.
  intros Ht Ht' Hdeq. pose proof Hinv as [].
  split; cbn [worker_next y_dev y_calls y_workers y_stop y_enq y_deq]; rewrite ?Hdeq; try done.
  - by rewrite length_insert.
  - rewrite <- (arr_upd_id i (y_deq s)), <- (arr_upd_id i (dev_accelerators (y_dev s))).
    apply (workers_inv_step (dev_tasks (y_dev s)) _ _ _ _ _ i id id pc); [done..|].
    intros a e q _ _ _ []. split; cbn [id]; [done|congruence|by rewrite Ht'| |].
    + rewrite wi_load0. destruct pc, pc'; done.
    + intros u Hu. specialize (wi_tasks0 u Hu). unfold slot_states in *.
      by rewrite Ht' , Ht in *.
Qed.

(** Taking the head of the queue. *)
Lemma worker_dequeue_inv a t l :
  pc = W_lock → dev_accelerators (y_dev s) !! i = Some a → a_task_queue a = t :: l →
  sys_inv (worker_next s i pc (W_run t)
    (upd_accelerators (arr_upd i (take_head t)) (y_dev s))).
Proof.
  intros -> Ha Hq. pose proof Hinv as [].
  split; cbn [worker_next y_dev y_calls y_workers y_stop y_enq y_deq deq_effect]; try done.
  - by apply pool_inv_upd_accelerators.
  - cbn. by rewrite arr_upd_length.
  - by rewrite length_insert.
  - by rewrite arr_upd_length.
  - cbn. apply (workers_inv_step (dev_tasks (y_dev s)) _ _ _ _ _ i _ _ W_lock); [done..|].
    intros a0 e q Ha0 He Hq0 Hw. simplify_eq. destruct Hw.
    assert (Htl : t ∉ l).
    { destruct (owned_enq _ _ _ si_nodup0 i e t He) as (_ & _ & Hnd);
        [rewrite wi_fifo0, Hq; set_solver|].
      rewrite wi_fifo0, Hq in Hnd. apply NoDup_app in Hnd as (_ & _ & Hnd).
      by apply NoDup_cons in Hnd as [? _]. }
    unfold take_head. rewrite Hq, list_del_head by done.
    split; cbn; auto.
    + rewrite wi_fifo0, Hq, <- app_assoc. done.
    + by rewrite wi_active0.
    + intros u [= <-]. set_solver.
    + intros u Hu. destruct (wi_tasks0 u Hu) as (tku & Hku & Hty & Hsu).
      exists tku. split_and!; [done..|]. unfold slot_states in *. cbn in *. rewrite Hq in Hsu.
      rewrite decide_False in Hsu by done.
      destruct (decide (Some t = Some u)) as [[= ->]|Hne].
      * by rewrite decide_True in Hsu by set_solver.
      * destruct (decide (u ∈ l)); [by rewrite decide_True in Hsu by set_solver|].
        rewrite decide_False in Hsu; [done|]. intros [->|]%elem_of_cons; done.
Qed.

(** Leaving a completed task. *)
Lemma worker_unlink_inv t :
  pc = W_unlink t →
  sys_inv (worker_next s i pc W_while
    (upd_accelerators
       (arr_upd i (λ a, set_a_active_tasks (list_del t (a_active_tasks a)) a)) (y_dev s))).
Proof.
  intros Epc. destruct (worker_task_parts t ltac:(by rewrite Epc))
    as (a & e & tk & Ha & He & Hte & _ & _ & _ & Htq & _). pose proof Hinv as [].
  rewrite Epc in *.
  split; cbn [worker_next y_dev y_calls y_workers y_stop y_enq y_deq deq_effect]; try done.
  - by apply pool_inv_upd_accelerators.
  - cbn. by rewrite arr_upd_length.
  - by rewrite length_insert.
  - cbn. rewrite <- (arr_upd_id i (y_deq s)).
    apply (workers_inv_step (dev_tasks (y_dev s)) _ _ _ _ _ i _ id (W_unlink t)); [done..|].
    intros a0 e0 q Ha0 He0 _ []. simplify_eq.
    split; cbn; auto; [by rewrite wi_active0; cbn; rewrite list_del_head by set_solver|done|].
    intros u Hu. destruct (wi_tasks0 u Hu) as (tku & Hku & Hty & Hsu).
    exists tku. split_and!; [done..|]. unfold slot_states in *. cbn in *.
    destruct (decide (Some t = Some u)) as [[= ->]|Hne]; [|done].
    by rewrite !decide_False by done.
Qed.
End WorkerSafe.

(** Every statement of a worker runs and keeps the invariant. *)
Section WorkerStep.
Context (msecs_to_jiffies : Z → Z) (s : sys) (i : nat) (pc : wpc) (stop : bool).
Context (Hinv : sys_inv s) (Hpc : y_workers s !! i = Some pc).

Definition worker_safe : Prop :=
  ∃ pc' d', worker_step msecs_to_jiffies i (y_now s) stop pc (y_dev s) = (Ok pc', d') ∧
            sys_inv (worker_next s i pc pc' d').

Lemma upd_dev_task_only t f d : upd_tasks (arr_upd t f) d =
  upd_accelerators (arr_upd i id) (upd_tasks (arr_upd t f) d).
Proof. symmetry. apply upd_accelerators_id, arr_upd_id. Qed.

Lemma upd_dev_accel_only t g d : upd_accelerators (arr_upd i g) d =
  upd_accelerators (arr_upd i g) (upd_tasks (arr_upd t id) d).
Proof. unfold upd_tasks. rewrite arr_upd_id. by destruct d. Qed.

Lemma upd_dev_none t d :
  d = upd_accelerators (arr_upd i id) (upd_tasks (arr_upd t id) d).
Proof.
  rewrite <- upd_dev_task_only. unfold upd_tasks. rewrite arr_upd_id. by destruct d.
Qed.

Lemma worker_task_safe t pc' f :
  wpc_task pc = Some t → wpc_task pc' = Some t →
  (∀ tk, t_id (f tk) = t_id tk ∧ t_accel_type (f tk) = t_accel_type tk) →
  (∀ tk, t_state tk ∈ run_states pc → t_state (f tk) ∈ run_states pc') →
  expected_load pc = expected_load pc' →
  deq_effect i pc pc' (y_deq s) = y_deq s →
  (∀ d tk, dev_tasks d !! t = Some tk →
     worker_step msecs_to_jiffies i (y_now s) stop pc d = (Ok pc', upd_tasks (arr_upd t f) d)) →
  worker_safe.
Proof.
  intros Ht Ht' Hf Hst Hl Hdeq Hrun.
  destruct (worker_task_parts s i pc Hinv Hpc t Ht)
    as (a & e & tk & _ & _ & _ & _ & _ & _ & _ & _ & _ & Htk & _).
  eexists _, _. split; [by eapply Hrun|]. rewrite upd_dev_task_only.
  apply worker_local_inv; auto. intros a0. by rewrite Hl.
Qed.

Lemma worker_read_safe t pc' :
  wpc_task pc = Some t → wpc_task pc' = Some t → run_states pc = run_states pc' →
  expected_load pc = expected_load pc' →
  deq_effect i pc pc' (y_deq s) = y_deq s →
  worker_step msecs_to_jiffies i (y_now s) stop pc (y_dev s) = (Ok pc', y_dev s) →
  worker_safe.
Proof.
  intros Ht Ht' Hst Hl Hdeq Hrun. eexists _, _. split; [exact Hrun|].
  pose proof (worker_local_inv s i pc Hinv Hpc pc' t id id) as Hn.
  rewrite <- upd_dev_none in Hn. apply Hn; auto.
  - intros tk. by rewrite Hst.
  - intros a0. by rewrite Hl.
Qed.

Lemma worker_load_safe t pc' g :
  wpc_task pc = Some t → wpc_task pc' = Some t → run_states pc = run_states pc' →
  deq_effect i pc pc' (y_deq s) = y_deq s →
  (∀ a, a_task_queue (g a) = a_task_queue a ∧ a_active_tasks (g a) = a_active_tasks a) →
  (∀ a, a_load_percent a = expected_load pc → a_load_percent (g a) = expected_load pc') →
  (∀ d a, dev_accelerators d !! i = Some a →
     worker_step msecs_to_jiffies i (y_now s) stop pc d =
     (Ok pc', upd_accelerators (arr_upd i g) d)) →
  worker_safe.
Proof.
  intros Ht Ht' Hst Hdeq Hg Hload Hrun.
  destruct (worker_parts s i pc Hinv Hpc) as (a & e & q & Ha & _).
  eexists _, _. split; [by eapply Hrun|]. rewrite (upd_dev_accel_only t).
  apply worker_local_inv; auto. intros tk. by rewrite Hst.
Qed.

Lemma worker_control_safe pc' :
  wpc_task pc = None → wpc_task pc' = None → deq_effect i pc pc' (y_deq s) = y_deq s →
  worker_step msecs_to_jiffies i (y_now s) stop pc (y_dev s) = (Ok pc', y_dev s) →
  worker_safe.
Proof. intros ? ? ? Hrun. eexists _, _. split; [exact Hrun|]. by apply worker_idle_inv. Qed.
End WorkerStep.

Ltac wrun_task :=
  let d := fresh in let tk := fresh in let H := fresh in
  intros d tk H; cbn [worker_step]; unfold mbind, KM_bind, mret, KM_ret;
  rewrite (upd_task_run _ _ _ _ H); reflexivity.

Ltac wrun_accel :=
  let d := fresh in let a := fresh in let H := fresh in
  intros d a H; cbn [worker_step]; unfold mbind, KM_bind, mret, KM_ret;
  rewrite (upd_accel_run _ _ _ _ H); reflexivity.

Ltac load_states :=
  cbn; intros ?; unfold run_states, running_states, queued_states, final_states; set_solver.

Lemma worker_step_safe msecs_to_jiffies s i pc stop :
  sys_inv s → y_workers s !! i = Some pc → worker_safe msecs_to_jiffies s i pc stop.
Proof.
  intros Hinv Hpc. destruct (worker_parts s i pc Hinv Hpc) as (a & e & q & Ha & _).
  assert (Htask : ∀ t, wpc_task pc = Some t → ∃ tk, dev_tasks (y_dev s) !! t = Some tk).
  { intros t Ht. destruct (worker_task_parts s i pc Hinv Hpc t Ht)
      as (? & ? & tk & _ & _ & _ & _ & _ & _ & _ & _ & _ & Htk & _). eauto. }
  destruct pc as [| | | |t|t|t|t to|t to st|t to st|t to st|t to st|t|t|t|t|t|t|t|].
  - assert (Hrun : worker_step msecs_to_jiffies i (y_now s) stop W_while (y_dev s) =
      (Ok (if a_running a =? 0 then W_exit else W_wait), y_dev s)).
    { cbn [worker_step]. unfold mbind, KM_bind. by rewrite (get_accel_run _ _ _ Ha). }
    destruct (a_running a =? 0);
      [apply (worker_control_safe msecs_to_jiffies s i _ stop Hinv Hpc  W_exit)|apply (worker_control_safe msecs_to_jiffies s i _ stop Hinv Hpc  W_wait)]; done.
  - by apply (worker_control_safe msecs_to_jiffies s i _ stop Hinv Hpc  W_check).
  - assert (Hrun : worker_step msecs_to_jiffies i (y_now s) stop W_check (y_dev s) =
      (Ok (if a_running a =? 0 then W_exit else W_lock), y_dev s)).
    { cbn [worker_step]. unfold mbind, KM_bind. by rewrite (get_accel_run _ _ _ Ha). }
    destruct (a_running a =? 0);
      [apply (worker_control_safe msecs_to_jiffies s i _ stop Hinv Hpc  W_exit)|apply (worker_control_safe msecs_to_jiffies s i _ stop Hinv Hpc  W_lock)]; done.
  - pose proof (dequeue_run i _ _ Ha) as Hrun. destruct (a_task_queue a) as [|t l] eqn:Hq.
    + apply (worker_control_safe msecs_to_jiffies s i _ stop Hinv Hpc  W_while); [done..|].
      cbn [worker_step]. unfold mbind, KM_bind. by rewrite Hrun.
    + eexists _, _. split; [cbn [worker_step]; unfold mbind, KM_bind; by rewrite Hrun|].
      by eapply worker_dequeue_inv.
  - apply (worker_task_safe msecs_to_jiffies s i _ stop Hinv Hpc t (W_load_up t) (set_t_state TASK_STATE_RUNNING));
      [done|done|done|load_states|done|done|wrun_task].
  - apply (worker_load_safe msecs_to_jiffies s i _ stop Hinv Hpc t (W_timeout t)
      (λ a, set_a_load_percent (load_up (a_load_percent a)) a));
      [done|done|done|done|done| |wrun_accel]. intros a0 E. cbn in *. by rewrite E.
  - destruct (Htask t eq_refl) as [tk Htk].
    assert (Hrun : worker_step msecs_to_jiffies i (y_now s) stop (W_timeout t) (y_dev s) =
      (Ok (if 0 <? t_timeout_ms tk then W_start t (msecs_to_jiffies (t_timeout_ms tk))
           else W_msleep t), y_dev s)).
    { cbn [worker_step]. unfold mbind, KM_bind. by rewrite (get_task_run _ _ _ Htk). }
    destruct (0 <? t_timeout_ms tk); (eapply (worker_read_safe msecs_to_jiffies s i _ stop Hinv Hpc t); [| | | | |exact Hrun]; done).
  - by apply (worker_read_safe msecs_to_jiffies s i _ stop Hinv Hpc t (W_spin t to (y_now s))).
  - assert (Hrun : worker_step msecs_to_jiffies i (y_now s) stop (W_spin t to st) (y_dev s) =
      (Ok (if u64 (y_now s - st) <? to then W_spin_state t to st else W_stamp t), y_dev s))
      by done.
    destruct (u64 (y_now s - st) <? to); (eapply (worker_read_safe msecs_to_jiffies s i _ stop Hinv Hpc t); [| | | | |exact Hrun]; done).
  - destruct (Htask t eq_refl) as [tk Htk].
    assert (Hrun : worker_step msecs_to_jiffies i (y_now s) stop (W_spin_state t to st) (y_dev s) =
      (Ok (if decide (t_state tk = TASK_STATE_RUNNING) then W_sleep t to st
           else W_stamp t), y_dev s)).
    { cbn [worker_step]. unfold mbind, KM_bind. by rewrite (get_task_run _ _ _ Htk). }
    destruct (decide (t_state tk = TASK_STATE_RUNNING)); (eapply (worker_read_safe msecs_to_jiffies s i _ stop Hinv Hpc t); [| | | | |exact Hrun]; done).
  - by apply (worker_read_safe msecs_to_jiffies s i _ stop Hinv Hpc t (W_stop t to st)).
  - assert (Hrun : worker_step msecs_to_jiffies i (y_now s) stop (W_stop t to st) (y_dev s) =
      (Ok (if stop then W_stamp t else W_spin t to st), y_dev s)) by done.
    revert Hrun. generalize stop at 2. intros b Hrun. destruct b; (eapply (worker_read_safe msecs_to_jiffies s i _ stop Hinv Hpc t); [| | | | |exact Hrun]; done).
  - by apply (worker_read_safe msecs_to_jiffies s i _ stop Hinv Hpc t (W_stamp t)).
  - apply (worker_task_safe msecs_to_jiffies s i _ stop Hinv Hpc t (W_complete t) (set_t_complete_jiffies (y_now s)));
      [done|done|done|load_states|done|done|wrun_task].
  - apply (worker_task_safe msecs_to_jiffies s i _ stop Hinv Hpc t (W_error_code t) (set_t_state TASK_STATE_COMPLETE));
      [done|done|done|load_states|done|done|wrun_task].
  - apply (worker_task_safe msecs_to_jiffies s i _ stop Hinv Hpc t (W_load_down t) (set_t_error_code 0));
      [done|done|done|load_states|done|done|wrun_task].
  - apply (worker_load_safe msecs_to_jiffies s i _ stop Hinv Hpc t (W_done t)
      (λ a, set_a_load_percent (load_down (a_load_percent a)) a));
      [done|done|done|done|done| |wrun_accel]. intros a0 E. cbn in *. by rewrite E.
  - apply (worker_task_safe msecs_to_jiffies s i _ stop Hinv Hpc t (W_unlink t) (set_t_done true));
      [done|done|done|load_states|done|done|wrun_task].
  - eexists _, _. split; [|by apply worker_unlink_inv].
    cbn [worker_step]. unfold mbind, KM_bind, mret, KM_ret. by rewrite (upd_accel_run _ _ _ _ Ha).
  - by apply (worker_control_safe msecs_to_jiffies s i _ stop Hinv Hpc W_exit).
Qed.

(** ** The whole system *)

Lemma remover_keep_inv s i g stop' r' :
  sys_inv s → length stop' = length (y_stop s) →
  (∀ a, a_task_queue (g a) = a_task_queue a ∧ a_active_tasks (g a) = a_active_tasks a ∧
        a_load_percent (g a) = a_load_percent a) →
  sys_inv {| y_dev := upd_accelerators (arr_upd i g) (y_dev s); y_now := y_now s;
             y_workers := y_workers s; y_stop := stop'; y_calls := y_calls s;
             y_remover := r'; y_enq := y_enq s; y_deq := y_deq s |}.
Proof.
  intros [] Hlen Hg. split; cbn [y_dev y_workers y_stop y_calls y_enq y_deq]; try done.
  - by apply pool_inv_upd_accelerators.
  - cbn. by rewrite arr_upd_length.
  - by rewrite Hlen.
  - cbn. intros j a. rewrite arr_upd_lookup. intros Ha.
    assert (∃ a0, dev_accelerators (y_dev s) !! j = Some a0 ∧
      a_task_queue a = a_task_queue a0 ∧ a_active_tasks a = a_active_tasks a0 ∧
      a_load_percent a = a_load_percent a0) as (a0 & Ha0 & Hq & Hact & Hl).
    { case_decide; [|by eauto]. destruct (dev_accelerators (y_dev s) !! j) as [a0|]; [|done].
      injection Ha as <-. eauto. }
    destruct (si_workers0 j a0 Ha0) as (pc & e & q & ? & ? & ? & []).
    exists pc, e, q. split_and!; [done..|]. by split; rewrite ?Hq, ?Hact, ?Hl.
Qed.

Section SysInv.
Context (HZ : Z) (msecs_to_jiffies : Z → Z).

Lemma sys_inv_remover s r' d' stop' :
  sys_inv s → remover_step s r' d' stop' →
  sys_inv {| y_dev := d'; y_now := y_now s; y_workers := y_workers s; y_stop := stop';
             y_calls := y_calls s; y_remover := r'; y_enq := y_enq s; y_deq := y_deq s |}.
Proof.
  intros Hinv Hr.
  assert (Hid : ∀ stop' r', length stop' = length (y_stop s) → sys_inv
    {| y_dev := y_dev s; y_now := y_now s; y_workers := y_workers s; y_stop := stop';
       y_calls := y_calls s; y_remover := r'; y_enq := y_enq s; y_deq := y_deq s |}).
  { intros st r Hl. pose proof (remover_keep_inv s 0 id st r Hinv Hl) as Hn.
    unfold upd_accelerators in Hn. rewrite arr_upd_id in Hn.
    replace (y_dev s) with (set_accelerators (dev_accelerators (y_dev s)) (y_dev s))
      by (by destruct (y_dev s)).
    by apply Hn. }
  destruct Hr; auto using remover_keep_inv, arr_upd_length.
Qed.

Lemma sys_inv_init s : sys_init s → sys_inv s.
Proof.
  intros ->. unfold sys_init. split; cbn [y_dev y_workers y_stop y_calls y_enq y_deq].
  - apply pool_inv_upd_accelerators, boot_pool.
  - apply accounted_upd_accelerators, boot_pool.
  - by vm_compute.
  - done.
  - done.
  - done.
  - done.
  - unfold running_dev. rewrite upd_accelerators_free, boot_dev_free. cbn [held fmap list_fmap concat]. rewrite app_nil_r. apply NoDup_seq.
  - by intros k pc.
  - intros i a Ha. assert (Hi : (i < 3)%nat).
    { apply lookup_lt_Some in Ha. exact Ha. }
    exists W_while, [], [].
    destruct i as [|[|[|i]]]; [| | |lia]; vm_compute in Ha; injection Ha as <-;
      (split_and!; [done..|]; split; try done; intros ? []%not_elem_of_nil).
Qed.

Lemma sys_inv_step s s' : sys_inv s → sys_step HZ msecs_to_jiffies s s' → sys_inv s'.
Proof.
  intros Hinv Hs. destruct Hs as [n Hn|pc He|k pc copied pc' d' Hk Hrun|
    i pc stop pc' d' Hpc Hstop Hrun|r' d' stop' Hr].
  - destruct Hinv. by split.
  - destruct Hinv. split; cbn [y_dev y_workers y_stop y_calls y_enq y_deq]; try done.
    + unfold held. rewrite fmap_app, concat_app. cbn.
      destruct pc; try done; cbn; by rewrite app_nil_r.
    + intros k pc0 [Hk|[_ Hk]]%lookup_app_Some; [eauto|].
      apply list_lookup_singleton_Some in Hk as [_ <-].
      destruct pc; try done; split; try done. cbn.
      destruct (task_desc_range desc He) as (_ & Hty & _). unfold is_u32 in Hty. lia.
  - destruct (user_step_safe HZ s k copied Hinv pc Hk) as (pc1 & d1 & Hrun1 & Hn).
    rewrite Hrun in Hrun1. injection Hrun1 as <- <-. exact Hn.
  - destruct (worker_step_safe msecs_to_jiffies s i pc stop Hinv Hpc) as (pc1 & d1 & Hrun1 & Hn).
    rewrite Hrun in Hrun1. injection Hrun1 as <- <-. exact Hn.
  - by apply sys_inv_remover.
Qed.

Lemma sys_inv_reachable s : reachable HZ msecs_to_jiffies s → sys_inv s.
Proof. apply reach_invariant; eauto using sys_inv_init, sys_inv_step. Qed.
End SysInv.
