(* ===== verification/Lifecycle.v ===== *)
(** * What a step of the system does to a task slot

    Every write to a slot, by any statement of any call or worker, in any
    reachable state: the kind of write and the states it is made in. *)

From S2P Require Import Prelude CLayout Device UserMem Uapi TaskManager Pool AccelManager Worker DevInit Chardev System SystemInv.

Inductive task_change : task → task → Prop :=
  | tc_same tk : task_change tk tk
  | tc_alloc tk id : t_state tk = TASK_STATE_FREE → task_change tk (fresh_task id)
  | tc_fill tk desc : t_state tk = TASK_STATE_FREE → task_change tk (fill_task desc tk)
  | tc_pending tk :
      t_state tk = TASK_STATE_FREE → task_change tk (set_t_state TASK_STATE_PENDING tk)
  | tc_submit_time tk now : task_change tk (set_t_submit_jiffies now tk)
  | tc_cancel tk :
      t_state tk ≠ TASK_STATE_FREE → task_change tk (set_t_state TASK_STATE_CANCELLED tk)
  | tc_cancel_code tk : task_change tk (set_t_error_code (- ECANCELED) tk)
  | tc_run tk :
      t_state tk ∈ queued_states → task_change tk (set_t_state TASK_STATE_RUNNING tk)
  | tc_complete_time tk now : task_change tk (set_t_complete_jiffies now tk)
  | tc_complete tk :
      t_state tk ∈ running_states → task_change tk (set_t_state TASK_STATE_COMPLETE tk)
  | tc_ok_code tk : task_change tk (set_t_error_code 0 tk)
  | tc_done tk : task_change tk (set_t_done true tk).
#[export] Hint Constructors task_change : cortex.

Definition task_changes (l l' : list task) : Prop :=
  ∀ i tk', l' !! i = Some tk' → ∃ tk, l !! i = Some tk ∧ task_change tk tk'.

Lemma task_changes_refl l : task_changes l l.
Proof. intros i tk' Hi. eauto with cortex. Qed.

Lemma task_changes_upd l t f tk :
  l !! t = Some tk → task_change tk (f tk) → task_changes l (arr_upd t f l).
Proof.
  intros Ht Hf i tk'. rewrite arr_upd_lookup. case_decide; subst; [|eauto with cortex].
  rewrite Ht. intros [= <-]. eauto.
Qed.
#[export] Hint Resolve task_changes_refl : cortex.

(** The free list only ever loses its head. *)
Definition free_shrinks (l l' : list nat) : Prop := ∃ k, l = k ++ l'.

Lemma free_shrinks_refl l : free_shrinks l l.
Proof. by exists []. Qed.
#[export] Hint Resolve free_shrinks_refl : cortex.

Definition slots_change (d d' : dev) : Prop :=
  task_changes (dev_tasks d) (dev_tasks d') ∧
  free_shrinks (dev_free_tasks d) (dev_free_tasks d').

Lemma slots_change_refl d : slots_change d d.
Proof. split; auto with cortex. Qed.

Lemma slots_change_task t f tk d :
  dev_tasks d !! t = Some tk → task_change tk (f tk) →
  slots_change d (upd_tasks (arr_upd t f) d).
Proof. intros Ht Hf. split; [by eapply task_changes_upd|apply free_shrinks_refl]. Qed.

Lemma slots_change_accel f d : slots_change d (upd_accelerators f d).
Proof. split; cbn; auto with cortex. Qed.
#[export] Hint Resolve slots_change_refl slots_change_accel : cortex.

Section Changes.
Context (HZ : Z) (msecs_to_jiffies : Z → Z) (s : sys).
Context (Hinv : sys_inv s).

Ltac inv_run H := apply (f_equal snd) in H; cbn [snd] in H; subst.

Lemma ustep_slots k pc copied pc' d' :
  y_calls s !! k = Some pc → ustep HZ (y_now s) copied pc (y_dev s) = (Ok pc', d') →
  slots_change (y_dev s) d'.
Proof.
  intros Hk Hrun.
  assert (Hslot : ∀ t, upc_slot pc = Some t →
    call_ok pc ∧ ∃ tk, dev_tasks (y_dev s) !! t = Some tk ∧ call_slot_ok pc tk)
    by (intros; by eapply call_slot).
  destruct pc; cbn [ustep upc_slot] in *; unfold mbind, KM_bind, mret, KM_ret in Hrun;
    try (destruct (Hslot _ eq_refl) as (Hok & tk & Ht & Hs);
         repeat rewrite (upd_task_run _ _ _ _ Ht) in Hrun;
         repeat rewrite (get_task_run _ _ _ Ht) in Hrun);
    try (inv_run Hrun; eauto using slots_change_task with cortex; fail).
  - pose proof (accounted_next _ (si_accounted s Hinv) (si_pool s Hinv)).
    rewrite (task_alloc_ok _ (si_pool s Hinv) ltac:(lia)) in Hrun.
    destruct (dev_free_tasks (y_dev s)) as [|i l] eqn:Hf; inv_run Hrun; [auto with cortex|].
    destruct (pool_inv_head i l _ (si_pool s Hinv) Hf) as (_ & Hdel & _ & t & Ht & Hfree).
    split; cbn; [eapply task_changes_upd; eauto with cortex|].
    rewrite Hdel, Hf. by exists [i].
  - destruct Hs as [Hs Hty]. cbn in Hok. unfold valid_desc in Hok.
    change (Z.of_nat NUM_ACCELERATORS) with 3 in Hrun.
    rewrite Hty, (proj2 (Z.leb_gt _ _)) in Hrun by lia.
    rewrite (upd_task_run _ _ _ _ Ht) in Hrun. inv_run Hrun.
    eauto using slots_change_task with cortex.
  - by destruct (si_calls s Hinv k _ Hk) as [[] _].
  - cbn in Hok. unfold valid_desc in Hok.
    destruct (lookup_lt_is_Some_2 (dev_accelerators (y_dev s)) (Z.to_nat (d_accel_type desc)))
      as [a Ha]; [rewrite (si_accels s Hinv); unfold NUM_ACCELERATORS; lia|].
    rewrite (upd_accel_run _ _ _ _ Ha) in Hrun. inv_run Hrun. auto with cortex.
  - case_decide; [|inv_run Hrun; auto with cortex].
    destruct (scan_lookup s Hinv i) as [tk Ht]; [done|].
    rewrite (get_task_run _ _ _ Ht) in Hrun. inv_run Hrun. auto with cortex.
  - case_decide; [|inv_run Hrun; auto with cortex].
    destruct (scan_lookup s Hinv i) as [tk Ht]; [done|].
    rewrite (get_task_run _ _ _ Ht) in Hrun. inv_run Hrun. auto with cortex.
  - destruct (ustep_info HZ (y_now s) copied info _ _ _ Hrun) as [-> _]. auto with cortex.
Qed.

Lemma worker_step_slots i pc stop pc' d' :
  y_workers s !! i = Some pc →
  worker_step msecs_to_jiffies i (y_now s) stop pc (y_dev s) = (Ok pc', d') →
  slots_change (y_dev s) d'.
Proof.
  intros Hpc Hrun. destruct (worker_parts s i pc Hinv Hpc) as (a & e & q & Ha & _).
  assert (Htask : ∀ t, wpc_task pc = Some t →
    ∃ tk, dev_tasks (y_dev s) !! t = Some tk ∧ t_state tk ∈ run_states pc).
  { intros t Ht. destruct (worker_task_parts s i pc Hinv Hpc t Ht)
      as (? & ? & tk & _ & _ & _ & _ & _ & _ & _ & _ & _ & Htk & _ & ?). eauto. }
  destruct pc; cbn [worker_step wpc_task run_states] in *;
    unfold mbind, KM_bind, mret, KM_ret in Hrun;
    repeat rewrite (get_accel_run _ _ _ Ha) in Hrun;
    repeat rewrite (upd_accel_run _ _ _ _ Ha) in Hrun;
    try (destruct (Htask _ eq_refl) as (tk & Ht & Hs);
         repeat rewrite (upd_task_run _ _ _ _ Ht) in Hrun;
         repeat rewrite (get_task_run _ _ _ Ht) in Hrun);
    try (inv_run Hrun; eauto using slots_change_task with cortex; fail).
  rewrite (dequeue_run i _ _ Ha) in Hrun.
  destruct (a_task_queue a); inv_run Hrun; auto with cortex.
Qed.

Lemma sys_step_slots s' :
  sys_step HZ msecs_to_jiffies s s' → slots_change (y_dev s) (y_dev s').
Proof.
  intros [n Hn|pc He|k pc copied pc' d' Hk Hrun|i pc stop pc' d' Hpc Hstop Hrun|r' d' stop' Hr];
    cbn [y_dev]; eauto using ustep_slots, worker_step_slots with cortex.
  destruct Hr; auto with cortex.
Qed.
End Changes.
