(* ===== verification/Schedule.v ===== *)
(** * Executing schedules of the concurrent driver

    [sys_run] plays a schedule on the system of System.v; what it reaches is
    reachable.  It makes the step relation executable. *)

From S2P Require Import Prelude CLayout Device UserMem Uapi TaskManager Pool AccelManager Worker DevInit Chardev System.

Inductive event : Type :=
  | E_tick (n : nat)                    (* time passes *)
  | E_call (pc : upc)                   (* a call enters *)
  | E_user (k : nat) (copied : bool)    (* a call's next statement *)
  | E_worker (i : nat)                  (* a worker's next statement *)
  | E_remove.                           (* the remover's next statement *)

#[export] Instance is_entry_dec pc : Decision (is_entry pc).
Proof.
  destruct pc as [desc| | | | | | | |id [|i]| | | |id [|i]| | | | | | | | |]; cbn; apply _.
Defined.

(** The remover is deterministic. *)
Definition remover_exec (s : sys) : option (rpc * dev * list bool) :=
  match y_remover s with
  | R_idle => Some (R_clear 0, y_dev s, y_stop s)
  | R_clear i =>
      match dev_accelerators (y_dev s) !! i with
      | Some a =>
          if decide (a_worker_thread a = KT_NULL) then Some (R_clear (S i), y_dev s, y_stop s)
          else Some (R_kthread i, upd_accelerators (arr_upd i (set_a_running 0)) (y_dev s), y_stop s)
      | None => if decide (i = NUM_ACCELERATORS) then Some (R_done, y_dev s, y_stop s) else None
      end
  | R_kthread i => Some (R_join i, y_dev s, arr_upd i (λ _, true) (y_stop s))
  | R_join i =>
      if decide (y_workers s !! i = Some W_exit) then
        Some (R_clear (S i),
          upd_accelerators (arr_upd i (set_a_worker_thread KT_NULL)) (y_dev s), y_stop s)
      else None
  | R_done => None
  end.

Section Schedule.
Context (HZ : Z) (msecs_to_jiffies : Z → Z).

Definition sys_exec (e : event) (s : sys) : option sys :=
  match e with
  | E_tick n =>
      Some {| y_dev := y_dev s; y_now := u64 (y_now s + Z.of_nat n); y_workers := y_workers s;
              y_stop := y_stop s; y_calls := y_calls s; y_remover := y_remover s;
              y_enq := y_enq s; y_deq := y_deq s |}
  | E_call pc =>
      if decide (is_entry pc) then
        Some {| y_dev := y_dev s; y_now := y_now s; y_workers := y_workers s;
                y_stop := y_stop s; y_calls := y_calls s ++ [pc];
                y_remover := y_remover s; y_enq := y_enq s; y_deq := y_deq s |}
      else None
  | E_user k copied =>
      pc ← y_calls s !! k;
      match ustep HZ (y_now s) copied pc (y_dev s) with
      | (Ok pc', d') =>
          Some {| y_dev := d'; y_now := y_now s; y_workers := y_workers s;
                  y_stop := y_stop s; y_calls := <[k := pc']> (y_calls s);
                  y_remover := y_remover s; y_enq := enq_effect pc (y_enq s);
                  y_deq := y_deq s |}
      | _ => None
      end
  | E_worker i =>
      pc ← y_workers s !! i; stop ← y_stop s !! i;
      match worker_step msecs_to_jiffies i (y_now s) stop pc (y_dev s) with
      | (Ok pc', d') =>
          Some {| y_dev := d'; y_now := y_now s; y_workers := <[i := pc']> (y_workers s);
                  y_stop := y_stop s; y_calls := y_calls s; y_remover := y_remover s;
                  y_enq := y_enq s; y_deq := deq_effect i pc pc' (y_deq s) |}
      | _ => None
      end
  | E_remove =>
      '(r', d', stop') ← remover_exec s;
      Some {| y_dev := d'; y_now := y_now s; y_workers := y_workers s;
              y_stop := stop'; y_calls := y_calls s; y_remover := r';
              y_enq := y_enq s; y_deq := y_deq s |}
  end.

Fixpoint sys_run (es : list event) (s : sys) : option sys :=
  match es with
  | [] => Some s
  | e :: es' => s' ← sys_exec e s; sys_run es' s'
  end.

Lemma remover_exec_step s r' d' stop' :
  remover_exec s = Some (r', d', stop') → remover_step s r' d' stop'.
Proof.
  unfold remover_exec. destruct (y_remover s) as [|i|i|i|] eqn:Hr; [| | | |done].
  - intros [= <- <- <-]. by constructor.
  - destruct (dev_accelerators (y_dev s) !! i) as [a|] eqn:Ha; case_decide;
      intros [= <- <- <-]; subst; by econstructor.
  - intros [= <- <- <-]. by constructor.
  - case_decide; intros [= <- <- <-]. by constructor.
Qed.

Lemma sys_exec_step e s s' :
  sys_exec e s = Some s' → sys_step HZ msecs_to_jiffies s s'.
Proof.
  destruct e as [n|pc|k copied|i|]; cbn [sys_exec].
  - intros [= <-]. apply step_tick. lia.
  - case_decide; intros [= <-]. by apply step_call.
  - destruct (y_calls s !! k) as [pc|] eqn:Hk; [|done]. cbn [mbind option_bind].
    destruct (ustep HZ (y_now s) copied pc (y_dev s)) as [[pc'| |] d'] eqn:Hr; intros [= <-].
    by eapply step_user.
  - destruct (y_workers s !! i) as [pc|] eqn:Hi; [|done]. cbn [mbind option_bind].
    destruct (y_stop s !! i) as [stop|] eqn:Hst; [|done]. cbn [mbind option_bind].
    destruct (worker_step _ i (y_now s) stop pc (y_dev s)) as [[pc'| |] d'] eqn:Hr; intros [= <-].
    by eapply step_worker.
  - destruct (remover_exec s) as [[[r' d'] stop']|] eqn:Hr; [|done]. cbn [mbind option_bind].
    intros [= <-]. by apply step_remove, remover_exec_step.
Qed.

Lemma sys_run_app es es' s :
  sys_run (es ++ es') s = s1 ← sys_run es s; sys_run es' s1.
Proof.
  revert s. induction es as [|e es IH]; intros s; [done|]. cbn [app sys_run].
  destruct (sys_exec e s); [apply IH|done].
Qed.

Lemma sys_run_reach init es s s' :
  reach init (sys_step HZ msecs_to_jiffies) s → sys_run es s = Some s' →
  reach init (sys_step HZ msecs_to_jiffies) s'.
Proof.
  revert s. induction es as [|e es IH]; intros s Hs; cbn [sys_run]; [by intros [= <-]|].
  destruct (sys_exec e s) as [s1|] eqn:He; [|done]. cbn [mbind option_bind].
  apply IH. eapply reach_step; [exact Hs|]. by eapply sys_exec_step.
Qed.

Lemma sys_run_reachable es s s' :
  reachable HZ msecs_to_jiffies s → sys_run es s = Some s' → reachable HZ msecs_to_jiffies s'.
Proof. apply sys_run_reach. Qed.
End Schedule.

(** ** A worked schedule

    At 250 Hz: one submission to DLA0 with a timeout of 8 ms, picked up by the
    worker and cancelled while it runs. *)

Definition demo_HZ : Z := 250.
Definition demo_m2j (ms : Z) : Z := (u32 ms + 3) / 4.

Lemma demo_m2j_range ms : 0 <= demo_m2j ms < 2 ^ 62.
Proof.
  unfold demo_m2j. pose proof (u32_range ms) as Hr. unfold is_u32 in Hr. split.
  - apply Z.div_pos; lia.
  - apply Z.div_lt_upper_bound; lia.
Qed.

Definition sys0 : sys :=
  {| y_dev := running_dev; y_now := 1000; y_workers := replicate NUM_ACCELERATORS W_while;
     y_stop := replicate NUM_ACCELERATORS false; y_calls := []; y_remover := R_idle;
     y_enq := replicate NUM_ACCELERATORS []; y_deq := replicate NUM_ACCELERATORS [] |}.

Definition demo_desc : task_desc :=
  {| d_task_id := 0; d_accel_type := 0; d_priority := 5; d_input_size := 4096;
     d_output_size := 4096; d_pad := 0; d_input_addr := 0x1000; d_output_addr := 0x2000;
     d_timeout_ms := 8; d_flags := 0; d_reserved := (0, 0, 0, 0) |}.

Definition demo_events : list event :=
  [E_call (U_check demo_desc)] ++ replicate 7 (E_user 0 true) ++
  replicate 7 (E_worker 0) ++ [E_call (U_cancel 1 0); E_user 1 true; E_user 1 true].

Definition demo_sys : sys := default sys0 (sys_run demo_HZ demo_m2j demo_events sys0).

(** The submission has returned, the worker is in the timed part of the task, and
    the cancellation has marked it. *)
Lemma demo_sys_state :
  sys_run demo_HZ demo_m2j demo_events sys0 = Some demo_sys ∧
  y_calls demo_sys = [U_ret 0; U_c_error 0] ∧
  y_workers demo_sys = [W_start 0 2; W_while; W_while] ∧
  y_enq demo_sys = [[0%nat]; []; []] ∧ y_deq demo_sys = [[0%nat]; []; []] ∧
  t_state <$> dev_tasks (y_dev demo_sys) !! 0%nat = Some TASK_STATE_CANCELLED.
Proof. split_and!; by vm_compute. Qed.

Lemma demo_reachable : reachable demo_HZ demo_m2j demo_sys.
Proof.
  eapply (sys_run_reachable _ _ demo_events sys0); [|apply demo_sys_state].
  by apply reach_init.
Qed.
