(* ===== verification/SystemProps.v ===== *)
(** * Properties of the concurrent driver

    What holds in every reachable state and of every step, whatever the
    interleaving of calls, workers and removal. *)

From S2P Require Import Prelude CLayout Device UserMem Uapi TaskManager Pool AccelManager Worker DevInit Chardev System SystemInv Lifecycle Schedule.

(** ** Consequences of the invariant on lists *)

Lemma NoDup_submseteq_NoDup {A} (l k : list A) : l ⊆+ k → NoDup k → NoDup l.
Proof. intros (k' & ->)%submseteq_Permutation (? & _ & _)%NoDup_app. done. Qed.

Lemma submseteq_concat {A} (l k : list (list A)) :
  Forall2 submseteq l k → concat l ⊆+ concat k.
Proof. induction 1; cbn; [done|]. by apply submseteq_app. Qed.

(** The list nodes of an accelerator: its queue and its active list. *)
Definition accel_nodes (a : accel) : list nat := a_task_queue a ++ a_active_tasks a.

Definition all_nodes (d : dev) : list nat :=
  dev_free_tasks d ++ concat (accel_nodes <$> dev_accelerators d).

Lemma accel_nodes_submseteq s :
  sys_inv s → concat (accel_nodes <$> dev_accelerators (y_dev s)) ⊆+ concat (y_enq s).
Proof.
  intros Hinv. apply submseteq_concat, Forall2_lookup. intros i.
  rewrite list_lookup_fmap. destruct (dev_accelerators (y_dev s) !! i) as [a|] eqn:Ha.
  - destruct (si_workers s Hinv i a Ha) as (pc & e & q & Hpc & He & Hq & [Hfifo Hact Hcur _ _]).
    rewrite He. constructor. unfold accel_nodes. rewrite Hfifo, Hact.
    rewrite (comm app). apply submseteq_app; [|done].
    destruct (wpc_task pc) as [t|] eqn:Ht; cbn; [|apply submseteq_nil_l].
    apply singleton_submseteq_l. by apply Hcur.
  - apply lookup_ge_None in Ha. rewrite (si_accels s Hinv), <- (si_enq_len s Hinv) in Ha.
    rewrite lookup_ge_None_2 by done. constructor.
Qed.

(** A queued task: its slot, and its state. *)
Lemma queued_task s i e t :
  sys_inv s → y_enq s !! i = Some e → t ∈ e →
  ∃ tk, dev_tasks (y_dev s) !! t = Some tk ∧ t_accel_type tk = Z.of_nat i ∧
        t_state tk ≠ TASK_STATE_FREE.
Proof.
  intros Hinv He Ht.
  destruct (lookup_lt_is_Some_2 (dev_accelerators (y_dev s)) i) as [a Ha].
  { rewrite (si_accels s Hinv), <- (si_enq_len s Hinv). by eapply lookup_lt_Some. }
  destruct (si_workers s Hinv i a Ha) as (pc & e0 & q0 & _ & He0 & _ & [_ _ _ _ Htasks]).
  simplify_eq. destruct (Htasks t Ht) as (tk & ? & ? & ?). eauto using slot_states_live.
Qed.

Section Props.
Context (HZ : Z) (msecs_to_jiffies : Z → Z).

Lemma reachable_results s :
  reachable HZ msecs_to_jiffies s → ∀ i t, dev_tasks (y_dev s) !! i = Some t →
  t_state t ≠ TASK_STATE_FAILED ∧ (t_error_code t = 0 ∨ t_error_code t = - ECANCELED).
Proof.
  intros Hr. induction Hr as [s ->|s s' Hr IH Hs]; intros i t Ht.
  - cbn [y_dev] in Ht. unfold running_dev in Ht. cbn [dev_tasks upd_accelerators set_accelerators] in Ht.
    rewrite boot_dev_tasks in Ht. apply lookup_replicate in Ht as [-> _]. auto.
  - apply sys_inv_reachable in Hr.
    destruct (sys_step_slots HZ msecs_to_jiffies s Hr s' Hs) as [Hc _].
    destruct (Hc i t Ht) as (t0 & Ht0 & Hch). specialize (IH i t0 Ht0).
    destruct Hch; cbn in *; intuition congruence.
Qed.

(** C1: No statement ever makes an invalid access: in every reachable state,
    the next statement of every call and of every worker executes, whatever
    the outcome of copies and of kthread_should_stop. *)
Theorem no_invalid_access s :
  reachable HZ msecs_to_jiffies s →
  (∀ k pc copied, y_calls s !! k = Some pc →
     ∃ pc' d', ustep HZ (y_now s) copied pc (y_dev s) = (Ok pc', d')) ∧
  (∀ i pc stop, y_workers s !! i = Some pc →
     ∃ pc' d', worker_step msecs_to_jiffies i (y_now s) stop pc (y_dev s) = (Ok pc', d')).
Proof.
  intros Hr%sys_inv_reachable. split.
  - intros k pc copied Hk.
    destruct (user_step_safe HZ s k copied Hr pc Hk) as (pc' & d' & ? & _). eauto.
  - intros i pc stop Hi.
    destruct (worker_step_safe msecs_to_jiffies s i pc stop Hr Hi) as (pc' & d' & ? & _). eauto.
Qed.

(** C5: The list node of a task is never on two lists: the free list, the
    three queues and the three active lists have no slot in common and none
    twice, in every reachable state. *)
Theorem lists_exclusive s :
  reachable HZ msecs_to_jiffies s → NoDup (all_nodes (y_dev s)).
Proof.
  intros Hr%sys_inv_reachable. pose proof (si_nodup s Hr) as Hnd.
  eapply NoDup_submseteq_NoDup; [|exact Hnd]. unfold all_nodes.
  apply submseteq_app; [done|]. etransitivity; [by apply accel_nodes_submseteq|].
  apply submseteq_inserts_l. done.
Qed.

(** C29: Dispatch is first-come first-served per accelerator, whatever the
    priorities: the tasks queued on accelerator [i] so far are, in order,
    those its worker has taken followed by those still in the queue; all are
    of that accelerator's type, and none was queued twice. *)
Theorem fifo_dispatch s i a e q :
  reachable HZ msecs_to_jiffies s →
  dev_accelerators (y_dev s) !! i = Some a → y_enq s !! i = Some e → y_deq s !! i = Some q →
  e = q ++ a_task_queue a ∧ NoDup e ∧
  ∀ t, t ∈ e → ∃ tk, dev_tasks (y_dev s) !! t = Some tk ∧ t_accel_type tk = Z.of_nat i.
Proof.
  intros Hr%sys_inv_reachable Ha He Hq.
  destruct (si_workers s Hr i a Ha) as (pc & e0 & q0 & _ & He0 & Hq0 & [Hfifo _ _ _ Htasks]). simplify_eq.
  split_and!; [done| |].
  - eapply NoDup_concat_elem; [|exact He].
    by pose proof (si_nodup s Hr) as (_ & _ & (_ & _ & ?)%NoDup_app)%NoDup_app.
  - intros t Ht. destruct (Htasks t Ht) as (tk & ? & ? & _). eauto.
Qed.

(** C30: The pool leaks: no step of the driver ever returns a slot to the free
    list, so at most MAX_TASKS tasks are ever queued in its lifetime. *)
Theorem pool_never_refilled s :
  reachable HZ msecs_to_jiffies s →
  (∀ s', sys_step HZ msecs_to_jiffies s s' →
     ∃ k, dev_free_tasks (y_dev s) = k ++ dev_free_tasks (y_dev s')) ∧
  (length (concat (y_enq s)) + length (dev_free_tasks (y_dev s)) ≤ MAX_TASKS)%nat.
Proof.
  intros Hr%sys_inv_reachable. split.
  - intros s' Hs. by apply (sys_step_slots HZ msecs_to_jiffies s Hr s') in Hs as [_ ?].
  - rewrite <- length_app, <- (length_seq MAX_TASKS 0). apply submseteq_length, NoDup_submseteq.
    + eapply NoDup_submseteq_NoDup; [|exact (si_nodup s Hr)].
      rewrite (comm app). apply submseteq_app; [done|]. by apply submseteq_inserts_l.
    + intros t Ht. apply elem_of_seq. split; [lia|]. cbn. apply elem_of_app in Ht as [Ht|Ht].
      * apply elem_of_concat_inv in Ht as (i & e & He & Hte).
        destruct (queued_task s i e t Hr He Hte) as (tk & Htk%lookup_lt_Some & _).
        by rewrite (pi_tasks _ (si_pool s Hr)) in Htk.
      * by apply (pi_bound _ (si_pool s Hr)).
Qed.

(** Identifiers are unique: in every reachable state two live tasks with
    the same identifier are the same slot, and a live task's identifier is
    positive and at most MAX_TASKS. *)
Theorem live_ids_unique s i j t u :
  reachable HZ msecs_to_jiffies s →
  dev_tasks (y_dev s) !! i = Some t → dev_tasks (y_dev s) !! j = Some u →
  t_state t ≠ TASK_STATE_FREE → t_state u ≠ TASK_STATE_FREE →
  0 < t_id t <= Z.of_nat MAX_TASKS ∧ (t_id t = t_id u → i = j).
Proof.
  intros Hr%sys_inv_reachable Ht Hu Hlt Hlu. pose proof (si_pool s Hr) as Hp.
  assert (Hnf : i ∉ dev_free_tasks (y_dev s)).
  { intros Hf. by apply Hlt, (pi_free _ Hp i). }
  pose proof (pi_live _ Hp i t Ht Hnf) as Hpos.
  pose proof (pi_id _ Hp i t Ht). pose proof (si_accounted s Hr) as Hacc.
  unfold accounted in Hacc. split; [lia|]. intros Heq. by apply (pi_unique _ Hp i j t u).
Qed.

(** The state changes a task can undergo. *)
Definition lifecycle : list (task_state * task_state) :=
  [(TASK_STATE_FREE, TASK_STATE_PENDING);
   (TASK_STATE_PENDING, TASK_STATE_RUNNING);
   (TASK_STATE_RUNNING, TASK_STATE_COMPLETE);
   (TASK_STATE_PENDING, TASK_STATE_CANCELLED);
   (TASK_STATE_RUNNING, TASK_STATE_CANCELLED);
   (TASK_STATE_COMPLETE, TASK_STATE_CANCELLED);
   (TASK_STATE_CANCELLED, TASK_STATE_RUNNING);
   (TASK_STATE_CANCELLED, TASK_STATE_COMPLETE)].

(** C27: The life cycle of a task: a step of the system changes the state of a
    slot along [lifecycle] only.  In particular a task, once submitted, is
    never FREE again, nothing leads to FAILED, and a cancelled task can still
    become RUNNING or COMPLETE. *)
Theorem task_lifecycle s s' i t t' :
  reachable HZ msecs_to_jiffies s → sys_step HZ msecs_to_jiffies s s' →
  dev_tasks (y_dev s) !! i = Some t → dev_tasks (y_dev s') !! i = Some t' →
  t_state t' = t_state t ∨ (t_state t, t_state t') ∈ lifecycle.
Proof.
  intros Hr Hs Ht Ht'. destruct (reachable_results s Hr i t Ht) as [Hnf _].
  apply sys_inv_reachable in Hr.
  destruct (sys_step_slots HZ msecs_to_jiffies s Hr s' Hs) as [Hc _].
  destruct (Hc i t' Ht') as (t0 & Ht0 & Hch). simplify_eq.
  unfold lifecycle, queued_states, running_states in *.
  destruct Hch as [tk|tk|tk|tk|tk|tk|tk|tk|tk|tk|tk|tk]; cbn; auto;
    destruct (t_state tk); auto; try done; right; set_solver.
Qed.

(** No task ever reports FAILED or an error other than -ECANCELED: a
    timeout that expires is not recorded anywhere. *)
Theorem never_failed s i t :
  reachable HZ msecs_to_jiffies s → dev_tasks (y_dev s) !! i = Some t →
  t_state t ≠ TASK_STATE_FAILED ∧ (t_error_code t = 0 ∨ t_error_code t = - ECANCELED).
Proof. intros Hr. by apply reachable_results. Qed.

(** One task at a time: in every reachable state the active list of an
    accelerator holds the task its worker is processing and nothing else,
    and the load estimate is 10 between the worker's two updates and 0
    otherwise; it never reaches its cap of 100. *)
Theorem one_active_task s i a pc :
  reachable HZ msecs_to_jiffies s →
  dev_accelerators (y_dev s) !! i = Some a → y_workers s !! i = Some pc →
  a_active_tasks a = option_list (wpc_task pc) ∧ a_load_percent a = expected_load pc.
Proof.
  intros Hr%sys_inv_reachable Ha Hpc.
  destruct (si_workers s Hr i a Ha) as (pc0 & e0 & q0 & Hpc0 & _ & _ & []). by simplify_eq.
Qed.
End Props.

(** ** The properties at the worked schedule *)

Lemma no_invalid_access_witness :
  y_calls demo_sys !! 1%nat = Some (U_c_error 0) ∧
  ∃ pc' d', ustep demo_HZ (y_now demo_sys) true (U_c_error 0) (y_dev demo_sys) = (Ok pc', d').
Proof.
  split; [by vm_compute|].
  apply (proj1 (no_invalid_access demo_HZ demo_m2j demo_sys demo_reachable) 1%nat).
  by vm_compute.
Defined.

Lemma lists_exclusive_witness :
  a_active_tasks <$> dev_accelerators (y_dev demo_sys) !! 0%nat = Some [0%nat] ∧
  NoDup (all_nodes (y_dev demo_sys)).
Proof.
  split; [by vm_compute|]. exact (lists_exclusive demo_HZ demo_m2j demo_sys demo_reachable).
Defined.

Definition demo_accel : accel :=
  default zero_accel (dev_accelerators (y_dev demo_sys) !! 0%nat).
Definition demo_task : task := default zero_task (dev_tasks (y_dev demo_sys) !! 0%nat).

Lemma fifo_dispatch_witness :
  y_enq demo_sys !! 0%nat = Some [0%nat] ∧
  ([0%nat] : list nat) = [0%nat] ++ a_task_queue demo_accel ∧ NoDup [0%nat] ∧
  ∀ t, t ∈ [0%nat] → ∃ tk, dev_tasks (y_dev demo_sys) !! t = Some tk ∧ t_accel_type tk = 0.
Proof.
  split; [by vm_compute|].
  apply (fifo_dispatch demo_HZ demo_m2j demo_sys 0 demo_accel [0%nat] [0%nat] demo_reachable);
    by vm_compute.
Defined.

Lemma pool_never_refilled_witness :
  length (concat (y_enq demo_sys)) = 1%nat ∧
  (length (concat (y_enq demo_sys)) + length (dev_free_tasks (y_dev demo_sys)) ≤ MAX_TASKS)%nat.
Proof.
  split; [by vm_compute|].
  exact (proj2 (pool_never_refilled demo_HZ demo_m2j demo_sys demo_reachable)).
Defined.

Lemma live_ids_unique_witness :
  dev_tasks (y_dev demo_sys) !! 0%nat = Some demo_task ∧ 0 < t_id demo_task <= 256.
Proof.
  assert (H : dev_tasks (y_dev demo_sys) !! 0%nat = Some demo_task) by (by vm_compute).
  split; [exact H|].
  apply (live_ids_unique demo_HZ demo_m2j demo_sys 0 0 demo_task demo_task demo_reachable H H);
    by vm_compute.
Defined.

(** The cancelled task goes on to COMPLETE. *)
Definition demo_final : sys :=
  default sys0 (sys_run demo_HZ demo_m2j (replicate 4 (E_worker 0)) demo_sys).
Definition demo_next : sys := default sys0 (sys_exec demo_HZ demo_m2j (E_worker 0) demo_final).
Definition slot0 (s : sys) : task := default zero_task (dev_tasks (y_dev s) !! 0%nat).

Lemma demo_final_reachable : reachable demo_HZ demo_m2j demo_final.
Proof.
  eapply (sys_run_reachable _ _ (replicate 4 (E_worker 0)) demo_sys demo_final demo_reachable).
  by vm_compute.
Qed.

Lemma task_lifecycle_witness :
  t_state (slot0 demo_final) = TASK_STATE_CANCELLED ∧
  t_state (slot0 demo_next) = TASK_STATE_COMPLETE ∧
  (t_state (slot0 demo_next) = t_state (slot0 demo_final) ∨
   (t_state (slot0 demo_final), t_state (slot0 demo_next)) ∈ lifecycle).
Proof.
  split_and!; [by vm_compute..|].
  apply (task_lifecycle demo_HZ demo_m2j demo_final demo_next 0 _ _ demo_final_reachable);
    [apply (sys_exec_step _ _ (E_worker 0))| |]; by vm_compute.
Defined.

Lemma never_failed_witness :
  t_state demo_task = TASK_STATE_CANCELLED ∧
  (t_error_code demo_task = 0 ∨ t_error_code demo_task = - ECANCELED).
Proof.
  split; [by vm_compute|].
  apply (never_failed demo_HZ demo_m2j demo_sys 0 demo_task demo_reachable). by vm_compute.
Defined.

Lemma one_active_task_witness :
  y_workers demo_sys !! 0%nat = Some (W_start 0 2) ∧
  a_active_tasks demo_accel = [0%nat] ∧ a_load_percent demo_accel = 10.
Proof.
  split; [by vm_compute|].
  apply (one_active_task demo_HZ demo_m2j demo_sys 0 demo_accel (W_start 0 2) demo_reachable);
    by vm_compute.
Defined.
