(* ===== verification/Shutdown.v ===== *)
(** * Stopping a worker

    accel_stop_workers clears [running] and calls kthread_stop, which waits
    for the thread to return.  This file shows that the wait ends, under any
    interleaving with calls and the other workers. *)

From S2P Require Import Prelude CLayout Device UserMem Uapi TaskManager Pool AccelManager Worker DevInit Chardev System Frame SystemInv Schedule.

(** Calls and workers leave the [running] flags alone (Frame.v). *)
Notation running_flags := (observed a_running).

(** ** The worker's own progress *)

(** An upper bound on the statements a worker still executes once it was told
    to stop. *)
Definition steps_to_exit (pc : wpc) : nat :=
  match pc with
  | W_exit => 0
  | W_while | W_check => 1
  | W_wait | W_unlink _ => 2
  | W_done _ => 3
  | W_load_down _ => 4
  | W_error_code _ => 5
  | W_complete _ => 6
  | W_stamp _ => 7
  | W_msleep _ | W_stop _ _ _ => 8
  | W_sleep _ _ _ => 9
  | W_spin_state _ _ _ => 10
  | W_spin _ _ _ => 11
  | W_start _ _ => 12
  | W_timeout _ => 13
  | W_load_up _ => 14
  | W_run _ => 15
  | W_lock => 16
  end.

(** The number of statements a told-to-stop worker may still need. *)
Definition stop_bound : nat := 16.

Lemma steps_to_exit_bound pc : (steps_to_exit pc ≤ stop_bound)%nat.
Proof. unfold stop_bound. destruct pc; cbn; lia. Qed.

Section Shutdown.
Context (HZ : Z) (m2j : Z → Z) (i : nat).

Lemma worker_step_exits s pc pc' d' :
  sys_inv s → y_workers s !! i = Some pc → running_flags (y_dev s) !! i = Some 0 →
  worker_step m2j i (y_now s) true pc (y_dev s) = (Ok pc', d') →
  (steps_to_exit pc' ≤ steps_to_exit pc - 1)%nat.
Proof.
  intros Hinv Hpc Hrun Hstep.
  destruct (worker_parts s i pc Hinv Hpc) as (a & e & q & Ha & _).
  rewrite (observed_lookup a_running _ _ _ Ha) in Hrun. injection Hrun as Hrun.
  assert (Htask : ∀ t, wpc_task pc = Some t → ∃ tk, dev_tasks (y_dev s) !! t = Some tk).
  { intros t Ht. destruct (worker_task_parts s i pc Hinv Hpc t Ht)
      as (? & ? & tk & _ & _ & _ & _ & _ & _ & _ & _ & _ & Htk & _). eauto. }
  destruct pc; cbn [worker_step wpc_task] in *; unfold mbind, KM_bind, mret, KM_ret in Hstep;
    rewrite ?(get_accel_run _ _ _ Ha), ?(upd_accel_run _ _ _ _ Ha), ?(dequeue_run i _ _ Ha),
      ?Hrun in Hstep;
    try (destruct (Htask _ eq_refl) as [tk Ht];
         rewrite ?(upd_task_run _ _ _ _ Ht), ?(get_task_run _ _ _ Ht) in Hstep);
    try (destruct (a_task_queue a)); injection Hstep as <- _;
    repeat case_match; cbn; lia.
Qed.

(** The worker was told to stop, and is at [pc]. *)
Definition told_to_stop (s : sys) (pc : wpc) : Prop :=
  sys_inv s ∧ running_flags (y_dev s) !! i = Some 0 ∧ y_stop s !! i = Some true ∧
  y_workers s !! i = Some pc.

Definition is_worker (e : event) : Prop := e = E_worker i.
#[global] Instance is_worker_dec e : Decision (is_worker e).
Proof. destruct e as [| | |j|]; try (right; done).
  destruct (decide (j = i)) as [->|]; [by left|right; unfold is_worker; congruence]. Defined.

Lemma running_flags_upd j f d :
  (∀ a, a_running a = 0 → a_running (f a) = 0) → running_flags d !! i = Some 0 →
  running_flags (upd_accelerators (arr_upd j f) d) !! i = Some 0.
Proof.
  unfold observed. cbn. rewrite !list_lookup_fmap, arr_upd_lookup. intros Hf.
  case_decide; [|done]. destruct (dev_accelerators d !! i); cbn; [|done].
  intros [= Hr]. by rewrite (Hf _ Hr).
Qed.

Lemma remover_keeps_stop s r' d' stop' :
  remover_exec s = Some (r', d', stop') →
  running_flags (y_dev s) !! i = Some 0 → y_stop s !! i = Some true →
  running_flags d' !! i = Some 0 ∧ stop' !! i = Some true.
Proof.
  unfold remover_exec. intros Hr Hrun Hst.
  destruct (y_remover s); repeat case_match; simplify_eq; auto using running_flags_upd.
  split; [done|]. rewrite arr_upd_lookup, Hst. by case_decide.
Qed.

Lemma told_to_stop_step e s s' pc :
  told_to_stop s pc → sys_exec HZ m2j e s = Some s' →
  ∃ pc', told_to_stop s' pc' ∧
    (steps_to_exit pc' ≤ steps_to_exit pc - if decide (is_worker e) then 1 else 0)%nat.
Proof.
  intros (Hinv & Hrun & Hst & Hpc) He.
  assert (Hinv' : sys_inv s') by (eapply sys_inv_step, sys_exec_step; eauto).
  assert (Hsame : running_flags (y_dev s') !! i = Some 0 → y_stop s' !! i = Some true →
    y_workers s' !! i = Some pc → ¬ is_worker e → ∃ pc', told_to_stop s' pc' ∧
    (steps_to_exit pc' ≤ steps_to_exit pc - if decide (is_worker e) then 1 else 0)%nat).
  { intros. exists pc. rewrite decide_False by done. split; [done|lia]. }
  destruct e as [n|pc0|k copied|j|]; cbn [sys_exec] in He.
  - injection He as <-. by apply Hsame.
  - destruct (decide (is_entry pc0)); [|done]. injection He as <-. by apply Hsame.
  - destruct (y_calls s !! k) as [pc0|]; [|done]. cbn [mbind option_bind] in He.
    pose proof (ustep_keeps a_running HZ (y_now s) copied pc0 (y_dev s)) as Hk.
    destruct (ustep _ _ _ _ _) as [[pc'| |] d']; simplify_eq. apply Hsame; [|done..].
    cbn in *. by rewrite Hk.
  - destruct (y_workers s !! j) as [pcj|] eqn:Hj; [|done]. cbn [mbind option_bind] in He.
    destruct (y_stop s !! j) as [stop|] eqn:Hsj; [|done]. cbn [mbind option_bind] in He.
    pose proof (worker_step_keeps a_running m2j j (y_now s) stop pcj (y_dev s)) as Hk.
    destruct (worker_step _ _ _ _ _ _) as [[pc'| |] d'] eqn:Hw; simplify_eq. cbn in Hk.
    destruct (decide (j = i)) as [->|Hji].
    + simplify_eq. exists pc'. split.
      * split_and!; [done|cbn; by rewrite Hk|done|cbn].
        apply list_lookup_insert_eq. exact (lookup_lt_Some _ _ _ Hpc).
      * rewrite decide_True by done. exact (worker_step_exits s pc pc' d' Hinv Hpc Hrun Hw).
    + apply Hsame; [cbn; by rewrite Hk|done|cbn; by rewrite list_lookup_insert_ne|].
      unfold is_worker. congruence.
  - destruct (remover_exec s) as [[[r' d'] stop']|] eqn:Hr; [|done]. cbn in He. simplify_eq.
    destruct (remover_keeps_stop s r' d' stop' Hr Hrun Hst). by apply Hsame.
Qed.

Lemma told_to_stop_run es s s' pc :
  told_to_stop s pc → sys_run HZ m2j es s = Some s' →
  ∃ pc', told_to_stop s' pc' ∧
    (steps_to_exit pc' ≤ steps_to_exit pc - length (filter is_worker es))%nat.
Proof.
  revert s pc. induction es as [|e es IH]; intros s pc Hs; cbn [sys_run].
  { intros [= <-]. exists pc. split; [done|cbn; lia]. }
  destruct (sys_exec HZ m2j e s) as [s1|] eqn:He; [|done]. cbn [mbind option_bind]. intros Hr.
  destruct (told_to_stop_step e s s1 pc Hs He) as (pc1 & Hs1 & Hle).
  destruct (IH s1 pc1 Hs1 Hr) as (pc' & Hs' & Hle'). exists pc'. split; [done|].
  rewrite filter_cons. destruct (decide (is_worker e)); cbn; lia.
Qed.

(** kthread_stop's wait ends.  Once [running] of accelerator [i] is clear
    and its thread was asked to stop, the thread returns after at most 16 of
    its own statements, whatever it was doing, whatever the queue holds and
    however calls, ticks, other workers and the removal interleave. *)
Theorem worker_stops es s s' :
  reachable HZ m2j s → running_flags (y_dev s) !! i = Some 0 → y_stop s !! i = Some true →
  sys_run HZ m2j es s = Some s' →
  (stop_bound ≤ length (filter is_worker es))%nat → y_workers s' !! i = Some W_exit.
Proof.
  intros Hr%sys_inv_reachable Hrun Hst Hes Hlen.
  destruct (lookup_lt_is_Some_2 (y_workers s) i) as [pc Hpc].
  { rewrite (si_workers_len s Hr), <- (si_stop_len s Hr). by eapply lookup_lt_Some. }
  destruct (told_to_stop_run es s s' pc) as (pc' & (_ & _ & _ & Hpc') & Hle); [done..|].
  pose proof (steps_to_exit_bound pc). rewrite Hpc'.
  destruct pc'; cbn in Hle; lia || done.
Qed.
End Shutdown.

(** The removal of the driver while a task runs: three statements of the
    remover, then the worker's last ones. *)
Definition demo_stopping : sys :=
  default sys0 (sys_run demo_HZ demo_m2j (replicate 3 E_remove) demo_sys).

Lemma demo_stopping_reachable : reachable demo_HZ demo_m2j demo_stopping.
Proof.
  eapply (sys_run_reachable _ _ (replicate 3 E_remove) demo_sys _ demo_reachable).
  by vm_compute.
Qed.

Lemma worker_stops_witness :
  y_workers demo_stopping !! 0%nat = Some (W_start 0 2) ∧
  (y_workers <$> sys_run demo_HZ demo_m2j (replicate 16 (E_worker 0)) demo_stopping)
  ≫= (.!! 0%nat) = Some W_exit.
Proof.
  split; [by vm_compute|].
  destruct (sys_run demo_HZ demo_m2j (replicate 16 (E_worker 0)) demo_stopping) as [s'|] eqn:E;
    [|exfalso; by vm_compute in E].
  apply (worker_stops demo_HZ demo_m2j 0 (replicate 16 (E_worker 0)) demo_stopping s'
    demo_stopping_reachable); [by vm_compute..|exact E|by vm_compute].
Defined.

(** Stopping a worker races with its exit: accel_stop_workers clears
    [running] first, so the thread can have returned before kthread_stop is
    called on it.  For each accelerator such a state is reachable: the remover
    is about to call kthread_stop, and the thread has already returned (nothing
    holds a reference to it). *)
Theorem stop_races_with_exit i :
  (i < NUM_ACCELERATORS)%nat →
  ∃ s, reachable demo_HZ demo_m2j s ∧ y_remover s = R_kthread i ∧ y_workers s !! i = Some W_exit.
Proof.
  intros Hi. set (stop_one := λ j, [E_remove; E_worker j; E_remove; E_remove]).
  set (es := [E_remove] ++ concat (stop_one <$> seq 0 i) ++ [E_remove; E_worker i]).
  assert (Hrun : ∃ s, sys_run demo_HZ demo_m2j es sys0 = Some s ∧ y_remover s = R_kthread i ∧
    y_workers s !! i = Some W_exit).
  { unfold NUM_ACCELERATORS in Hi. destruct i as [|[|[|i]]]; [..|lia];
      (eexists; split; [vm_compute; reflexivity|by vm_compute]). }
  destruct Hrun as (s & Hs & Hr). exists s. split; [|exact Hr].
  apply (sys_run_reachable _ _ es sys0); [by apply reach_init|exact Hs].
Qed.
