(* ===== verification/Teardown.v ===== *)
(** * Removing the driver under concurrency

    accel_stop_workers against the worker threads, calls in flight and the
    clock: the removal always comes to its end, what it leaves behind, and
    which calls the release of the device that follows it can hurt. *)

From S2P Require Import Prelude CLayout Device UserMem Uapi TaskManager Pool AccelManager Worker DevInit Chardev System Frame SystemInv Schedule SystemProps Shutdown.

(** ** How far the removal has come *)

#[export] Instance untouched_thread : Untouched a_worker_thread.
Proof. by split. Qed.

#[export] Instance rpc_eq_dec : EqDecision rpc.
Proof. solve_decision. Defined.

Notation threads := (observed a_worker_thread).

(** The accelerators whose thread was stopped. *)
Definition stopped (r : rpc) : nat :=
  match r with
  | R_idle => 0
  | R_clear i | R_kthread i | R_join i => i
  | R_done => NUM_ACCELERATORS
  end.

(** What the statement the remover is at relies on. *)
Definition remover_ok (s : sys) : Prop :=
  match y_remover s with
  | R_kthread i => (i < NUM_ACCELERATORS)%nat ∧ running_flags (y_dev s) !! i = Some 0
  | R_join i => (i < NUM_ACCELERATORS)%nat ∧ running_flags (y_dev s) !! i = Some 0 ∧
      y_stop s !! i = Some true
  | _ => True
  end.

Record removal_inv (s : sys) : Prop := {
  ri_le : (stopped (y_remover s) ≤ NUM_ACCELERATORS)%nat;
  ri_exited : ∀ j, (j < stopped (y_remover s))%nat → y_workers s !! j = Some W_exit;
  ri_threads : ∀ j, (stopped (y_remover s) ≤ j < NUM_ACCELERATORS)%nat →
    ∃ th, threads (y_dev s) !! j = Some th ∧ th ≠ KT_NULL;
  ri_remover : remover_ok s;
}.

Lemma running_dev_threads j :
  (j < NUM_ACCELERATORS)%nat → ∃ th, threads running_dev !! j = Some th ∧ th ≠ KT_NULL.
Proof.
  intros Hj. assert (Ht : threads running_dev = [KT_THREAD 0; KT_THREAD 1; KT_THREAD 2])
    by (by vm_compute).
  rewrite Ht. destruct j as [|[|[|j]]]; cbn; eauto. unfold NUM_ACCELERATORS in Hj. lia.
Qed.

(** A thread that returned stays returned. *)
Lemma worker_exit_stays m2j i now stop d : worker_step m2j i now stop W_exit d = (Ok W_exit, d).
Proof. done. Qed.

Lemma exited_insert (workers : list wpc) i j pc pc' :
  workers !! i = Some pc → (pc = W_exit → pc' = W_exit) →
  workers !! j = Some W_exit → <[i := pc']> workers !! j = Some W_exit.
Proof.
  intros Hi Hpc Hj. destruct (decide (j = i)) as [->|].
  - rewrite list_lookup_insert_eq by (by eapply lookup_lt_Some).
    f_equal. apply Hpc. congruence.
  - by rewrite list_lookup_insert_ne.
Qed.

(** Steps of calls, workers and the clock. *)
Lemma removal_inv_keep s s' :
  removal_inv s → y_remover s' = y_remover s → y_stop s' = y_stop s →
  threads (y_dev s') = threads (y_dev s) → running_flags (y_dev s') = running_flags (y_dev s) →
  (∀ j, y_workers s !! j = Some W_exit → y_workers s' !! j = Some W_exit) →
  removal_inv s'.
Proof.
  intros [Hle Hex Hth Hok] Hr Hst Ht Hf Hw. unfold remover_ok in Hok.
  split; unfold remover_ok; rewrite ?Hr, ?Hst, ?Ht, ?Hf; auto.
Qed.

Lemma threads_upd i f d :
  threads (upd_accelerators (arr_upd i f) d) !! i =
    (λ a, a_worker_thread (f a)) <$> dev_accelerators d !! i.
Proof. unfold observed. cbn. rewrite list_lookup_fmap, arr_upd_same. by destruct (_ !! i). Qed.

Lemma observed_upd_other {P} (obs : accel → P) i j f d :
  i ≠ j → observed obs (upd_accelerators (arr_upd i f) d) !! j = observed obs d !! j.
Proof. intros Hij. unfold observed. cbn. by rewrite !list_lookup_fmap, arr_upd_other. Qed.

Lemma removal_inv_remover s r' d' stop' s' :
  sys_inv s → removal_inv s → remover_step s r' d' stop' →
  y_remover s' = r' → y_dev s' = d' → y_stop s' = stop' → y_workers s' = y_workers s →
  removal_inv s'.
Proof.
  intros Hinv [Hle Hex Hth Hok] Hstep Hr Hd Hst Hw. unfold remover_ok in Hok.
  destruct Hstep as [E|i a E Ha Hn|i a E Ha Hn|i E|i E Hexit|E]; rewrite E in *; cbn [stopped] in *;
    split; unfold remover_ok; rewrite ?Hr, ?Hd, ?Hst, ?Hw; cbn [stopped]; try done; try lia.
  - pose proof (lookup_lt_Some _ _ _ Ha). pose proof (si_accels s Hinv). lia.
  - intros j Hj. destruct (Hth i) as (th & Hl & Hne).
    { pose proof (lookup_lt_Some _ _ _ Ha). pose proof (si_accels s Hinv). lia. }
    rewrite (observed_lookup a_worker_thread _ _ _ Ha) in Hl. congruence.
  - intros j Hj. apply Hth. lia.
  - intros j Hj. destruct (decide (i = j)) as [<-|]; [|rewrite observed_upd_other by done; by apply Hth].
    rewrite threads_upd, Ha. cbn. eauto.
  - pose proof (lookup_lt_Some _ _ _ Ha). pose proof (si_accels s Hinv). split; [lia|].
    unfold observed. cbn. by rewrite list_lookup_fmap, arr_upd_same, Ha.
  - destruct Hok as [Hi Hrun]. split_and!; [done..|]. rewrite arr_upd_same.
    destruct (lookup_lt_is_Some_2 (y_stop s) i) as [b Hb]; [rewrite (si_stop_len s Hinv); lia|].
    by rewrite Hb.
  - intros j Hj. destruct (decide (j = i)) as [->|]; [done|]. apply Hex. lia.
  - intros j Hj. rewrite observed_upd_other by lia. apply Hth. lia.
Qed.

Section RemovalInv.
Context (HZ : Z) (m2j : Z → Z).

Lemma removal_inv_step s s' :
  sys_inv s → removal_inv s → sys_step HZ m2j s s' → removal_inv s'.
Proof.
  intros Hinv Hri Hs.
  destruct Hs as [n Hn|pc Hpc|k pc copied pc' d' Hk Hu|i pc stop pc' d' Hi Hst Hw|r' d' stop' Hr].
  - by apply (removal_inv_keep s).
  - by apply (removal_inv_keep s).
  - pose proof (ustep_keeps a_worker_thread HZ (y_now s) copied pc (y_dev s)) as Ht.
    pose proof (ustep_keeps a_running HZ (y_now s) copied pc (y_dev s)) as Hf.
    rewrite Hu in Ht, Hf. by apply (removal_inv_keep s).
  - pose proof (worker_step_keeps a_worker_thread m2j i (y_now s) stop pc (y_dev s)) as Ht.
    pose proof (worker_step_keeps a_running m2j i (y_now s) stop pc (y_dev s)) as Hf.
    rewrite Hw in Ht, Hf. apply (removal_inv_keep s); [done..|].
    intros j. apply (exited_insert _ i j pc); [done|]. intros ->. by injection Hw as <- _.
  - by eapply removal_inv_remover.
Qed.

Lemma removal_inv_reachable s : reachable HZ m2j s → removal_inv s.
Proof.
  intros Hr. induction Hr as [s ->|s s' Hr IH Hs].
  - split; cbn; [lia|lia| |done]. intros j Hj. apply running_dev_threads. lia.
  - eapply removal_inv_step; [by eapply sys_inv_reachable|done|done].
Qed.
End RemovalInv.

(** ** The removal comes to its end

    A schedule of attempts: a statement that cannot run yet (kthread_stop's
    wait, an event of nothing) leaves the system as it is. *)

#[export] Instance is_remove_dec (e : event) : Decision (e = E_remove).
Proof. destruct e; (left; reflexivity) || (right; discriminate). Defined.

Section Ends.
Context (HZ : Z) (m2j : Z → Z).

Definition sys_try (e : event) (s : sys) : sys := default s (sys_exec HZ m2j e s).

Fixpoint sys_play (es : list event) (s : sys) : sys :=
  match es with
  | [] => s
  | e :: es' => sys_play es' (sys_try e s)
  end.

(** A round lets the remover and every worker run once, among anything else. *)
Definition removal_round (es : list event) : Prop :=
  E_remove ∈ es ∧ ∀ i, (i < NUM_ACCELERATORS)%nat → E_worker i ∈ es.

(** The rounds one thread takes: clear and wake, kthread_stop, at most
    [stop_bound] statements of the worker, the end of the wait. *)
Definition thread_cost : nat := stop_bound + 3.

(** The rounds the removal still needs. *)
Definition removal_rank (s : sys) : nat :=
  match y_remover s with
  | R_idle => 3 * thread_cost + 2
  | R_clear i => (3 - i) * thread_cost + 1
  | R_kthread i => (3 - i) * thread_cost
  | R_join i => (2 - i) * thread_cost + 2 + from_option steps_to_exit 0%nat (y_workers s !! i)
  | R_done => 0
  end.

(** The statement that makes progress next. *)
Definition removal_turn (s : sys) : event :=
  match y_remover s with
  | R_join i => if decide (y_workers s !! i = Some W_exit) then E_remove else E_worker i
  | _ => E_remove
  end.

Lemma sys_try_reachable e s : reachable HZ m2j s → reachable HZ m2j (sys_try e s).
Proof.
  intros Hr. unfold sys_try. destruct (sys_exec HZ m2j e s) as [s'|] eqn:He; [|done].
  eapply reach_step; [exact Hr|]. by eapply sys_exec_step.
Qed.

Lemma steps_to_exit_zero pc : steps_to_exit pc = 0%nat → pc = W_exit.
Proof. by destruct pc. Qed.

(** The remover's own statement lowers the rank, when it runs. *)
Lemma remover_rank s r' d' stop' s' :
  sys_inv s → removal_inv s → remover_exec s = Some (r', d', stop') →
  y_remover s' = r' → y_workers s' = y_workers s → (removal_rank s' < removal_rank s)%nat.
Proof.
  intros Hinv Hri He Hr Hw. unfold remover_exec in He. unfold removal_rank. rewrite Hr, Hw.
  pose proof (ri_remover s Hri) as Hok. unfold remover_ok in Hok.
  destruct (y_remover s) as [|i|i|i|] eqn:E; [| | | |done]; unfold thread_cost, stop_bound.
  - injection He as <- _ _. lia.
  - destruct (dev_accelerators (y_dev s) !! i) as [a|] eqn:Ha.
    + pose proof (lookup_lt_Some _ _ _ Ha) as Hi. rewrite (si_accels s Hinv) in Hi.
      unfold NUM_ACCELERATORS in Hi. case_decide; injection He as <- _ _; lia.
    + case_decide as Hi; [|done]. injection He as <- _ _. unfold NUM_ACCELERATORS in Hi. lia.
  - injection He as <- _ _. destruct Hok as [Hi _]. unfold NUM_ACCELERATORS in Hi.
    destruct (y_workers s !! i) as [pc|]; cbn [from_option]; [|lia].
    pose proof (steps_to_exit_bound pc) as Hb. unfold stop_bound in Hb. lia.
  - case_decide; [|done]. injection He as <- _ _. destruct Hok as [Hi _].
    unfold NUM_ACCELERATORS in Hi. lia.
Qed.

Lemma remover_same e s : e ≠ E_remove → y_remover (sys_try e s) = y_remover s.
Proof.
  intros Hne. unfold sys_try. destruct e as [n|pc|k copied|j|]; cbn [sys_exec]; [done| | | |done].
  - by case_decide.
  - destruct (y_calls s !! k) as [pc|]; [|done]. cbn [mbind option_bind].
    by destruct (ustep _ _ _ _ _) as [[]].
  - destruct (y_workers s !! j) as [pc|]; [|done]. cbn [mbind option_bind].
    destruct (y_stop s !! j); [|done]. cbn [mbind option_bind].
    by destruct (worker_step _ _ _ _ _ _) as [[]].
Qed.

(** Outside of kthread_stop's wait the remover can always go on. *)
Lemma remover_runs s :
  sys_inv s → removal_inv s → removal_turn s = E_remove → y_remover s ≠ R_done →
  is_Some (remover_exec s).
Proof.
  intros Hinv Hri Hturn Hnd. unfold removal_turn in Hturn. unfold remover_exec.
  pose proof (ri_le s Hri) as Hle.
  destruct (y_remover s) as [|i|i|i|] eqn:E; cbn [stopped] in *; [done| |done| |done].
  - destruct (dev_accelerators (y_dev s) !! i) as [a|] eqn:Ha; [case_decide; done|].
    apply lookup_ge_None in Ha. rewrite (si_accels s Hinv) in Ha. rewrite decide_True by lia. done.
  - case_decide; done.
Qed.

Lemma worker_can_run i s :
  sys_inv s → (i < NUM_ACCELERATORS)%nat → is_Some (sys_exec HZ m2j (E_worker i) s).
Proof.
  intros Hinv Hi. cbn [sys_exec].
  destruct (lookup_lt_is_Some_2 (y_workers s) i) as [pc Hpc]; [by rewrite (si_workers_len s Hinv)|].
  destruct (lookup_lt_is_Some_2 (y_stop s) i) as [stop Hst]; [by rewrite (si_stop_len s Hinv)|].
  rewrite Hpc, Hst. cbn [mbind option_bind].
  destruct (worker_step_safe m2j s i pc stop Hinv Hpc) as (pc' & d' & -> & _). done.
Qed.

(** The remover's turn. *)
Lemma remover_progress s :
  reachable HZ m2j s → removal_turn s = E_remove → y_remover s ≠ R_done →
  (removal_rank (sys_try E_remove s) < removal_rank s)%nat.
Proof.
  intros Hr Hturn Hnd. pose proof (removal_inv_reachable HZ m2j s Hr) as Hri.
  pose proof (sys_inv_reachable HZ m2j s Hr) as Hinv.
  destruct (remover_runs s Hinv Hri Hturn Hnd) as [[[r' d'] stop'] He].
  unfold sys_try. cbn [sys_exec]. rewrite He. by eapply remover_rank.
Qed.

Definition still_turn (e : event) (s s' : sys) : Prop :=
  removal_rank s' = removal_rank s ∧ y_remover s' = y_remover s ∧
  removal_turn s' = removal_turn s ∧ e ≠ removal_turn s.

(** While the remover waits for the thread of accelerator [i]. *)
Lemma join_progress e s i :
  reachable HZ m2j s → y_remover s = R_join i →
  (removal_rank (sys_try e s) < removal_rank s)%nat ∨ still_turn e s (sys_try e s).
Proof.
  intros Hr E. pose proof (removal_inv_reachable HZ m2j s Hr) as Hri.
  pose proof (sys_inv_reachable HZ m2j s Hr) as Hinv.
  pose proof (ri_remover s Hri) as Hok. unfold remover_ok in Hok. rewrite E in Hok.
  destruct Hok as (Hi & Hrun & Hst).
  destruct (lookup_lt_is_Some_2 (y_workers s) i) as [pc Hpc]; [by rewrite (si_workers_len s Hinv)|].
  destruct (decide (e = E_remove)) as [->|Hne].
  { destruct (decide (pc = W_exit)) as [->|Hpe].
    - left. apply remover_progress; [done| |congruence].
      unfold removal_turn. by rewrite E, decide_True.
    - right. assert (Hn : sys_try E_remove s = s).
      { unfold sys_try. cbn [sys_exec]. unfold remover_exec. rewrite E, decide_False by congruence. done. }
      unfold still_turn. rewrite Hn. split_and!; [done..|]. unfold removal_turn.
      rewrite E, decide_False by congruence. done. }
  pose proof (remover_same e s Hne) as Hsame. unfold still_turn.
  destruct (sys_exec HZ m2j e s) as [s'|] eqn:He.
  2: { assert (Hn : sys_try e s = s) by (unfold sys_try; by rewrite He). rewrite Hn. right.
       split_and!; [done..|]. unfold removal_turn. rewrite E. case_decide; [done|].
       intros ->. destruct (worker_can_run i s Hinv Hi) as [? ?]. congruence. }
  assert (Hn : sys_try e s = s') by (unfold sys_try; by rewrite He). rewrite Hn in *.
  destruct (told_to_stop_step HZ m2j i e s s' pc) as (pc' & (_ & _ & _ & Hpc') & Hle); [done..|].
  unfold removal_rank, removal_turn. rewrite Hsame, E, Hpc, Hpc'. cbn [from_option].
  destruct (decide (steps_to_exit pc' < steps_to_exit pc)%nat); [left; lia|right].
  assert (Heq : steps_to_exit pc' = steps_to_exit pc) by (destruct (decide (is_worker i e)); lia).
  split_and!; [by rewrite Heq|done| |].
  - destruct (decide (pc = W_exit)) as [->|Hp].
    + apply steps_to_exit_zero in Heq as ->. done.
    + rewrite !decide_False; [done|congruence|]. intros [= ->]. by apply Hp, steps_to_exit_zero.
  - destruct (decide (pc = W_exit)) as [->|Hp]; [by rewrite decide_True|].
    rewrite decide_False by congruence. intros ->. rewrite decide_True in Hle by done.
    apply Hp, steps_to_exit_zero. lia.
Qed.

(** Whatever happens, the rank falls or it is still the same statement's turn. *)
Lemma removal_progress e s :
  reachable HZ m2j s → y_remover s ≠ R_done →
  (removal_rank (sys_try e s) < removal_rank s)%nat ∨ still_turn e s (sys_try e s).
Proof.
  intros Hr Hnd. destruct (y_remover s) as [|i|i|i|] eqn:E; [| | |by eapply join_progress|done];
    (destruct (decide (e = E_remove)) as [->|Hne];
     [left; apply remover_progress; [done|unfold removal_turn; by rewrite E|congruence]|right];
     pose proof (remover_same e s Hne) as Hsame;
     unfold still_turn, removal_rank, removal_turn; rewrite Hsame, E; done).
Qed.

Lemma rank_done s : reachable HZ m2j s → removal_rank s = 0%nat ↔ y_remover s = R_done.
Proof.
  intros Hr%removal_inv_reachable. pose proof (ri_remover s Hr) as Hok.
  unfold remover_ok, NUM_ACCELERATORS in Hok. unfold removal_rank, thread_cost, stop_bound.
  destruct (y_remover s); split; try done; lia.
Qed.

Lemma done_stays e s : y_remover s = R_done → y_remover (sys_try e s) = R_done.
Proof.
  intros E. destruct (decide (e = E_remove)) as [->|Hne]; [|by rewrite remover_same].
  unfold sys_try. cbn [sys_exec]. unfold remover_exec. by rewrite E.
Qed.

Lemma removal_rank_le e s :
  reachable HZ m2j s → (removal_rank (sys_try e s) ≤ removal_rank s)%nat.
Proof.
  intros Hr. destruct (decide (removal_rank s = 0%nat)) as [H0%rank_done|H0]; [|done|].
  - pose proof (done_stays e s H0) as Hd%rank_done; [lia|by apply sys_try_reachable].
  - destruct (removal_progress e s Hr) as [?|[? _]]; [|lia..]. by rewrite <- rank_done.
Qed.

Lemma sys_play_le es s :
  reachable HZ m2j s →
  reachable HZ m2j (sys_play es s) ∧ (removal_rank (sys_play es s) ≤ removal_rank s)%nat.
Proof.
  revert s. induction es as [|e es IH]; intros s Hr; cbn [sys_play]; [done|].
  destruct (IH (sys_try e s)) as [? ?]; [by apply sys_try_reachable|].
  pose proof (removal_rank_le e s Hr). split; [done|lia].
Qed.

Lemma turn_in_round es s :
  removal_inv s → removal_round es → removal_turn s ∈ es.
Proof.
  intros Hri [Hrem Hw]. unfold removal_turn. pose proof (ri_remover s Hri) as Hok.
  unfold remover_ok in Hok. destruct (y_remover s); try done. case_decide; [done|].
  apply Hw, Hok.
Qed.

(** A schedule in which the turn comes lowers the rank. *)
Lemma removal_turn_progress es s :
  reachable HZ m2j s → y_remover s ≠ R_done → removal_turn s ∈ es →
  (removal_rank (sys_play es s) < removal_rank s)%nat.
Proof.
  revert s. induction es as [|e es IH]; intros s Hr Hnd Hin; [by apply not_elem_of_nil in Hin|].
  cbn [sys_play]. pose proof (sys_try_reachable e s Hr) as Hr'.
  destruct (removal_progress e s Hr Hnd) as [Hlt|(Heq & Hsame & Hturn & Hne)].
  - pose proof (sys_play_le es _ Hr') as [_ ?]. lia.
  - rewrite <- Heq. apply IH; [done|congruence|]. rewrite Hturn.
    apply elem_of_cons in Hin as [He|]; [by rewrite He in Hne|done].
Qed.

(** The rounds that suffice: 19 for each thread, and the first and last
    statement of the removal. *)
Definition removal_bound : nat := 3 * thread_cost + 2.

Lemma removal_rank_bound s : removal_inv s → (removal_rank s ≤ removal_bound)%nat.
Proof.
  intros Hri. pose proof (ri_remover s Hri) as Hok. unfold remover_ok, NUM_ACCELERATORS in Hok.
  unfold removal_rank, removal_bound, thread_cost, stop_bound.
  destruct (y_remover s) as [|i|i|i|]; [lia|lia|lia| |lia].
  destruct (y_workers s !! i) as [pc|]; cbn [from_option]; [|lia].
  pose proof (steps_to_exit_bound pc) as Hb. unfold stop_bound in Hb. lia.
Qed.

(** The removal of the driver terminates.  From any reachable state, with
    any calls, cancellations and clock in between, whatever the three workers
    are doing and however long their queues are, 59 rounds of a schedule that
    lets the remover and each worker run bring accel_stop_workers to its end:
    its three waits in kthread_stop never deadlock. *)
Theorem removal_terminates rounds s :
  reachable HZ m2j s → Forall removal_round rounds → (removal_bound ≤ length rounds)%nat →
  y_remover (sys_play (concat rounds) s) = R_done.
Proof.
  intros Hr Hf Hlen.
  pose proof (removal_rank_bound s (removal_inv_reachable HZ m2j s Hr)) as Hb.
  assert (Hrank : (removal_rank s ≤ length rounds)%nat) by lia. clear Hlen Hb.
  revert s Hr Hrank. induction Hf as [|es rounds Hes Hf IH]; intros s Hr Hrank; cbn [concat length sys_play] in *.
  { apply rank_done; [done|lia]. }
  assert (Happ : ∀ l k s0, sys_play (l ++ k) s0 = sys_play k (sys_play l s0)).
  { intros l. induction l as [|e l IHl]; intros k s0; [done|]. apply IHl. }
  rewrite Happ. pose proof (sys_play_le es s Hr) as [Hr' Hle]. apply IH; [done|].
  destruct (decide (removal_rank s = 0%nat)) as [H0|H0]; [lia|].
  assert (Hlt : (removal_rank (sys_play es s) < removal_rank s)%nat); [|lia].
  apply removal_turn_progress; [done|by rewrite <- rank_done|].
  apply turn_in_round; [by eapply removal_inv_reachable|done].
Qed.
End Ends.

(** ** What the removal leaves behind *)

Section After.
Context (HZ : Z) (m2j : Z → Z).

Lemma done_exited s :
  reachable HZ m2j s → y_remover s = R_done → y_workers s = replicate NUM_ACCELERATORS W_exit.
Proof.
  intros Hr Hd. pose proof (removal_inv_reachable HZ m2j s Hr) as [_ Hex _ _].
  pose proof (si_workers_len s (sys_inv_reachable HZ m2j s Hr)) as Hlen.
  rewrite Hd in Hex. apply list_eq. intros j. destruct (decide (j < NUM_ACCELERATORS)%nat) as [Hj|Hj].
  - rewrite Hex, lookup_replicate_2 by done. done.
  - rewrite !lookup_ge_None_2; [done|by rewrite length_replicate; lia|lia].
Qed.

(** With every thread gone, nothing is taken off a queue. *)
Lemma exited_step e s s' :
  y_workers s = replicate NUM_ACCELERATORS W_exit → y_remover s = R_done →
  sys_exec HZ m2j e s = Some s' → y_remover s' = R_done ∧ y_deq s' = y_deq s.
Proof.
  intros Hw Hd He. split.
  - pose proof (done_stays HZ m2j e s Hd) as H. unfold sys_try in H. by rewrite He in H.
  - destruct e as [n|pc|k copied|j|]; cbn [sys_exec] in He.
    + by injection He as <-.
    + case_decide; [|done]. by injection He as <-.
    + destruct (y_calls s !! k) as [pc|]; [|done]. cbn [mbind option_bind] in He.
      destruct (ustep _ _ _ _ _) as [[]]; by simplify_eq.
    + rewrite Hw in He. destruct (replicate NUM_ACCELERATORS W_exit !! j) as [pc|] eqn:Hj; [|done].
      apply lookup_replicate in Hj as [-> _]. cbn [mbind option_bind] in He.
      destruct (y_stop s !! j); [|done]. cbn [mbind option_bind] in He.
      rewrite worker_exit_stays in He. by injection He as <-.
    + unfold remover_exec in He. by rewrite Hd in He.
Qed.

(** C23: The removal abandons the tasks it finds queued, and those that calls
    still in flight queue behind it.  Once accel_stop_workers is done every
    thread has returned, and no later statement takes a task off a queue: what
    a thread took before is finished, COMPLETE or CANCELLED, and every other
    task ever queued is PENDING or CANCELLED for ever. *)
Theorem removal_abandons_tasks es s s' :
  reachable HZ m2j s → y_remover s = R_done → sys_run HZ m2j es s = Some s' →
  y_workers s' = replicate NUM_ACCELERATORS W_exit ∧ y_deq s' = y_deq s ∧
  ∀ i e q t, y_enq s' !! i = Some e → y_deq s !! i = Some q → t ∈ e →
    ∃ tk, dev_tasks (y_dev s') !! t = Some tk ∧
      t_state tk ∈ (if decide (t ∈ q) then final_states else queued_states).
Proof.
  intros Hr Hd Hrun.
  assert (Hend : reachable HZ m2j s' ∧ y_remover s' = R_done ∧ y_deq s' = y_deq s).
  { revert s Hr Hd Hrun. induction es as [|e es IH]; intros s Hr Hd; cbn [sys_run].
    { intros [= <-]. done. }
    destruct (sys_exec HZ m2j e s) as [s1|] eqn:He; [|done]. cbn [mbind option_bind]. intros Hrun.
    destruct (exited_step e s s1 (done_exited s Hr Hd) Hd He) as [Hd1 <-].
    apply IH; [|done..]. eapply reach_step; [exact Hr|]. by eapply sys_exec_step. }
  destruct Hend as (Hr' & Hd' & Hdeq). pose proof (done_exited s' Hr' Hd') as Hex.
  split_and!; [done..|]. intros i e q t He Hq Ht. rewrite <- Hdeq in Hq.
  pose proof (sys_inv_reachable HZ m2j s' Hr') as Hinv.
  destruct (lookup_lt_is_Some_2 (dev_accelerators (y_dev s')) i) as [a Ha].
  { rewrite (si_accels s' Hinv), <- (si_enq_len s' Hinv). by eapply lookup_lt_Some. }
  destruct (si_workers s' Hinv i a Ha) as (pc & e0 & q0 & Hpc & He0 & Hq0 & [Hfifo _ _ _ Htasks]).
  simplify_eq. rewrite Hex in Hpc. apply lookup_replicate in Hpc as [-> _].
  destruct (Htasks t Ht) as (tk & Htk & _ & Hst). exists tk. split; [done|].
  assert (Hnd : NoDup (q ++ a_task_queue a)).
  { eapply NoDup_concat_elem; [|exact He].
    by pose proof (si_nodup s' Hinv) as (_ & _ & (_ & _ & ?)%NoDup_app)%NoDup_app. }
  apply NoDup_app in Hnd as (_ & Hdisj & _).
  unfold slot_states in Hst. cbn [wpc_task] in Hst. rewrite decide_False in Hst by done.
  destruct (decide (t ∈ q)) as [Hq'|Hq'].
  - rewrite decide_False in Hst by (by apply Hdisj). done.
  - rewrite decide_True in Hst; [done|]. apply elem_of_app in Ht as [?|?]; done.
Qed.
End After.

(** ** On concrete schedules *)

Definition demo_round : list event := [E_worker 2; E_remove; E_worker 0; E_worker 1].

Lemma demo_removal_round : removal_round demo_round.
Proof.
  split; [set_solver|]. intros i Hi. unfold NUM_ACCELERATORS in Hi.
  destruct i as [|[|[|i]]]; [set_solver..|lia].
Qed.

(** The removal while the task of [demo_sys] runs. *)
Lemma removal_terminates_witness :
  y_workers demo_sys !! 0%nat = Some (W_start 0 2) ∧ y_remover demo_sys = R_idle ∧
  y_remover (sys_play demo_HZ demo_m2j (concat (replicate removal_bound demo_round)) demo_sys) = R_done.
Proof.
  split_and!; [by vm_compute..|]. apply removal_terminates.
  - exact demo_reachable.
  - apply Forall_replicate, demo_removal_round.
  - by rewrite length_replicate.
Defined.

(** One task queued and never taken, then the removal; then another
    submission, on a file still open. *)
Definition demo_submit (k : nat) : list event :=
  E_call (U_check demo_desc) :: replicate 7 (E_user k true).
Definition demo_stop (i : nat) : list event := [E_remove; E_remove; E_worker i; E_remove].
Definition demo_removal : list event :=
  demo_submit 0 ++ [E_remove] ++ demo_stop 0 ++ demo_stop 1 ++ demo_stop 2 ++ [E_remove].
Definition demo_removed : sys := default sys0 (sys_run demo_HZ demo_m2j demo_removal sys0).
Definition demo_late : sys :=
  default sys0 (sys_run demo_HZ demo_m2j (demo_submit 1) demo_removed).

Lemma demo_removed_reachable : reachable demo_HZ demo_m2j demo_removed.
Proof.
  eapply (sys_run_reachable _ _ demo_removal sys0); [by apply reach_init|by vm_compute].
Qed.

(** Both submissions returned 0; neither task will ever run. *)
Lemma removal_abandons_tasks_witness :
  y_calls demo_late = [U_ret 0; U_ret 0] ∧ y_enq demo_late !! 0%nat = Some [0%nat; 1%nat] ∧
  ∀ t, t ∈ [0%nat; 1%nat] →
    ∃ tk, dev_tasks (y_dev demo_late) !! t = Some tk ∧ t_state tk ∈ queued_states.
Proof.
  split_and!; [by vm_compute..|]. intros t Ht.
  destruct (removal_abandons_tasks demo_HZ demo_m2j (demo_submit 1) demo_removed demo_late
    demo_removed_reachable) as (_ & _ & Htask); [by vm_compute..|].
  apply (Htask 0%nat [0%nat; 1%nat] [] t); [by vm_compute..|done].
Defined.
