(* ===== verification/Fair.v ===== *)
(** * Liveness of the concurrent driver

    A queued task is finished, under any interleaving with calls
    (cancellations of it included), the other workers and the clock, if the
    schedule is fair to the accelerator's worker.  Fairness is a property of
    the finite schedule: the worker is never passed over for too long, and the
    schedule has enough rounds in which the worker runs and time passes.
    [work] bounds the rounds a task still needs; no event increases it and
    every round decreases it. *)

From S2P Require Import Prelude CLayout Device UserMem Uapi TaskManager Pool AccelManager Worker DevInit Chardev System Frame SystemInv Lifecycle Schedule Shutdown.

(** ** Fair schedules *)

(** The worker of accelerator [i] is never passed over for more than [K]
    jiffies; [lag] of them have passed since its last statement. *)
Fixpoint never_starved (i : nat) (K lag : Z) (es : list event) : Prop :=
  match es with
  | [] => True
  | E_tick n :: es' => lag + Z.of_nat n <= K ∧ never_starved i K (lag + Z.of_nat n) es'
  | E_worker j :: es' => never_starved i K (if decide (j = i) then 0 else lag) es'
  | _ :: es' => never_starved i K lag es'
  end.

(** A round: the worker runs and time passes, among anything else. *)
Definition fair_round (i : nat) (es : list event) : Prop :=
  E_worker i ∈ es ∧ ∃ n, (0 < n)%nat ∧ E_tick n ∈ es.

(** What a schedule without removal does to the lag. *)
Definition lag_after (i : nat) (e : event) (lag : Z) : Z :=
  match e with
  | E_tick n => lag + Z.of_nat n
  | E_worker j => if decide (j = i) then 0 else lag
  | _ => lag
  end.

Definition event_ok (i : nat) (K lag : Z) (e : event) : Prop :=
  e ≠ E_remove ∧ lag_after i e lag <= K.

(** ** The work a task still needs *)

(** The tasks to run before [t] is finished, [t] included, when it is queued. *)
Fixpoint upto (t : nat) (q : list nat) : list nat :=
  match q with
  | [] => []
  | u :: q' => if decide (u = t) then [t] else u :: upto t q'
  end.

Definition ahead (t : nat) (q : list nat) : list nat := if decide (t ∈ q) then upto t q else [].

Definition elapsed (now start : Z) : Z := u64 (now - start).

(** In the timed wait: until the timeout has passed, what matters is the time
    left; then, the place in the loop. *)
Definition wait_rank (now timeout start pos : Z) : Z :=
  if elapsed now start <? timeout then timeout - elapsed now start + 10 else pos.

Definition timeout_of (m2j : Z → Z) (tasks : list task) (t : nat) : Z :=
  match tasks !! t with Some tk => m2j (t_timeout_ms tk) | None => 0 end.

Definition pc_rank (m2j : Z → Z) (tasks : list task) (now : Z) (pc : wpc) : Z :=
  match pc with
  | W_while | W_exit => 0
  | W_wait => -1
  | W_check => -2
  | W_lock => -3
  | W_run t => timeout_of m2j tasks t + 14
  | W_load_up t => timeout_of m2j tasks t + 13
  | W_timeout t => timeout_of m2j tasks t + 12
  | W_start _ timeout => timeout + 11
  | W_spin_state _ timeout start => wait_rank now timeout start 10
  | W_sleep _ timeout start => wait_rank now timeout start 9
  | W_stop _ timeout start => wait_rank now timeout start 8
  | W_spin _ timeout start => wait_rank now timeout start 7
  | W_msleep _ => 7
  | W_stamp _ => 6
  | W_complete _ => 5
  | W_error_code _ => 4
  | W_load_down _ => 3
  | W_done _ => 2
  | W_unlink _ => 1
  end.

Definition sum_Z (l : list Z) : Z := foldr Z.add 0 l.

Definition task_cost (m2j : Z → Z) (tasks : list task) (t : nat) : Z :=
  timeout_of m2j tasks t + 18.

Definition work (m2j : Z → Z) (t : nat) (s : sys) (pc : wpc) (q : list nat) : Z :=
  pc_rank m2j (dev_tasks (y_dev s)) (y_now s) pc +
  sum_Z (task_cost m2j (dev_tasks (y_dev s)) <$> ahead t q).

(** The worker only waits for the clock. *)
Definition waiting (now : Z) (pc : wpc) : Prop :=
  match pc with
  | W_spin _ timeout start | W_spin_state _ timeout start
  | W_sleep _ timeout start | W_stop _ timeout start => elapsed now start < timeout
  | _ => False
  end.

(** How far the clock can be past the timeout of the wait. *)
Definition wait_ok (K lag now : Z) (pc : wpc) : Prop :=
  let late n timeout start := 0 <= timeout < 2 ^ 62 ∧ elapsed now start <= timeout + n * K + lag in
  match pc with
  | W_start _ timeout => 0 <= timeout < 2 ^ 62
  | W_spin_state _ timeout start => late 0 timeout start
  | W_sleep _ timeout start => late 1 timeout start
  | W_stop _ timeout start => late 2 timeout start
  | W_spin _ timeout start => late 3 timeout start
  | _ => True
  end.

(** The worker is done with [t]. *)
Definition done_with (t : nat) (pc : wpc) (q : list nat) : Prop :=
  t ∉ q ∧ wpc_task pc ≠ Some t.

(** ** Lists *)

Lemma upto_app t q x : t ∈ q → upto t (q ++ x) = upto t q.
Proof.
  induction q as [|u q IH]; intros Ht; cbn; [by apply not_elem_of_nil in Ht|].
  case_decide; [done|]. f_equal. apply IH. set_solver.
Qed.

Lemma upto_sub t q u : t ∈ q → u ∈ upto t q → u ∈ q.
Proof.
  induction q as [|v q IH]; intros Ht Hu; cbn in *; [done|].
  case_decide as Hv; [set_solver|]. apply elem_of_cons in Hu as [->|Hu]; set_solver.
Qed.

Lemma ahead_sub t q u : u ∈ ahead t q → u ∈ q.
Proof.
  unfold ahead. case_decide; [by apply upto_sub|]. by intros ?%not_elem_of_nil.
Qed.

Lemma ahead_app t q x : t ∉ x → ahead t (q ++ x) = ahead t q.
Proof.
  intros Hx. unfold ahead. destruct (decide (t ∈ q)).
  - rewrite decide_True by set_solver. by apply upto_app.
  - by rewrite decide_False by set_solver.
Qed.

Lemma ahead_cons_same t q : t ∉ q → ahead t (t :: q) = t :: ahead t q.
Proof.
  intros Ht. unfold ahead. rewrite (decide_True (P := t ∈ t :: q)) by set_solver. cbn.
  by rewrite decide_True, decide_False by done.
Qed.

Lemma ahead_cons_other t u q : t ∈ q → u ≠ t → ahead t (u :: q) = u :: ahead t q.
Proof.
  intros Ht Hu. unfold ahead. rewrite !decide_True by set_solver. cbn. by rewrite decide_False.
Qed.

(** ** One event *)

Section Fair.
Context (HZ : Z) (m2j : Z → Z) (K : Z) (i t : nat).
Hypothesis m2j_range : ∀ ms, 0 <= m2j ms < 2 ^ 62.
Hypothesis K_range : 0 <= K <= 2 ^ 32.

Record live (lag : Z) (s : sys) (pc : wpc) (a : accel) : Prop := {
  lv_inv : sys_inv s;
  lv_pc : y_workers s !! i = Some pc;
  lv_accel : dev_accelerators (y_dev s) !! i = Some a;
  lv_running : a_running a ≠ 0;
  lv_alive : pc ≠ W_exit;
  lv_lag : 0 <= lag <= K;
  lv_wait : wait_ok K lag (y_now s) pc;
}.

Definition queued (s : sys) : Prop := ∃ e, y_enq s !! i = Some e ∧ t ∈ e.

(** The part of the invariant on accelerator [i]. *)
Lemma accel_view s pc a :
  sys_inv s → y_workers s !! i = Some pc → dev_accelerators (y_dev s) !! i = Some a →
  ∃ e q, y_enq s !! i = Some e ∧ y_deq s !! i = Some q ∧ e = q ++ a_task_queue a ∧ NoDup e ∧
    (∀ u, wpc_task pc = Some u → u ∈ q).
Proof.
  intros Hinv Hpc Ha. destruct (si_workers s Hinv i a Ha) as (pc0 & e & q & Hpc0 & He & Hq & []).
  simplify_eq. exists (q ++ a_task_queue a), q. split_and!; [done..| |done].
  eapply NoDup_concat_elem; [|exact He].
  by pose proof (si_nodup s Hinv) as (_ & _ & (_ & _ & ?)%NoDup_app)%NoDup_app.
Qed.

(** The accelerator keeps its [running] flag unless the driver is removed. *)
Lemma running_step e s s' a :
  sys_inv s → e ≠ E_remove → sys_exec HZ m2j e s = Some s' →
  dev_accelerators (y_dev s) !! i = Some a →
  ∃ a', dev_accelerators (y_dev s') !! i = Some a' ∧ a_running a' = a_running a.
Proof.
  intros Hinv Hne He Ha.
  assert (Hflags : running_flags (y_dev s') = running_flags (y_dev s)).
  { destruct e as [n|pc0|k copied|j|]; cbn [sys_exec] in He; [| | | |done].
    - by injection He as <-.
    - case_decide; [|done]. by injection He as <-.
    - destruct (y_calls s !! k) as [pc0|]; [|done]. cbn [mbind option_bind] in He.
      pose proof (ustep_keeps a_running HZ (y_now s) copied pc0 (y_dev s)) as Hk.
      destruct (ustep _ _ _ _ _) as [[pc'| |] d']; by simplify_eq.
    - destruct (y_workers s !! j) as [pcj|]; [|done]. cbn [mbind option_bind] in He.
      destruct (y_stop s !! j) as [stop|]; [|done]. cbn [mbind option_bind] in He.
      pose proof (worker_step_keeps a_running m2j j (y_now s) stop pcj (y_dev s)) as Hk.
      destruct (worker_step _ _ _ _ _ _) as [[pc'| |] d']; by simplify_eq. }
  assert (Hrun := observed_lookup a_running _ _ _ Ha). rewrite <- Hflags in Hrun.
  unfold observed in Hrun. rewrite list_lookup_fmap in Hrun.
  apply fmap_Some in Hrun as (a' & Ha' & Hr). eauto.
Qed.

(** The timeouts of queued tasks never change. *)
Lemma timeout_step s s' e u :
  sys_inv s → sys_step HZ m2j s s' → y_enq s !! i = Some e → u ∈ e →
  timeout_of m2j (dev_tasks (y_dev s')) u = timeout_of m2j (dev_tasks (y_dev s)) u.
Proof.
  intros Hinv Hs He Hu. pose proof (sys_inv_step HZ m2j s s' Hinv Hs) as Hinv'.
  destruct (sys_step_slots HZ m2j s Hinv s' Hs) as [Hc _].
  destruct (lookup_lt_is_Some_2 (dev_accelerators (y_dev s)) i) as [a Ha].
  { rewrite (si_accels s Hinv), <- (si_enq_len s Hinv). by eapply lookup_lt_Some. }
  destruct (si_workers s Hinv i a Ha) as (pc & e0 & q & _ & He0 & _ & [_ _ _ _ Htasks]).
  simplify_eq. destruct (Htasks u Hu) as (tk & Hk & _ & Hst%slot_states_live).
  destruct (lookup_lt_is_Some_2 (dev_tasks (y_dev s')) u) as [tk' Hk'].
  { rewrite (pi_tasks _ (si_pool s' Hinv')), <- (pi_tasks _ (si_pool s Hinv)).
    by eapply lookup_lt_Some. }
  destruct (Hc u tk' Hk') as (tk0 & Hk0 & Hch). simplify_eq.
  unfold timeout_of. rewrite Hk, Hk'. by destruct Hch.
Qed.

(** An event that is not a statement of the worker. *)
Lemma other_view e s s' pc a :
  sys_inv s → y_workers s !! i = Some pc → dev_accelerators (y_dev s) !! i = Some a →
  e ≠ E_remove → e ≠ E_worker i → sys_exec HZ m2j e s = Some s' →
  y_workers s' !! i = Some pc ∧
  ∃ x l, y_enq s !! i = Some l ∧ y_enq s' !! i = Some (l ++ x) ∧ y_deq s' !! i = y_deq s !! i.
Proof.
  intros Hinv Hpc Ha Hne Hni He.
  destruct (accel_view s pc a Hinv Hpc Ha) as (l & q & Hl & _).
  assert (Hsame : y_workers s' = y_workers s → y_enq s' = y_enq s → y_deq s' = y_deq s →
    y_workers s' !! i = Some pc ∧ ∃ x l, y_enq s !! i = Some l ∧ y_enq s' !! i = Some (l ++ x) ∧
    y_deq s' !! i = y_deq s !! i).
  { intros -> -> ->. split; [done|]. exists [], l. by rewrite app_nil_r. }
  destruct e as [n|pc0|k copied|j|]; cbn [sys_exec] in He; [| | | |done].
  - injection He as <-. by apply Hsame.
  - case_decide; [|done]. injection He as <-. by apply Hsame.
  - destruct (y_calls s !! k) as [pc0|]; [|done]. cbn [mbind option_bind] in He.
    destruct (ustep _ _ _ _ _) as [[pc'| |] d']; simplify_eq. cbn. split; [done|].
    destruct pc0; cbn [enq_effect]; try (exists [], l; by rewrite app_nil_r).
    rewrite arr_upd_lookup, Hl. case_decide; cbn; [by eexists _, l|].
    exists [], l. by rewrite app_nil_r.
  - destruct (y_workers s !! j) as [pcj|] eqn:Hj; [|done]. cbn [mbind option_bind] in He.
    destruct (y_stop s !! j) as [stop|]; [|done]. cbn [mbind option_bind] in He.
    destruct (worker_step _ _ _ _ _ _) as [[pc'| |] d']; simplify_eq. cbn.
    assert (Hji : j ≠ i) by congruence. rewrite list_lookup_insert_ne by done. split; [done|].
    exists [], l. rewrite app_nil_r. split_and!; [done..|].
    unfold deq_effect. repeat case_match; try done. by rewrite arr_upd_other.
Qed.

(** Time passes in the wait without the difference wrapping. *)
Lemma elapsed_tick now st n :
  0 <= n -> elapsed now st + n < 2 ^ 64 → elapsed (u64 (now + n)) st = elapsed now st + n.
Proof.
  unfold elapsed. intros Hn Hlt. pose proof (u64_range (now - st)) as Hr. unfold is_u64 in Hr.
  unfold u64 in *. rewrite Zminus_mod_idemp_l.
  replace (now + n - st) with (now - st + n) by lia.
  rewrite <- Zplus_mod_idemp_l. apply Z.mod_small. lia.
Qed.

Lemma wait_ok_tick lag now n pc :
  0 <= lag → 0 <= n → lag + n <= K → wait_ok K lag now pc →
  wait_ok K (lag + n) (u64 (now + n)) pc.
Proof.
  intros Hl Hn Hk. destruct pc; cbn; try done; intros [Hto Hel]; (split; [done|]);
    rewrite elapsed_tick by lia; lia.
Qed.

(** ... and the rank only goes down. *)
Lemma rank_tick lag now n pc tasks :
  0 <= lag → 0 <= n → lag + n <= K → wait_ok K lag now pc →
  let r := pc_rank m2j tasks now pc in
  let r' := pc_rank m2j tasks (u64 (now + n)) pc in
  r' <= r ∧ (r' = r → (waiting now pc ↔ waiting (u64 (now + n)) pc) ∧ (0 < n → ¬ waiting now pc)).
Proof.
  intros Hl Hn Hk Hw. unfold pc_rank, waiting, wait_ok in *.
  destruct pc; cbv beta iota zeta in *; try (split; [lia|done]);
    destruct Hw as [Hto Hel]; unfold wait_rank; rewrite ?elapsed_tick by lia;
    repeat case_match; lia.
Qed.

Lemma sum_Z_cons x l : sum_Z (x :: l) = x + sum_Z l.
Proof. done. Qed.

(** The cost of the tasks ahead depends on their timeouts only. *)
Lemma cost_step s s' e q :
  sys_inv s → sys_step HZ m2j s s' → y_enq s !! i = Some e → (∀ u, u ∈ q → u ∈ e) →
  task_cost m2j (dev_tasks (y_dev s')) <$> ahead t q =
  task_cost m2j (dev_tasks (y_dev s)) <$> ahead t q.
Proof.
  intros Hinv Hs He Hq. apply list_fmap_ext. intros k u Hu%list_elem_of_lookup_2%ahead_sub.
  unfold task_cost. by erewrite (timeout_step s s') by eauto.
Qed.

Lemma pc_rank_tasks tasks tasks' now pc :
  (∀ u, wpc_task pc = Some u → timeout_of m2j tasks' u = timeout_of m2j tasks u) →
  pc_rank m2j tasks' now pc = pc_rank m2j tasks now pc.
Proof. intros H. destruct pc; cbn in *; by rewrite ?H. Qed.

Definition time_passes (e : event) : Prop := ∃ n, (0 < n)%nat ∧ e = E_tick n.

(** What an event of the rest of the system does. *)
Lemma other_live e lag s s' pc a :
  live lag s pc a → event_ok i K lag e → e ≠ E_worker i → sys_exec HZ m2j e s = Some s' →
  ∃ a', live (lag_after i e lag) s' pc a' ∧ (queued s → queued s' ∧
    (done_with t pc (a_task_queue a) → done_with t pc (a_task_queue a')) ∧
    let w := work m2j t s pc (a_task_queue a) in
    let w' := work m2j t s' pc (a_task_queue a') in
    w' <= w ∧ (w' = w →
      (waiting (y_now s) pc ↔ waiting (y_now s') pc) ∧ (time_passes e → ¬ waiting (y_now s) pc))).
Proof.
  intros [Hinv Hpc Ha Hrun Hal Hlag Hw] [Hne Hk] Hni He.
  pose proof (sys_exec_step HZ m2j e s s' He) as Hs.
  pose proof (sys_inv_step HZ m2j s s' Hinv Hs) as Hinv'.
  destruct (running_step e s s' a Hinv Hne He Ha) as (a' & Ha' & Hr').
  destruct (other_view e s s' pc a Hinv Hpc Ha Hne Hni He) as (Hpc' & x & l0 & Hl0 & Hl' & Hdeq).
  destruct (accel_view s pc a Hinv Hpc Ha) as (l1 & q & Hl1 & Hq & Hfifo & _ & Hcur).
  destruct (accel_view s' pc a' Hinv' Hpc' Ha') as (l2 & q' & Hl2 & Hq' & Hfifo' & Hnd & _).
  rewrite Hl0 in Hl1. injection Hl1 as <-. rename l0 into l, Hl0 into Hl.
  rewrite Hl' in Hl2. injection Hl2 as <-. rewrite Hdeq, Hq in Hq'. injection Hq' as <-.
  subst l. rewrite <- app_assoc in Hfifo'. apply app_inv_head in Hfifo'.
  rewrite <- app_assoc in Hnd.
  assert (Hsub : ∀ u, u ∈ a_task_queue a → u ∈ q ++ a_task_queue a)
    by (intros u Hu; apply elem_of_app; by right).
  pose proof (cost_step s s' _ (a_task_queue a) Hinv Hs Hl Hsub) as Hcost.
  assert (Hrank : ∀ now, pc_rank m2j (dev_tasks (y_dev s')) now pc =
                         pc_rank m2j (dev_tasks (y_dev s)) now pc).
  { intros now. apply pc_rank_tasks. intros u Hu. eapply timeout_step; eauto. set_solver. }
  assert (Htick : ∃ n, 0 <= n ∧ lag_after i e lag = lag + n ∧
    (pc_rank m2j (dev_tasks (y_dev s)) (y_now s') pc <=
       pc_rank m2j (dev_tasks (y_dev s)) (y_now s) pc) ∧
    wait_ok K (lag + n) (y_now s') pc ∧
    (pc_rank m2j (dev_tasks (y_dev s)) (y_now s') pc =
       pc_rank m2j (dev_tasks (y_dev s)) (y_now s) pc →
     (waiting (y_now s) pc ↔ waiting (y_now s') pc) ∧ (time_passes e → ¬ waiting (y_now s) pc))).
  { destruct e as [n|pc0|k copied|j|]; cbn [sys_exec lag_after] in *; [| | | |done].
    - injection He as <-. exists (Z.of_nat n). cbn.
      destruct (rank_tick lag (y_now s) (Z.of_nat n) pc (dev_tasks (y_dev s)))
        as [Hle Heq]; [lia..|done|]. split_and!; [lia|done|done|apply wait_ok_tick; lia || done|].
      intros E. destruct (Heq E) as [Hw1 Hw2]. split; [done|].
      intros (n' & Hn' & [= ->]). apply Hw2. lia.
    - case_decide; [|done]. injection He as <-. exists 0. rewrite Z.add_0_r. cbn.
      split_and!; try done. intros _. split; [done|]. by intros (? & _ & ?).
    - destruct (y_calls s !! k) as [pc0|]; [|done]. cbn [mbind option_bind] in He.
      destruct (ustep _ _ _ _ _) as [[pc'| |] d']; simplify_eq. exists 0. rewrite Z.add_0_r. cbn.
      split_and!; try done. intros _. split; [done|]. by intros (? & _ & ?).
    - destruct (y_workers s !! j) as [pcj|]; [|done]. cbn [mbind option_bind] in He.
      destruct (y_stop s !! j) as [stop|]; [|done]. cbn [mbind option_bind] in He.
      destruct (worker_step _ _ _ _ _ _) as [[pc'| |] d']; simplify_eq.
      rewrite decide_False by congruence. exists 0. rewrite Z.add_0_r. cbn.
      split_and!; try done. intros _. split; [done|]. by intros (? & _ & ?). }
  destruct Htick as (n & Hn & Hlag' & Hle & Hw' & Heq).
  exists a'. split.
  { split; try done; [congruence|rewrite Hlag' in *; lia|by rewrite Hlag']. }
  intros (l0 & Hl0 & Htl). rewrite Hl in Hl0. injection Hl0 as <-.
  assert (Htx : t ∉ x).
  { intros Htx. apply NoDup_app in Hnd as (_ & Hd & Hnd).
    apply elem_of_app in Htl as [Htq|Htq].
    - apply (Hd t Htq). set_solver.
    - apply NoDup_app in Hnd as (_ & Hd' & _). by apply (Hd' t). }
  split_and!.
  - eexists. split; [exact Hl'|]. apply elem_of_app. by left.
  - unfold done_with. rewrite <- Hfifo'. set_solver.
  - cbv zeta. unfold work. rewrite <- Hfifo', ahead_app, Hcost, Hrank by done.
    split; [lia|]. intros E. apply Heq. lia.
Qed.

(** ** A statement of the worker *)

(** Where a worker that is not told to stop goes from [pc]. *)
Definition moves (now : Z) (tasks : list task) (q : list nat) (pc pc' : wpc) : Prop :=
  match pc with
  | W_while => pc' = W_wait
  | W_wait => pc' = W_check
  | W_check => pc' = W_lock
  | W_lock => match q with [] => pc' = W_while | u :: _ => pc' = W_run u end
  | W_run u => pc' = W_load_up u
  | W_load_up u => pc' = W_timeout u
  | W_timeout u => pc' = W_start u (timeout_of m2j tasks u) ∨ pc' = W_msleep u
  | W_start u timeout => pc' = W_spin u timeout now
  | W_spin u timeout st =>
      pc' = if elapsed now st <? timeout then W_spin_state u timeout st else W_stamp u
  | W_spin_state u timeout st => pc' = W_sleep u timeout st ∨ pc' = W_stamp u
  | W_sleep u timeout st => pc' = W_stop u timeout st
  | W_stop u timeout st => pc' = W_spin u timeout st ∨ pc' = W_stamp u
  | W_msleep u => pc' = W_stamp u
  | W_stamp u => pc' = W_complete u
  | W_complete u => pc' = W_error_code u
  | W_error_code u => pc' = W_load_down u
  | W_load_down u => pc' = W_done u
  | W_done u => pc' = W_unlink u
  | W_unlink _ => pc' = W_while
  | W_exit => False
  end.

Lemma worker_moves lag s pc a stop pc' d' :
  live lag s pc a → worker_step m2j i (y_now s) stop pc (y_dev s) = (Ok pc', d') →
  moves (y_now s) (dev_tasks (y_dev s)) (a_task_queue a) pc pc'.
Proof.
  intros [Hinv Hpc Ha Hrun Hal _ _] Hstep.
  assert (Htask : ∀ u, wpc_task pc = Some u → ∃ tk, dev_tasks (y_dev s) !! u = Some tk).
  { intros u Hu. destruct (worker_task_parts s i pc Hinv Hpc u Hu)
      as (? & ? & tk & _ & _ & _ & _ & _ & _ & _ & _ & _ & Htk & _). eauto. }
  apply Z.eqb_neq in Hrun.
  destruct pc; cbn [worker_step wpc_task moves] in *; unfold mbind, KM_bind, mret, KM_ret in Hstep;
    rewrite ?(get_accel_run _ _ _ Ha), ?(upd_accel_run _ _ _ _ Ha), ?(dequeue_run i _ _ Ha),
      ?Hrun in Hstep;
    try (destruct (Htask _ eq_refl) as [tk Ht]; unfold timeout_of; rewrite ?Ht;
         rewrite ?(upd_task_run _ _ _ _ Ht), ?(get_task_run _ _ _ Ht) in Hstep);
    try (destruct (a_task_queue a)); injection Hstep as <- _; try done;
    repeat case_match; auto.
Qed.

Lemma elapsed_0 now : elapsed now now = 0.
Proof. unfold elapsed. by rewrite Z.sub_diag. Qed.

Lemma timeout_of_range tasks u : 0 <= timeout_of m2j tasks u < 2 ^ 62.
Proof. unfold timeout_of. destruct (tasks !! u); [apply m2j_range|lia]. Qed.

(** The wait goes on within its bounds ... *)
Lemma wait_ok_moves lag now tasks q pc pc' :
  0 <= lag <= K → moves now tasks q pc pc' → wait_ok K lag now pc → wait_ok K 0 now pc'.
Proof.
  intros Hlag Hm Hw. unfold moves in Hm.
  destruct pc; try (destruct q); repeat destruct Hm as [Hm|Hm]; try done; subst;
    unfold wait_ok in *; rewrite ?elapsed_0; try (lia || done); try apply timeout_of_range;
    (destruct (Z.ltb_spec (elapsed now start) timeout); [lia|done]).
Qed.

(** ... and every other statement is progress. *)
Lemma moves_rank now tasks q pc pc' lag :
  moves now tasks q pc pc' → wait_ok K lag now pc → pc ≠ W_lock → (∀ u, pc ≠ W_unlink u) →
  let r := pc_rank m2j tasks now pc in
  let r' := pc_rank m2j tasks now pc' in
  r' <= r ∧ (r' = r → waiting now pc ∧ waiting now pc').
Proof.
  intros Hm Hw Hnl Hnu. unfold moves in Hm.
  destruct pc; repeat destruct Hm as [Hm|Hm]; try done; subst; unfold pc_rank, waiting, wait_ok in *;
    try pose proof (timeout_of_range tasks t0);
    cbv zeta; unfold wait_rank; rewrite ?elapsed_0; repeat case_match;
    try (by destruct (Hnu t0)); simplify_eq; lia.
Qed.

(** What it takes off the queue. *)
Lemma moves_deq now tasks q pc pc' deq d :
  moves now tasks q pc pc' → deq !! i = Some d →
  deq_effect i pc pc' deq !! i =
  Some (d ++ match pc, q with W_lock, u :: _ => [u] | _, _ => [] end).
Proof.
  intros Hm Hd. unfold moves in Hm. destruct pc; cbn; rewrite ?app_nil_r; try done.
  destruct q as [|u q]; subst pc'; cbn; rewrite ?app_nil_r; [done|].
  by rewrite arr_upd_same, Hd.
Qed.

Lemma moves_task now tasks q pc pc' u :
  moves now tasks q pc pc' → pc ≠ W_lock → wpc_task pc' = Some u → wpc_task pc = Some u.
Proof.
  intros Hm Hnl. unfold moves in Hm.
  destruct pc; repeat destruct Hm as [Hm|Hm]; try done; subst; cbn; repeat case_match; done.
Qed.

Lemma moves_alive now tasks q pc pc' : moves now tasks q pc pc' → pc' ≠ W_exit.
Proof.
  intros Hm. unfold moves in Hm.
  destruct pc; try destruct q; repeat destruct Hm as [Hm|Hm]; subst; repeat case_match; done.
Qed.

(** The queue and the rank together. *)
Definition next_queue (pc : wpc) (q : list nat) : list nat :=
  match pc with W_lock => tail q | _ => q end.

Lemma moves_work now tasks q pc pc' lag :
  moves now tasks q pc pc' → wait_ok K lag now pc → NoDup q →
  let q' := next_queue pc q in
  let w := pc_rank m2j tasks now pc + sum_Z (task_cost m2j tasks <$> ahead t q) in
  let w' := pc_rank m2j tasks now pc' + sum_Z (task_cost m2j tasks <$> ahead t q') in
  (done_with t pc q → done_with t pc' q') ∧
  (done_with t pc' q' ∨ (w' <= w ∧ (w' = w → waiting now pc ∧ waiting now pc'))).
Proof.
  intros Hm Hw Hnd. cbv zeta.
  destruct (decide (pc = W_lock)) as [->|Hnl].
  - cbn [moves] in Hm. destruct q as [|u l]; subst pc'; cbn [next_queue tail].
    { unfold done_with. set_solver. }
    apply NoDup_cons in Hnd as [Hul _].
    split; [unfold done_with; cbn; set_solver|].
    destruct (decide (u = t)) as [->|Hut].
    + right. rewrite ahead_cons_same, fmap_cons, sum_Z_cons by done. cbn [pc_rank].
      change (task_cost m2j tasks t) with (timeout_of m2j tasks t + 18). lia.
    + destruct (decide (t ∈ l)) as [Htl|Htl]; [|left; split; cbn; congruence].
      right. rewrite ahead_cons_other, fmap_cons, sum_Z_cons by done. cbn [pc_rank].
      change (task_cost m2j tasks u) with (timeout_of m2j tasks u + 18). lia.
  - assert (Hq : next_queue pc q = q) by (by destruct pc). rewrite Hq. split.
    { intros [Htq Htp]. split; [done|]. intros Ht. by apply Htp, (moves_task now tasks q pc pc'). }
    assert ((∃ u, pc = W_unlink u) ∨ ∀ u, pc ≠ W_unlink u) as [[u ->]|Hnu]
      by (destruct pc; eauto; by right).
    + cbn [moves] in Hm. subst pc'. destruct (decide (t ∈ q)); [right|left; by split].
      cbn [pc_rank]. lia.
    + right. destruct (moves_rank now tasks q pc pc' lag) as [Hle Heq]; try done.
      split; [lia|]. intros E. apply Heq. lia.
Qed.

(** What a statement of the worker does. *)
Lemma own_live lag s s' pc a :
  live lag s pc a → sys_exec HZ m2j (E_worker i) s = Some s' →
  ∃ pc' a', live 0 s' pc' a' ∧ (queued s → queued s') ∧
    (done_with t pc (a_task_queue a) → done_with t pc' (a_task_queue a')) ∧
    let w := work m2j t s pc (a_task_queue a) in
    let w' := work m2j t s' pc' (a_task_queue a') in
    done_with t pc' (a_task_queue a') ∨
    (w' <= w ∧ (w' = w → waiting (y_now s) pc ∧ waiting (y_now s') pc')).
Proof.
  intros Hlive He. pose proof Hlive as [Hinv Hpc Ha Hrun Hal Hlag Hw].
  pose proof (sys_exec_step HZ m2j _ s s' He) as Hs.
  pose proof (sys_inv_step HZ m2j s s' Hinv Hs) as Hinv'.
  destruct (running_step (E_worker i) s s' a Hinv ltac:(discriminate) He Ha) as (a' & Ha' & Hr').
  destruct (accel_view s pc a Hinv Hpc Ha) as (l & q & Hl & Hq & Hfifo & Hnd & Hcur).
  cbn [sys_exec] in He. rewrite Hpc in He. cbn [mbind option_bind] in He.
  destruct (y_stop s !! i) as [stop|]; [|done]. cbn [mbind option_bind] in He.
  destruct (worker_step m2j i (y_now s) stop pc (y_dev s)) as [[pc'| |] d'] eqn:Hstep; [|done..].
  pose proof (worker_moves lag s pc a stop pc' d' Hlive Hstep) as Hm.
  injection He as <-. cbn [y_dev y_now y_workers y_enq y_deq] in *.
  set (s' := {| y_dev := d' |}) in *.
  assert (Hpc' : y_workers s' !! i = Some pc')
    by (apply list_lookup_insert_eq; by eapply lookup_lt_Some).
  destruct (accel_view s' pc' a' Hinv' Hpc' Ha') as (l2 & q' & Hl2 & Hq' & Hfifo' & _ & Hcur').
  cbn [s' y_enq y_deq] in Hl2, Hq'. rewrite Hl in Hl2. injection Hl2 as <-.
  rewrite (moves_deq _ _ _ _ _ _ q Hm Hq) in Hq'. injection Hq' as <-.
  assert (Hnext : a_task_queue a' = next_queue pc (a_task_queue a)).
  { rewrite Hfifo in Hfifo'. rewrite <- app_assoc in Hfifo'. apply app_inv_head in Hfifo'.
    destruct pc; cbn; try done. destruct (a_task_queue a); cbn in *; congruence. }
  exists pc', a'. rewrite Hnext. split.
  { split; try done; [congruence|by eapply moves_alive|lia|by eapply wait_ok_moves]. }
  split; [done|].
  rewrite Hfifo in Hnd. apply NoDup_app in Hnd as (_ & _ & Hnd).
  destruct (moves_work _ _ _ pc pc' lag Hm Hw Hnd) as [Hd Hwork]. split; [done|].
  unfold work. cbn [s' y_dev y_now].
  assert (Hsub : ∀ u, u ∈ next_queue pc (a_task_queue a) → u ∈ l).
  { intros u Hu. rewrite Hfifo'. rewrite Hnext. apply elem_of_app. by right. }
  pose proof (cost_step s s' l _ Hinv Hs Hl Hsub) as Hc. cbn [s' y_dev] in Hc. rewrite Hc.
  rewrite (pc_rank_tasks (dev_tasks (y_dev s)) (dev_tasks d')); [done|].
  intros u Hu. change d' with (y_dev s'). apply (timeout_step s s' l); try done.
  rewrite Hfifo'. apply elem_of_app. left. by apply Hcur'.
Qed.

(** ** Schedules *)

(** What any event of a schedule without removal does. *)
Definition progress (es : list event) (s s' : sys) (pc pc' : wpc) (a a' : accel) : Prop :=
  let w := work m2j t s pc (a_task_queue a) in
  let w' := work m2j t s' pc' (a_task_queue a') in
  (done_with t pc (a_task_queue a) → done_with t pc' (a_task_queue a')) ∧
  (done_with t pc' (a_task_queue a') ∨ (w' <= w ∧ (w' = w →
     (waiting (y_now s) pc ↔ waiting (y_now s') pc') ∧
     (E_worker i ∈ es → waiting (y_now s) pc) ∧
     ((∃ e, e ∈ es ∧ time_passes e) → ¬ waiting (y_now s) pc)))).

Lemma event_live e lag s s' pc a :
  live lag s pc a → event_ok i K lag e → sys_exec HZ m2j e s = Some s' →
  ∃ pc' a', live (lag_after i e lag) s' pc' a' ∧
    (queued s → queued s' ∧ progress [e] s s' pc pc' a a').
Proof.
  intros Hlive Hok He. destruct (decide (is_worker i e)) as [Hi|Hni].
  - unfold is_worker in Hi. subst e. destruct (own_live lag s s' pc a Hlive He) as (pc' & a' & Hlive' & Hqd & Hd & Hwork).
    exists pc', a'. assert (lag_after i (E_worker i) lag = 0) as -> by (cbn; by case_decide).
    split_and!; [done|]. intros Hq. split; [auto|]. split; [done|].
    destruct Hwork as [|[Hle Heq]]; [by left|right]. split; [done|]. intros E.
    destruct (Heq E). split_and!; [done..|].
    intros (e & ->%list_elem_of_singleton & n & _ & [=]).
  - destruct (other_live e lag s s' pc a Hlive Hok Hni He) as (a' & Hlive' & Hwork).
    exists pc, a'. split; [done|]. intros Hq. destruct (Hwork Hq) as (Hq' & Hd & Hle & Heq).
    split; [done|]. split; [done|]. right. split; [done|]. intros E.
    destruct (Heq E) as [? Ht]. split_and!; [done| |].
    + by intros <-%list_elem_of_singleton.
    + by intros (e' & ->%list_elem_of_singleton & ?%Ht).
Qed.

Lemma progress_cons e es s s1 s' pc pc1 pc' a a1 a' :
  progress [e] s s1 pc pc1 a a1 → progress es s1 s' pc1 pc' a1 a' →
  progress (e :: es) s s' pc pc' a a'.
Proof.
  intros [Hd1 Hw1] [Hd Hw]. split; [auto|].
  destruct Hw1 as [?|[Hle1 Heq1]]; [by left; auto|]. destruct Hw as [?|[Hle Heq]]; [by left|].
  right. split; [lia|]. intros E. destruct Heq1 as (Hi1 & Hr1 & Ht1); [lia|].
  destruct Heq as (Hi & Hr & Ht); [lia|]. split_and!.
  - by rewrite Hi1.
  - intros [<-|He]%elem_of_cons; [apply Hr1; set_solver|]. by apply Hi1, Hr.
  - intros (e' & [->|He]%elem_of_cons & Hp); [apply Ht1; set_solver|]. rewrite Hi1. apply Ht. eauto.
Qed.

Definition lag_run (es : list event) (lag : Z) : Z := foldl (λ l e, lag_after i e l) lag es.

Lemma events_live es lag s s' pc a :
  live lag s pc a → never_starved i K lag es → E_remove ∉ es → sys_run HZ m2j es s = Some s' →
  ∃ pc' a', live (lag_run es lag) s' pc' a' ∧
    (queued s → queued s' ∧ progress es s s' pc pc' a a').
Proof.
  revert lag s pc a. induction es as [|e es IH]; intros lag s pc a Hlive Hns Hne; cbn [sys_run].
  { intros [= <-]. exists pc, a. split; [done|]. intros Hq. split; [done|]. split; [done|].
    right. split; [lia|]. intros _. split_and!; [done| |].
    - by intros ?%not_elem_of_nil.
    - by intros (e & ?%not_elem_of_nil & _). }
  destruct (sys_exec HZ m2j e s) as [s1|] eqn:He; [|done]. cbn [mbind option_bind]. intros Hr.
  apply not_elem_of_cons in Hne as [Hne Hnes].
  assert (event_ok i K lag e ∧ never_starved i K (lag_after i e lag) es) as [Hok Hns'].
  { pose proof (lv_lag _ _ _ _ Hlive). unfold event_ok, lag_after.
    destruct e as [n|pc0|k c|j|]; cbn in Hns |- *; try (split_and!; done || lia).
    - destruct Hns. split_and!; done.
    - split_and!; [done|case_decide; lia|done]. }
  destruct (event_live e lag s s1 pc a Hlive Hok He) as (pc1 & a1 & Hlive1 & Hp1).
  destruct (IH _ s1 pc1 a1 Hlive1 Hns' Hnes Hr) as (pc' & a' & Hlive' & Hp').
  exists pc', a'. split; [done|]. intros Hq. destruct (Hp1 Hq) as [Hq1 ?].
  destruct (Hp' Hq1) as [Hq' ?]. split; [done|]. by eapply progress_cons.
Qed.

Lemma never_starved_app es es' lag :
  never_starved i K lag (es ++ es') → never_starved i K lag es ∧ never_starved i K (lag_run es lag) es'.
Proof.
  revert lag. induction es as [|e es IH]; intros lag; [done|].
  destruct e; cbn; try apply IH. intros [? [? ?]%IH]. done.
Qed.

Lemma round_progress es lag s s' pc a :
  live lag s pc a → never_starved i K lag es → E_remove ∉ es → fair_round i es →
  queued s → sys_run HZ m2j es s = Some s' →
  ∃ pc' a', live (lag_run es lag) s' pc' a' ∧ queued s' ∧
    (done_with t pc (a_task_queue a) → done_with t pc' (a_task_queue a')) ∧
    (done_with t pc' (a_task_queue a') ∨
     work m2j t s' pc' (a_task_queue a') < work m2j t s pc (a_task_queue a)).
Proof.
  intros Hlive Hns Hne [Hi (n & Hn & Ht)] Hq Hr.
  destruct (events_live es lag s s' pc a Hlive Hns Hne Hr) as (pc' & a' & Hlive' & Hp).
  destruct (Hp Hq) as (Hq' & Hd & Hw). exists pc', a'. split_and!; [done..|].
  destruct Hw as [|[Hle Heq]]; [by left|right].
  destruct (Z.eq_dec (work m2j t s' pc' (a_task_queue a')) (work m2j t s pc (a_task_queue a)))
    as [E|]; [|lia].
  destruct (Heq E) as (_ & Hrun & Htime). destruct Htime; [|by apply Hrun].
  exists (E_tick n). split; [done|]. by exists n.
Qed.

Lemma rounds_progress rounds lag s s' pc a :
  live lag s pc a → never_starved i K lag (concat rounds) → E_remove ∉ concat rounds →
  Forall (fair_round i) rounds → queued s → sys_run HZ m2j (concat rounds) s = Some s' →
  ∃ pc' a' lag', live lag' s' pc' a' ∧ queued s' ∧
    (done_with t pc (a_task_queue a) → done_with t pc' (a_task_queue a')) ∧
    (done_with t pc' (a_task_queue a') ∨
     work m2j t s' pc' (a_task_queue a') + Z.of_nat (length rounds) <=
     work m2j t s pc (a_task_queue a)).
Proof.
  revert lag s pc a. induction rounds as [|r rounds IH]; intros lag s pc a Hlive Hns Hne Hf Hq.
  { cbn. intros [= <-]. exists pc, a, lag. split_and!; [done..|right; lia]. }
  cbn [concat] in *. rewrite sys_run_app.
  destruct (sys_run HZ m2j r s) as [s1|] eqn:Hr; [|done]. cbn [mbind option_bind]. intros Hrs.
  apply never_starved_app in Hns as [Hns1 Hns]. apply Forall_cons in Hf as [Hf1 Hf].
  destruct (round_progress r lag s s1 pc a) as (pc1 & a1 & Hlive1 & Hq1 & Hd1 & Hw1);
    [done|done|set_solver|done..|].
  destruct (IH _ s1 pc1 a1 Hlive1 Hns ltac:(set_solver) Hf Hq1 Hrs)
    as (pc' & a' & lag' & Hlive' & Hq' & Hd & Hw).
  exists pc', a', lag'. split_and!; [done..|by auto|].
  destruct Hw as [|Hw]; [by left|]. destruct Hw1 as [|Hw1]; [by left; auto|].
  right. cbn [length]. lia.
Qed.

(** A task that is not finished needs work. *)
Lemma costs_nonneg tasks l : 0 <= sum_Z (task_cost m2j tasks <$> l).
Proof.
  induction l as [|u l IH]; [done|]. rewrite fmap_cons, sum_Z_cons. unfold task_cost at 1.
  pose proof (timeout_of_range tasks u). lia.
Qed.

Lemma upto_cost tasks q : t ∈ q → 18 <= sum_Z (task_cost m2j tasks <$> upto t q).
Proof.
  induction q as [|u q IH]; intros Ht; [by apply not_elem_of_nil in Ht|]. cbn [upto].
  case_decide.
  - rewrite fmap_cons, sum_Z_cons. unfold task_cost at 1. cbn.
    pose proof (timeout_of_range tasks t). lia.
  - rewrite fmap_cons, sum_Z_cons. unfold task_cost at 1.
    pose proof (timeout_of_range tasks u). specialize (IH ltac:(set_solver)). lia.
Qed.

Lemma work_positive lag s pc a :
  live lag s pc a → ¬ done_with t pc (a_task_queue a) → 0 < work m2j t s pc (a_task_queue a).
Proof.
  intros [_ _ _ _ _ _ Hw] Hnd. unfold work.
  assert (Hrank : -3 <= pc_rank m2j (dev_tasks (y_dev s)) (y_now s) pc ∧
    (wpc_task pc ≠ None → 0 < pc_rank m2j (dev_tasks (y_dev s)) (y_now s) pc)).
  { destruct pc; unfold pc_rank, wait_ok in *; cbn [wpc_task];
      try pose proof (timeout_of_range (dev_tasks (y_dev s)) t0);
      unfold wait_rank; repeat case_match; split; try done; lia. }
  unfold ahead. destruct (decide (t ∈ a_task_queue a)) as [Ht|Ht].
  - pose proof (upto_cost (dev_tasks (y_dev s)) _ Ht). lia.
  - destruct Hrank as [_ Hpos]. cbn. specialize (Hpos ltac:(intros E; apply Hnd; split; congruence)).
    lia.
Qed.
End Fair.

(** ** Completions

    A task its worker is done with has its completion signalled: waiters of
    [task->done] would be woken. *)

Definition finished_by (t : nat) (pc : wpc) : Prop := wpc_task pc ≠ Some t ∨ pc = W_unlink t.

Definition signalled (s : sys) : Prop :=
  ∀ i pc q t tk, y_workers s !! i = Some pc → y_deq s !! i = Some q → t ∈ q →
    finished_by t pc → dev_tasks (y_dev s) !! t = Some tk → t_done tk = true.

Section Signalled.
Context (HZ : Z) (m2j : Z → Z).

(** Completions of live tasks are never reinitialised. *)
Lemma done_step s s' t tk tk' :
  sys_inv s → sys_step HZ m2j s s' → dev_tasks (y_dev s) !! t = Some tk →
  dev_tasks (y_dev s') !! t = Some tk' → t_state tk ≠ TASK_STATE_FREE →
  t_done tk = true → t_done tk' = true.
Proof.
  intros Hinv Hs Ht Ht' Hst Hd. destruct (sys_step_slots HZ m2j s Hinv s' Hs) as [Hc _].
  destruct (Hc t tk' Ht') as (tk0 & Ht0 & Hch). simplify_eq. by destruct Hch.
Qed.

Lemma taken_live s i pc q t :
  sys_inv s → y_workers s !! i = Some pc → y_deq s !! i = Some q → t ∈ q →
  ∃ tk, dev_tasks (y_dev s) !! t = Some tk ∧ t_state tk ≠ TASK_STATE_FREE.
Proof.
  intros Hinv Hpc Hq Ht. destruct (worker_parts s i pc Hinv Hpc) as (a & e & q0 & _ & _ & Hq0 & [Hfifo _ _ _ Htasks]).
  simplify_eq. destruct (Htasks t) as (tk & ? & _ & ?%slot_states_live);
    [set_solver|]. eauto.
Qed.

(** The worker newly finishes only the task whose completion it has just
    signalled. *)
Lemma newly_finished s i pc stop pc' d' q q' t tk :
  sys_inv s → y_workers s !! i = Some pc →
  worker_step m2j i (y_now s) stop pc (y_dev s) = (Ok pc', d') →
  y_deq s !! i = Some q → deq_effect i pc pc' (y_deq s) !! i = Some q' → t ∈ q' →
  finished_by t pc' → dev_tasks d' !! t = Some tk →
  (t ∈ q ∧ finished_by t pc) ∨ t_done tk = true.
Proof.
  intros Hinv Hpc Hstep Hq Hq' Ht Hf Hk.
  destruct (worker_parts s i pc Hinv Hpc) as (a & e & q0 & Ha & _).
  assert (Htask : ∀ u, wpc_task pc = Some u → ∃ tk, dev_tasks (y_dev s) !! u = Some tk).
  { intros u Hu. destruct (worker_task_parts s i pc Hinv Hpc u Hu)
      as (? & ? & ? & _ & _ & _ & _ & _ & _ & _ & _ & _ & ? & _). eauto. }
  unfold finished_by in *.
  destruct pc; cbn [worker_step wpc_task] in *; unfold mbind, KM_bind, mret, KM_ret in Hstep;
    rewrite ?(get_accel_run _ _ _ Ha), ?(upd_accel_run _ _ _ _ Ha), ?(dequeue_run i _ _ Ha) in Hstep;
    try (destruct (Htask _ eq_refl) as [tk0 Ht0];
         rewrite ?(upd_task_run _ _ _ _ Ht0), ?(get_task_run _ _ _ Ht0) in Hstep);
    try match type of Hstep with context [a_task_queue a] => destruct (a_task_queue a) end;
    injection Hstep as <- <-; repeat case_match;
    cbn [deq_effect wpc_task] in *; rewrite ?Hq in Hq'; simplify_eq;
    try (left; split; [done|naive_solver]).
  - rewrite arr_upd_same, Hq in Hq'. injection Hq' as <-.
    apply elem_of_app in Ht as [Ht| ->%list_elem_of_singleton]; [|naive_solver]. auto.
  - destruct (decide (t = t0)) as [->|Hne]; [|left; naive_solver]. right.
    cbn in Hk. rewrite arr_upd_same, Ht0 in Hk. by injection Hk as <-.
  - left. split; [done|]. destruct (decide (t = t0)) as [->|]; [by right|left; congruence].
Qed.

Lemma signalled_reachable s : reachable HZ m2j s → signalled s.
Proof.
  intros Hr. induction Hr as [s ->|s s' Hr IH Hs].
  { intros i pc q t tk _ Hq Ht. cbn [y_deq] in Hq. apply lookup_replicate in Hq as [-> _].
    destruct (not_elem_of_nil t Ht). }
  apply sys_inv_reachable in Hr. intros i pc' q' t tk' Hpc' Hq' Ht Hf Hk'.
  assert (Hold : ∀ pc q, y_workers s !! i = Some pc → y_deq s !! i = Some q → t ∈ q →
    finished_by t pc → t_done tk' = true).
  { intros pc q Hpc Hq Htq Hfp. destruct (taken_live s i pc q t) as (tk & Hk & Hst); [done..|].
    eapply (done_step s s'); eauto. }
  destruct Hs as [n Hn|pc He|k pc copied pc1 d' Hk Hrun|j pc stop pc1 d' Hpc Hstop Hrun|r' d' stop' Hrm];
    cbn [y_workers y_deq y_dev] in *; eauto.
  destruct (decide (j = i)) as [->|Hji].
  - rewrite list_lookup_insert_eq in Hpc' by (by eapply lookup_lt_Some). injection Hpc' as <-.
    destruct (worker_parts s i pc Hr Hpc) as (a & e & q & _ & _ & Hq & _).
    destruct (newly_finished s i pc stop pc1 d' q q' t tk') as [[? ?]|]; eauto.
  - rewrite list_lookup_insert_ne in Hpc' by done.
    apply (Hold pc' q'); try done. revert Hq'. unfold deq_effect. repeat case_match; try done.
    by rewrite arr_upd_other.
Qed.

(** ** Every queued task is finished *)

(** The rounds that suffice for slot [t] on accelerator [i]: for each task up
    to it, its timeout in jiffies and 18 more. *)
Definition rounds_needed (i t : nat) (s : sys) : nat :=
  match y_workers s !! i, dev_accelerators (y_dev s) !! i with
  | Some pc, Some a => Z.to_nat (work m2j t s pc (a_task_queue a))
  | _, _ => 0
  end.

Lemma init_live K i s a :
  0 <= K → sys_init s → dev_accelerators (y_dev s) !! i = Some a → live K i 0 s W_while a.
Proof.
  intros HK Hi Ha. assert (Hlt : (i < NUM_ACCELERATORS)%nat).
  { rewrite <- (si_accels s (sys_inv_init s Hi)). by eapply lookup_lt_Some. }
  split; [by apply sys_inv_init| |exact Ha| |discriminate|lia|exact I].
  - rewrite Hi. by apply lookup_replicate_2.
  - rewrite Hi in Ha. cbn [y_dev] in Ha. unfold NUM_ACCELERATORS in Hlt.
    destruct i as [|[|[|i]]]; [..|lia]; vm_compute in Ha; injection Ha as <-; discriminate.
Qed.

(** C3: Every queued task is finished, in the concurrent driver.  On any
    schedule from the start that does not remove the driver and never passes
    the worker of accelerator [i] over for more than [K] jiffies, a task in
    that accelerator's queue, or running, is COMPLETE (or was cancelled after
    its completion) and its completion is signalled once the schedule has gone
    through [rounds_needed] further rounds in which the worker runs and time
    passes; calls, cancellations, ticks and the other workers are arbitrary. *)
Theorem queued_task_finishes K i t s0 es s rounds s' :
  (∀ ms, 0 <= m2j ms < 2 ^ 62) → 0 <= K <= 2 ^ 32 →
  sys_init s0 → sys_run HZ m2j es s0 = Some s → queued i t s →
  sys_run HZ m2j (concat rounds) s = Some s' →
  never_starved i K 0 (es ++ concat rounds) → E_remove ∉ es ++ concat rounds →
  Forall (fair_round i) rounds → (rounds_needed i t s ≤ length rounds)%nat →
  ∃ tk, dev_tasks (y_dev s') !! t = Some tk ∧ t_state tk ∈ final_states ∧ t_done tk = true.
Proof.
  intros Hm HK Hi Hes Hq Hrs [Hns0 Hns]%never_starved_app Hne Hf Hlen.
  assert (Hia : (i < NUM_ACCELERATORS)%nat).
  { destruct Hq as (e & He & _). assert (Hr : sys_inv s).
    { apply (sys_inv_reachable HZ m2j). eapply sys_run_reachable; [by apply reach_init|done]. }
    rewrite <- (si_enq_len s Hr). by eapply lookup_lt_Some. }
  destruct (lookup_lt_is_Some_2 (dev_accelerators (y_dev s0)) i) as [a0 Ha0].
  { by rewrite (si_accels s0 (sys_inv_init s0 Hi)). }
  destruct (events_live HZ m2j K i t Hm HK es 0 s0 s W_while a0) as (pc & a & Hlive & _);
    [apply init_live; lia || done|done|set_solver|done|].
  destruct (rounds_progress HZ m2j K i t Hm HK rounds _ s s' pc a Hlive Hns)
    as (pc' & a' & lag' & Hlive' & (e & He & Hte) & _ & Hd); [set_solver|done..|].
  assert (Hdone : done_with t pc' (a_task_queue a')).
  { destruct Hd as [|Hd]; [done|]. unfold rounds_needed in Hlen.
    rewrite (lv_pc _ _ _ _ _ _ Hlive), (lv_accel _ _ _ _ _ _ Hlive) in Hlen.
    destruct (decide (done_with t pc' (a_task_queue a'))) as [|Hnd]; [done|].
    pose proof (work_positive m2j K i t Hm HK lag' s' pc' a' Hlive' Hnd). lia. }
  destruct Hlive' as [Hinv Hpc Ha _ _ _ _]. destruct Hdone as [Hnq Hnt].
  destruct (si_workers s' Hinv i a' Ha) as (pc1 & e1 & q & Hpc1 & He1 & Hdq & [Hfifo _ _ _ Htasks]).
  simplify_eq. destruct (Htasks t Hte) as (tk & Hk & _ & Hst). exists tk. split_and!; [done| |].
  - unfold slot_states in Hst. by rewrite !decide_False in Hst.
  - apply elem_of_app in Hte as [Htd|]; [|done].
    assert (Hr : reachable HZ m2j s').
    { eapply sys_run_reachable; [|exact Hrs]. eapply sys_run_reachable; [by apply reach_init|done]. }
    apply (signalled_reachable s' Hr i pc' q t tk); [done..|by left|done].
Qed.
End Signalled.

(** ** On a worked schedule

    The task of Schedule.v, submitted and then run for 20 rounds of one jiffy
    and one statement each. *)

Definition fair_prefix : list event := E_call (U_check demo_desc) :: replicate 7 (E_user 0 true).
Definition fair_rounds : list (list event) := replicate 20 [E_tick 1; E_worker 0].

Definition fair_start : sys := default sys0 (sys_run demo_HZ demo_m2j fair_prefix sys0).
Definition fair_end : sys := default sys0 (sys_run demo_HZ demo_m2j (concat fair_rounds) fair_start).

Lemma queued_task_finishes_witness :
  rounds_needed demo_m2j 0 0 fair_start = 20%nat ∧
  ∃ tk, dev_tasks (y_dev fair_end) !! 0%nat = Some tk ∧
    t_state tk ∈ final_states ∧ t_done tk = true.
Proof.
  split; [by vm_compute|].
  apply (queued_task_finishes demo_HZ demo_m2j 1 0 0 sys0 fair_prefix fair_start fair_rounds fair_end).
  - apply demo_m2j_range.
  - lia.
  - reflexivity.
  - by vm_compute.
  - exists [0%nat]. split; [by vm_compute|]. apply list_elem_of_here.
  - by vm_compute.
  - cbn. repeat case_decide; repeat split; lia.
  - unfold fair_prefix, fair_rounds. cbn. rewrite !not_elem_of_cons.
    repeat split; try discriminate. apply not_elem_of_nil.
  - apply Forall_replicate. split; [apply list_elem_of_further, list_elem_of_here|].
    exists 1%nat. split; [lia|apply list_elem_of_here].
  - by vm_compute.
Defined.
