(* ===== verification/Typing.v ===== *)
(** * Every value fits its C type

    The model keeps C integers as [Z] and writes the wrap-around where the
    code computes.  This file shows that nothing else can overflow: in the
    concurrent driver, every field of every task and accelerator, every local
    of every system call and worker, and every structure about to be copied to
    user memory holds a value of its C type. *)

From S2P Require Import Prelude CLayout Device UserMem Uapi TaskManager Pool AccelManager Worker DevInit Chardev System SystemInv Schedule.

(** ** The types *)

Definition task_typed (t : task) : Prop :=
  is_u32 (t_id t) ∧ is_u32 (t_accel_type t) ∧ is_u32 (t_priority t) ∧
  is_u64 (t_input_addr t) ∧ is_u32 (t_input_size t) ∧ is_u64 (t_output_addr t) ∧
  is_u32 (t_output_size t) ∧ is_u32 (t_timeout_ms t) ∧ is_u64 (t_submit_jiffies t) ∧
  is_u64 (t_complete_jiffies t) ∧ is_s32 (t_error_code t).

Definition accel_typed (a : accel) : Prop :=
  is_u32 (a_type a) ∧ length (a_name a) = 16%nat ∧ is_u32 (a_freq_hz a) ∧
  is_s32 (a_temp_celsius a) ∧ is_u32 (a_load_percent a) ∧ is_u32 (a_fw_version a) ∧
  is_u32 (a_hw_version a) ∧ is_u64 (a_mem_total a) ∧ is_u64 (a_mem_free a) ∧
  is_u32 (a_state a) ∧ is_s32 (a_running a).

Record dev_typed (d : dev) : Prop := {
  dt_tasks : Forall task_typed (dev_tasks d);
  dt_accels : Forall accel_typed (dev_accelerators d);
  dt_next : is_s32 (dev_next_task_id d);
}.

Definition upc_typed (pc : upc) : Prop :=
  match pc with
  | U_check desc | U_alloc desc | U_fill _ desc | U_pending _ desc | U_stamp _ desc
  | U_enqueue _ desc => representable desc
  | U_q_usec _ id st => is_u32 id ∧ is_u32 st
  | U_q_error _ id st usec => is_u32 id ∧ is_u32 st ∧ is_u64 usec
  | U_q_copy status => representable status
  | U_info info | U_i_copy info => representable info
  | U_limit v bound => is_u32 v ∧ is_u32 bound
  | U_ret code => code ∈ ioctl_codes
  | _ => True
  end.

Definition wpc_typed (pc : wpc) : Prop :=
  match pc with
  | W_start _ timeout => is_u64 timeout
  | W_spin _ timeout start | W_spin_state _ timeout start | W_sleep _ timeout start
  | W_stop _ timeout start => is_u64 timeout ∧ is_u64 start
  | _ => True
  end.

Record sys_typed (s : sys) : Prop := {
  st_dev : dev_typed (y_dev s);
  st_now : is_u64 (y_now s);
  st_calls : Forall upc_typed (y_calls s);
  st_workers : Forall wpc_typed (y_workers s);
}.

(** ** Blocks that keep the device typed *)

(** [m] keeps the device typed and yields values that satisfy [Q]. *)
Definition yields {A} (m : KM dev A) (Q : A → Prop) : Prop :=
  ∀ d r d', dev_typed d → m d = (r, d') → dev_typed d' ∧ ∀ x, r = Ok x → Q x.

Create HintDb typing.

Lemma yields_ret {A} (x : A) (Q : A → Prop) : Q x → yields (mret x) Q.
Proof. intros HQ d r d' Hd [= <- <-]. split; [done|]. by intros y [= <-]. Qed.

Lemma yields_bind {A B} (m : KM dev A) (f : A → KM dev B) (P : A → Prop) (Q : B → Prop) :
  yields m P → (∀ x, P x → yields (f x) Q) → yields (m ≫= f) Q.
Proof.
  intros Hm Hf d r d' Hd. unfold mbind, KM_bind.
  destruct (m d) as [r1 d1] eqn:E. destruct (Hm d r1 d1 Hd E) as [Hd1 Hx].
  destruct r1 as [x| |]; [by apply Hf; auto|intros [= <- <-]..]; done.
Qed.

Lemma yields_weaken {A} (m : KM dev A) (P Q : A → Prop) :
  yields m P → (∀ x, P x → Q x) → yields m Q.
Proof. intros Hm HPQ d r d' Hd E. destruct (Hm d r d' Hd E). auto. Qed.

Lemma yields_get_task t : yields (get_task t) task_typed.
Proof.
  intros d r d' Hd. unfold get_task, arr_get. destruct (_ !! t) eqn:Ht; intros [= <- <-];
    (split; [done|]); intros x [= <-]. by eapply Forall_lookup_1; [apply dt_tasks|].
Qed.

Lemma yields_get_accel i : yields (get_accel i) accel_typed.
Proof.
  intros d r d' Hd. unfold get_accel, arr_get. destruct (_ !! i) eqn:Ha; intros [= <- <-];
    (split; [done|]); intros x [= <-]. by eapply Forall_lookup_1; [apply dt_accels|].
Qed.

Lemma Forall_arr_upd {A} (P : A → Prop) i f l :
  Forall P l → (∀ x, P x → P (f x)) → Forall P (arr_upd i f l).
Proof.
  intros Hl Hf. apply Forall_lookup. intros j x. rewrite arr_upd_lookup.
  case_decide; [|by apply Forall_lookup_1].
  intros (y & Hy & ->)%fmap_Some. apply Hf. by eapply Forall_lookup_1.
Qed.

Lemma yields_upd_task t f :
  (∀ tk, task_typed tk → task_typed (f tk)) → yields (upd_task t f) (λ _, True).
Proof.
  intros Hf. eapply yields_bind; [apply yields_get_task|]. intros _ _ d r d' [] [= <- <-].
  split; [|done]. split; cbn; [by apply Forall_arr_upd|done..].
Qed.

Lemma yields_upd_accel i f :
  (∀ a, accel_typed a → accel_typed (f a)) → yields (upd_accel i f) (λ _, True).
Proof.
  intros Hf. eapply yields_bind; [apply yields_get_accel|]. intros _ _ d r d' [] [= <- <-].
  split; [|done]. split; cbn; [done|by apply Forall_arr_upd|done].
Qed.

Lemma yields_upd_free f : yields (modify (upd_free_tasks f)) (λ _, True).
Proof. intros d r d' [] [= <- <-]. by split. Qed.

Lemma yields_next : yields atomic_inc_return is_s32.
Proof.
  intros d r d' [] [= <- <-]. split; [split; cbn; auto using s32_range|].
  intros x [= <-]. apply s32_range.
Qed.

(** ** The writes of the driver *)

Lemma zero_task_typed : task_typed zero_task.
Proof. unfold task_typed, is_u32, is_u64, is_s32. cbn. lia. Qed.

Lemma fill_task_typed desc t : representable desc → task_typed t → task_typed (fill_task desc t).
Proof.
  intros Hd%task_desc_range Ht. unfold task_typed, fill_task in *. cbn in *. intuition.
Qed.

Lemma set_t_id_typed v t : is_u32 v → task_typed t → task_typed (set_t_id v t).
Proof. intros Hv Ht. unfold task_typed in *. cbn in *. intuition. Qed.

Lemma set_t_state_typed v t : task_typed t → task_typed (set_t_state v t).
Proof. done. Qed.

Lemma set_t_done_typed v t : task_typed t → task_typed (set_t_done v t).
Proof. done. Qed.

Lemma set_t_submit_typed v t : is_u64 v → task_typed t → task_typed (set_t_submit_jiffies v t).
Proof. intros Hv Ht. unfold task_typed in *. cbn in *. intuition. Qed.

Lemma set_t_complete_typed v t : is_u64 v → task_typed t → task_typed (set_t_complete_jiffies v t).
Proof. intros Hv Ht. unfold task_typed in *. cbn in *. intuition. Qed.

Lemma set_t_error_typed v t : is_s32 v → task_typed t → task_typed (set_t_error_code v t).
Proof. intros Hv Ht. unfold task_typed in *. cbn in *. intuition. Qed.

Lemma set_queue_typed v a : accel_typed a → accel_typed (set_a_task_queue v a).
Proof. done. Qed.

Lemma set_active_typed v a : accel_typed a → accel_typed (set_a_active_tasks v a).
Proof. done. Qed.

Lemma set_load_typed v a : is_u32 v → accel_typed a → accel_typed (set_a_load_percent v a).
Proof. intros Hv Ha. unfold accel_typed in *. cbn in *. intuition. Qed.

Lemma set_running_typed v a : is_s32 v → accel_typed a → accel_typed (set_a_running v a).
Proof. intros Hv Ha. unfold accel_typed in *. cbn in *. intuition. Qed.

Lemma load_up_typed v : is_u32 (load_up v).
Proof. unfold load_up. pose proof (u32_range (v + 10)). unfold is_u32 in *. lia. Qed.

Lemma load_down_typed v : is_u32 (load_down v).
Proof. unfold load_down. pose proof (s32_range v). unfold is_u32, is_s32 in *. lia. Qed.

Lemma task_state_val_typed s : is_u32 (task_state_val s).
Proof. unfold is_u32. destruct s; cbn; lia. Qed.

Lemma exec_usec_typed HZ t : 0 < HZ → is_u64 (exec_usec HZ t).
Proof.
  intros HHZ. unfold exec_usec.
  set (v := u64 _). pose proof (u64_range (u64 (t_complete_jiffies t - t_submit_jiffies t) * 1000000)) as Hv.
  fold v in Hv. unfold is_u64 in *. split; [apply Z.div_pos; lia|].
  apply Z.le_lt_trans with v; [|lia]. apply Z.div_le_upper_bound; nia.
Qed.

Lemma status_typed id st usec code :
  is_u32 id → is_u32 st → is_u64 usec → is_s32 code →
  representable {| s_task_id := id; s_status := st; s_exec_usec := usec; s_error_code := code;
                   s_reserved := (0, 0, 0) |}.
Proof.
  intros Hid Hst Hus Hcode. split; [done|].
  pose proof (u32_range code) as Hc. unfold is_u32, is_u64 in *.
  change (chunks lp64 (decl task_status)) with [4; 4; 8; 4; 4; 4; 4]%nat.
  cbn [to_values task_status_repr s_task_id s_status s_exec_usec s_error_code s_reserved].
  repeat constructor; unfold fits; cbn; lia.
Qed.

Lemma accel_typed_range a : accel_typed a → accel_in_range a.
Proof. unfold accel_typed, accel_in_range. intuition. Qed.

#[export] Hint Resolve accel_get_info_representable accel_typed_range : typing.
#[export] Hint Resolve zero_task_typed fill_task_typed set_t_id_typed set_t_state_typed
  set_t_done_typed set_t_submit_typed set_t_complete_typed set_t_error_typed set_queue_typed
  set_active_typed set_load_typed set_running_typed load_up_typed load_down_typed
  task_state_val_typed exec_usec_typed status_typed u32_range : typing.

Lemma neg_errno_typed e : 0 <= e <= 200 → is_s32 (- e).
Proof. unfold is_s32. lia. Qed.

Lemma task_alloc_yields : yields task_alloc (λ _, True).
Proof.
  eapply (yields_bind _ _ (λ _, True)); [by intros d r d' Hd [= <- <-]|]. intros [|i l] _.
  { by apply yields_ret. }
  eapply yields_bind; [apply yields_upd_free|]. intros _ _.
  eapply yields_bind; [apply yields_upd_task; auto with typing|]. intros _ _.
  eapply yields_bind; [apply yields_upd_task; auto with typing|]. intros _ _.
  eapply yields_bind; [apply yields_next|]. intros n Hn.
  eapply yields_bind; [apply yields_upd_task; auto with typing|]. intros _ _. by apply yields_ret.
Qed.

Lemma task_free_yields t : yields (task_free t) (λ _, True).
Proof.
  eapply yields_bind; [apply yields_upd_task; auto with typing|]. intros _ _. apply yields_upd_free.
Qed.

Lemma dequeue_yields i : yields (dequeue i) (λ _, True).
Proof.
  eapply yields_bind; [apply yields_get_accel|]. intros a _.
  destruct (a_task_queue a); [by apply yields_ret|].
  eapply yields_bind; [apply yields_upd_accel; auto with typing|]. intros _ _.
  eapply yields_bind; [apply yields_upd_accel; auto with typing|]. intros _ _. by apply yields_ret.
Qed.

(** One statement: a read, a write, or a call of an operation above. *)
Ltac yields_stmt :=
  eapply yields_bind;
  [ first [ apply yields_get_task | apply yields_get_accel | apply task_alloc_yields
          | apply task_free_yields | apply dequeue_yields
          | apply yields_upd_task; intros; auto with typing
          | apply yields_upd_accel; intros; auto with typing ]
  | intros ? ? ].

Ltac yields_stmts :=
  repeat first [ yields_stmt
               | match goal with |- yields (if ?b then _ else _) _ => destruct b end ];
  try apply yields_ret; cbn.

Section Steps.
Context (HZ : Z) (m2j : Z → Z).
Hypothesis HZ_pos : 0 < HZ.
Hypothesis m2j_range : ∀ ms, is_u64 (m2j ms).

Lemma submit_error_code desc e : submit_error desc = Some e → e ∈ ioctl_codes.
Proof. unfold submit_error, ioctl_codes. repeat case_match; intros [= <-]; set_solver. Qed.

Lemma ustep_yields now copied pc :
  is_u64 now → upc_typed pc → yields (ustep HZ now copied pc) upc_typed.
Proof.
  intros Hnow Hpc. assert (Hcodes : 0 ∈ ioctl_codes ∧ - EFAULT ∈ ioctl_codes ∧
    - ENOENT ∈ ioctl_codes ∧ - ENOMEM ∈ ioctl_codes ∧ - EINVAL ∈ ioctl_codes)
    by (unfold ioctl_codes; set_solver).
  destruct Hcodes as (? & ? & ? & ? & ?).
  assert (is_s32 (- ECANCELED)) by (apply neg_errno_typed; unfold ECANCELED; lia).
  destruct pc; cbn [ustep upc_typed] in *; destruct_and?;
    yields_stmts; repeat case_match; unfold task_typed in *; destruct_and?;
    cbn [upc_typed] in *; eauto using submit_error_code with typing; done.
Qed.

Lemma worker_step_yields i now stop pc :
  is_u64 now → wpc_typed pc → yields (worker_step m2j i now stop pc) wpc_typed.
Proof.
  intros Hnow Hpc. assert (is_s32 0) by (unfold is_s32; lia).
  destruct pc; cbn [worker_step wpc_typed] in *; destruct_and?;
    yields_stmts; repeat case_match; cbn [wpc_typed] in *; auto with typing; done.
Qed.

(** ** The whole system *)

Lemma boot_typed : dev_typed running_dev.
Proof.
  split.
  - rewrite running_dev_tasks.
    apply Forall_replicate, zero_task_typed.
  - assert (H : ∃ l, dev_accelerators running_dev = l ∧ Forall accel_typed l); [|by destruct H as (? & -> & ?)].
    eexists. split; [vm_compute; reflexivity|].
    repeat constructor; unfold is_u32, is_u64, is_s32; cbn; lia.
  - rewrite running_dev_next.
    unfold is_s32. lia.
Qed.

Lemma remover_typed s r' d' stop' : remover_step s r' d' stop' → dev_typed (y_dev s) → dev_typed d'.
Proof.
  intros Hr []. assert (is_s32 0) by (unfold is_s32; lia).
  destruct Hr; try done; split; cbn; auto using Forall_arr_upd with typing.
Qed.

Lemma sys_step_typed s s' : sys_step HZ m2j s s' → sys_typed s → sys_typed s'.
Proof.
  intros Hs [Hd Hn Hc Hw].
  destruct Hs as [n Hn'|pc He|k pc copied pc' d' Hk Hrun|i pc stop pc' d' Hpc Hstop Hrun|r' d' stop' Hr];
    split; cbn [y_dev y_now y_calls y_workers]; try done; auto using u64_range.
  - apply Forall_app. split; [done|]. apply Forall_singleton.
    destruct pc; try done; cbn in He; cbn [upc_typed].
    + destruct He as [? [-> | ->]]; (split; [done|]); unfold is_u32; lia.
    + unfold ioctl_codes. destruct He as [-> | ->]; set_solver.
  - edestruct (ustep_yields (y_now s) copied pc) as [Hd' _]; eauto. by eapply Forall_lookup_1.
  - edestruct (ustep_yields (y_now s) copied pc) as [_ Hq]; eauto; [by eapply Forall_lookup_1|].
    apply Forall_insert; auto.
  - edestruct (worker_step_yields i (y_now s) stop pc) as [Hd' _]; eauto. by eapply Forall_lookup_1.
  - edestruct (worker_step_yields i (y_now s) stop pc) as [_ Hq]; eauto; [by eapply Forall_lookup_1|].
    apply Forall_insert; auto.
  - by eapply remover_typed.
Qed.

(** C17: Nothing overflows unnoticed.  In every reachable state of the
    concurrent driver (the clock starting at a 64-bit value), every field of
    the tasks and accelerators, the identifier counter, every local of every
    call and worker hold values of their C types; every status and every
    report about to be copied to user memory survives its encoding; and every call that has
    returned returned a documented code. *)
Theorem values_fit_types s :
  reach (λ s, sys_init s ∧ is_u64 (y_now s)) (sys_step HZ m2j) s →
  sys_typed s ∧
  (∀ k status, y_calls s !! k = Some (U_q_copy status) → decode (encode status) = Some status) ∧
  (∀ k info, y_calls s !! k = Some (U_i_copy info) → decode (encode info) = Some info) ∧
  (∀ k code, y_calls s !! k = Some (U_ret code) → code ∈ ioctl_codes).
Proof.
  intros Hr. assert (Ht : sys_typed s).
  { revert s Hr. apply reach_invariant; [|eauto using sys_step_typed].
    intros s [Hi Hn]. rewrite Hi. split; cbn [y_dev y_now y_calls y_workers].
    - apply boot_typed.
    - exact Hn.
    - apply Forall_nil_2.
    - apply Forall_replicate. exact I. }
  split_and!; [done|..]; intros k x Hk;
    pose proof (Forall_lookup_1 _ _ _ _ (st_calls s Ht) Hk) as Hx; [by apply decode_encode..|done].
Qed.
End Steps.

(** ** On the worked schedule: a query about to copy its answer *)

Definition query_events : list event := [E_call (U_query 1 0)] ++ replicate 4 (E_user 2 true).
Definition query_sys : sys := default sys0 (sys_run demo_HZ demo_m2j (demo_events ++ query_events) sys0).
Definition query_status : task_status :=
  {| s_task_id := 1; s_status := 5; s_exec_usec := 73786976290838206; s_error_code := 0;
     s_reserved := (0, 0, 0) |}.

Lemma values_fit_types_witness :
  y_calls query_sys !! 2%nat = Some (U_q_copy query_status) ∧
  decode (encode query_status) = Some query_status.
Proof.
  assert (H : y_calls query_sys !! 2%nat = Some (U_q_copy query_status)) by (by vm_compute).
  split; [exact H|].
  assert (Hr : reach (λ s, sys_init s ∧ is_u64 (y_now s)) (sys_step demo_HZ demo_m2j) query_sys).
  { apply (sys_run_reach _ _ _ (demo_events ++ query_events) sys0); [|by vm_compute].
    apply reach_init. split; [reflexivity|]. unfold is_u64. cbn. lia. }
  assert (Hm : ∀ ms, is_u64 (demo_m2j ms))
    by (intros ms; pose proof (demo_m2j_range ms); unfold is_u64; lia).
  destruct (values_fit_types demo_HZ demo_m2j ltac:(unfold demo_HZ; lia) Hm query_sys Hr)
    as (_ & Hd & _).
  exact (Hd 2%nat query_status H).
Defined.
