(* ===== verification/Scan.v ===== *)
(** * Queries and cancellations under concurrency

    task_query and task_cancel scan the pool without a lock, statement by
    statement, while submissions, workers and other calls write to it.  This
    file shows what their answers are still worth: a live task is always
    found, and the answer is about that task; but a query may combine the
    state of one moment with the error code of another. *)

From S2P Require Import Prelude CLayout Device UserMem Uapi TaskManager Pool AccelManager Worker DevInit Chardev System SystemInv Lifecycle Schedule SystemProps.

(** ** What a scan has established *)

(** The state values a query can report of a task. *)
Definition reportable : list Z :=
  [task_state_val TASK_STATE_PENDING; task_state_val TASK_STATE_RUNNING;
   task_state_val TASK_STATE_COMPLETE; task_state_val TASK_STATE_CANCELLED].

(** A query for [id], whose task is in slot [j], at [pc]. *)
Definition query_on (id : Z) (j : nat) (pc : upc) : Prop :=
  match pc with
  | U_query id' i => id' = id ∧ (i ≤ j)%nat
  | U_q_state i => i = j
  | U_q_usec i id' st => i = j ∧ id' = id ∧ st ∈ reportable
  | U_q_error i id' st _ => i = j ∧ id' = id ∧ st ∈ reportable
  | U_q_copy status =>
      s_task_id status = id ∧ s_status status ∈ reportable ∧
      (s_error_code status = 0 ∨ s_error_code status = - ECANCELED)
  | U_ret code => code = 0 ∨ code = - EFAULT
  | _ => False
  end.

(** A cancellation of [id]: it writes to slot [j] only. *)
Definition cancel_on (id : Z) (j : nat) (pc : upc) : Prop :=
  match pc with
  | U_cancel id' i => id' = id ∧ (i ≤ j)%nat
  | U_c_state i | U_c_error i | U_c_done i => i = j
  | U_ret code => code = 0
  | _ => False
  end.

(** ** Live slots *)

Lemma live_unique s i j t u :
  sys_inv s → dev_tasks (y_dev s) !! i = Some t → dev_tasks (y_dev s) !! j = Some u →
  t_state t ≠ TASK_STATE_FREE → t_id t = t_id u → i = j.
Proof.
  intros Hinv Ht Hu Hl Heq. pose proof (si_pool s Hinv) as Hp.
  apply (pi_unique _ Hp i j t u Ht Hu Heq). apply (pi_live _ Hp i t Ht).
  intros Hf. by apply Hl, (pi_free _ Hp i).
Qed.

Section Scan.
Context (HZ : Z) (m2j : Z → Z).

(** [id] is live in slot [j]. *)
Definition live_at (s : sys) (id : Z) (j : nat) : Prop :=
  ∃ t, dev_tasks (y_dev s) !! j = Some t ∧ t_state t ≠ TASK_STATE_FREE ∧ t_id t = id.

Lemma live_at_step s s' id j :
  sys_inv s → sys_step HZ m2j s s' → live_at s id j → live_at s' id j.
Proof.
  intros Hinv Hs (t & Ht & Hl & Hid). pose proof (sys_inv_step HZ m2j s s' Hinv Hs) as Hinv'.
  destruct (lookup_lt_is_Some_2 (dev_tasks (y_dev s')) j) as [t' Ht'].
  { rewrite (pi_tasks _ (si_pool s' Hinv')), <- (pi_tasks _ (si_pool s Hinv)).
    by eapply lookup_lt_Some. }
  exists t'. split; [done|]. destruct (sys_step_slots HZ m2j s Hinv s' Hs) as [Hc _].
  destruct (Hc j t' Ht') as (t0 & Ht0 & Hch). simplify_eq. by destruct Hch.
Qed.

(** A scan on its way to slot [j] matches there and nowhere before. *)
Lemma scan_at s id j i :
  sys_inv s → live_at s id j → (i ≤ j)%nat →
  (i < MAX_TASKS)%nat ∧
  ∃ u, dev_tasks (y_dev s) !! i = Some u ∧ task_matches id u = bool_decide (i = j).
Proof.
  intros Hinv (t & Ht & Hl & Hid) Hij.
  assert (Hi : (i < MAX_TASKS)%nat).
  { apply lookup_lt_Some in Ht. rewrite (pi_tasks _ (si_pool s Hinv)) in Ht. lia. }
  split; [done|].
  destruct (lookup_lt_is_Some_2 (dev_tasks (y_dev s)) i) as [u Hu].
  { by rewrite (pi_tasks _ (si_pool s Hinv)). }
  exists u. split; [done|]. unfold task_matches. destruct (decide (i = j)) as [->|Hj].
  - simplify_eq. rewrite Z.eqb_refl, (bool_decide_true (j = j)) by done. cbn.
    by apply bool_decide_eq_true.
  - rewrite (bool_decide_false (i = j)) by done. destruct (Z.eqb_spec (t_id u) id) as [Heq|Hne]; [|done]. cbn.
    apply bool_decide_eq_false. intros Hlu. by apply Hj, (live_unique s i j u t); try congruence.
Qed.

(** The next statement of a scan; what it reads of states and
    error codes is what reachable tasks have. *)
Lemma query_on_step s id j now copied pc pc' d' :
  sys_inv s → live_at s id j →
  (∀ i t, dev_tasks (y_dev s) !! i = Some t → t_state t ≠ TASK_STATE_FAILED ∧
     (t_error_code t = 0 ∨ t_error_code t = - ECANCELED)) →
  query_on id j pc → ustep HZ now copied pc (y_dev s) = (Ok pc', d') → query_on id j pc'.
Proof.
  intros Hinv Hlive Hres Hq Hrun. pose proof Hlive as (t & Ht & Hl & Hid).
  destruct pc; cbn [query_on ustep] in *; try done;
    unfold mbind, KM_bind, mret, KM_ret in Hrun.
  - destruct Hq as [-> Hij]. destruct (scan_at s id j i Hinv Hlive Hij) as (Hi & u & Hu & Hm).
    rewrite decide_True, (get_task_run _ _ _ Hu), Hm in Hrun by done. injection Hrun as <- _.
    case_bool_decide; cbn; [done|]. split; [done|lia].
  - subst i. rewrite (get_task_run _ _ _ Ht) in Hrun. injection Hrun as <- _. cbn.
    split_and!; [done..|]. destruct (Hres j t Ht) as [Hnf _]. unfold reportable.
    destruct (t_state t); try done; set_solver.
  - destruct Hq as (-> & -> & Hst). rewrite (get_task_run _ _ _ Ht) in Hrun.
    by injection Hrun as <- _.
  - destruct Hq as (-> & -> & Hst). rewrite (get_task_run _ _ _ Ht) in Hrun.
    injection Hrun as <- _. cbn. split_and!; [done..|]. by apply (Hres j t).
  - injection Hrun as <- _. cbn. destruct copied; auto.
  - by injection Hrun as <- _.
Qed.

Lemma cancel_on_step s id j now copied pc pc' d' :
  sys_inv s → live_at s id j → cancel_on id j pc →
  ustep HZ now copied pc (y_dev s) = (Ok pc', d') → cancel_on id j pc'.
Proof.
  intros Hinv Hlive Hq Hrun. pose proof Hlive as (t & Ht & _ & _).
  destruct pc; cbn [cancel_on ustep] in *; try done;
    unfold mbind, KM_bind, mret, KM_ret in Hrun.
  - destruct Hq as [-> Hij]. destruct (scan_at s id j i Hinv Hlive Hij) as (Hi & u & Hu & Hm).
    rewrite decide_True, (get_task_run _ _ _ Hu), Hm in Hrun by done. injection Hrun as <- _.
    case_bool_decide; cbn; [done|]. split; [done|lia].
  - subst i. rewrite (upd_task_run _ _ _ _ Ht) in Hrun. by injection Hrun as <- _.
  - subst i. rewrite (upd_task_run _ _ _ _ Ht) in Hrun. by injection Hrun as <- _.
  - subst i. rewrite (upd_task_run _ _ _ _ Ht) in Hrun. by injection Hrun as <- _.
  - by injection Hrun as <- _.
Qed.
End Scan.

Section Answers.
Context (HZ : Z) (m2j : Z → Z).

(** A property of one call that its own statements keep is kept by the system. *)
Lemma call_on_step (P : upc → Prop) id j k s s' pc :
  (∀ copied pc pc' d', P pc → ustep HZ (y_now s) copied pc (y_dev s) = (Ok pc', d') → P pc') →
  sys_inv s → live_at s id j → y_calls s !! k = Some pc → P pc → sys_step HZ m2j s s' →
  live_at s' id j ∧ ∃ pc', y_calls s' !! k = Some pc' ∧ P pc'.
Proof.
  intros HP Hinv Hlive Hk Hpc Hs. split; [by eapply live_at_step|].
  destruct Hs as [n Hn|pc0 He|k0 pc0 copied pc1 d' Hk0 Hrun|i pc0 stop pc1 d' Hpc0 Hstop Hrun|r' d' stop' Hr];
    cbn [y_calls]; eauto.
  - exists pc. split; [|done]. by apply lookup_app_l_Some.
  - destruct (decide (k0 = k)) as [->|Hne].
    + simplify_eq. exists pc1. split; [|by eapply HP].
      apply list_lookup_insert_eq. by eapply lookup_lt_Some.
    + exists pc. by rewrite list_lookup_insert_ne.
Qed.

Lemma call_on_run (P : upc → Prop) id j k es s s' pc :
  (∀ s copied pc pc' d', reachable HZ m2j s → live_at s id j → P pc →
     ustep HZ (y_now s) copied pc (y_dev s) = (Ok pc', d') → P pc') →
  reachable HZ m2j s → live_at s id j → y_calls s !! k = Some pc → P pc →
  sys_run HZ m2j es s = Some s' → ∃ pc', y_calls s' !! k = Some pc' ∧ P pc'.
Proof.
  intros HP. revert s pc. induction es as [|e es IH]; intros s pc Hr Hlive Hk Hpc; cbn [sys_run].
  { intros [= <-]. eauto. }
  destruct (sys_exec HZ m2j e s) as [s1|] eqn:He; [|done]. cbn [mbind option_bind].
  apply sys_exec_step in He.
  destruct (call_on_step P id j k s s1 pc) as (Hlive1 & pc1 & Hk1 & Hpc1); try done.
  - intros. by eapply HP.
  - by apply (sys_inv_reachable HZ m2j).
  - apply (IH s1 pc1); try done. by eapply reach_step.
Qed.

(** C18: A query finds its task under any interleaving.  If [id] is a live task
    (in slot [j], which the scan has not passed), then after any schedule the
    query still scans, or reports on slot [j] with the identifier asked for, a
    state code other than those of FREE and FAILED and error code 0 or
    -ECANCELED, or has returned 0 or -EFAULT: never -ENOENT, never another
    task's data. *)
Theorem query_finds_task es s s' k id i j :
  reachable HZ m2j s → y_calls s !! k = Some (U_query id i) → live_at s id j → (i ≤ j)%nat →
  sys_run HZ m2j es s = Some s' → ∃ pc, y_calls s' !! k = Some pc ∧ query_on id j pc.
Proof.
  intros Hr Hk Hlive Hij Hes.
  apply (call_on_run (query_on id j) id j k es s s' (U_query id i)); try done.
  intros s0 copied pc pc' d' Hr0 Hl0. apply (query_on_step HZ); try done.
  - by apply (sys_inv_reachable HZ m2j).
  - by apply (reachable_results HZ m2j).
Qed.

(** C19: A cancellation reaches its task, and only it, under any interleaving:
    if [id] is live (in slot [j], not yet passed), then after any schedule the
    call still scans, or writes to slot [j], or has returned 0. *)
Theorem cancel_finds_task es s s' k id i j :
  reachable HZ m2j s → y_calls s !! k = Some (U_cancel id i) → live_at s id j → (i ≤ j)%nat →
  sys_run HZ m2j es s = Some s' → ∃ pc, y_calls s' !! k = Some pc ∧ cancel_on id j pc.
Proof.
  intros Hr Hk Hlive Hij Hes.
  apply (call_on_run (cancel_on id j) id j k es s s' (U_cancel id i)); try done.
  intros s0 copied pc pc' d' Hr0 Hl0. apply (cancel_on_step HZ); try done.
  by apply (sys_inv_reachable HZ m2j).
Qed.
End Answers.

(** ** Torn answers *)

(** Blocks that write no error code but 0. *)
Definition codes_from {A} (m : KM dev A) : Prop := ∀ d j t',
  dev_tasks (m d).2 !! j = Some t' →
  ∃ t, dev_tasks d !! j = Some t ∧ (t_error_code t' = t_error_code t ∨ t_error_code t' = 0).

Create HintDb codes.

Lemma codes_same {A} (m : KM dev A) :
  (∀ d, dev_tasks (m d).2 = dev_tasks d) → codes_from m.
Proof. intros Hm d j t'. rewrite Hm. eauto. Qed.

Lemma codes_ret {A} (x : A) : codes_from (mret x).
Proof. by apply codes_same. Qed.

Lemma codes_bind {A B} (m : KM dev A) (f : A → KM dev B) :
  codes_from m → (∀ x, codes_from (f x)) → codes_from (m ≫= f).
Proof.
  intros Hm Hf d j t'. unfold mbind, KM_bind. specialize (Hm d j).
  destruct (m d) as [[x| |] d'] eqn:E; cbn in *; [|auto..].
  intros (t1 & Ht1 & Hc1)%Hf. destruct (Hm t1 Ht1) as (t & Ht & Hc). exists t.
  split; [done|]. intuition congruence.
Qed.

Lemma codes_get_task t : codes_from (get_task t).
Proof. apply codes_same. intros d. unfold get_task, arr_get. by destruct (_ !! t). Qed.

Lemma codes_get_accel i : codes_from (get_accel i).
Proof. apply codes_same. intros d. unfold get_accel, arr_get. by destruct (_ !! i). Qed.

Lemma codes_upd_accel i f : codes_from (upd_accel i f).
Proof. apply codes_bind; [apply codes_get_accel|]. intros _. by apply codes_same. Qed.

Lemma codes_upd_task i f :
  (∀ t, t_error_code (f t) = t_error_code t ∨ t_error_code (f t) = 0) → codes_from (upd_task i f).
Proof.
  intros Hf. apply codes_bind; [apply codes_get_task|]. intros _ d j t'. cbn.
  rewrite arr_upd_lookup. case_decide; [|eauto]. intros (t & Ht & ->)%fmap_Some. eauto.
Qed.

#[local] Hint Resolve codes_ret codes_bind codes_get_task codes_get_accel codes_upd_accel : codes.
#[local] Hint Extern 1 (codes_from (upd_task _ _)) =>
  apply codes_upd_task; intros; cbn; auto : codes.
#[local] Hint Extern 1 (codes_from (modify _)) => apply codes_same; done : codes.
#[local] Hint Extern 1 (codes_from atomic_inc_return) => apply codes_same; done : codes.
#[local] Hint Extern 2 (codes_from (if _ then _ else _)) => case_match : codes.

Lemma codes_alloc : codes_from task_alloc.
Proof.
  apply codes_bind; [by apply codes_same|]. intros [|i l]; auto 20 with codes.
Qed.

Lemma codes_dequeue i : codes_from (dequeue i).
Proof.
  apply codes_bind; [auto with codes|]. intros a. destruct (a_task_queue a); auto 10 with codes.
Qed.
#[local] Hint Resolve codes_alloc codes_dequeue : codes.

Lemma ustep_codes HZ now copied pc :
  (∀ i, pc ≠ U_c_error i) → codes_from (ustep HZ now copied pc).
Proof.
  intros Hne. destruct pc; cbn [ustep]; unfold task_free; auto 10 with codes. by destruct (Hne i).
Qed.

Lemma worker_step_codes m2j i now stop pc : codes_from (worker_step m2j i now stop pc).
Proof. destruct pc; cbn [worker_step]; auto 10 with codes. Qed.

Definition fresh_states : list task_state := [TASK_STATE_FREE; TASK_STATE_PENDING].

(** A task that no worker has started and no call has cancelled has no error
    code, and a cancellation writes its code after the state. *)
Record settled (s : sys) : Prop := {
  se_code : ∀ j t, dev_tasks (y_dev s) !! j = Some t → t_state t ∈ fresh_states →
    t_error_code t = 0;
  se_cancel : ∀ k j t, y_calls s !! k = Some (U_c_error j) → dev_tasks (y_dev s) !! j = Some t →
    t_state t ∉ fresh_states;
}.

Lemma fresh_back t t' : task_change t t' → t_state t' ∈ fresh_states → t_state t ∈ fresh_states.
Proof. unfold fresh_states. destruct 1; cbn; try done; set_solver. Qed.

Lemma ustep_c_error HZ now copied pc j d d' :
  ustep HZ now copied pc d = (Ok (U_c_error j), d') → pc = U_c_state j.
Proof.
  destruct pc; cbn [ustep]; unfold mbind, KM_bind, mret, KM_ret;
    repeat case_match; intros; simplify_eq; done.
Qed.

Section Torn.
Context (HZ : Z) (m2j : Z → Z).

Lemma settled_step s s' : sys_inv s → sys_step HZ m2j s s' → settled s → settled s'.
Proof.
  intros Hinv Hs [Hcode Hcan]. destruct (sys_step_slots HZ m2j s Hinv s' Hs) as [Hch _].
  assert (Hold : ∀ j t', dev_tasks (y_dev s') !! j = Some t' → t_state t' ∈ fresh_states →
    ∃ t, dev_tasks (y_dev s) !! j = Some t ∧ t_state t ∈ fresh_states).
  { intros j t' Ht' Hst. destruct (Hch j t' Ht') as (t & Ht & Hc). eauto using fresh_back. }
  assert (Hcan' : ∀ k j t', y_calls s !! k = Some (U_c_error j) →
    dev_tasks (y_dev s') !! j = Some t' → t_state t' ∉ fresh_states).
  { intros k j t' Hk Ht' Hst. destruct (Hold j t' Ht' Hst) as (t & Ht & Hst0).
    by apply (Hcan k j t). }
  assert (Hfrom : (∀ j t', dev_tasks (y_dev s') !! j = Some t' →
    ∃ t, dev_tasks (y_dev s) !! j = Some t ∧
         (t_error_code t' = t_error_code t ∨ t_error_code t' = 0)) →
    ∀ j t', dev_tasks (y_dev s') !! j = Some t' → t_state t' ∈ fresh_states → t_error_code t' = 0).
  { intros Hc j t' Ht' Hst. destruct (Hold j t' Ht' Hst) as (t & Ht & Hst0).
    destruct (Hc j t' Ht') as (t0 & Ht0 & [E|E]); [|done]. simplify_eq. rewrite E. eauto. }
  destruct Hs as [n Hn|pc He|k pc copied pc' d' Hk Hrun|i pc stop pc' d' Hpc Hstop Hrun|r' d' stop' Hr];
    cbn [y_dev y_calls] in *; split; cbn [y_dev y_calls]; eauto.
  - intros k j t [Hk|[_ Hk]]%lookup_app_Some; [eauto|].
    apply list_lookup_singleton_Some in Hk as [_ E]. by subst pc.
  - assert ((∃ j, pc = U_c_error j) ∨ ∀ j, pc ≠ U_c_error j) as [(j & ->)|Hne]
      by (destruct pc; eauto; by right).
    + cbn [ustep] in Hrun. destruct (call_slot s k Hinv _ j Hk eq_refl) as (_ & tk & Htk & _).
      unfold mbind, KM_bind in Hrun. rewrite (upd_task_run _ _ _ _ Htk) in Hrun.
      injection Hrun as <- <-. intros j0 t Ht Hst. cbn in Ht. rewrite arr_upd_lookup in Ht.
      case_decide as Hj; [|eauto]. subst j0. rewrite Htk in Ht. injection Ht as <-.
      by destruct (Hcan k j tk Hk Htk).
    + apply Hfrom. pose proof (ustep_codes HZ (y_now s) copied pc Hne (y_dev s)) as Hc.
      by rewrite Hrun in Hc.
  - intros k0 j t. rewrite list_lookup_insert_Some. intros [(-> & -> & _)|[_ Hk0]]; [|eauto].
    apply ustep_c_error in Hrun as E. subst pc. cbn [ustep] in Hrun.
    destruct (call_slot s k0 Hinv _ j Hk eq_refl) as (_ & tk & Htk & _).
    unfold mbind, KM_bind in Hrun. rewrite (upd_task_run _ _ _ _ Htk) in Hrun.
    injection Hrun as <-. cbn. rewrite arr_upd_same, Htk. intros [= <-].
    unfold fresh_states. cbn. set_solver.
  - apply Hfrom. pose proof (worker_step_codes m2j i (y_now s) stop pc (y_dev s)) as Hc.
    by rewrite Hrun in Hc.
  - apply Hfrom. intros j t' Ht'. destruct Hr; cbn in Ht'; eauto.
Qed.

Lemma settled_reachable s : reachable HZ m2j s → settled s.
Proof.
  intros Hr. induction Hr as [s ->|s s' Hr IH Hs].
  - split; cbn [y_dev y_calls]; [|intros k j t [=]]. intros j t. rewrite running_dev_tasks. intros [-> _]%lookup_replicate _. reflexivity.
  - eapply settled_step; [by apply sys_inv_reachable in Hr|done..].
Qed.
End Torn.

(** A submission, and a query between whose reads a cancellation runs. *)
Definition torn_events : list event :=
  [E_call (U_check demo_desc)] ++ replicate 7 (E_user 0 true) ++
  [E_call (U_query 1 0); E_user 1 true; E_user 1 true;
   E_call (U_cancel 1 0); E_user 2 true; E_user 2 true; E_user 2 true;
   E_user 1 true; E_user 1 true].

Definition torn_sys : sys := default sys0 (sys_run demo_HZ demo_m2j torn_events sys0).

(** Answers can be torn.  In no reachable state does a PENDING task have an
    error code; yet a query can answer PENDING together with -ECANCELED,
    because it reads the state before a cancellation and the error code after. *)
Theorem query_torn HZ m2j :
  (∀ s j t, reachable HZ m2j s → dev_tasks (y_dev s) !! j = Some t →
     t_state t = TASK_STATE_PENDING → t_error_code t = 0) ∧
  ∃ s k status, reachable demo_HZ demo_m2j s ∧ y_calls s !! k = Some (U_q_copy status) ∧
    s_status status = task_state_val TASK_STATE_PENDING ∧ s_error_code status = - ECANCELED.
Proof.
  split.
  - intros s j t Hr Ht Hst. apply (se_code s (settled_reachable HZ m2j s Hr) j t Ht).
    rewrite Hst. unfold fresh_states. set_solver.
  - exists torn_sys, 1%nat. eexists. split; [|split; [vm_compute; reflexivity|done]].
    apply (sys_run_reachable _ _ torn_events sys0); [by apply reach_init|by vm_compute].
Qed.

(** ** The answers on worked schedules *)

Lemma demo_live : live_at demo_sys 1 0.
Proof. exists demo_task. split_and!; by vm_compute. Qed.

(** The system when one more call has entered. *)
Definition with_call (s : sys) (pc : upc) : sys :=
  {| y_dev := y_dev s; y_now := y_now s; y_workers := y_workers s; y_stop := y_stop s;
     y_calls := y_calls s ++ [pc]; y_remover := y_remover s; y_enq := y_enq s; y_deq := y_deq s |}.

Lemma with_call_reachable HZ m2j s pc :
  reachable HZ m2j s → is_entry pc → reachable HZ m2j (with_call s pc).
Proof. intros Hr He. eapply reach_step; [exact Hr|]. by apply step_call. Qed.

Lemma with_call_live s pc id j : live_at s id j → live_at (with_call s pc) id j.
Proof. done. Qed.

Lemma query_finds_task_witness :
  ∃ s' pc, sys_run demo_HZ demo_m2j (replicate 6 (E_user 2 true))
             (with_call demo_sys (U_query 1 0)) = Some s' ∧
    y_calls s' !! 2%nat = Some pc ∧ query_on 1 0 pc.
Proof.
  destruct (sys_run demo_HZ demo_m2j (replicate 6 (E_user 2 true)) (with_call demo_sys (U_query 1 0)))
    as [s'|] eqn:E; [|exfalso; by vm_compute in E].
  destruct (query_finds_task demo_HZ demo_m2j _ _ s' 2 1 0 0
    (with_call_reachable _ _ _ (U_query 1 0) demo_reachable I) ltac:(by vm_compute)
    (with_call_live _ _ _ _ demo_live) (le_n 0) E) as (pc & Hk & Hq).
  exists s', pc. split; [reflexivity|]. split; [exact Hk|exact Hq].
Defined.

Lemma cancel_finds_task_witness :
  ∃ s' pc, sys_run demo_HZ demo_m2j (replicate 5 (E_user 2 true))
             (with_call demo_sys (U_cancel 1 0)) = Some s' ∧
    y_calls s' !! 2%nat = Some pc ∧ cancel_on 1 0 pc.
Proof.
  destruct (sys_run demo_HZ demo_m2j (replicate 5 (E_user 2 true)) (with_call demo_sys (U_cancel 1 0)))
    as [s'|] eqn:E; [|exfalso; by vm_compute in E].
  destruct (cancel_finds_task demo_HZ demo_m2j _ _ s' 2 1 0 0
    (with_call_reachable _ _ _ (U_cancel 1 0) demo_reachable I) ltac:(by vm_compute)
    (with_call_live _ _ _ _ demo_live) (le_n 0) E) as (pc & Hk & Hq).
  exists s', pc. split; [reflexivity|]. split; [exact Hk|exact Hq].
Defined.
