(* ===== verification/Info.v ===== *)
(** * What GET_ACCEL_INFO can report

    In the concurrent driver the report of an accelerator is taken while its
    worker runs.  The load is the only figure in it that ever changes. *)

From S2P Require Import Prelude CLayout Device UserMem Uapi TaskManager Pool AccelManager Worker DevInit Chardev System Frame SystemInv Schedule SystemProps.

(** A report of accelerator [i_accel_type], as the initial values and a load
    estimate of 0 or 10 make it. *)
Definition plausible_report (info : accel_info) : Prop :=
  0 <= i_accel_type info < 3 ∧
  i_freq_hz info = 1000000000 ∧ i_temp_celsius info = 40 ∧
  (i_load_percent info = 0 ∨ i_load_percent info = 10) ∧
  i_fw_version info = 0x00010000 ∧ i_hw_version info = 0x02000000 ∧
  i_mem_total info = 2 ^ 30 ∧ i_mem_free info = 2 ^ 30 ∧ i_state info = 2.

Definition report_ok (pc : upc) : Prop :=
  match pc with
  | U_info info => 0 <= i_accel_type info
  | U_i_copy info => plausible_report info
  | _ => True
  end.

(** Only the report's own statement leads to its copy. *)
Lemma ustep_other_ok HZ now copied pc d pc' d' :
  (∀ info, pc ≠ U_info info) → ustep HZ now copied pc d = (Ok pc', d') → report_ok pc'.
Proof.
  intros Hpc Hrun. destruct pc; cbn [ustep] in Hrun; unfold mbind, KM_bind, mret, KM_ret in Hrun;
    try (by edestruct Hpc); repeat case_match; by simplify_eq.
Qed.

Section Info.
Context (HZ : Z) (m2j : Z → Z).

(** [st] is what the initialisation wrote. *)
Record info_inv (st : list _) (s : sys) : Prop := {
  ii_static : observed a_static (y_dev s) = st;
  ii_calls : Forall report_ok (y_calls s);
}.

Definition st0 : list _ := observed a_static running_dev.

Definition constants (st : list (Z * list Ascii.ascii * Z * Z * Z * Z * Z * Z * Z)) : Prop :=
  ∀ i o, st !! i = Some o → ∃ t n, o = (t, n, 1000000000, 40, 0x00010000, 0x02000000, 2 ^ 30, 2 ^ 30, 2).

Lemma st0_constants : constants st0.
Proof.
  intros i o Ho. assert (Hall : Forall (λ o, ∃ t n, o =
    (t, n, 1000000000, 40, 0x00010000, 0x02000000, 2 ^ 30, 2 ^ 30, 2)) st0)
    by (vm_compute; repeat constructor; by eexists _, _).
  exact (Forall_lookup_1 _ _ _ _ Hall Ho).
Qed.

Lemma accel_report_ok s a info :
  sys_inv s → constants (observed a_static (y_dev s)) →
  dev_accelerators (y_dev s) !! Z.to_nat (i_accel_type info) = Some a →
  0 <= i_accel_type info < 3 → plausible_report (accel_get_info a info).
Proof.
  intros Hinv Hst Ha Hty.
  destruct (si_workers s Hinv _ a Ha) as (pc & e & q & _ & _ & _ & Hw).
  pose proof (wi_load _ _ _ _ _ _ Hw) as Hl.
  pose proof (observed_lookup a_static _ _ _ Ha) as Hs.
  destruct (Hst _ _ Hs) as (t & n & Heq).
  unfold a_static in Heq. injection Heq as _ _ ? ? ? ? ? ? ?.
  clear Hinv Hst Ha Hs Hw. unfold plausible_report, accel_get_info. cbn. rewrite Hl.
  split_and!; try assumption; try lia. destruct pc; cbn; auto.
Qed.

Lemma info_inv_step st s s' :
  constants st → sys_inv s → info_inv st s → sys_step HZ m2j s s' → info_inv st s'.
Proof.
  intros Hst0 Hinv [Hst Hc] Hs.
  destruct Hs as [n Hn|pc He|k pc copied pc' d' Hk Hrun|i pc stop pc' d' Hpc Hstop Hrun|r' d' stop' Hr];
    split; cbn [y_dev y_calls]; try done.
  - apply Forall_app. split; [done|]. apply Forall_singleton.
    destruct pc; try done. cbn in *. apply accel_info_type_range in He. unfold is_u32 in He. lia.
  - rewrite <- Hst. pose proof (ustep_keeps a_static HZ (y_now s) copied pc (y_dev s)) as Hkeep.
    by rewrite Hrun in Hkeep.
  - apply Forall_insert; [done|]. pose proof (Forall_lookup_1 _ _ _ _ Hc Hk) as Hok.
    assert ((∃ info, pc = U_info info) ∨ ∀ info, pc ≠ U_info info) as [[info ->]|Hn]
      by (clear; destruct pc; eauto; by right).
    + destruct (ustep_info _ _ _ _ _ _ _ Hrun) as [-> [-> |(a & Ha & Hlt & ->)]]; [done|].
      cbn in Hok |- *. eapply accel_report_ok; [done|by rewrite Hst|done|lia].
    + by eapply ustep_other_ok.
  - rewrite <- Hst. pose proof (worker_step_keeps a_static m2j i (y_now s) stop pc (y_dev s)) as Hkeep.
    by rewrite Hrun in Hkeep.
  - rewrite <- Hst. destruct Hr; try done; by apply observed_upd.
Qed.

Lemma info_inv_reachable s : reachable HZ m2j s → info_inv st0 s.
Proof.
  intros Hr. assert (sys_inv s ∧ info_inv st0 s) as [_ Hii]; [|exact Hii]. revert s Hr.
  apply reach_invariant.
  - intros s Hs. split; [by apply sys_inv_reachable with HZ m2j, reach_init|].
    rewrite Hs. split; [exact eq_refl|apply Forall_nil_2].
  - intros s s' [Hinv Hii] Hstep. split; [by eapply sys_inv_step|exact (info_inv_step _ s s' st0_constants Hinv Hii Hstep)].
Qed.

(** GET_ACCEL_INFO reports constants and a load of 0 or 10.  Whatever has
    happened before, a request that is about to copy its report out reports an
    accelerator that exists, at 1 GHz, 40 degrees, with 1 GiB of which all is
    free, in state 2, with fixed versions; only the load varies, between 0 and
    10. *)
Theorem info_reports_constants s k info :
  reachable HZ m2j s → y_calls s !! k = Some (U_i_copy info) → plausible_report info.
Proof.
  intros Hr Hk. exact (Forall_lookup_1 _ _ _ _ (ii_calls _ s (info_inv_reachable s Hr)) Hk).
Qed.
End Info.

(** ** On the worked schedule, while the worker of accelerator 0 is busy *)

Definition info_request : accel_info :=
  {| i_accel_type := 0; i_freq_hz := 0; i_temp_celsius := 0; i_load_percent := 0;
     i_fw_version := 0; i_hw_version := 0; i_mem_total := 0; i_mem_free := 0; i_state := 0;
     i_reserved := (0, 0, 0) |}.

Definition info_events : list event := [E_call (U_info info_request); E_user 2 true].
Definition info_sys : sys := default sys0 (sys_run demo_HZ demo_m2j (demo_events ++ info_events) sys0).
Definition info_answer : accel_info :=
  match y_calls info_sys !! 2%nat with Some (U_i_copy info) => info | _ => info_request end.

Lemma info_reports_constants_witness :
  i_load_percent info_answer = 10 ∧ plausible_report info_answer.
Proof.
  split; [by vm_compute|].
  apply (info_reports_constants demo_HZ demo_m2j info_sys 2).
  - apply (sys_run_reachable _ _ (demo_events ++ info_events) sys0); [by apply reach_init|by vm_compute].
  - by vm_compute.
Defined.
