(* ===== verification/Service.v ===== *)
(** * The concurrent driver as a service

    What clients of the whole driver can rely on, without slots, lists, locks
    and statements: tasks named by identifiers, one lane per accelerator with
    the identifiers that wait and the one that runs, and ten atomic actions.
    [service_of] reads this off a device; every step of the concurrent driver
    is one of the actions. *)

From S2P Require Import Prelude CLayout Device UserMem Uapi TaskManager Pool AccelManager Worker DevInit Chardev TaskTable System SystemInv Lifecycle Schedule SystemProps Scan.

(** ** The specification *)

Record entry : Type := { e_accel : Z; e_state : task_state; e_code : Z }.
Record lane : Type := { l_waiting : list Z; l_running : option Z }.
Record service : Type := { v_tasks : gmap Z entry; v_lanes : list lane; v_issued : Z }.

Definition put (id : Z) (e : entry) (v : service) : service :=
  {| v_tasks := <[id := e]> (v_tasks v); v_lanes := v_lanes v; v_issued := v_issued v |}.
Definition set_lane (i : nat) (l : lane) (v : service) : service :=
  {| v_tasks := v_tasks v; v_lanes := <[i := l]> (v_lanes v); v_issued := v_issued v |}.
Definition with_state (st : task_state) (e : entry) : entry :=
  {| e_accel := e_accel e; e_state := st; e_code := e_code e |}.
Definition with_code (code : Z) (e : entry) : entry :=
  {| e_accel := e_accel e; e_state := e_state e; e_code := code |}.

Definition in_lane (id : Z) (l : lane) : Prop := id ∈ l_waiting l ∨ l_running l = Some id.

(** [id] is the task [e] that lane [i] runs. *)
Definition runs (v : service) (i : nat) (id : Z) (e : entry) : Prop :=
  ∃ w, v_lanes v !! i = Some {| l_waiting := w; l_running := Some id |} ∧
    v_tasks v !! id = Some e ∧ e_accel e = Z.of_nat i.

Inductive service_step (v : service) : service → Prop :=
  | sv_same : service_step v v
  | sv_issue :                                      (* an identifier is drawn *)
      v_issued v < Z.of_nat MAX_TASKS →
      service_step v {| v_tasks := v_tasks v; v_lanes := v_lanes v; v_issued := v_issued v + 1 |}
  | sv_accept id k :                                (* its task becomes visible *)
      0 < id <= v_issued v → v_tasks v !! id = None → 0 <= k < 3 →
      service_step v (put id {| e_accel := k; e_state := TASK_STATE_PENDING; e_code := 0 |} v)
  | sv_queue id e l :                               (* ... and queued, once *)
      v_tasks v !! id = Some e → v_lanes v !! Z.to_nat (e_accel e) = Some l →
      (∀ i l', v_lanes v !! i = Some l' → ¬ in_lane id l') →
      service_step v
        (set_lane (Z.to_nat (e_accel e))
           {| l_waiting := l_waiting l ++ [id]; l_running := l_running l |} v)
  | sv_take i id w :                                (* an idle lane takes its oldest task *)
      v_lanes v !! i = Some {| l_waiting := id :: w; l_running := None |} →
      service_step v (set_lane i {| l_waiting := w; l_running := Some id |} v)
  | sv_run i id e :
      runs v i id e → e_state e ∈ queued_states →
      service_step v (put id (with_state TASK_STATE_RUNNING e) v)
  | sv_finish i id e :
      runs v i id e → e_state e ∈ running_states →
      service_step v (put id (with_state TASK_STATE_COMPLETE e) v)
  | sv_succeed i id e :
      runs v i id e → e_state e ∈ final_states → service_step v (put id (with_code 0 e) v)
  | sv_leave i id e w :
      runs v i id e → e_state e ∈ final_states →
      v_lanes v !! i = Some {| l_waiting := w; l_running := Some id |} →
      service_step v (set_lane i {| l_waiting := w; l_running := None |} v)
  | sv_cancel id e :                                (* whatever the task's state *)
      v_tasks v !! id = Some e → service_step v (put id (with_state TASK_STATE_CANCELLED e) v)
  | sv_cancel_code id e :
      v_tasks v !! id = Some e → service_step v (put id (with_code (- ECANCELED) e) v).

Definition service_init : service :=
  {| v_tasks := ∅; v_issued := 0;
     v_lanes := replicate NUM_ACCELERATORS {| l_waiting := []; l_running := None |} |}.

(** ** The abstraction *)

Definition entry_of (t : task) : entry :=
  {| e_accel := t_accel_type t; e_state := t_state t; e_code := t_error_code t |}.

Definition id_of (tasks : list task) (u : nat) : Z := default 0 (t_id <$> tasks !! u).

Definition lane_of (tasks : list task) (a : accel) : lane :=
  {| l_waiting := id_of tasks <$> a_task_queue a;
     l_running := head (id_of tasks <$> a_active_tasks a) |}.

Definition service_of (d : dev) : service :=
  {| v_tasks := entry_of <$> view d;
     v_lanes := lane_of (dev_tasks d) <$> dev_accelerators d;
     v_issued := dev_next_task_id d |}.

(** ** What a write to the device does to the service *)

Lemma service_ext v v' :
  v_tasks v = v_tasks v' → v_lanes v = v_lanes v' → v_issued v = v_issued v' → v = v'.
Proof. destruct v, v'. cbn. by intros -> -> ->. Qed.

Lemma service_entry d t tk :
  pool_inv d → dev_tasks d !! t = Some tk → is_live tk →
  v_tasks (service_of d) !! t_id tk = Some (entry_of tk).
Proof.
  intros Hp Ht Hl. cbn. rewrite lookup_fmap.
  replace (view d !! t_id tk) with (Some tk); [done|]. symmetry. apply view_lookup; eauto.
Qed.

Lemma service_lane d i a :
  dev_accelerators d !! i = Some a →
  v_lanes (service_of d) !! i = Some (lane_of (dev_tasks d) a).
Proof. intros Ha. cbn. by rewrite list_lookup_fmap, Ha. Qed.

(** A write to an accelerator. *)
Lemma service_accel d i a g :
  dev_accelerators d !! i = Some a →
  service_of (upd_accelerators (arr_upd i g) d) =
  set_lane i (lane_of (dev_tasks d) (g a)) (service_of d).
Proof.
  intros Ha. apply service_ext; try done. cbn. apply list_eq. intros j.
  rewrite list_lookup_fmap, arr_upd_lookup. case_decide as Hj.
  - subst j. rewrite Ha, list_lookup_insert_eq; [done|]. rewrite length_fmap.
    by eapply lookup_lt_Some.
  - by rewrite list_lookup_insert_ne, list_lookup_fmap.
Qed.

Lemma service_accel_same d i g :
  (∀ a, a_task_queue (g a) = a_task_queue a ∧ a_active_tasks (g a) = a_active_tasks a) →
  service_of (upd_accelerators (arr_upd i g) d) = service_of d.
Proof.
  intros Hg. apply service_ext; try done. cbn. apply list_eq. intros j.
  rewrite !list_lookup_fmap, arr_upd_lookup. case_decide; [|done].
  destruct (dev_accelerators d !! j) as [a|]; cbn; [|done].
  unfold lane_of. by destruct (Hg a) as [-> ->].
Qed.

Lemma id_of_same t f tasks u :
  (∀ tk, tasks !! t = Some tk → t_id (f tk) = t_id tk) →
  id_of (arr_upd t f tasks) u = id_of tasks u.
Proof.
  intros Hf. unfold id_of. rewrite arr_upd_lookup. case_decide; [|done]. subst u.
  destruct (tasks !! t) as [tk|]; cbn; [|done]. by apply Hf.
Qed.

Lemma lane_of_same tasks tasks' a :
  (∀ u, u ∈ a_task_queue a ++ a_active_tasks a → id_of tasks' u = id_of tasks u) →
  lane_of tasks' a = lane_of tasks a.
Proof.
  intros Hid. assert (Hq : ∀ l : list nat, (∀ u, u ∈ l → id_of tasks' u = id_of tasks u) →
    id_of tasks' <$> l = id_of tasks <$> l).
  { intros l Hl. apply list_fmap_ext. intros j u Hu. apply Hl. by eapply list_elem_of_lookup_2. }
  unfold lane_of. by rewrite !Hq by set_solver.
Qed.

Lemma lanes_same d tasks' :
  (∀ i a u, dev_accelerators d !! i = Some a → u ∈ a_task_queue a ++ a_active_tasks a →
     id_of tasks' u = id_of (dev_tasks d) u) →
  lane_of tasks' <$> dev_accelerators d = lane_of (dev_tasks d) <$> dev_accelerators d.
Proof. intros Hid. apply list_fmap_ext. intros i a Ha. by eapply lane_of_same; eauto. Qed.

(** A write to a task that is and stays visible. *)
Lemma service_live d t tk f :
  pool_inv d → dev_tasks d !! t = Some tk → is_live tk →
  (∀ tk, t_id (f tk) = t_id tk) → is_live (f tk) →
  service_of (upd_tasks (arr_upd t f) d) = put (t_id tk) (entry_of (f tk)) (service_of d).
Proof.
  intros Hp Ht Hl Hid Hl'. apply service_ext; [|cbn|done].
  - cbn [v_tasks service_of put]. rewrite (view_upd_live d t tk f) by done. by rewrite fmap_insert.
  - apply lanes_same. intros i a u _ _. by apply id_of_same.
Qed.

(** ... of which the service sees nothing. *)
Lemma service_live_same d t tk f :
  pool_inv d → dev_tasks d !! t = Some tk → is_live tk →
  (∀ tk, t_id (f tk) = t_id tk) → entry_of (f tk) = entry_of tk →
  service_of (upd_tasks (arr_upd t f) d) = service_of d.
Proof.
  intros Hp Ht Hl Hid He.
  assert (Hl' : is_live (f tk)) by (unfold is_live in *; injection He as _ Hs _; by rewrite Hs).
  rewrite (service_live d t tk f Hp Ht Hl Hid Hl').
  apply service_ext; try done. cbn [put v_tasks]. rewrite He. apply insert_id. by eapply service_entry.
Qed.

Lemma free_not_live tk : t_state tk = TASK_STATE_FREE → ¬ is_live tk.
Proof. intros Hs Hl. by apply Hl. Qed.

Lemma queued_live tk : t_state tk ∈ queued_states → is_live tk.
Proof. unfold is_live, queued_states. intros Hs E. rewrite E in Hs. set_solver. Qed.

(** Writes to a task that is and stays invisible. *)
Lemma view_dead d d' t tk f :
  pool_inv d → pool_inv d' → dev_tasks d' = arr_upd t f (dev_tasks d) →
  dev_tasks d !! t = Some tk → ¬ is_live tk → ¬ is_live (f tk) → view d' = view d.
Proof.
  intros Hp Hp' Hd Ht Hl Hl'. apply map_eq. intros k. apply option_eq. intros u.
  rewrite !view_lookup by done. rewrite Hd. split; intros (j & Hj & Hid & Hlu); exists j;
    rewrite arr_upd_lookup in *; case_decide as Hjt; try done.
  - subst j. rewrite Ht in Hj. by injection Hj as <-.
  - subst j. rewrite Ht in Hj. by injection Hj as <-.
Qed.

(** A task that becomes visible. *)
Lemma view_born d t tk f :
  pool_inv d → pool_inv (upd_tasks (arr_upd t f) d) → dev_tasks d !! t = Some tk →
  0 < t_id tk → ¬ is_live tk → is_live (f tk) → t_id (f tk) = t_id tk →
  view (upd_tasks (arr_upd t f) d) = <[t_id tk := f tk]> (view d) ∧ view d !! t_id tk = None.
Proof.
  intros Hp Hp' Ht Hpos Hl Hl' Hid. split.
  - apply map_eq. intros k. apply option_eq. intros u. rewrite view_lookup by done.
    cbn [dev_tasks upd_tasks set_tasks]. rewrite lookup_insert. case_decide as Hk.
    + subst k. split.
      * intros (j & Hj & Hju & Hlu). rewrite arr_upd_lookup in Hj. case_decide as Hjt.
        -- subst j. rewrite Ht in Hj. by injection Hj as <-.
        -- destruct Hjt. by eapply (pi_unique d Hp t j tk u).
      * intros [= <-]. exists t. by rewrite arr_upd_same, Ht.
    + rewrite view_lookup by done. split; intros (j & Hj & Hju & Hlu); exists j;
        rewrite arr_upd_lookup in *; case_decide as Hjt; try done; subst j; rewrite Ht in Hj;
        injection Hj as <-; [congruence|done].
  - destruct (view d !! t_id tk) as [u|] eqn:Hu; [|done].
    apply view_lookup in Hu as (j & Hj & Hju & Hlu); [|done].
    assert (t = j) as <- by (by eapply (pi_unique d Hp t j tk u)). by simplify_eq.
Qed.

(** ** Nodes of the lists *)

Section Nodes.
Context (s : sys) (Hinv : sys_inv s).

Lemma lane_node_enq i a u :
  dev_accelerators (y_dev s) !! i = Some a → u ∈ a_task_queue a ++ a_active_tasks a →
  u ∈ concat (y_enq s).
Proof.
  intros Ha Hu. destruct (si_workers s Hinv i a Ha) as (pc & e & q & _ & He & _ & Hw).
  apply (elem_of_concat _ i e); [done|]. rewrite (wi_fifo _ _ _ _ _ _ Hw).
  apply elem_of_app. apply elem_of_app in Hu as [Hu|Hu]; [by right|left].
  rewrite (wi_active _ _ _ _ _ _ Hw) in Hu. destruct (wpc_task pc) as [t|] eqn:Ht; cbn in Hu.
  - apply list_elem_of_singleton in Hu as ->. by apply (wi_current _ _ _ _ _ _ Hw).
  - by apply not_elem_of_nil in Hu.
Qed.

Lemma enq_task u :
  u ∈ concat (y_enq s) →
  u ∉ dev_free_tasks (y_dev s) ∧ ∃ tk, dev_tasks (y_dev s) !! u = Some tk ∧ 0 < t_id tk.
Proof.
  intros Hu. apply elem_of_concat_inv in Hu as (i & e & He & Hu).
  destruct (owned_enq _ _ _ (si_nodup s Hinv) i e u He Hu) as (Hf & _ & _). split; [done|].
  assert (Hi : (i < NUM_ACCELERATORS)%nat)
    by (rewrite <- (si_enq_len s Hinv); by eapply lookup_lt_Some).
  destruct (lookup_lt_is_Some_2 (dev_accelerators (y_dev s)) i) as [a Ha];
    [by rewrite (si_accels s Hinv)|].
  destruct (si_workers s Hinv i a Ha) as (pc & e0 & q & _ & He0 & _ & Hw). simplify_eq.
  destruct (wi_tasks _ _ _ _ _ _ Hw u Hu) as (tk & Htk & _). exists tk. split; [done|].
  by eapply (pi_live _ (si_pool s Hinv)).
Qed.

(** The identifier of a task outside the lists is in no lane. *)
Lemma not_in_lane t tk i l :
  dev_tasks (y_dev s) !! t = Some tk → t ∉ concat (y_enq s) →
  v_lanes (service_of (y_dev s)) !! i = Some l → ¬ in_lane (t_id tk) l.
Proof.
  intros Ht Hne Hl Hin. cbn in Hl. rewrite list_lookup_fmap in Hl.
  destruct (dev_accelerators (y_dev s) !! i) as [a|] eqn:Ha; [|done]. injection Hl as <-.
  assert (∃ u, u ∈ a_task_queue a ++ a_active_tasks a ∧
    id_of (dev_tasks (y_dev s)) u = t_id tk) as (u & Hu & Hid).
  { destruct Hin as [Hin|Hin]; cbn in Hin.
    - apply list_elem_of_fmap in Hin as (u & -> & Hu). exists u. split; [|done]. set_solver.
    - destruct (a_active_tasks a) as [|u r]; [done|]. injection Hin as Hid. exists u.
      split; [set_solver|done]. }
  apply (lane_node_enq i a u Ha) in Hu. destruct (enq_task u Hu) as (_ & tu & Htu & Hpos).
  unfold id_of in Hid. rewrite Htu in Hid. cbn in Hid.
  apply Hne. rewrite (pi_unique _ (si_pool s Hinv) t u tk tu); [done..|congruence].
Qed.

(** The task of a worker is the one its lane runs. *)
Lemma worker_runs i pc t :
  y_workers s !! i = Some pc → wpc_task pc = Some t →
  ∃ a tk, dev_accelerators (y_dev s) !! i = Some a ∧ a_active_tasks a = [t] ∧
    dev_tasks (y_dev s) !! t = Some tk ∧ is_live tk ∧ t_state tk ∈ run_states pc ∧
    id_of (dev_tasks (y_dev s)) t = t_id tk ∧
    runs (service_of (y_dev s)) i (t_id tk) (entry_of tk).
Proof.
  intros Hpc Ht. destruct (worker_task_parts s i pc Hinv Hpc t Ht)
    as (a & e & tk & Ha & _ & _ & _ & _ & _ & _ & Hact & _ & Htk & Hty & Hst).
  assert (Hl : is_live tk).
  { apply (slot_states_live pc [] t). unfold slot_states. by rewrite decide_True. }
  assert (Hid : id_of (dev_tasks (y_dev s)) t = t_id tk) by (unfold id_of; by rewrite Htk).
  exists a, tk. split_and!; [done..|].
  exists (id_of (dev_tasks (y_dev s)) <$> a_task_queue a). split_and!; [| |done].
  - rewrite (service_lane _ _ _ Ha). unfold lane_of. rewrite Hact. cbn. by rewrite Hid.
  - by eapply service_entry; [apply si_pool| |].
Qed.
End Nodes.

(** ** Calls *)

Ltac run_of H := apply (f_equal snd) in H; cbn [snd] in H; subst.

Section Calls.
Context (HZ : Z) (s : sys) (k : nat) (copied : bool).
Context (Hinv : sys_inv s) (Hset : settled s).

Local Abbreviation d := (y_dev s).

Lemma alloc_simulates i l :
  dev_free_tasks d = i :: l → pool_inv (alloc_dev i d) →
  service_step (service_of d) (service_of (alloc_dev i d)).
Proof.
  intros Hf Hp'. pose proof (si_pool s Hinv) as Hp.
  destruct (pool_inv_head i l _ Hp Hf) as (_ & _ & _ & t & Ht & Hfree).
  pose proof (si_accounted s Hinv) as Hacc. unfold accounted in Hacc. rewrite Hf in Hacc. cbn in Hacc.
  assert (Hv : view (alloc_dev i d) = view d).
  { eapply (view_dead d (alloc_dev i d) i t); [done|done|done|done|by intros []|by intros []]. }
  replace (service_of (alloc_dev i d)) with
    {| v_tasks := v_tasks (service_of d); v_lanes := v_lanes (service_of d);
       v_issued := v_issued (service_of d) + 1 |}; [apply sv_issue; cbn; lia|].
  apply service_ext; [| |done]; cbn [v_tasks v_lanes service_of].
  - by rewrite Hv.
  - symmetry. apply (lanes_same d (dev_tasks (alloc_dev i d))). intros j a u Ha Hu.
    destruct (enq_task s Hinv u (lane_node_enq s Hinv j a u Ha Hu)) as [Hnf _].
    cbn. unfold id_of. rewrite arr_upd_other; [done|]. intros ->. apply Hnf. rewrite Hf. set_solver.
Qed.

Lemma fill_simulates t tk desc :
  dev_tasks d !! t = Some tk → t_state tk = TASK_STATE_FREE → t ∉ dev_free_tasks d →
  service_of (upd_tasks (arr_upd t (fill_task desc)) d) = service_of d.
Proof.
  intros Ht Hfree Hnf. pose proof (si_pool s Hinv) as Hp. apply service_ext; [| |done].
  - cbn [v_tasks service_of]. f_equal.
    eapply (view_dead d _ t tk); [done|by apply pool_inv_upd_live|done|done|..];
      by apply free_not_live.
  - cbn. apply lanes_same. intros i a u _ _. by apply id_of_same.
Qed.

Lemma pending_simulates t tk :
  dev_tasks d !! t = Some tk → t_state tk = TASK_STATE_FREE → t ∉ dev_free_tasks d →
  0 <= t_accel_type tk < 3 →
  service_step (service_of d)
    (service_of (upd_tasks (arr_upd t (set_t_state TASK_STATE_PENDING)) d)).
Proof.
  intros Ht Hfree Hnf Hty. pose proof (si_pool s Hinv) as Hp.
  assert (Hpos : 0 < t_id tk) by (by eapply (pi_live _ Hp)).
  pose proof (pi_id _ Hp t tk Ht) as Hid.
  destruct (view_born d t tk (set_t_state TASK_STATE_PENDING)) as [Hv Hn]; try done;
    [by apply pool_inv_upd_live|by apply free_not_live|].
  assert (Hcode : t_error_code tk = 0)
    by (apply (se_code s Hset t tk Ht); rewrite Hfree; unfold fresh_states; set_solver).
  replace (service_of (upd_tasks _ d)) with
    (put (t_id tk) {| e_accel := t_accel_type tk; e_state := TASK_STATE_PENDING; e_code := 0 |}
       (service_of d)).
  - apply sv_accept; [cbn; lia| |done]. cbn. by rewrite lookup_fmap, Hn.
  - apply service_ext; [| |done].
    + cbn [v_tasks service_of put]. rewrite Hv, fmap_insert. unfold entry_of at 2. cbn. by rewrite Hcode.
    + cbn. symmetry. apply (lanes_same d). intros i a u _ _. by apply id_of_same.
Qed.

Lemma enqueue_simulates t tk a :
  dev_tasks d !! t = Some tk → is_live tk → t ∉ concat (y_enq s) →
  dev_accelerators d !! Z.to_nat (t_accel_type tk) = Some a →
  service_step (service_of d)
    (service_of (upd_accelerators (arr_upd (Z.to_nat (t_accel_type tk)) (enqueue t)) d)).
Proof.
  intros Ht Hl Hne Ha. pose proof (si_pool s Hinv) as Hp.
  rewrite (service_accel d _ a) by done.
  replace (lane_of (dev_tasks d) (enqueue t a)) with
    {| l_waiting := l_waiting (lane_of (dev_tasks d) a) ++ [t_id tk];
       l_running := l_running (lane_of (dev_tasks d) a) |}.
  - apply (sv_queue _ (t_id tk) (entry_of tk)); [by eapply service_entry|by apply service_lane|].
    intros i l' Hi. by eapply not_in_lane.
  - unfold lane_of. cbn. rewrite fmap_app. cbn. unfold id_of at 4. by rewrite Ht.
Qed.

(** Cancellation of a visible task, in its two writes. *)
Lemma cancel_simulates t tk f e :
  dev_tasks d !! t = Some tk → is_live tk → (∀ tk, t_id (f tk) = t_id tk) → is_live (f tk) →
  entry_of (f tk) = e →
  (e = with_state TASK_STATE_CANCELLED (entry_of tk) ∨ e = with_code (- ECANCELED) (entry_of tk)) →
  service_step (service_of d) (service_of (upd_tasks (arr_upd t f) d)).
Proof.
  intros Ht Hl Hid Hl' He Hcase. pose proof (si_pool s Hinv) as Hp.
  rewrite (service_live d t tk f Hp Ht Hl Hid Hl'), He.
  pose proof (service_entry d t tk Hp Ht Hl). destruct Hcase as [-> | ->].
  - by apply sv_cancel.
  - by apply sv_cancel_code.
Qed.
Lemma user_simulates pc pc' d' :
  y_calls s !! k = Some pc → ustep HZ (y_now s) copied pc d = (Ok pc', d') → pool_inv d' →
  service_step (service_of d) (service_of d').
Proof.
  intros Hk Hrun Hp'. pose proof (si_pool s Hinv) as Hp.
  assert (Hslot : ∀ t, upc_slot pc = Some t →
    call_ok pc ∧ ∃ tk, dev_tasks d !! t = Some tk ∧ call_slot_ok pc tk)
    by (intros; by eapply call_slot).
  assert (Hheld : ∀ t, t ∈ upc_held pc → t ∉ dev_free_tasks d ∧ t ∉ concat (y_enq s))
    by (intros t; by apply (owned_held _ _ _ (si_nodup s Hinv) k)).
  destruct pc; cbn [ustep upc_slot upc_held] in *; unfold mbind, KM_bind, mret, KM_ret in Hrun;
    try (destruct (Hslot _ eq_refl) as (Hok & tk & Ht & Hs); cbn in Hok, Hs);
    try (destruct (Hheld t) as [Hnf Hne]; [set_solver|]);
    try (rewrite (upd_task_run _ _ _ _ Ht) in Hrun);
    try (rewrite (get_task_run _ _ _ Ht) in Hrun).
  - run_of Hrun. apply sv_same.
  - pose proof (accounted_next _ (si_accounted s Hinv) Hp).
    rewrite (task_alloc_ok _ Hp ltac:(lia)) in Hrun.
    destruct (dev_free_tasks d) as [|i l] eqn:Hf; run_of Hrun; [apply sv_same|].
    by eapply alloc_simulates.
  - run_of Hrun. rewrite (fill_simulates t tk) by done. apply sv_same.
  - destruct Hs as [Hfree Hty]. unfold valid_desc in Hok.
    change (Z.of_nat NUM_ACCELERATORS) with 3 in Hrun.
    rewrite Hty, (proj2 (Z.leb_gt _ _)) in Hrun by lia.
    rewrite (upd_task_run _ _ _ _ Ht) in Hrun. run_of Hrun.
    apply (pending_simulates t tk); [done..|lia].
  - by destruct Hok.
  - destruct Hs as [Hst _]. run_of Hrun.
    rewrite (service_live_same d t tk) by (try done; by apply queued_live). apply sv_same.
  - destruct Hs as [Hst Hty]. unfold valid_desc in Hok.
    destruct (lookup_lt_is_Some_2 (dev_accelerators d) (Z.to_nat (d_accel_type desc)))
      as [a Ha]; [rewrite (si_accels s Hinv); unfold NUM_ACCELERATORS; lia|].
    rewrite (upd_accel_run _ _ _ _ Ha) in Hrun. run_of Hrun. rewrite <- Hty in *.
    apply (enqueue_simulates t tk a); [done|by apply queued_live|done|done].
  - run_of Hrun. apply sv_same.
  - case_decide as Hi; [|run_of Hrun; apply sv_same].
    destruct (scan_lookup s Hinv i Hi) as [tk Ht].
    rewrite (get_task_run _ _ _ Ht) in Hrun. run_of Hrun. apply sv_same.
  - run_of Hrun. eapply (cancel_simulates i tk); [done..|]. by left.
  - run_of Hrun. eapply (cancel_simulates i tk); [done..|]. by right.
  - run_of Hrun. rewrite (service_live_same d i tk) by done. apply sv_same.
  - case_decide as Hi; [|run_of Hrun; apply sv_same].
    destruct (scan_lookup s Hinv i Hi) as [tk Ht].
    rewrite (get_task_run _ _ _ Ht) in Hrun. run_of Hrun. apply sv_same.
  - run_of Hrun. apply sv_same.
  - run_of Hrun. apply sv_same.
  - run_of Hrun. apply sv_same.
  - run_of Hrun. apply sv_same.
  - destruct (ustep_info HZ (y_now s) copied info _ _ _ Hrun) as [-> _]. apply sv_same.
  - run_of Hrun. apply sv_same.
  - run_of Hrun. apply sv_same.
  - run_of Hrun. apply sv_same.
  - run_of Hrun. apply sv_same.
Qed.
End Calls.

(** ** Workers *)

Section Workers.
Context (m2j : Z → Z) (s : sys) (i : nat) (stop : bool).
Context (Hinv : sys_inv s).

Local Abbreviation d := (y_dev s).

Lemma take_simulates a t l :
  y_workers s !! i = Some W_lock → dev_accelerators d !! i = Some a → a_task_queue a = t :: l →
  service_step (service_of d) (service_of (upd_accelerators (arr_upd i (take_head t)) d)).
Proof.
  intros Hpc Ha Hq.
  destruct (si_workers s Hinv i a Ha) as (pc & e & q & Hpc' & He & _ & Hw). simplify_eq.
  pose proof (wi_active _ _ _ _ _ _ Hw) as Hact. cbn in Hact.
  assert (Htl : t ∉ l).
  { destruct (owned_enq _ _ _ (si_nodup s Hinv) i e t He) as (_ & _ & Hnd);
      [rewrite (wi_fifo _ _ _ _ _ _ Hw), Hq; set_solver|].
    rewrite (wi_fifo _ _ _ _ _ _ Hw), Hq in Hnd. apply NoDup_app in Hnd as (_ & _ & Hnd).
    by apply NoDup_cons in Hnd as [? _]. }
  rewrite (service_accel d i a) by done.
  replace (lane_of (dev_tasks d) (take_head t a)) with
    {| l_waiting := id_of (dev_tasks d) <$> l; l_running := Some (id_of (dev_tasks d) t) |}.
  - apply sv_take. rewrite (service_lane d i a) by done. unfold lane_of. by rewrite Hq, Hact.
  - unfold lane_of, take_head. cbn. rewrite Hq, Hact. by rewrite list_del_head.
Qed.

Lemma leave_simulates t :
  y_workers s !! i = Some (W_unlink t) →
  service_step (service_of d)
    (service_of (upd_accelerators
       (arr_upd i (λ a, set_a_active_tasks (list_del t (a_active_tasks a)) a)) d)).
Proof.
  intros Hpc. destruct (worker_runs s Hinv i _ t Hpc eq_refl)
    as (a & tk & Ha & Hact & Ht & _ & Hst & Hid & Hruns).
  rewrite (service_accel d i a) by done.
  replace (lane_of _ _) with
    {| l_waiting := id_of (dev_tasks d) <$> a_task_queue a; l_running := None |}.
  - eapply sv_leave; [exact Hruns|exact Hst|]. rewrite (service_lane d i a) by done.
    unfold lane_of. rewrite Hact. cbn. by rewrite Hid.
  - unfold lane_of. cbn. rewrite Hact, list_del_head by set_solver. done.
Qed.

Lemma worker_simulates pc pc' d' :
  y_workers s !! i = Some pc → worker_step m2j i (y_now s) stop pc d = (Ok pc', d') →
  service_step (service_of d) (service_of d').
Proof.
  intros Hpc Hrun. pose proof (si_pool s Hinv) as Hp.
  destruct (worker_parts s i pc Hinv Hpc) as (a & e & q & Ha & _).
  assert (Htask : ∀ t, wpc_task pc = Some t →
    ∃ tk, dev_tasks d !! t = Some tk ∧ is_live tk ∧ t_state tk ∈ run_states pc ∧
      runs (service_of d) i (t_id tk) (entry_of tk)).
  { intros t Ht. destruct (worker_runs s Hinv i pc t Hpc Ht) as (? & tk & _ & _ & ? & ? & ? & _ & ?).
    eauto. }
  destruct pc; cbn [worker_step wpc_task run_states] in *;
    unfold mbind, KM_bind, mret, KM_ret in Hrun;
    try rewrite (get_accel_run _ _ _ Ha) in Hrun;
    try rewrite (upd_accel_run _ _ _ _ Ha) in Hrun;
    try (destruct (Htask _ eq_refl) as (tk & Ht & Hl & Hs & Hr);
         try rewrite (upd_task_run _ _ _ _ Ht) in Hrun;
         try rewrite (get_task_run _ _ _ Ht) in Hrun);
    try (run_of Hrun; apply sv_same).
  - rewrite (dequeue_run i _ _ Ha) in Hrun.
    destruct (a_task_queue a) as [|t l] eqn:Hq; run_of Hrun; [apply sv_same|].
    by eapply take_simulates.
  - run_of Hrun. rewrite (service_live d t tk) by done. exact (sv_run _ i _ _ Hr Hs).
  - run_of Hrun. rewrite service_accel_same by done. apply sv_same.
  - run_of Hrun. rewrite (service_live_same d t tk) by done. apply sv_same.
  - run_of Hrun. rewrite (service_live d t tk) by done. exact (sv_finish _ i _ _ Hr Hs).
  - run_of Hrun. rewrite (service_live d t tk) by done. exact (sv_succeed _ i _ _ Hr Hs).
  - run_of Hrun. rewrite service_accel_same by done. apply sv_same.
  - run_of Hrun. rewrite (service_live_same d t tk) by done. apply sv_same.
  - run_of Hrun. by apply leave_simulates.
Qed.
End Workers.

(** ** The simulation *)

Section Simulation.
Context (HZ : Z) (m2j : Z → Z).

Lemma remover_simulates s r' d' stop' :
  remover_step s r' d' stop' → service_of d' = service_of (y_dev s).
Proof. by destruct 1; rewrite ?service_accel_same. Qed.

Lemma service_of_running : service_of running_dev = service_init.
Proof.
  apply service_ext; [|by vm_compute..].
  cbn [v_tasks service_of]. unfold view.
  rewrite running_dev_tasks.
  by vm_compute.
Qed.

Lemma sys_step_simulates s s' :
  sys_inv s → settled s → sys_step HZ m2j s s' →
  service_step (service_of (y_dev s)) (service_of (y_dev s')).
Proof.
  intros Hinv Hset Hs. pose proof (si_pool _ (sys_inv_step HZ m2j s s' Hinv Hs)) as Hp'.
  destruct Hs as [n Hn|pc He|k pc copied pc' d' Hk Hrun|i pc stop pc' d' Hpc Hstop Hrun|r' d' stop' Hr];
    cbn [y_dev] in *.
  - apply sv_same.
  - apply sv_same.
  - by eapply user_simulates.
  - by eapply worker_simulates.
  - rewrite (remover_simulates s r' d' stop' Hr). apply sv_same.
Qed.

(** What a statement of a call learns of the service. *)
Definition observes (v : service) (pc pc' : upc) : Prop :=
  match pc, pc' with
  | U_alloc _, U_ret code => code = - ENOMEM ∧ v_issued v = Z.of_nat MAX_TASKS
  | U_alloc _, _ => v_issued v < Z.of_nat MAX_TASKS
  | U_query id _, U_q_state _ | U_cancel id _, U_c_state _ => is_Some (v_tasks v !! id)
  | U_q_state _, U_q_usec _ id st =>
      ∃ e, v_tasks v !! id = Some e ∧ st = task_state_val (e_state e)
  | _, _ => True
  end.

Lemma matching_entry s i tk id :
  sys_inv s → dev_tasks (y_dev s) !! i = Some tk → task_matches id tk = true →
  is_Some (v_tasks (service_of (y_dev s)) !! id).
Proof.
  intros Hinv Ht Hm. pose proof (task_matches_live _ _ Hm) as Hl.
  unfold task_matches in Hm. apply andb_prop in Hm as [<-%Z.eqb_eq _].
  rewrite (service_entry _ i tk); [by eexists|by apply si_pool|done|done].
Qed.

Lemma calls_observe s k pc copied pc' d' :
  sys_inv s → y_calls s !! k = Some pc → ustep HZ (y_now s) copied pc (y_dev s) = (Ok pc', d') →
  observes (service_of (y_dev s)) pc pc'.
Proof.
  intros Hinv Hk Hrun. pose proof (si_pool s Hinv) as Hp.
  destruct pc; cbn [observes]; try done; cbn [ustep] in Hrun; unfold mbind, KM_bind, mret, KM_ret in Hrun.
  - pose proof (si_accounted s Hinv) as Hacc. unfold accounted in Hacc.
    pose proof (accounted_next _ Hacc Hp). rewrite (task_alloc_ok _ Hp ltac:(lia)) in Hrun.
    destruct (dev_free_tasks (y_dev s)) as [|i l]; cbn in Hacc; injection Hrun as <- _; cbn; [|lia].
    split; [done|lia].
  - case_decide as Hi; [|by injection Hrun as <- _].
    destruct (scan_lookup s Hinv i Hi) as [tk Ht]. rewrite (get_task_run _ _ _ Ht) in Hrun.
    injection Hrun as <- _. destruct (task_matches id tk) eqn:Hm; [|done].
    by eapply matching_entry.
  - case_decide as Hi; [|by injection Hrun as <- _].
    destruct (scan_lookup s Hinv i Hi) as [tk Ht]. rewrite (get_task_run _ _ _ Ht) in Hrun.
    injection Hrun as <- _. destruct (task_matches id tk) eqn:Hm; [|done].
    by eapply matching_entry.
  - destruct (call_slot s k Hinv _ i Hk eq_refl) as (_ & tk & Ht & Hl).
    rewrite (get_task_run _ _ _ Ht) in Hrun. injection Hrun as <- _.
    exists (entry_of tk). split; [by eapply service_entry|done].
Qed.

(** C4: The concurrent driver implements the service.  The service read off any
    reachable state is one that the service itself can reach from its initial
    state, and every further step of the driver (a statement of any call or
    worker, the clock, the removal) is one atomic action of the service, or
    none that clients could see.  And what calls learn is true of the service at
    that moment: that no identifier is left when a submission is refused with
    -ENOMEM, that the task a query or cancellation finds exists, and the state a
    query reads. *)
Theorem driver_implements_service s :
  reachable HZ m2j s →
  rtc service_step service_init (service_of (y_dev s)) ∧
  (∀ s', sys_step HZ m2j s s' → service_step (service_of (y_dev s)) (service_of (y_dev s'))) ∧
  ∀ k pc copied pc' d', y_calls s !! k = Some pc →
    ustep HZ (y_now s) copied pc (y_dev s) = (Ok pc', d') →
    observes (service_of (y_dev s)) pc pc'.
Proof.
  intros Hr. split_and!.
  - induction Hr as [s Hs|s s' Hr IH Hs].
    + rewrite Hs. cbn [y_dev]. by rewrite service_of_running.
    + eapply rtc_r; [exact IH|]. apply sys_step_simulates; [by eapply sys_inv_reachable
        |by eapply settled_reachable|done].
  - intros s'. apply sys_step_simulates; [by eapply sys_inv_reachable|by eapply settled_reachable].
  - intros k pc copied pc' d'. apply calls_observe. by eapply sys_inv_reachable.
Qed.
End Simulation.

(** On the worked schedule: lane 0 runs task 1, and a query of it is told so. *)
Definition demo_service : service := service_of (y_dev demo_sys).

Lemma driver_implements_service_witness :
  v_lanes demo_service !! 0%nat = Some {| l_waiting := []; l_running := Some 1 |} ∧
  rtc service_step service_init demo_service.
Proof.
  split; [by vm_compute|].
  exact (proj1 (driver_implements_service demo_HZ demo_m2j demo_sys demo_reachable)).
Defined.
