(* ===== verification/IoctlSpec.v ===== *)
(** * Properties of the ioctl interface

    What each request promises to the process that makes it, errors included. *)

From S2P Require Import Prelude CLayout Device UserMem Uapi TaskManager Pool AccelManager Worker DevInit Chardev Schedule.

Section IoctlSpec.
Context {U : Type} `{UserMemoryLaws U}.
Context (HZ : Z).
Implicit Types (w : world U).

(** C25: Every request, known or not, from any user memory, on a device as
    probe left it: the handler makes no invalid access, answers 0 or one of
    its documented errors, and leaves the device well formed.  An error other
    than -EFAULT means nothing changed; only SUBMIT_TASK and CANCEL_TASK can
    change the device at all. *)
Theorem ioctl_total_and_safe cmd uarg w :
  dev_ok (w_dev w) →
  ∃ code w', cortex_forge_ioctl HZ cmd uarg w = (Ok code, w') ∧ code ∈ ioctl_codes ∧
    dev_ok (w_dev w') ∧ (code ≠ 0 → code ≠ - EFAULT → w' = w) ∧
    (cmd ≠ CORTEX_FORGE_IOCTL_SUBMIT_TASK → cmd ≠ CORTEX_FORGE_IOCTL_CANCEL_TASK →
     w_dev w' = w_dev w).
Proof.
  intros Hok. destruct (ioctl_outcome HZ cmd uarg w Hok) as (code & w' & Hr & Hc & _ & He & Hsame).
  exists code, w'. split_and!; [done..|by eapply dev_ok_effect|done|].
  intros H1 H2. destruct (ioctl_readonly HZ cmd uarg w Hok H1 H2) as (code' & w'' & Hr' & Hd).
  rewrite Hr in Hr'. by simplify_eq.
Qed.

(** The memory at [uarg] holds [v]. *)
Definition user_holds {A} `{Repr A} (w : world U) (uarg : Z) (v : A) : Prop :=
  copy_from_user (w_user w) uarg (sizeof lp64 (decl A)) = Some (encode v) ∧ representable v.

Lemma encode_inj {A} `{ReprLaws A} (v v' : A) :
  representable v → representable v' → encode v = encode v' → v = v'.
Proof. intros Hv Hv' He. apply decode_encode in Hv, Hv'. congruence. Qed.

(** SUBMIT_TASK of the descriptor in memory. *)
Lemma submit_run uarg desc w :
  dev_ok (w_dev w) → user_holds w uarg desc →
  cortex_forge_ioctl HZ CORTEX_FORGE_IOCTL_SUBMIT_TASK uarg w =
  match submit_error desc, dev_free_tasks (w_dev w) with
  | Some e, _ => (Ok e, w)
  | None, [] => (Ok (- ENOMEM), w)
  | None, i :: _ =>
      let '(r, u) := copy_to_user (w_user w) uarg
        (encode (set_d_task_id (dev_next_task_id (w_dev w) + 1) desc)) in
      (Ok (if r =? 0 then 0 else - EFAULT),
       set_w_user u (set_w_dev (submitted i (w_jiffies w) desc (w_dev w)) w))
  end.
Proof.
  intros Hok [Hu Hrep]. pose proof (ioctl_submit_run HZ uarg w Hok) as Hr.
  cbn [decl task_desc_repr] in Hu. rewrite Hu in Hr. destruct Hr as (desc' & He & Hrep' & Hr).
  by apply (encode_inj desc' desc Hrep' Hrep) in He as ->.
Qed.

(** The task a descriptor describes, submitted at jiffy [now], field by field. *)
Definition described_task (id now : Z) (desc : task_desc) : task :=
  {| t_id := id; t_state := TASK_STATE_PENDING;
     t_accel_type := d_accel_type desc; t_priority := d_priority desc;
     t_input_addr := d_input_addr desc; t_input_size := d_input_size desc;
     t_output_addr := d_output_addr desc; t_output_size := d_output_size desc;
     t_timeout_ms := d_timeout_ms desc; t_submit_jiffies := now; t_complete_jiffies := 0;
     t_error_code := 0; t_done := false |}.

(** What the caller gets back: the descriptor with the identifier filled in. *)
Definition answered_desc (id : Z) (desc : task_desc) : task_desc :=
  {| d_task_id := id; d_accel_type := d_accel_type desc; d_priority := d_priority desc;
     d_input_size := d_input_size desc; d_output_size := d_output_size desc;
     d_pad := d_pad desc; d_input_addr := d_input_addr desc;
     d_output_addr := d_output_addr desc; d_timeout_ms := d_timeout_ms desc;
     d_flags := d_flags desc; d_reserved := d_reserved desc |}.

(** The slot of an accepted submission: the only one that changes, taken from
    the head of the free list and put at the tail of one queue.  Nothing else
    of the device moves but the identifier counter. *)
Definition submitted_ok (i : nat) (desc : task_desc) (w w' : world U) : Prop :=
  let id := dev_next_task_id (w_dev w) + 1 in
  let a := Z.to_nat (d_accel_type desc) in
  find_task id (w_dev w) = None ∧
  find_task id (w_dev w') = Some (i, described_task id (w_jiffies w) desc) ∧
  t_state <$> dev_tasks (w_dev w) !! i = Some TASK_STATE_FREE ∧
  (∀ j, j ≠ i → dev_tasks (w_dev w') !! j = dev_tasks (w_dev w) !! j) ∧
  (∀ j acc, dev_accelerators (w_dev w) !! j = Some acc →
     dev_accelerators (w_dev w') !! j =
     Some (if decide (j = a) then set_a_task_queue (a_task_queue acc ++ [i]) acc else acc)) ∧
  dev_free_tasks (w_dev w) = i :: dev_free_tasks (w_dev w') ∧
  dev_next_task_id (w_dev w') = id ∧ dev_num_clks (w_dev w') = dev_num_clks (w_dev w) ∧
  dev_irq (w_dev w') = dev_irq (w_dev w).

Lemma find_task_intro id d i t :
  pool_inv d → dev_tasks d !! i = Some t → t_id t = id → t_state t ≠ TASK_STATE_FREE →
  find_task id d = Some (i, t).
Proof.
  intros Hp Ht Hid Hlive. destruct (find_task id d) as [[j u]|] eqn:Hf.
  - apply find_task_Some in Hf as (Hj & Hid' & Hlu).
    assert (Hpos : 0 < t_id t).
    { apply (pi_live d Hp i t Ht). intros Hfr. by apply Hlive, (pi_free d Hp i). }
    assert (j = i) as -> by (apply (pi_unique d Hp j i u t); congruence). by simplify_eq.
  - destruct Hlive. by eapply find_task_None.
Qed.

Lemma submitted_run_ok i l desc w u :
  dev_ok (w_dev w) → dev_free_tasks (w_dev w) = i :: l → 0 <= d_accel_type desc < 3 →
  submitted_ok i desc w
    (set_w_user u (set_w_dev (submitted i (w_jiffies w) desc (w_dev w)) w)).
Proof.
  intros Hok Hf Hty. unfold submitted_ok. cbn [w_dev set_w_user set_w_dev].
  pose proof (dok_pool _ Hok) as Hp.
  destruct (pool_inv_head i l _ Hp Hf) as (_ & Hdel & _ & t & Ht & Hfree).
  pose proof (dok_pool _ (dev_ok_submitted i l (w_jiffies w) desc _ Hok Hf)) as Hp'.
  split_and!.
  - destruct (find_task _ _) as [[j x]|] eqn:Hfd; [|done].
    apply find_task_Some in Hfd as (Hj & Hid & _). pose proof (pi_id _ Hp j x Hj). lia.
  - apply find_task_intro; [done| |done..].
    cbn. by rewrite !arr_upd_same, Ht.
  - by rewrite Ht; cbn; rewrite Hfree.
  - intros j Hj. cbn. by rewrite !arr_upd_other.
  - intros j acc Hacc. cbn. rewrite arr_upd_lookup, Hacc.
    destruct (decide (Z.to_nat (d_accel_type desc) = j)) as [<-|Hne].
    + by rewrite decide_True.
    + by rewrite decide_False by congruence.
  - cbn. by rewrite Hdel.
  - done.
  - done.
  - done.
Qed.

(** C26: SUBMIT_TASK of a valid descriptor with a free slot left, when the
    answer can be copied back: the call returns 0; the caller's descriptor is
    unchanged but for [task_id], now an identifier no live task had; exactly
    one slot was taken, a FREE one; it holds the PENDING task described (each
    field the descriptor's, submitted now, not completed); it is at the tail of
    the queue of the accelerator asked for; and nothing else of the device
    changed but the identifier counter. *)
Theorem submit_accepted uarg desc w i l u :
  dev_ok (w_dev w) → user_holds w uarg desc → submit_error desc = None →
  dev_free_tasks (w_dev w) = i :: l →
  copy_to_user (w_user w) uarg
    (encode (answered_desc (dev_next_task_id (w_dev w) + 1) desc)) = (0, u) →
  ∃ w', cortex_forge_ioctl HZ CORTEX_FORGE_IOCTL_SUBMIT_TASK uarg w = (Ok 0, w') ∧
    user_holds w' uarg (answered_desc (dev_next_task_id (w_dev w) + 1) desc) ∧
    submitted_ok i desc w w' ∧ dev_ok (w_dev w').
Proof.
  change answered_desc with set_d_task_id.
  intros Hok Hu Herr Hf Hc. eexists. split; [by rewrite (submit_run uarg desc) , Herr, Hf, Hc|].
  destruct Hu as [_ Hrep]. pose proof (submit_error_None desc Herr Hrep).
  split_and!; [|by eapply submitted_run_ok|by eapply dev_ok_submitted].
  assert (Hrep' : representable (answered_desc (dev_next_task_id (w_dev w) + 1) desc)).
  { pose proof (pi_next _ (dok_pool _ Hok)).
    pose proof (accounted_next _ (dok_accounted _ Hok) (dok_pool _ Hok)).
    destruct Hrep as [Hs Hv]. split; [done|]. destruct desc.
    destruct d_reserved as [[[r0 r1] r2] r3].
    apply Forall2_cons_inv_l in Hv as (v & vs & _ & Hv & [= <- <-]).
    apply Forall2_cons; split; [|exact Hv]. unfold fits. cbn. lia. }
  split; [|done]. cbn [w_user set_w_user].
  rewrite <- (encode_length _ Hrep'). by eapply copy_to_user_read.
Qed.

(** A submission whose answer cannot be copied back is reported as
    -EFAULT, yet it stays submitted: the slot is taken and the task is queued
    under an identifier the caller never learns. *)
Theorem submit_fault_keeps_task uarg desc w i l r u :
  dev_ok (w_dev w) → user_holds w uarg desc → submit_error desc = None →
  dev_free_tasks (w_dev w) = i :: l →
  copy_to_user (w_user w) uarg
    (encode (answered_desc (dev_next_task_id (w_dev w) + 1) desc)) = (r, u) → r ≠ 0 →
  ∃ w', cortex_forge_ioctl HZ CORTEX_FORGE_IOCTL_SUBMIT_TASK uarg w = (Ok (- EFAULT), w') ∧
    submitted_ok i desc w w'.
Proof.
  change answered_desc with set_d_task_id.
  intros Hok Hu Herr Hf Hc Hr. eexists. split.
  - rewrite (submit_run uarg desc), Herr, Hf, Hc by done. by rewrite (proj2 (Z.eqb_neq r 0)).
  - eapply submitted_run_ok; eauto. by eapply submit_error_None; [|apply Hu].
Qed.

(** A refused submission says why and changes nothing: -EINVAL for an
    unknown accelerator, then -EINVAL for any flag, then -E2BIG for an input
    or output above 64 MiB, then -ENOMEM when no slot is left. *)
Theorem submit_refused uarg desc w :
  dev_ok (w_dev w) → user_holds w uarg desc →
  submit_error desc ≠ None ∨ dev_free_tasks (w_dev w) = [] →
  cortex_forge_ioctl HZ CORTEX_FORGE_IOCTL_SUBMIT_TASK uarg w =
  (Ok (if CORTEX_FORGE_ACCEL_COUNT <=? d_accel_type desc then - EINVAL
       else if negb (d_flags desc =? 0) then - EINVAL
       else if (2 ^ 26 <? d_input_size desc) || (2 ^ 26 <? d_output_size desc) then - E2BIG
       else - ENOMEM), w).
Proof.
  intros Hok Hu Hno. rewrite (submit_run uarg desc) by done. unfold submit_error in *.
  change (64 * 1024 * 1024) with (2 ^ 26) in *. change CORTEX_FORGE_ACCEL_COUNT with 3.
  destruct (3 <=? d_accel_type desc); [done|].
  destruct (d_flags desc =? 0); [|done]. cbn [negb] in *.
  destruct (2 ^ 26 <? d_input_size desc); [done|].
  destruct (2 ^ 26 <? d_output_size desc); [done|]. cbn [orb].
  destruct Hno as [? | ->]; done.
Qed.

(** The code the header documents for a state. *)
Definition uapi_status (st : task_state) : option Z :=
  match st with
  | TASK_STATE_FREE => None
  | TASK_STATE_PENDING => Some CORTEX_FORGE_TASK_PENDING
  | TASK_STATE_RUNNING => Some CORTEX_FORGE_TASK_RUNNING
  | TASK_STATE_COMPLETE => Some CORTEX_FORGE_TASK_COMPLETE
  | TASK_STATE_FAILED => Some CORTEX_FORGE_TASK_FAILED
  | TASK_STATE_CANCELLED => Some CORTEX_FORGE_TASK_CANCELLED
  end.

Lemma status_representable d i t :
  dev_ok d → dev_tasks d !! i = Some t → 0 < HZ → is_s32 (t_error_code t) →
  representable (status_of HZ t).
Proof.
  intros Hok Ht HHZ He. pose proof (pi_id _ (dok_pool _ Hok) i t Ht).
  pose proof (accounted_next _ (dok_accounted _ Hok) (dok_pool _ Hok)).
  split; [done|]. unfold status_of. cbn.
  repeat (apply Forall2_cons; split); try apply Forall2_nil; unfold fits; cbn; try lia.
  - destruct (t_state t); cbn; lia.
  - unfold exec_usec. pose proof (u64_range (u64 (t_complete_jiffies t - t_submit_jiffies t) * 1000000)) as Hr.
    unfold is_u64 in Hr. split; [apply Z.div_pos; lia|].
    apply Z.div_lt_upper_bound; [lia|]. nia.
  - apply (u32_range (t_error_code t)).
Qed.

(** QUERY_TASK of a live identifier fills the caller's structure with the
    task's identifier, state, time and error code, and changes nothing
    else.  The status it reports is the driver's own enumerator, one more
    than the code the header documents for that state. *)
Theorem query_reports uarg st w i t u :
  dev_ok (w_dev w) → user_holds w uarg st → 0 < HZ →
  find_task (s_task_id st) (w_dev w) = Some (i, t) → is_s32 (t_error_code t) →
  copy_to_user (w_user w) uarg (encode (status_of HZ t)) = (0, u) →
  ∃ w' st', cortex_forge_ioctl HZ CORTEX_FORGE_IOCTL_QUERY_TASK uarg w = (Ok 0, w') ∧
    w_dev w' = w_dev w ∧ user_holds w' uarg st' ∧
    s_task_id st' = s_task_id st ∧ s_error_code st' = t_error_code t ∧
    s_exec_usec st' = exec_usec HZ t ∧ uapi_status (t_state t) = Some (s_status st' - 1).
Proof.
  intros Hok [Hu Hrep] HHZ Hf He Hc. pose proof (ioctl_query_run HZ uarg w Hok) as Hr.
  cbn [decl task_status_repr] in Hu. rewrite Hu in Hr. destruct Hr as (st1 & He1 & Hrep1 & Hr).
  apply (encode_inj st1 st Hrep1 Hrep) in He1 as ->. rewrite Hf, Hc in Hr.
  apply find_task_Some in Hf as (Ht & Hid & Hlive).
  eexists _, (status_of HZ t). split; [exact Hr|]. split_and!; try done.
  - pose proof (status_representable _ _ _ Hok Ht HHZ He) as Hs. split; [|done].
    rewrite <- (encode_length _ Hs). by eapply copy_to_user_read.
  - cbn. by destruct (t_state t).
Qed.
End IoctlSpec.

(** ** The execution time *)

(** Before its completion a task reports a meaningless [exec_usec]: a task
    submitted at jiffy [now] reports the time to the wrap-around of the clock
    ([2^64 - now * 10^6], in HZ units), not zero. *)
Theorem exec_usec_pending HZ id now desc :
  0 < HZ → 0 < now → now * 1000000 < 2 ^ 64 →
  exec_usec HZ (new_task id now desc) = (2 ^ 64 - now * 1000000) / HZ.
Proof.
  intros HHZ Hpos Hlt.
  change (exec_usec HZ (new_task id now desc)) with (u64 (u64 (0 - now) * 1000000) / HZ).
  f_equal. unfold u64.
  rewrite Z.mul_mod_idemp_l by lia.
  replace ((0 - now) * 1000000) with (2 ^ 64 - now * 1000000 + (-1) * 2 ^ 64) by lia.
  rewrite Z.mod_add by lia. apply Z.mod_small. lia.
Qed.

(** ** Cancellation *)

Section Cancel.
Context {U : Type} `{UserMemoryLaws U}.
Context (HZ : Z) (m2j : Z → Z) (tick : nat → wpc → Z) (stop : nat → bool).
Hypothesis tick_range : ∀ n pc, 0 <= tick n pc < 2 ^ 32.
Hypothesis tick_sleep : ∀ n t timeout start, 1 <= tick n (W_sleep t timeout start).
Hypothesis m2j_range : ∀ ms, 0 <= m2j ms < 2 ^ 62.

(** C33: Cancelling a queued task does not stop it.  CANCEL_TASK of the task at
    the head of a queue returns 0 and marks it CANCELLED with -ECANCELED; yet
    the worker, undisturbed, then runs it as any other, and it ends COMPLETE
    with error code 0: the cancellation has left no trace. *)
Theorem cancel_is_lost uarg id (w : world U) i n now a t q tk :
  dev_ok (w_dev w) → user_holds w uarg id →
  dev_accelerators (w_dev w) !! i = Some a → a_task_queue a = t :: q → t ∉ q →
  a_active_tasks a = [] → 0 <= a_load_percent a <= 90 →
  find_task id (w_dev w) = Some (t, tk) →
  ∃ w' m now' d' tk', cortex_forge_ioctl HZ CORTEX_FORGE_IOCTL_CANCEL_TASK uarg w = (Ok 0, w') ∧
    find_task id (w_dev w') = Some (t, cancelled tk) ∧
    wrun m2j tick stop i m
      {| ws_n := n; ws_now := now; ws_pc := W_lock; ws_dev := w_dev w' |} =
    Some {| ws_n := n + m; ws_now := now'; ws_pc := W_while; ws_dev := d' |} ∧
    find_task id d' = Some (t, tk') ∧
    t_state tk' = TASK_STATE_COMPLETE ∧ t_error_code tk' = 0.
Proof.
  intros Hok [Hu Hrep] Ha Hq Htq Hact Hload Hf.
  pose proof (ioctl_cancel_run HZ uarg w Hok) as Hr.
  change (sizeof lp64 (decl Z)) with 4%nat in Hu. rewrite Hu in Hr.
  destruct Hr as (id' & He & Hrep' & Hr). apply (encode_inj id' id Hrep' Hrep) in He as ->.
  rewrite Hf in Hr. pose proof (find_task_Some _ _ _ _ Hf) as (Ht & Hid & Hlive).
  set (d1 := upd_tasks (arr_upd t cancelled) (w_dev w)) in *.
  assert (Hok1 : dev_ok d1) by (by eapply dev_ok_cancelled).
  assert (Ht1 : dev_tasks d1 !! t = Some (cancelled tk)) by (cbn; by rewrite arr_upd_same, Ht).
  destruct (completes_head m2j tick stop tick_range tick_sleep m2j_range i n now d1 a t q
    (cancelled tk)) as (m & now' & c & _ & _ & _ & Hrun); [done..|].
  set (d2 := upd_tasks (arr_upd t (completed c)) d1) in *.
  assert (Hp2 : pool_inv d2).
  { apply pool_inv_upd_live; [done| |by apply dok_pool].
    intros Hfr. by apply (pi_free _ (dok_pool _ Hok1) t (cancelled tk)) in Hfr. }
  eexists _, m, now', _, (completed c (cancelled tk)).
  split; [exact Hr|]. split_and!; [|exact Hrun| |done|done].
  - apply find_task_intro; auto using dok_pool.
  - apply find_task_intro; [by apply pool_inv_upd_accelerators| |done..].
    change (arr_upd t (completed c) (dev_tasks d1) !! t = Some (completed c (cancelled tk))).
    by rewrite arr_upd_same, Ht1.
Qed.
End Cancel.

(** ** The binary interface *)

(** [struct cortex_forge_task_desc] is not the explicitly padded structure
    its header claims: the LP64 layout has 4 bytes of implicit padding after
    [output_size], so a caller compiled with 4-byte alignment of [__u64]
    has a smaller structure and a different request number, which the handler
    refuses with -ENOTTY. *)
Theorem task_desc_implicit_padding {U} `{UserMemory U} HZ uarg (w : world U) :
  sizeof i386 task_desc_decl = 76%nat ∧
  cortex_forge_ioctl HZ
    (IOWR CORTEX_FORGE_MAGIC 1 (Z.of_nat (sizeof i386 task_desc_decl))) uarg w =
  (Ok (- ENOTTY), w).
Proof. split; [by vm_compute|]. reflexivity. Qed.

(** ** The remaining requests *)

Section Remaining.
Context {U : Type} `{UserMemoryLaws U}.
Context (HZ : Z).
Implicit Types (w : world U).

(** The fields of an accelerator are in range of the structure that reports
    them. *)
(** GET_ACCEL_INFO of an accelerator that exists fills the caller's
    structure with that accelerator's state, keeping the type it asked for and
    the reserved words, and changes nothing else; of any other type it is
    -EINVAL. *)
Theorem accel_info_reports uarg info w u :
  dev_ok (w_dev w) → user_holds w uarg info →
  Forall accel_in_range (dev_accelerators (w_dev w)) →
  (∀ a, copy_to_user (w_user w) uarg (encode (accel_get_info a info)) = (0, u a)) →
  ∃ code w', cortex_forge_ioctl HZ CORTEX_FORGE_IOCTL_GET_ACCEL_INFO uarg w = (Ok code, w') ∧
    w_dev w' = w_dev w ∧
    match dev_accelerators (w_dev w) !! Z.to_nat (i_accel_type info) with
    | Some a => code = 0 ∧ user_holds w' uarg (accel_get_info a info)
    | None => code = - EINVAL ∧ CORTEX_FORGE_ACCEL_COUNT <= i_accel_type info ∧ w' = w
    end.
Proof.
  intros Hok [Hu Hrep] Hrange Hc. pose proof (ioctl_get_accel_info_run HZ uarg w Hok) as Hr.
  cbn [decl accel_info_repr] in Hu. rewrite Hu in Hr. destruct Hr as (info' & He & Hrep' & Hr).
  apply (encode_inj info' info Hrep' Hrep) in He as ->.
  destruct (dev_accelerators (w_dev w) !! Z.to_nat (i_accel_type info)) as [a|] eqn:Ha.
  - rewrite (Hc a) in Hr. eexists _, _. split; [exact Hr|]. split; [done|]. split; [done|].
    rewrite Forall_lookup in Hrange.
    pose proof (accel_get_info_representable a info (Hrange _ _ Ha) Hrep) as Hs.
    split; [|done]. rewrite <- (encode_length _ Hs). eapply copy_to_user_read. apply Hc.
  - eexists _, _. split; [exact Hr|]. split_and!; try done.
    apply lookup_ge_None in Ha. rewrite (dok_accels _ Hok) in Ha.
    unfold NUM_ACCELERATORS in Ha. change CORTEX_FORGE_ACCEL_COUNT with 3. lia.
Qed.

(** SET_POWER and SET_ACCEL only validate: a mode up to 2 and an
    accelerator up to 4 (GPU and AUTO included, which no other request knows)
    are accepted with 0, everything else is -EINVAL, and nothing is recorded:
    the device, the memory and every later answer are as if the call had not
    been made. *)
Theorem power_and_accel_only_validate uarg v w :
  user_holds w uarg v →
  cortex_forge_ioctl HZ CORTEX_FORGE_IOCTL_SET_POWER uarg w =
    (Ok (if decide (0 <= v <= 2) then 0 else - EINVAL), w) ∧
  cortex_forge_ioctl HZ CORTEX_FORGE_IOCTL_SET_ACCEL uarg w =
    (Ok (if decide (0 <= v <= CORTEX_FORGE_ACCEL_AUTO) then 0 else - EINVAL), w).
Proof.
  intros [Hu Hrep]. change (sizeof lp64 (decl Z)) with 4%nat in Hu.
  assert (Hv : 0 <= v).
  { destruct Hrep as [_ Hf]. cbn in Hf. apply Forall2_cons in Hf as [Hf _]. unfold fits in Hf. lia. }
  assert (Hgen : ∀ cmd bound, (cmd = CORTEX_FORGE_IOCTL_SET_POWER ∧ bound = 2) ∨
    (cmd = CORTEX_FORGE_IOCTL_SET_ACCEL ∧ bound = 4) →
    cortex_forge_ioctl HZ cmd uarg w = (Ok (if decide (0 <= v <= bound) then 0 else - EINVAL), w)).
  { intros cmd bound Hc. pose proof (ioctl_checked_u32_run HZ cmd bound uarg w Hc) as Hr.
    rewrite Hu in Hr. destruct Hr as (v' & He & Hrep' & ->).
    apply (encode_inj v' v Hrep' Hrep) in He as ->.
    destruct (Z.ltb_spec bound v); case_decide; lia || done. }
  split; apply Hgen; auto.
Qed.
End Remaining.

(** The name of an initialised accelerator is the NUL-terminated C string
    given, cut at 15 characters: the buffer is 16 bytes and its last is NUL. *)
Theorem accel_name_terminated type name a :
  a_name a = replicate 16 Ascii.zero →
  Forall (λ c, c ≠ Ascii.zero) (String.list_ascii_of_string name) →
  length (a_name (accel_init type name a)) = 16%nat ∧
  a_name (accel_init type name a) !! 15%nat = Some Ascii.zero ∧
  c_string (a_name (accel_init type name a)) = take 15 (String.list_ascii_of_string name).
Proof.
  intros Ha Hn. cbn [a_name accel_init]. rewrite Ha. split_and!.
  - by rewrite strncpy_length by (cbn; lia).
  - by apply strncpy_last.
  - by apply strncpy_truncated.
Qed.

(** ** The properties on a concrete memory *)

Definition demo_world {U} (dv : dev) (u : U) : world U :=
  {| w_dev := dv; w_user := u; w_jiffies := 1000 |}.
Definition demo_mem {A} `{Repr A} (v : A) : flatmem :=
  {| fm_bytes := fm_write ∅ 4096 (encode v) |}.
Definition demo_user : world flatmem := demo_world boot_dev (demo_mem demo_desc).

(** The descriptor with its identifier, and the device with the task queued. *)
Definition demo_answer : task_desc := set_d_task_id 1 demo_desc.
Definition demo_queued : dev := submitted 0 1000 demo_desc boot_dev.
Definition demo_status : task_status :=
  {| s_task_id := 1; s_status := 0; s_exec_usec := 0; s_error_code := 0; s_reserved := (0, 0, 0) |}.

Ltac compute_holds := split; [by vm_compute|split; [first [exact I|by vm_compute] |];
  apply (bool_decide_unpack (Forall2 fits _ _)); by vm_compute].

Lemma demo_user_holds : user_holds demo_user 4096 demo_desc.
Proof. compute_holds. Qed.

Lemma demo_queued_ok : dev_ok demo_queued.
Proof. apply (dev_ok_submitted 0 (seq 1 255)); [apply boot_dev_ok|by vm_compute]. Qed.

Lemma demo_world_ok {U} dv (u : U) : dev_ok dv → dev_ok (w_dev (demo_world dv u)).
Proof. done. Qed.

Lemma ioctl_total_and_safe_witness :
  ∃ code w', cortex_forge_ioctl 250 CORTEX_FORGE_IOCTL_SUBMIT_TASK 4096 demo_user = (Ok code, w') ∧
    code ∈ ioctl_codes.
Proof.
  destruct (ioctl_total_and_safe 250 CORTEX_FORGE_IOCTL_SUBMIT_TASK 4096 demo_user boot_dev_ok)
    as (code & w' & Hr & Hc & _). exact (ex_intro _ code (ex_intro _ w' (conj Hr Hc))).
Defined.

Lemma submit_accepted_witness :
  ∃ w', cortex_forge_ioctl 250 CORTEX_FORGE_IOCTL_SUBMIT_TASK 4096 demo_user = (Ok 0, w') ∧
    user_holds w' 4096 demo_answer.
Proof.
  destruct (submit_accepted 250 4096 demo_desc demo_user 0 (seq 1 255)
    (demo_mem demo_answer) boot_dev_ok demo_user_holds) as (w' & Hr & Hh & _);
    [vm_compute; reflexivity..|].
  exact (ex_intro _ w' (conj Hr Hh)).
Defined.

(** A descriptor in read-only memory. *)
Definition demo_ro : world romem := demo_world boot_dev {| ro_mem := demo_mem demo_desc |}.

Lemma demo_ro_holds : user_holds demo_ro 4096 demo_desc.
Proof. compute_holds. Qed.

Lemma submit_fault_keeps_task_witness :
  ∃ w', cortex_forge_ioctl 250 CORTEX_FORGE_IOCTL_SUBMIT_TASK 4096 demo_ro = (Ok (-14), w') ∧
    submitted_ok 0 demo_desc demo_ro w'.
Proof.
  exact (submit_fault_keeps_task 250 4096 demo_desc demo_ro 0 (seq 1 255) 80
    {| ro_mem := demo_mem demo_desc |} boot_dev_ok demo_ro_holds
    ltac:(vm_compute; reflexivity) ltac:(vm_compute; reflexivity) ltac:(vm_compute; reflexivity)
    ltac:(discriminate)).
Defined.

(** A descriptor with a flag set. *)
Definition demo_flagged : task_desc :=
  {| d_task_id := 0; d_accel_type := 0; d_priority := 5; d_input_size := 4096;
     d_output_size := 4096; d_pad := 0; d_input_addr := 0x1000; d_output_addr := 0x2000;
     d_timeout_ms := 8; d_flags := 1; d_reserved := (0, 0, 0, 0) |}.
Definition demo_flagged_user : world flatmem := demo_world boot_dev (demo_mem demo_flagged).

Lemma demo_flagged_holds : user_holds demo_flagged_user 4096 demo_flagged.
Proof. compute_holds. Qed.

Lemma submit_refused_witness :
  cortex_forge_ioctl 250 CORTEX_FORGE_IOCTL_SUBMIT_TASK 4096 demo_flagged_user =
  (Ok (-22), demo_flagged_user).
Proof.
  assert (He : submit_error demo_flagged ≠ None) by discriminate.
  pose proof (submit_refused 250 4096 demo_flagged demo_flagged_user
    (demo_world_ok _ _ boot_dev_ok) demo_flagged_holds (or_introl He)) as Hr.
  exact Hr.
Defined.

(** A query of the queued task. *)
Definition demo_querier : world flatmem := demo_world demo_queued (demo_mem demo_status).

Lemma demo_querier_holds : user_holds demo_querier 4096 demo_status.
Proof. compute_holds. Qed.

Definition demo_pending : task := new_task 1 1000 demo_desc.

Lemma demo_querier_finds : find_task 1 (w_dev demo_querier) = Some (0%nat, demo_pending).
Proof. vm_compute. reflexivity. Qed.

Lemma query_reports_witness :
  ∃ w' st', cortex_forge_ioctl 250 CORTEX_FORGE_IOCTL_QUERY_TASK 4096 demo_querier = (Ok 0, w') ∧
    user_holds w' 4096 st' ∧ Some CORTEX_FORGE_TASK_PENDING = Some (s_status st' - 1).
Proof.
  destruct (query_reports 250 4096 demo_status demo_querier 0 demo_pending
    (demo_mem (status_of 250 demo_pending)) (demo_world_ok _ _ demo_queued_ok) demo_querier_holds ltac:(lia)
    demo_querier_finds) as (w' & st' & Hr & _ & Hh & _ & _ & _ & Hs).
  - unfold is_s32. vm_compute. split; [discriminate|reflexivity].
  - vm_compute. reflexivity.
  - exact (ex_intro _ w' (ex_intro _ st' (conj Hr (conj Hh Hs)))).
Defined.

Lemma exec_usec_pending_witness : exec_usec 250 demo_pending = 73786976290838206.
Proof. apply (exec_usec_pending 250 1 1000 demo_desc); lia. Defined.

(** A cancellation of the queued task, then its worker. *)
Definition demo_canceller : world flatmem := demo_world demo_queued (demo_mem (A := Z) 1).

Lemma demo_canceller_holds : user_holds (A := Z) demo_canceller 4096 1.
Proof. compute_holds. Qed.

Lemma cancel_is_lost_witness :
  ∃ w' m now' d' tk',
    cortex_forge_ioctl 250 CORTEX_FORGE_IOCTL_CANCEL_TASK 4096 demo_canceller = (Ok 0, w') ∧
    wrun demo_m2j (λ _ _, 1) (λ _, false) 0 m
      {| ws_n := 0; ws_now := 1000; ws_pc := W_lock; ws_dev := w_dev w' |} =
    Some {| ws_n := 0 + m; ws_now := now'; ws_pc := W_while; ws_dev := d' |} ∧
    find_task 1 d' = Some (0%nat, tk') ∧ t_state tk' = TASK_STATE_COMPLETE.
Proof.
  destruct (cancel_is_lost 250 demo_m2j (λ _ _, 1) (λ _, false) ltac:(lia) ltac:(lia)
    demo_m2j_range 4096 1 demo_canceller 0 0 1000
    (enqueue 0 (accel_init ACCEL_TYPE_DLA0 "nvdla0" zero_accel)) 0 [] demo_pending
    (demo_world_ok _ _ demo_queued_ok) demo_canceller_holds)
    as (w' & m & now' & d' & tk' & Hc & _ & Hr & Hf & Hs & _);
    [vm_compute; reflexivity|reflexivity|by intros ?%not_elem_of_nil|reflexivity|cbn; lia
    |vm_compute; reflexivity|].
  exact (ex_intro _ w' (ex_intro _ m (ex_intro _ now' (ex_intro _ d' (ex_intro _ tk'
    (conj Hc (conj Hr (conj Hf Hs)))))))).
Defined.

(** A query of accelerator 1. *)
Definition demo_info : accel_info :=
  {| i_accel_type := 1; i_freq_hz := 0; i_temp_celsius := 0; i_load_percent := 0;
     i_fw_version := 0; i_hw_version := 0; i_mem_total := 0; i_mem_free := 0; i_state := 0;
     i_reserved := (7, 8, 9) |}.
Definition demo_info_user : world flatmem := demo_world boot_dev (demo_mem demo_info).

Lemma demo_info_holds : user_holds demo_info_user 4096 demo_info.
Proof. compute_holds. Qed.

Lemma demo_info_written a :
  copy_to_user (w_user demo_info_user) 4096 (encode (accel_get_info a demo_info)) =
  (0, {| fm_bytes := fm_write (fm_bytes (w_user demo_info_user)) 4096
                       (encode (accel_get_info a demo_info)) |}).
Proof.
  cbn [copy_to_user flatmem_usermem].
  assert (Hl : length (encode (accel_get_info a demo_info)) = 56%nat)
    by (apply enc_chunks_length; reflexivity).
  rewrite Hl. assert (Hr : fm_read (fm_bytes (w_user demo_info_user)) 4096 56 =
    Some (encode demo_info)) by (vm_compute; reflexivity).
  by rewrite Hr.
Qed.

Lemma boot_accels_in_range : Forall accel_in_range (dev_accelerators (w_dev demo_info_user)).
Proof.
  unfold demo_info_user, demo_world. cbn [w_dev]. rewrite boot_dev_accels. unfold boot_accels.
  repeat constructor; by vm_compute.
Qed.

Lemma accel_info_reports_witness :
  ∃ code w', cortex_forge_ioctl 250 CORTEX_FORGE_IOCTL_GET_ACCEL_INFO 4096 demo_info_user =
    (Ok code, w').
Proof.
  destruct (accel_info_reports 250 4096 demo_info demo_info_user _ (demo_world_ok _ _ boot_dev_ok)
    demo_info_holds boot_accels_in_range demo_info_written) as (code & w' & Hr & _).
  exact (ex_intro _ code (ex_intro _ w' Hr)).
Defined.

Lemma power_and_accel_only_validate_witness :
  cortex_forge_ioctl 250 CORTEX_FORGE_IOCTL_SET_POWER 4096 demo_canceller = (Ok 0, demo_canceller).
Proof. exact (proj1 (power_and_accel_only_validate 250 4096 1 demo_canceller demo_canceller_holds)). Defined.

Lemma accel_name_terminated_witness :
  c_string (a_name (accel_init 0 "nvdla0" zero_accel)) = String.list_ascii_of_string "nvdla0".
Proof.
  apply (accel_name_terminated 0 "nvdla0" zero_accel); [reflexivity|].
  cbn. repeat constructor; discriminate.
Defined.
