(* ===== verification/Wire.v ===== *)
(** * The binary interface

    The ioctl handler of src/chardev.c as a process sees it: request numbers,
    byte offsets and byte strings, with no C structure in between.
    [wire_ioctl] is written from these alone, the numbers and offsets of
    include/cortex_forge_uapi.h worked out for a 64-bit kernel; [ioctl_wire]
    says the handler is this function. *)

From S2P Require Import Prelude CLayout Device UserMem Uapi TaskManager Pool AccelManager DevInit Chardev Schedule IoctlSpec.
From coqutil Require Import Word.LittleEndianList.

(** The little-endian number in the [n] bytes from offset [off]. *)
Definition word (bs : list cbyte) (off n : nat) : Z :=
  LittleEndianList.le_combine (take n (drop off bs)).

(** The [n] bytes of a number. *)
Definition bytes (n : nat) (v : Z) : list cbyte := LittleEndianList.le_split n v.

(** ** Tasks, states and answers *)

(** The task described by the 80 bytes of a submission. *)
Definition wire_task (id now : Z) (bs : list cbyte) : task :=
  {| t_id := id; t_state := TASK_STATE_PENDING;
     t_accel_type := word bs 4 4; t_priority := word bs 8 4;
     t_input_addr := word bs 24 8; t_input_size := word bs 12 4;
     t_output_addr := word bs 32 8; t_output_size := word bs 16 4;
     t_timeout_ms := word bs 40 4; t_submit_jiffies := now; t_complete_jiffies := 0;
     t_error_code := 0; t_done := false |}.

Definition wire_state (st : task_state) : Z :=
  match st with
  | TASK_STATE_FREE => 0
  | TASK_STATE_PENDING => 1
  | TASK_STATE_RUNNING => 2
  | TASK_STATE_COMPLETE => 3
  | TASK_STATE_FAILED => 4
  | TASK_STATE_CANCELLED => 5
  end.

(** The 32 bytes a query answers. *)
Definition wire_status (HZ : Z) (t : task) : list cbyte :=
  bytes 4 (t_id t) ++ bytes 4 (wire_state (t_state t)) ++
  bytes 8 (((t_complete_jiffies t - t_submit_jiffies t) mod 2 ^ 64 * 1000000) mod 2 ^ 64 / HZ) ++
  bytes 4 (t_error_code t mod 2 ^ 32) ++ replicate 12 Byte.x00.

(** The 56 bytes of a report: the type and the reserved bytes are the caller's. *)
Definition wire_info (a : accel) (bs : list cbyte) : list cbyte :=
  take 4 bs ++ bytes 4 (a_freq_hz a) ++ bytes 4 (a_temp_celsius a mod 2 ^ 32) ++
  bytes 4 (a_load_percent a) ++ bytes 4 (a_fw_version a) ++ bytes 4 (a_hw_version a) ++
  bytes 8 (a_mem_total a) ++ bytes 8 (a_mem_free a) ++ bytes 4 (a_state a) ++ drop 44 bs.

Definition wire_version : list cbyte := [Byte.x00; Byte.x00; Byte.x01; Byte.x00].

Definition wire_profile : list cbyte :=
  bytes 8 1000 ++ bytes 8 500 ++ bytes 8 200 ++ bytes 8 300 ++ bytes 4 45 ++ bytes 4 15000 ++
  replicate 32 Byte.x00.

(** The first slot in use with this identifier. *)
Definition wire_find (id : Z) (d : dev) : option (nat * task) :=
  list_find (λ t, t_id t = id ∧ t_state t ≠ TASK_STATE_FREE) (dev_tasks d).

(** ** The requests *)

Section Wire.
Context {U : Type} `{UserMemory U}.
Context (HZ : Z).
Implicit Types (w : world U).

(** The [n] bytes at [uarg], or -EFAULT. *)
Definition wire_input (n : nat) (uarg : Z) (k : list cbyte → world U → res Z * world U) w
    : res Z * world U :=
  match copy_from_user (w_user w) uarg n with Some bs => k bs w | None => (Ok (-14), w) end.

(** Bytes for the caller, at [uarg]. *)
Definition wire_answer (uarg : Z) (out : list cbyte) w : res Z * world U :=
  let '(r, u) := copy_to_user (w_user w) uarg out in
  (Ok (if r =? 0 then 0 else -14), set_w_user u w).

(** The device with slot [i], the head of the free list, described by [bs] and queued. *)
Definition wire_queued (i : nat) (l : list nat) (now : Z) (bs : list cbyte) (d : dev) : dev :=
  let id := dev_next_task_id d + 1 in
  {| dev_accelerators :=
       alter (λ a, set_a_task_queue (a_task_queue a ++ [i]) a) (Z.to_nat (word bs 4 4))
         (dev_accelerators d);
     dev_tasks := <[i := wire_task id now bs]> (dev_tasks d);
     dev_free_tasks := l; dev_next_task_id := id;
     dev_num_clks := dev_num_clks d; dev_irq := dev_irq d |}.

Definition wire_submit (uarg : Z) (bs : list cbyte) w : res Z * world U :=
  if 3 <=? word bs 4 4 then (Ok (-22), w)
  else if negb (word bs 44 4 =? 0) then (Ok (-22), w)
  else if (2 ^ 26 <? word bs 12 4) || (2 ^ 26 <? word bs 16 4) then (Ok (-7), w)
  else match dev_free_tasks (w_dev w) with
       | [] => (Ok (-12), w)
       | i :: l =>
           wire_answer uarg (bytes 4 (dev_next_task_id (w_dev w) + 1) ++ drop 4 bs)
             (set_w_dev (wire_queued i l (w_jiffies w) bs (w_dev w)) w)
       end.

Definition wire_query (uarg : Z) (bs : list cbyte) w : res Z * world U :=
  match wire_find (word bs 0 4) (w_dev w) with
  | Some (_, t) => wire_answer uarg (wire_status HZ t) w
  | None => (Ok (-2), w)
  end.

Definition wire_cancel (bs : list cbyte) w : res Z * world U :=
  match wire_find (word bs 0 4) (w_dev w) with
  | Some (i, t) =>
      (Ok 0, set_w_dev (set_tasks (<[i := set_t_done true (set_t_error_code (-125)
         (set_t_state TASK_STATE_CANCELLED t))]> (dev_tasks (w_dev w))) (w_dev w)) w)
  | None => (Ok (-2), w)
  end.

Definition wire_get_info (uarg : Z) (bs : list cbyte) w : res Z * world U :=
  if 3 <=? word bs 0 4 then (Ok (-22), w)
  else match dev_accelerators (w_dev w) !! Z.to_nat (word bs 0 4) with
       | Some a => wire_answer uarg (wire_info a bs) w
       | None => (Oops, w)
       end.

Definition wire_limit (bound : Z) (bs : list cbyte) w : res Z * world U :=
  (Ok (if bound <? word bs 0 4 then -22 else 0), w).

Definition wire_ioctl (cmd uarg : Z) w : res Z * world U :=
  if cmd =? 0xC050CF01 then wire_input 80 uarg (wire_submit uarg) w
  else if cmd =? 0xC020CF02 then wire_input 32 uarg (wire_query uarg) w
  else if cmd =? 0x4004CF03 then wire_input 4 uarg wire_cancel w
  else if cmd =? 0x8038CF04 then wire_input 56 uarg (wire_get_info uarg) w
  else if cmd =? 0x4004CF05 then wire_input 4 uarg (wire_limit 2) w
  else if cmd =? 0x8004CF06 then wire_answer uarg wire_version w
  else if cmd =? 0x8048CF07 then wire_answer uarg wire_profile w
  else if cmd =? 0x4004CF08 then wire_input 4 uarg (wire_limit 4) w
  else (Ok (-25), w).
End Wire.

(** ** Fields at their offsets *)

Fixpoint fields (ws : list nat) (off : nat) (bs : list cbyte) : list Z :=
  match ws with [] => [] | n :: ws' => word bs off n :: fields ws' (off + n) bs end.

Lemma dec_chunks_fields ws off bs : dec_chunks ws (drop off bs) = fields ws off bs.
Proof.
  revert off. induction ws as [|n ws IH]; intros off; cbn [dec_chunks fields]; [done|].
  by rewrite drop_drop, IH.
Qed.

Lemma encoded_fields {A} `{Repr A} (v : A) bs :
  encode v = bs → representable v → fields (chunks lp64 (decl A)) 0 bs = to_values v.
Proof. intros <- [_ Hv]. unfold encode. by rewrite <- dec_chunks_fields, drop_0, dec_enc_chunks. Qed.

Lemma desc_fields (desc : task_desc) bs :
  encode desc = bs → representable desc →
  d_accel_type desc = word bs 4 4 ∧ d_priority desc = word bs 8 4 ∧
  d_input_size desc = word bs 12 4 ∧ d_output_size desc = word bs 16 4 ∧
  d_input_addr desc = word bs 24 8 ∧ d_output_addr desc = word bs 32 8 ∧
  d_timeout_ms desc = word bs 40 4 ∧ d_flags desc = word bs 44 4.
Proof.
  intros He Hr. apply (encoded_fields desc bs He) in Hr. destruct desc, d_reserved as [[[r0 r1] r2] r3].
  change (chunks lp64 (decl task_desc)) with [4; 4; 4; 4; 4; 4; 8; 8; 4; 4; 8; 8; 8; 8]%nat in Hr.
  cbn in Hr. by injection Hr as <- <- <- <- <- <- <- <- <- <- <- <- <- <-.
Qed.

Lemma status_id_field (st : task_status) bs :
  encode st = bs → representable st → s_task_id st = word bs 0 4.
Proof.
  intros He Hr. apply (encoded_fields st bs He) in Hr. destruct st, s_reserved as [[r0 r1] r2].
  change (chunks lp64 (decl task_status)) with [4; 4; 8; 4; 4; 4; 4]%nat in Hr.
  cbn in Hr. by injection Hr as <-.
Qed.

Lemma info_type_field (info : accel_info) bs :
  encode info = bs → representable info → i_accel_type info = word bs 0 4.
Proof.
  intros He Hr. apply (encoded_fields info bs He) in Hr. destruct info, i_reserved as [[r0 r1] r2].
  change (chunks lp64 (decl accel_info)) with [4; 4; 4; 4; 4; 4; 8; 8; 4; 4; 4; 4]%nat in Hr.
  cbn in Hr. by injection Hr as <-.
Qed.

Lemma u32_field (v : Z) bs : encode v = bs → representable v → v = word bs 0 4.
Proof.
  intros He Hr. apply (encoded_fields v bs He) in Hr.
  change (chunks lp64 (decl Z)) with [4]%nat in Hr. cbn in Hr. by injection Hr as <-.
Qed.

(** ** Answers byte for byte *)

Lemma drop_bytes n v l : drop n (LittleEndianList.le_split n v ++ l) = l.
Proof. by rewrite drop_app_length' by (by rewrite LittleEndianList.length_le_split). Qed.

Lemma drop_bytes_add n m v l : drop (n + m) (LittleEndianList.le_split n v ++ l) = drop m l.
Proof. by rewrite <- drop_drop, drop_bytes. Qed.

Lemma take_bytes n v l : take n (LittleEndianList.le_split n v ++ l) = LittleEndianList.le_split n v.
Proof. by rewrite take_app_length' by (by rewrite LittleEndianList.length_le_split). Qed.

Lemma encode_answer id (desc : task_desc) bs :
  encode desc = bs → encode (set_d_task_id id desc) = bytes 4 id ++ drop 4 bs.
Proof.
  intros <-. destruct desc, d_reserved as [[[r0 r1] r2] r3]. unfold encode.
  change (chunks lp64 (decl task_desc)) with [4; 4; 4; 4; 4; 4; 8; 8; 4; 4; 8; 8; 8; 8]%nat.
  cbn -[LittleEndianList.le_split drop]. by rewrite drop_bytes.
Qed.

Lemma encode_status HZ t : encode (status_of HZ t) = wire_status HZ t.
Proof. unfold encode, wire_status. destruct t, t_state; reflexivity. Qed.

Lemma encode_info a (info : accel_info) bs :
  encode info = bs → encode (accel_get_info a info) = wire_info a bs.
Proof.
  intros <-. destruct info, i_reserved as [[r0 r1] r2]. unfold encode, wire_info, bytes.
  change (chunks lp64 (decl accel_info)) with [4; 4; 4; 4; 4; 4; 8; 8; 4; 4; 4; 4]%nat.
  cbn -[LittleEndianList.le_split drop take].
  change 44%nat with (4 + (4 + (4 + (4 + (4 + (4 + (8 + (8 + (4 + 0)))))))))%nat.
  by rewrite take_bytes, !drop_bytes_add, drop_0.
Qed.

(** ** Devices *)

Lemma wire_find_task id d : find_task id d = wire_find id d.
Proof.
  unfold find_task, wire_find. apply list_find_ext. intros t. unfold task_matches.
  rewrite andb_true_iff, bool_decide_eq_true, Z.eqb_eq. done.
Qed.

Lemma wire_queued_submitted i l now desc bs d :
  dev_ok d → dev_free_tasks d = i :: l → encode desc = bs → representable desc →
  submitted i now desc d = wire_queued i l now bs d.
Proof.
  intros Hok Hf He Hr.
  destruct (pool_inv_head i l d (dok_pool d Hok) Hf) as (Hi & Hdel & _ & t & Ht & _).
  destruct (desc_fields desc bs He Hr) as (E1 & E2 & E3 & E4 & E5 & E6 & E7 & _).
  unfold submitted, wire_queued, alloc_dev, upd_accelerators, upd_tasks, upd_free_tasks,
    set_accelerators, set_next_task_id, set_tasks, set_free_tasks. cbn.
  rewrite Hdel, E1. f_equal. rewrite arr_upd_compose.
  apply list_eq. intros j. rewrite arr_upd_lookup. case_decide as Hj.
  - subst j. rewrite list_lookup_insert_eq by done. rewrite Ht. cbn. f_equal.
    unfold new_task, wire_task, fill_task. cbn. by rewrite E1, E2, E3, E4, E5, E6, E7.
  - by rewrite list_lookup_insert_ne.
Qed.

Lemma wire_cancelled i t d :
  dev_tasks d !! i = Some t →
  upd_tasks (arr_upd i cancelled) d =
  set_tasks (<[i := set_t_done true (set_t_error_code (-125)
    (set_t_state TASK_STATE_CANCELLED t))]> (dev_tasks d)) d.
Proof.
  intros Ht. unfold upd_tasks. f_equal. apply list_eq. intros j.
  rewrite arr_upd_lookup. case_decide as Hj.
  - subst j. rewrite list_lookup_insert_eq by (by eapply lookup_lt_Some). by rewrite Ht.
  - by rewrite list_lookup_insert_ne.
Qed.

Section WireProps.
Context {U : Type} `{UserMemoryLaws U}.
Context (HZ : Z).
Implicit Types (w : world U).

Lemma answer_run (w w' : world U) uarg out out' :
  w_user w' = w_user w → out = out' →
  (let '(r, u) := copy_to_user (w_user w) uarg out in
   (Ok (if r =? 0 then 0 else - EFAULT), set_w_user u w')) = wire_answer uarg out' w'.
Proof. intros <- ->. reflexivity. Qed.

Lemma submit_wire uarg w :
  dev_ok (w_dev w) →
  cortex_forge_ioctl HZ CORTEX_FORGE_IOCTL_SUBMIT_TASK uarg w =
  wire_input 80 uarg (wire_submit uarg) w.
Proof.
  intros Hok. pose proof (ioctl_submit_run HZ uarg w Hok) as Hrun.
  change (sizeof lp64 task_desc_decl) with 80%nat in Hrun. unfold wire_input.
  destruct (copy_from_user (w_user w) uarg 80) as [bs|]; [|exact Hrun].
  destruct Hrun as (desc & He & Hr & ->). unfold wire_submit, submit_error.
  pose proof (desc_fields desc bs He Hr) as (E1 & _ & E3 & E4 & _ & _ & _ & E8).
  change (64 * 1024 * 1024) with (2 ^ 26). rewrite E1, E3, E4, E8.
  destruct (3 <=? word bs 4 4); [done|]. destruct (word bs 44 4 =? 0); [cbn [negb]|done].
  destruct (2 ^ 26 <? word bs 12 4); [done|]. destruct (2 ^ 26 <? word bs 16 4); [done|]. cbn [orb].
  destruct (dev_free_tasks (w_dev w)) as [|i l] eqn:Hf; [done|].
  rewrite (wire_queued_submitted i l _ desc bs) by done.
  apply answer_run; [done|]. by apply encode_answer.
Qed.

Lemma query_wire uarg w :
  dev_ok (w_dev w) →
  cortex_forge_ioctl HZ CORTEX_FORGE_IOCTL_QUERY_TASK uarg w =
  wire_input 32 uarg (wire_query HZ uarg) w.
Proof.
  intros Hok. pose proof (ioctl_query_run HZ uarg w Hok) as Hrun.
  change (sizeof lp64 task_status_decl) with 32%nat in Hrun. unfold wire_input.
  destruct (copy_from_user (w_user w) uarg 32) as [bs|]; [|exact Hrun].
  destruct Hrun as (st & He & Hr & ->). unfold wire_query.
  rewrite (status_id_field st bs He Hr), wire_find_task.
  destruct (wire_find _ _) as [[i t]|]; [|done]. apply answer_run; [done|apply encode_status].
Qed.

Lemma cancel_wire uarg w :
  dev_ok (w_dev w) →
  cortex_forge_ioctl HZ CORTEX_FORGE_IOCTL_CANCEL_TASK uarg w = wire_input 4 uarg wire_cancel w.
Proof.
  intros Hok. pose proof (ioctl_cancel_run HZ uarg w Hok) as Hrun. unfold wire_input.
  destruct (copy_from_user (w_user w) uarg 4) as [bs|]; [|exact Hrun].
  destruct Hrun as (id & He & Hr & ->). unfold wire_cancel.
  rewrite (u32_field id bs He Hr), <- wire_find_task.
  destruct (find_task _ _) as [[i t]|] eqn:Hf; [|done].
  apply find_task_Some in Hf as (Ht & _). by rewrite (wire_cancelled i t).
Qed.

Lemma get_info_wire uarg w :
  dev_ok (w_dev w) →
  cortex_forge_ioctl HZ CORTEX_FORGE_IOCTL_GET_ACCEL_INFO uarg w =
  wire_input 56 uarg (wire_get_info uarg) w.
Proof.
  intros Hok. pose proof (ioctl_get_accel_info_run HZ uarg w Hok) as Hrun.
  change (sizeof lp64 accel_info_decl) with 56%nat in Hrun. unfold wire_input.
  destruct (copy_from_user (w_user w) uarg 56) as [bs|]; [|exact Hrun].
  destruct Hrun as (info & He & Hr & ->). unfold wire_get_info.
  pose proof (accel_info_type_range info Hr) as Hty. unfold is_u32 in Hty.
  rewrite (info_type_field info bs He Hr) in *.
  destruct (dev_accelerators (w_dev w) !! Z.to_nat (word bs 0 4)) as [a|] eqn:Ha.
  - apply lookup_lt_Some in Ha. rewrite (dok_accels _ Hok) in Ha. unfold NUM_ACCELERATORS in Ha.
    rewrite (proj2 (Z.leb_gt _ _)) by lia. apply answer_run; [done|]. by apply encode_info.
  - apply lookup_ge_None in Ha. rewrite (dok_accels _ Hok) in Ha. unfold NUM_ACCELERATORS in Ha.
    by rewrite (proj2 (Z.leb_le _ _)) by lia.
Qed.

Lemma limit_wire cmd bound uarg w :
  (cmd = CORTEX_FORGE_IOCTL_SET_POWER ∧ bound = 2) ∨
  (cmd = CORTEX_FORGE_IOCTL_SET_ACCEL ∧ bound = 4) →
  cortex_forge_ioctl HZ cmd uarg w = wire_input 4 uarg (wire_limit bound) w.
Proof.
  intros Hc. pose proof (ioctl_checked_u32_run HZ cmd bound uarg w Hc) as Hrun. unfold wire_input.
  destruct (copy_from_user (w_user w) uarg 4) as [bs|]; [|exact Hrun].
  destruct Hrun as (v & He & Hr & ->). unfold wire_limit. by rewrite (u32_field v bs He Hr).
Qed.

(** C35: The binary interface.  On a well formed device, every request whatever its
    number, argument and user memory is what the byte-level specification
    says: the eight request numbers (each with the size of its argument), the
    offset and width of every field read from the caller, the checks on them in
    order, the slot written, each byte of what is copied back, and the answer;
    -ENOTTY for every other number. *)
Theorem ioctl_wire cmd uarg w :
  dev_ok (w_dev w) → cortex_forge_ioctl HZ cmd uarg w = wire_ioctl HZ cmd uarg w.
Proof.
  intros Hok. unfold wire_ioctl.
  destruct (Z.eqb_spec cmd 0xC050CF01) as [->|H1]; [by apply submit_wire|].
  destruct (Z.eqb_spec cmd 0xC020CF02) as [->|H2]; [by apply query_wire|].
  destruct (Z.eqb_spec cmd 0x4004CF03) as [->|H3]; [by apply cancel_wire|].
  destruct (Z.eqb_spec cmd 0x8038CF04) as [->|H4]; [by apply get_info_wire|].
  destruct (Z.eqb_spec cmd 0x4004CF05) as [->|H5]; [apply limit_wire; by left|].
  destruct (Z.eqb_spec cmd 0x8004CF06) as [->|H6]; [apply (ioctl_constant_run HZ)|].
  destruct (Z.eqb_spec cmd 0x8048CF07) as [->|H7]; [apply (ioctl_constant_run HZ)|].
  destruct (Z.eqb_spec cmd 0x4004CF08) as [->|H8]; [apply limit_wire; by right|].
  apply ioctl_unknown_run. change (cmd ∉ [0xC050CF01; 0xC020CF02; 0x4004CF03; 0x8038CF04;
    0x4004CF05; 0x8004CF06; 0x8048CF07; 0x4004CF08]). set_solver.
Qed.
End WireProps.

(** The example descriptor, through its bytes: the call returns 0, the first
    four bytes are now the identifier 1 and the 76 others are unchanged. *)
Lemma ioctl_wire_witness :
  ∃ w', cortex_forge_ioctl 250 0xC050CF01 4096 demo_user = (Ok 0, w') ∧
    copy_from_user (w_user w') 4096 80 =
    Some (bytes 4 1 ++ drop 4 (encode demo_desc)) ∧
    t_priority <$> dev_tasks (w_dev w') !! 0%nat = Some 5.
Proof.
  destruct (wire_ioctl 250 0xC050CF01 4096 demo_user) as [r w'] eqn:E.
  pose (view := λ x : res Z * world flatmem, (x.1, copy_from_user (w_user x.2) 4096 80,
    t_priority <$> dev_tasks (w_dev x.2) !! 0%nat)).
  assert (Hc : view (r, w') = (Ok 0, Some (bytes 4 1 ++ drop 4 (encode demo_desc)), Some 5))
    by (rewrite <- E; by vm_compute).
  unfold view in Hc. cbn [fst snd] in Hc. injection Hc as -> Hm Hp. exists w'.
  split; [|split; [exact Hm|exact Hp]].
  etransitivity; [exact (ioctl_wire 250 0xC050CF01 4096 demo_user boot_dev_ok)|exact E].
Defined.
