(* ===== verification/Calls.v ===== *)
(** * Every system call returns

    cortex_forge_ioctl (src/chardev.c) with task_query and task_cancel
    (src/task_manager.c), as the machine of System.v: each statement brings a
    call closer to its return, whatever the rest of the system does between
    them.  The library's threads (LibThreads.v) rely on this bound. *)

From S2P Require Import Prelude CLayout Device UserMem Uapi TaskManager Pool AccelManager Worker DevInit Chardev System SystemInv Schedule Teardown.

(** The statements a call still needs at most. *)
Definition call_rank (pc : upc) : nat :=
  match pc with
  | U_check _ => 7
  | U_alloc _ => 6
  | U_fill _ _ => 5
  | U_pending _ _ => 4
  | U_stamp _ _ => 3
  | U_enqueue _ _ => 2
  | U_free _ | U_copy _ => 1
  | U_cancel _ i => (MAX_TASKS - i) + 4
  | U_c_state _ => 3
  | U_c_error _ => 2
  | U_c_done _ => 1
  | U_query _ i => (MAX_TASKS - i) + 5
  | U_q_state _ => 4
  | U_q_usec _ _ _ => 3
  | U_q_error _ _ _ _ => 2
  | U_q_copy _ => 1
  | U_info _ => 2
  | U_i_copy _ | U_limit _ _ | U_const => 1
  | U_ret _ => 0
  end.

(** No call needs more: a query that scans the whole pool and reports. *)
Definition call_bound : nat := MAX_TASKS + 5.

Lemma call_rank_bound pc : (call_rank pc ≤ call_bound)%nat.
Proof. unfold call_bound, MAX_TASKS. destruct pc; cbn [call_rank]; unfold MAX_TASKS; lia. Qed.

(** What a call returns with. *)
Definition call_result (pc : upc) : option Z :=
  match pc with U_ret code => Some code | _ => None end.

Lemma call_result_rank pc : call_rank pc = 0%nat ↔ is_Some (call_result pc).
Proof. destruct pc; cbn; split; try done; try lia; by intros [? ?]. Qed.

Lemma ustep_ok HZ now copied pc d pc' d' :
  ustep HZ now copied pc d = (Ok pc', d') → (call_rank pc' ≤ call_rank pc - 1)%nat.
Proof.
  destruct pc; cbn [ustep]; unfold mbind, KM_bind, mret, KM_ret;
    repeat match goal with
    | |- context [match ?m with Ok _ => _ | Ret _ => _ | Oops => _ end] => destruct m as [?| |]
    | |- context [let (_, _) := ?m in _] => destruct m as [[?| |] ?]
    | |- context [if ?b then _ else _] => destruct b
    | |- context [match ?o with Some _ => _ | None => _ end] => destruct o
    end;
    try done; intros [= <- _]; cbn [call_rank]; try lia.
Qed.

(** ** Interference *)

Section Returns.
Context (HZ : Z) (m2j : Z → Z).

Definition is_user (c : nat) (e : event) : bool :=
  match e with E_user k _ => bool_decide (k = c) | _ => false end.

(** Other events leave a call where it is. *)
Lemma call_stays c e s pc :
  is_user c e = false → y_calls s !! c = Some pc → y_calls (sys_try HZ m2j e s) !! c = Some pc.
Proof.
  intros Hne Hc. unfold sys_try. destruct e as [n|pc0|k copied|j|]; cbn [sys_exec is_user] in *.
  - done.
  - case_decide; [|done]. cbn. by apply lookup_app_l_Some.
  - apply bool_decide_eq_false in Hne.
    destruct (y_calls s !! k) as [pck|]; [|done]. cbn [mbind option_bind].
    destruct (ustep _ _ _ _ _) as [[]]; try done. cbn. by rewrite list_lookup_insert_ne.
  - destruct (y_workers s !! j) as [pcj|]; [|done]. cbn [mbind option_bind].
    destruct (y_stop s !! j); [|done]. cbn [mbind option_bind].
    by destruct (worker_step _ _ _ _ _ _) as [[]].
  - by destruct (remover_exec s) as [[[]]|].
Qed.

(** Its own statement always executes, and brings it closer to its return. *)
Lemma call_moves c copied s pc :
  sys_inv s → y_calls s !! c = Some pc →
  ∃ pc', y_calls (sys_try HZ m2j (E_user c copied) s) !! c = Some pc' ∧
    (call_rank pc' ≤ call_rank pc - 1)%nat.
Proof.
  intros Hinv Hc. destruct (user_step_safe HZ s c copied Hinv pc Hc) as (pc' & d' & Hu & _).
  exists pc'. split; [|by eapply ustep_ok].
  unfold sys_try. cbn [sys_exec]. rewrite Hc. cbn [mbind option_bind]. rewrite Hu. cbn.
  apply list_lookup_insert_eq. by eapply lookup_lt_Some.
Qed.

Lemma call_play c es s pc :
  reachable HZ m2j s → y_calls s !! c = Some pc →
  ∃ pc', y_calls (sys_play HZ m2j es s) !! c = Some pc' ∧
    (call_rank pc' ≤ call_rank pc - length (filter (is_user c) es))%nat.
Proof.
  revert s pc. induction es as [|e es IH]; intros s pc Hr Hc; cbn [sys_play].
  { exists pc. cbn. split; [done|lia]. }
  pose proof (sys_try_reachable HZ m2j e s Hr) as Hr1. rewrite filter_cons.
  destruct (is_user c e) eqn:He.
  - destruct e as [| |k copied| |]; try done. apply bool_decide_eq_true in He as ->.
    destruct (call_moves c copied s pc) as (pc1 & Hc1 & Hle1);
      [by eapply sys_inv_reachable|done|].
    destruct (IH _ pc1 Hr1 Hc1) as (pc' & Hc' & Hle). exists pc'. split; [done|].
    rewrite decide_True by done. cbn. lia.
  - destruct (IH _ pc Hr1 (call_stays c e s pc He Hc)) as (pc' & Hc' & Hle). exists pc'.
    split; [done|]. rewrite decide_False by (by intros []). done.
Qed.


(** ** The codes calls return *)

Definition codes_ok (pc : upc) : Prop :=
  ∀ code, call_result pc = Some code → code ∈ ioctl_codes.

Lemma ioctl_code_in code :
  code ∈ [0; - EFAULT; - EINVAL; - E2BIG; - ENOMEM; - ENOENT; - ENOTTY] → code ∈ ioctl_codes.
Proof. unfold ioctl_codes. set_solver. Qed.

Lemma ustep_documented now copied pc d pc' d' :
  codes_ok pc → ustep HZ now copied pc d = (Ok pc', d') → codes_ok pc'.
Proof.
  unfold codes_ok. destruct pc as [desc| | | | | | | | | | | | | | | | | | | | | code]; cbn [ustep];
    unfold mbind, KM_bind, mret, KM_ret; intros Hpc;
    repeat match goal with
    | |- context [match ?m with Ok _ => _ | Ret _ => _ | Oops => _ end] => destruct m as [?| |]
    | |- context [let (_, _) := ?m in _] => destruct m as [[?| |] ?]
    | |- context [match submit_error ?d with Some _ => _ | None => _ end] =>
        destruct (submit_error d) eqn:?
    | |- context [if ?b then _ else _] => destruct b
    | |- context [match ?o with Some _ => _ | None => _ end] => destruct o
    end;
    try done; intros [= <- _] x; cbn [call_result]; try done; intros [= <-];
    try (apply ioctl_code_in; set_solver).
  unfold submit_error in *. repeat case_match; simplify_eq; apply ioctl_code_in; set_solver.
Qed.

Lemma entry_codes pc : is_entry pc → codes_ok pc.
Proof.
  intros Hpc code Hc. destruct pc; cbn in Hc; try done. injection Hc as ->. cbn in Hpc.
  apply ioctl_code_in. destruct Hpc as [-> | ->]; set_solver.
Qed.

Lemma reachable_codes s c pc :
  reachable HZ m2j s → y_calls s !! c = Some pc → codes_ok pc.
Proof.
  intros Hr. revert c pc. induction Hr as [s ->|s s' Hr IH Hs]; intros c pc Hc; [done|].
  destruct Hs as [n Hn|pc0 Hpc0|k pc0 copied pc' d' Hk Hu|i pc0 stop pc' d' Hi Hst Hw|r' d' stop' Hrem];
    cbn in Hc; eauto.
  - apply lookup_app_Some in Hc as [Hc|[_ Hc]]; [eauto|].
    apply list_lookup_singleton_Some in Hc as [_ <-]. by apply entry_codes.
  - apply list_lookup_insert_Some in Hc as [(<- & <- & _)|[_ Hc]]; [|eauto].
    eapply ustep_documented; [|exact Hu]. eauto.
Qed.

(** C13: Every system call returns, with a code of the handler's documented set.
    Whatever request enters, and however workers, other calls, cancellations,
    the clock and the removal interleave, after at most 261 of its own
    statements (those of a query that scans the whole pool) the call has
    returned: no loop in it depends on what the others do. *)
Theorem call_returns es s pc :
  reachable HZ m2j s → is_entry pc →
  (call_bound ≤ length (filter (is_user (length (y_calls s))) es))%nat →
  ∃ code, y_calls (sys_play HZ m2j (E_call pc :: es) s) !! length (y_calls s) = Some (U_ret code) ∧
          code ∈ ioctl_codes.
Proof.
  intros Hr Hpc Hlen. cbn [sys_play].
  assert (Hc : y_calls (sys_try HZ m2j (E_call pc) s) !! length (y_calls s) = Some pc).
  { unfold sys_try. cbn [sys_exec]. rewrite decide_True by done. cbn.
    by rewrite list_lookup_middle. }
  pose proof (sys_try_reachable HZ m2j (E_call pc) s Hr) as Hr1.
  destruct (call_play _ es _ pc Hr1 Hc) as (pc' & Hc' & Hle).
  pose proof (call_rank_bound pc).
  destruct (proj1 (call_result_rank pc')) as [code Hcode]; [lia|].
  destruct pc'; try done. injection Hcode as ->. exists code. split; [done|].
  destruct (sys_play_le HZ m2j es _ Hr1) as [Hr' _].
  by apply (reachable_codes _ _ _ Hr' Hc' code).
Qed.
End Returns.

(** A cancellation of an unknown task, the worker and the clock in between. *)
Lemma call_returns_witness :
  ∃ code, y_calls (sys_play demo_HZ demo_m2j (E_call (U_cancel 7 0) ::
      concat (replicate call_bound [E_worker 0; E_user 2 true; E_tick 1])) demo_sys) !! 2%nat =
    Some (U_ret code) ∧ code ∈ ioctl_codes.
Proof.
  apply (call_returns demo_HZ demo_m2j
    (concat (replicate call_bound [E_worker 0; E_user 2 true; E_tick 1])) demo_sys (U_cancel 7 0));
    [exact demo_reachable|done|by vm_compute].
Defined.
