(* ===== verification/WaitQueue.v ===== *)
(** * The workers' wait queues

    System.v lets a waiting worker go on at any time.  Here its sleep is
    modelled: wait_event_interruptible_timeout in accel_worker_thread
    (src/accel_manager.c) blocks the thread until a wake_up finds its condition
    true or 100 ms have passed; task_submit (src/task_manager.c) calls wake_up
    after list_add_tail, accel_stop_workers after clearing [running], and
    kthread_stop wakes the thread.  A wake_up is a statement of its own, so
    that everything can happen between it and the statement before.

    What the kernel promises of the primitives is their documentation: the
    condition is evaluated before sleeping and after every wake_up, and a
    wake_up between the evaluation and the sleep is not lost. *)

From S2P Require Import Prelude CLayout Device UserMem Uapi TaskManager Pool AccelManager Worker DevInit Chardev System Frame SystemInv Schedule Shutdown Teardown Calls.

(** [!list_empty(&accel->task_queue) || !atomic_read(&accel->running)] *)
Definition wait_condition (a : accel) : bool :=
  negb (bool_decide (a_task_queue a = [])) || (a_running a =? 0).

Definition wait_over (i : nat) (d : dev) : bool :=
  from_option wait_condition false (dev_accelerators d !! i).

(** [q_asleep]: the threads that sleep in their wait; [q_waking]: the calls
    whose next statement is the wake_up of an accelerator; [q_stopping]: the
    remover's next statement is. *)
Record wsys : Type := {
  q_sys : sys;
  q_asleep : list bool;
  q_waking : list (nat * nat);
  q_stopping : option nat;
}.

Definition set_q_sys (y : sys) (s : wsys) : wsys :=
  {| q_sys := y; q_asleep := q_asleep s; q_waking := q_waking s; q_stopping := q_stopping s |}.
Definition set_asleep (i : nat) (b : bool) (s : wsys) : wsys :=
  {| q_sys := q_sys s; q_asleep := <[i := b]> (q_asleep s); q_waking := q_waking s;
     q_stopping := q_stopping s |}.

(** wake_up(&accelerators[i].work_wait): the thread evaluates its condition
    again. *)
Definition wake_up (i : nat) (s : wsys) : wsys := set_asleep i false s.

Definition waking_of (k : nat) (s : wsys) : option nat :=
  snd <$> (snd <$> list_find (λ e, e.1 = k) (q_waking s)).

Definition set_waking (w : list (nat * nat)) (s : wsys) : wsys :=
  {| q_sys := q_sys s; q_asleep := q_asleep s; q_waking := w; q_stopping := q_stopping s |}.
Definition set_stopping (r : option nat) (s : wsys) : wsys :=
  {| q_sys := q_sys s; q_asleep := q_asleep s; q_waking := q_waking s; q_stopping := r |}.

Inductive wevent : Type :=
  | WE (e : event)            (* a statement *)
  | WE_timeout (i : nat).     (* the 100 ms of a sleeping thread have passed *)

Section WaitQueue.
Context (HZ : Z) (m2j : Z → Z).

Definition w_sys (e : event) (s : wsys) : option wsys :=
  y ← sys_exec HZ m2j e (q_sys s); Some (set_q_sys y s).

(** A call's next statement: its wake_up when it has just queued a task. *)
Definition w_user (k : nat) (copied : bool) (s : wsys) : option wsys :=
  match waking_of k s with
  | Some i => Some (wake_up i (set_waking (filter (λ e, e.1 ≠ k) (q_waking s)) s))
  | None =>
      s' ← w_sys (E_user k copied) s;
      Some (match y_calls (q_sys s) !! k with
            | Some (U_enqueue _ desc) =>
                set_waking (q_waking s' ++ [(k, Z.to_nat (d_accel_type desc))]) s'
            | _ => s'
            end)
  end.

(** A worker's: in the wait it goes on, or to sleep, by the condition. *)
Definition w_worker (i : nat) (s : wsys) : option wsys :=
  match q_asleep s !! i with
  | Some false =>
      match y_workers (q_sys s) !! i with
      | Some W_wait =>
          if wait_over i (y_dev (q_sys s)) then w_sys (E_worker i) s
          else Some (set_asleep i true s)
      | _ => w_sys (E_worker i) s
      end
  | _ => None
  end.

(** The remover's: wake_up after it cleared [running]; kthread_stop asks the
    thread to stop and wakes it. *)
Definition w_remove (s : wsys) : option wsys :=
  match q_stopping s with
  | Some i => Some (wake_up i (set_stopping None s))
  | None =>
      s' ← w_sys E_remove s;
      Some (match y_remover (q_sys s), y_remover (q_sys s') with
            | R_clear _, R_kthread i => set_stopping (Some i) s'
            | R_kthread i, _ => wake_up i s'
            | _, _ => s'
            end)
  end.

Definition wq_exec (e : wevent) (s : wsys) : option wsys :=
  match e with
  | WE (E_user k copied) => w_user k copied s
  | WE (E_worker i) => w_worker i s
  | WE E_remove => w_remove s
  | WE e => w_sys e s
  | WE_timeout i =>
      match q_asleep s !! i with
      | Some true => w_sys (E_worker i) (set_asleep i false s)
      | _ => None
      end
  end.

(** A schedule of attempts. *)
Definition wq_try (e : wevent) (s : wsys) : wsys := default s (wq_exec e s).
Fixpoint wq_play (es : list wevent) (s : wsys) : wsys :=
  match es with
  | [] => s
  | e :: es' => wq_play es' (wq_try e s)
  end.

Lemma wq_play_app es es' s : wq_play (es ++ es') s = wq_play es' (wq_play es s).
Proof. revert s. induction es as [|e es IH]; intros s; cbn; [done|]. apply IH. Qed.

Definition wq_init (y : sys) : wsys :=
  {| q_sys := y; q_asleep := replicate NUM_ACCELERATORS false; q_waking := []; q_stopping := None |}.

Definition wq_reachable (s : wsys) : Prop :=
  ∃ y es, sys_init y ∧ wq_play es (wq_init y) = s.
End WaitQueue.

(** ** What a step does to a wait condition *)

Section Lost.
Context (HZ : Z) (m2j : Z → Z).

(** The queue of an accelerator in terms of the history. *)
Lemma queue_history y i a e q :
  sys_inv y → dev_accelerators (y_dev y) !! i = Some a → y_enq y !! i = Some e →
  y_deq y !! i = Some q → e = q ++ a_task_queue a.
Proof.
  intros Hinv Ha He Hq. destruct (si_workers y Hinv i a Ha) as (pc & e0 & q0 & _ & He0 & Hq0 & []).
  by simplify_eq.
Qed.

Lemma accel_parts y i :
  sys_inv y → (i < NUM_ACCELERATORS)%nat → ∃ a e q pc, dev_accelerators (y_dev y) !! i = Some a ∧
    y_enq y !! i = Some e ∧ y_deq y !! i = Some q ∧ y_workers y !! i = Some pc.
Proof.
  intros Hinv Hi.
  destruct (lookup_lt_is_Some_2 (dev_accelerators (y_dev y)) i) as [a Ha]; [by rewrite (si_accels y Hinv)|].
  destruct (si_workers y Hinv i a Ha) as (pc & e & q & ? & ? & ? & _). eauto 10.
Qed.

Lemma wait_over_same y y' i :
  sys_inv y → sys_inv y' → y_enq y' !! i = y_enq y !! i → y_deq y' !! i = y_deq y !! i →
  running_flags (y_dev y') !! i = running_flags (y_dev y) !! i →
  wait_over i (y_dev y') = wait_over i (y_dev y).
Proof.
  intros Hinv Hinv' He Hq Hr. unfold wait_over.
  destruct (decide (i < NUM_ACCELERATORS)%nat) as [Hi|Hi].
  - destruct (accel_parts y i Hinv Hi) as (a & e & q & _ & Ha & Hey & Hqy & _).
    destruct (accel_parts y' i Hinv' Hi) as (a' & e' & q' & _ & Ha' & Hey' & Hqy' & _).
    rewrite Ha, Ha'. cbn. rewrite (observed_lookup a_running _ _ _ Ha), (observed_lookup a_running _ _ _ Ha') in Hr.
    pose proof (queue_history y i a e q Hinv Ha Hey Hqy) as Hh.
    pose proof (queue_history y' i a' e' q' Hinv' Ha' Hey' Hqy') as Hh'.
    rewrite Hey, Hqy in *. rewrite Hey' in He. rewrite Hqy' in Hq. simplify_eq.
    unfold wait_condition. by rewrite Hr, He.
  - rewrite !lookup_ge_None_2; [done|rewrite (si_accels y Hinv); lia|rewrite (si_accels y' Hinv'); lia].
Qed.

(** A step of the system, by what it can do to the wait of accelerator [i]. *)
Lemma sys_exec_wait e y y' i :
  sys_inv y → sys_exec HZ m2j e y = Some y' →
  (∀ k c t desc, e = E_user k c → y_calls y !! k = Some (U_enqueue t desc) →
     Z.to_nat (d_accel_type desc) ≠ i) →
  e ≠ E_worker i →
  (e = E_remove → y_remover y = R_clear i → y_remover y' = R_kthread i → False) →
  wait_over i (y_dev y') = wait_over i (y_dev y) ∧ y_workers y' !! i = y_workers y !! i.
Proof.
  intros Hinv He Henq Hw Hrem.
  assert (Hinv' : sys_inv y') by (eapply sys_inv_step, sys_exec_step; eauto).
  destruct e as [n|pc0|k copied|j|]; cbn [sys_exec] in He.
  - injection He as <-. done.
  - case_decide; [|done]. injection He as <-. done.
  - destruct (y_calls y !! k) as [pc|] eqn:Hk; [|done]. cbn [mbind option_bind] in He.
    pose proof (ustep_keeps a_running HZ (y_now y) copied pc (y_dev y)) as Hr.
    destruct (ustep _ _ _ _ _) as [[pc'| |] d'] eqn:Hu; simplify_eq. cbn in Hr.
    split; [|done]. apply wait_over_same; try done; cbn; [|by rewrite Hr].
    destruct pc; try done. cbn. apply arr_upd_other. by eapply Henq.
  - assert (Hij : i ≠ j) by congruence.
    destruct (y_workers y !! j) as [pcj|] eqn:Hj; [|done]. cbn [mbind option_bind] in He.
    destruct (y_stop y !! j) as [stop|]; [|done]. cbn [mbind option_bind] in He.
    pose proof (worker_step_keeps a_running m2j j (y_now y) stop pcj (y_dev y)) as Hr.
    destruct (worker_step _ _ _ _ _ _) as [[pc'| |] d'] eqn:Hs; simplify_eq. cbn in Hr.
    split; [|cbn; by rewrite list_lookup_insert_ne].
    apply wait_over_same; try done; cbn; [|by rewrite Hr].
    unfold deq_effect. destruct pcj, pc'; try done. by apply arr_upd_other.
  - destruct (remover_exec y) as [[[r' d'] stop']|] eqn:Hr; [|done]. cbn in He. simplify_eq.
    split; [|done]. apply wait_over_same; try done. cbn. specialize (Hrem eq_refl). cbn in Hrem.
    unfold remover_exec in Hr. destruct (y_remover y) as [|j|j|j|] eqn:E; simplify_eq; try done.
    + destruct (dev_accelerators (y_dev y) !! j) as [a|]; case_decide; simplify_eq; try done.
      apply observed_upd_other. intros ->. by apply Hrem.
    + case_decide; simplify_eq. by rewrite observed_upd by done.
Qed.

(** ** No wake-up is lost *)

(** Somebody is about to wake the thread of accelerator [i]. *)
Definition wake_pending (i : nat) (s : wsys) : Prop :=
  (∃ k, (k, i) ∈ q_waking s) ∨ q_stopping s = Some i.

Record wq_inv (s : wsys) : Prop := {
  wq_sys : reachable HZ m2j (q_sys s);
  wq_asleep : ∀ i, q_asleep s !! i = Some true → y_workers (q_sys s) !! i = Some W_wait;
  wq_keys : NoDup (q_waking s).*1;
  wq_calls : ∀ k i, (k, i) ∈ q_waking s → (k < length (y_calls (q_sys s)))%nat;
  wq_awake : ∀ i, q_asleep s !! i = Some true → wait_over i (y_dev (q_sys s)) = true →
    wake_pending i s;
  wq_len : length (q_asleep s) = NUM_ACCELERATORS;
}.

Lemma sys_exec_calls e y y' :
  sys_exec HZ m2j e y = Some y' → (length (y_calls y) ≤ length (y_calls y'))%nat.
Proof.
  intros He. destruct e as [n|pc0|k copied|j|]; cbn [sys_exec] in He.
  - by injection He as <-.
  - case_decide; [|done]. injection He as <-. cbn. rewrite length_app. lia.
  - destruct (y_calls y !! k) as [pc|]; [|done]. cbn [mbind option_bind] in He.
    destruct (ustep _ _ _ _ _) as [[]]; simplify_eq. cbn. by rewrite length_insert.
  - destruct (y_workers y !! j) as [pcj|]; [|done]. cbn [mbind option_bind] in He.
    destruct (y_stop y !! j); [|done]. cbn [mbind option_bind] in He.
    destruct (worker_step _ _ _ _ _ _) as [[]]; by simplify_eq.
  - destruct (remover_exec y) as [[[]]|]; [|done]. cbn in He. by simplify_eq.
Qed.

(** A step that changes no sleeping thread's condition, or announces it. *)
Lemma wq_inv_sys e s y w r :
  wq_inv s → sys_exec HZ m2j e (q_sys s) = Some y →
  NoDup w.*1 → (∀ k i, (k, i) ∈ w → (k < length (y_calls y))%nat) →
  (∀ i, q_asleep s !! i = Some true →
     y_workers y !! i = y_workers (q_sys s) !! i ∧
     (wait_over i (y_dev y) = wait_over i (y_dev (q_sys s)) ∨
      (∃ k, (k, i) ∈ w) ∨ r = Some i)) →
  (∀ k i, (k, i) ∈ q_waking s → (k, i) ∈ w) → (∀ i, q_stopping s = Some i → r = Some i) →
  wq_inv {| q_sys := y; q_asleep := q_asleep s; q_waking := w; q_stopping := r |}.
Proof.
  intros [] He Hnd Hk Hs Hw Hr. split; cbn.
  - eapply reach_step; [done|]. by eapply sys_exec_step.
  - intros i Hi. destruct (Hs i Hi) as [-> _]. auto.
  - done.
  - done.
  - intros i Hi Hover. destruct (Hs i Hi) as [_ [Hsame|Hnew]]; [|exact Hnew].
    rewrite Hsame in Hover. destruct (wq_awake0 i Hi Hover) as [[k Hp]|Hp].
    + left. exists k. by apply Hw.
    + right. by apply Hr.
  - done.
Qed.

(** A wake_up, and what it removes from the announcements. *)
Lemma wq_inv_wake i s w r :
  wq_inv s → NoDup w.*1 → (∀ k j, (k, j) ∈ w → (k, j) ∈ q_waking s) →
  (∀ k j, j ≠ i → (k, j) ∈ q_waking s → (k, j) ∈ w) →
  (∀ j, j ≠ i → q_stopping s = Some j → r = Some j) →
  wq_inv {| q_sys := q_sys s; q_asleep := <[i := false]> (q_asleep s); q_waking := w; q_stopping := r |}.
Proof.
  intros [] Hnd Hsub Hw Hr.
  assert (Hother : ∀ j, <[i := false]> (q_asleep s) !! j = Some true → j ≠ i ∧ q_asleep s !! j = Some true).
  { intros j Hj. apply list_lookup_insert_Some in Hj as [(_ & ? & _)|[? ?]]; [done|auto]. }
  split; cbn; try done.
  - intros j [_ Hj]%Hother. auto.
  - intros k j Hk. eapply wq_calls0, Hsub, Hk.
  - intros j [Hne Hj]%Hother Hover. destruct (wq_awake0 j Hj Hover) as [[k Hp]|Hp].
    + left. exists k. by apply Hw.
    + right. by apply Hr.
  - by rewrite length_insert.
Qed.

Lemma waking_of_Some k s i : waking_of k s = Some i → (k, i) ∈ q_waking s.
Proof.
  unfold waking_of. intros ([k' i'] & ([n e] & Hf & Hx)%fmap_Some & ->)%fmap_Some.
  cbn in Hx. subst e. apply list_find_Some in Hf as (Hn & Hk & _). cbn in Hk. subst k'. cbn.
  by eapply list_elem_of_lookup_2.
Qed.

Lemma waking_of_None k s : waking_of k s = None → k ∉ (q_waking s).*1.
Proof.
  unfold waking_of. intros Hf%fmap_None%fmap_None. apply list_find_None in Hf.
  intros ([k' i] & -> & Hin)%list_elem_of_fmap. cbn in Hf.
  by apply (proj1 (Forall_forall _ _) Hf (k', i) Hin).
Qed.

Lemma keys_unique (w : list (nat * nat)) k i j :
  NoDup w.*1 → (k, i) ∈ w → (k, j) ∈ w → i = j.
Proof.
  intros Hnd Hi Hj. apply list_elem_of_lookup in Hi as [n Hn]. apply list_elem_of_lookup in Hj as [m Hm].
  assert (n = m) as ->; [|congruence].
  eapply NoDup_lookup; [exact Hnd|by rewrite list_lookup_fmap, Hn|by rewrite list_lookup_fmap, Hm].
Qed.

Lemma NoDup_keys_filter (w : list (nat * nat)) k : NoDup w.*1 → NoDup (filter (λ e, e.1 ≠ k) w).*1.
Proof.
  induction w as [|[k' i] w IH]; intros Hnd; [done|].
  rewrite fmap_cons in Hnd. apply NoDup_cons in Hnd as [Hk Hnd]. rewrite filter_cons. case_decide; [|auto]. cbn. apply NoDup_cons. split; [|auto].
  intros (e & -> & He)%list_elem_of_fmap. apply list_elem_of_filter in He as [_ He].
  apply Hk, list_elem_of_fmap. by exists e.
Qed.

(** The accelerator a call's next statement queues a task on. *)
Definition enqueues (pc : upc) : option nat :=
  match pc with U_enqueue _ desc => Some (Z.to_nat (d_accel_type desc)) | _ => None end.

Lemma w_user_inv k copied s s' : wq_inv s → w_user HZ m2j k copied s = Some s' → wq_inv s'.
Proof.
  intros Hinv. pose proof Hinv as []. unfold w_user. destruct (waking_of k s) as [i|] eqn:Hk.
  - intros [= <-]. apply waking_of_Some in Hk. apply (wq_inv_wake i s (filter (λ e, e.1 ≠ k) (q_waking s)) (q_stopping s)); try done.
    + by apply NoDup_keys_filter.
    + intros k' j Hin. by apply list_elem_of_filter in Hin as [_ ?].
    + intros k' j Hne Hin. apply list_elem_of_filter. split; [|done]. cbn. intros ->.
      by apply Hne, (keys_unique _ k j i wq_keys0).
  - unfold w_sys. destruct (sys_exec HZ m2j (E_user k copied) (q_sys s)) as [y|] eqn:He; [|done].
    cbn [mbind option_bind]. intros [= <-].
    pose proof (sys_exec_calls _ _ _ He) as Hlen. apply waking_of_None in Hk.
    pose proof (sys_inv_reachable HZ m2j _ wq_sys0) as Hsi.
    assert (Hold : ∀ k' i, (k', i) ∈ q_waking s → (k' < length (y_calls y))%nat).
    { intros k' i Hin. specialize (wq_calls0 k' i Hin). lia. }
    assert (Hgo : ∀ w, NoDup w.*1 → (∀ k' i, (k', i) ∈ w → (k' < length (y_calls y))%nat) →
      (∀ k' i, (k', i) ∈ q_waking s → (k', i) ∈ w) →
      (∀ t desc, y_calls (q_sys s) !! k = Some (U_enqueue t desc) →
        (k, Z.to_nat (d_accel_type desc)) ∈ w) →
      wq_inv {| q_sys := y; q_asleep := q_asleep s; q_waking := w; q_stopping := q_stopping s |}).
    { intros w Hnd Hb Hsub Hnew. eapply wq_inv_sys; try done. intros i Hi.
      assert (Hw : y_workers y = y_workers (q_sys s)).
      { cbn [sys_exec] in He. destruct (y_calls (q_sys s) !! k); [|done]. cbn [mbind option_bind] in He.
        destruct (ustep _ _ _ _ _) as [[]]; by simplify_eq. }
      split; [by rewrite Hw|].
      destruct (decide (wait_over i (y_dev y) = wait_over i (y_dev (q_sys s)))) as [|Hd]; [by left|right; left].
      exists k. destruct (y_calls (q_sys s) !! k) as [pc|] eqn:Hpc; [|by cbn [sys_exec] in He; rewrite Hpc in He].
      assert (Hen : enqueues pc = Some i).
      { apply dec_stable. intros Hno. apply Hd.
        apply (sys_exec_wait (E_user k copied) _ _ i Hsi He); try done.
        intros k' c t desc [= <- <-] Hk' Heq. apply Hno. by simplify_eq. }
      destruct pc as [| | | | | |t desc| | | | | | | | | | | | | | |]; try done.
      injection Hen as <-. by eapply Hnew. }
    destruct (y_calls (q_sys s) !! k) as [pc|] eqn:Hpc; [|by cbn [sys_exec] in He; rewrite Hpc in He].
    assert (Hkl : (k < length (y_calls (q_sys s)))%nat) by (by eapply lookup_lt_Some).
    destruct pc; try (apply Hgo; done).
    apply Hgo.
    + cbn. rewrite fmap_app. apply NoDup_app. split_and!; [done| |apply NoDup_singleton].
      intros k' Hk' ->%list_elem_of_singleton. done.
    + intros k' i [Hin|Hin%list_elem_of_singleton]%elem_of_app; [by eapply Hold|].
      injection Hin as -> ->. lia.
    + intros k' i Hin. apply elem_of_app. by left.
    + intros t' desc' [= -> ->]. apply elem_of_app. right. by apply list_elem_of_singleton.
Qed.

(** A step that queues nothing and stops nothing, with the thread it runs awake. *)
Lemma w_sys_inv e s s' :
  wq_inv s → w_sys HZ m2j e s = Some s' → (∀ k c, e ≠ E_user k c) →
  (∀ i, e = E_worker i → q_asleep s !! i ≠ Some true) →
  (∀ i y, e = E_remove → sys_exec HZ m2j e (q_sys s) = Some y →
     y_remover (q_sys s) = R_clear i → y_remover y = R_kthread i → False) →
  wq_inv s'.
Proof.
  intros Hinv. unfold w_sys. destruct (sys_exec HZ m2j e (q_sys s)) as [y|] eqn:He; [|done].
  cbn [mbind option_bind]. intros [= <-] Hu Hw Hr. pose proof (sys_exec_calls _ _ _ He) as Hlen.
  pose proof Hinv as []. pose proof (sys_inv_reachable HZ m2j _ wq_sys0) as Hsi.
  eapply wq_inv_sys; try done.
  - intros k i Hin. specialize (wq_calls0 k i Hin). lia.
  - intros i Hi. destruct (sys_exec_wait e _ y i Hsi He) as [Hover Hworker].
    + intros k c t desc ->. by destruct (Hu k c).
    + intros ->. by apply (Hw i).
    + intros. by eapply Hr.
    + auto.
Qed.

Lemma w_worker_inv i s s' : wq_inv s → w_worker HZ m2j i s = Some s' → wq_inv s'.
Proof.
  intros Hinv. unfold w_worker. destruct (q_asleep s !! i) as [[]|] eqn:Hi; [done| |done].
  assert (Hgo : w_sys HZ m2j (E_worker i) s = Some s' → wq_inv s').
  { intros Hs. eapply w_sys_inv; try done. intros j [= <-]. congruence. }
  destruct (y_workers (q_sys s) !! i) as [pc|] eqn:Hpc; [|done].
  destruct (decide (pc = W_wait)) as [->|Hne]; [|by destruct pc].
  destruct (wait_over i (y_dev (q_sys s))) eqn:Hover; [done|]. intros [= <-]. pose proof Hinv as [].
  split; try done; cbn.
  - intros j Hj. apply list_lookup_insert_Some in Hj as [(<- & _ & _)|[_ Hj]]; auto.
  - intros j Hj Hover'. apply list_lookup_insert_Some in Hj as [(<- & _ & _)|[_ Hj]]; [congruence|].
    by apply wq_awake0.
  - by rewrite length_insert.
Qed.

Lemma set_awake_inv i s : wq_inv s → wq_inv (set_asleep i false s).
Proof.
  intros []. assert (Hother : ∀ j, <[i := false]> (q_asleep s) !! j = Some true → q_asleep s !! j = Some true).
  { intros j Hj. by apply list_lookup_insert_Some in Hj as [(_ & ? & _)|[_ ?]]. }
  split; try done; cbn; [auto| |by rewrite length_insert]. intros j Hj Hover. by apply wq_awake0; [apply Hother|].
Qed.

Lemma timeout_inv i s s' : wq_inv s → wq_exec HZ m2j (WE_timeout i) s = Some s' → wq_inv s'.
Proof.
  intros Hinv. cbn [wq_exec]. destruct (q_asleep s !! i) as [[]|] eqn:Hi; [|done..]. intros Hs.
  eapply w_sys_inv; [by apply set_awake_inv|exact Hs|done| |done].
  intros j [= <-]. cbn. rewrite list_lookup_insert_eq; [done|]. by eapply lookup_lt_Some.
Qed.

Lemma w_remove_inv s s' : wq_inv s → w_remove HZ m2j s = Some s' → wq_inv s'.
Proof.
  intros Hinv. unfold w_remove. destruct (q_stopping s) as [i|] eqn:Hst.
  { intros [= <-]. pose proof Hinv as [].
    apply (wq_inv_wake i s (q_waking s) None); try done. intros j Hne Hj. congruence. }
  destruct (w_sys HZ m2j E_remove s) as [s1|] eqn:Hs; [|done]. cbn [mbind option_bind].
  intros [= <-]. unfold w_sys in Hs.
  destruct (sys_exec HZ m2j E_remove (q_sys s)) as [y|] eqn:He; [|done].
  cbn [mbind option_bind] in Hs. injection Hs as <-. cbn [q_sys set_q_sys].
  assert (Hplain : (∀ i, y_remover (q_sys s) = R_clear i → y_remover y = R_kthread i → False) →
    wq_inv (set_q_sys y s)).
  { intros Hr. apply (w_sys_inv E_remove s); try done; [unfold w_sys; by rewrite He|].
    intros i y' _. rewrite He. intros [= <-]. apply Hr. }
  destruct (y_remover (q_sys s)) as [|j|j|j|] eqn:Er; try (by apply Hplain).
  - destruct (y_remover y) as [|j'|j'|j'|] eqn:Er'; try (by apply Hplain).
    assert (j' = j) as ->.
    { cbn [sys_exec] in He. unfold remover_exec in He. rewrite Er in He.
      destruct (dev_accelerators _ !! j); case_decide; cbn in He; simplify_eq; cbn in Er'; congruence. }
    pose proof Hinv as []. pose proof (sys_exec_calls _ _ _ He) as Hlen.
    pose proof (sys_inv_reachable HZ m2j _ wq_sys0) as Hsi.
    apply (wq_inv_sys E_remove s y (q_waking s) (Some j)); try done.
    + intros k i Hin. specialize (wq_calls0 k i Hin). lia.
    + intros i Hi. destruct (decide (i = j)) as [->|Hne].
      * split; [|by right; right]. cbn [sys_exec] in He.
        destruct (remover_exec _) as [[[]]|]; [|done]. cbn in He. by injection He as <-.
      * destruct (sys_exec_wait E_remove _ y i Hsi He) as [? ?]; try done; [|auto].
        intros _ Hc _. congruence.
    + congruence.
  - assert (Hp : wq_inv (set_q_sys y s)) by (by apply Hplain).
    by destruct (y_remover y); apply set_awake_inv.
Qed.

Lemma wq_exec_inv e s s' : wq_inv s → wq_exec HZ m2j e s = Some s' → wq_inv s'.
Proof.
  intros Hinv. destruct e as [[n|pc|k copied|i|]|i].
  - intros Hs. by eapply w_sys_inv.
  - intros Hs. by eapply w_sys_inv.
  - by apply w_user_inv.
  - by apply w_worker_inv.
  - by apply w_remove_inv.
  - by apply timeout_inv.
Qed.

Lemma wq_reachable_inv s : wq_reachable HZ m2j s → wq_inv s.
Proof.
  intros (y & es & Hy & <-).
  assert (Hinit : wq_inv (wq_init y)).
  { split; cbn; [by apply reach_init| |constructor|by intros ? ? ?%not_elem_of_nil| |done].
    - intros i Hi. by destruct i as [|[|[|i]]].
    - intros i Hi. by destruct i as [|[|[|i]]]. }
  clear Hy. revert Hinit. generalize (wq_init y). induction es as [|e es IH]; intros s Hs; cbn [wq_play]; [done|].
  apply IH. unfold wq_try. destruct (wq_exec HZ m2j e s) as [s'|] eqn:He; [|done].
  by eapply wq_exec_inv.
Qed.

(** The sleep of the workers only removes schedules: what System.v's states
    satisfy holds here. *)
Lemma wq_reachable_sys s : wq_reachable HZ m2j s → reachable HZ m2j (q_sys s).
Proof. intros Hs%wq_reachable_inv. apply Hs. Qed.

(** C15: No wake-up is lost.  Whenever a worker sleeps although its queue holds
    a task or it was told to stop, a wake_up of it is still to come: some call
    is between list_add_tail and wake_up, or the remover between clearing
    [running] and wake_up.  So once these statements have run, a worker sleeps
    only when there is nothing for it to do. *)
Theorem no_lost_wakeup s i a :
  wq_reachable HZ m2j s → q_asleep s !! i = Some true →
  dev_accelerators (y_dev (q_sys s)) !! i = Some a →
  a_task_queue a ≠ [] ∨ a_running a = 0 → wake_pending i s.
Proof.
  intros Hs Hi Ha Hc. apply wq_reachable_inv in Hs as []. apply wq_awake0; [done|].
  unfold wait_over. rewrite Ha. cbn. unfold wait_condition.
  destruct Hc as [Hq|Hz]; [by rewrite bool_decide_eq_false_2|by rewrite Hz, orb_true_r].
Qed.
End Lost.

(** ** The 100 ms timeout is never needed *)

(** The worker is between two tasks. *)
Definition idle (pc : wpc) : bool :=
  match pc with W_while | W_wait | W_check | W_lock => true | _ => false end.

(** The turns an idle worker needs to take a task that is there. *)
Definition dispatch_rank (asleep : bool) (pc : wpc) : nat :=
  match pc with
  | W_lock => 1
  | W_check => 2
  | W_wait => if asleep then 4 else 3
  | _ => 4
  end.

Definition first_waker (i : nat) (w : list (nat * nat)) : option nat :=
  fst <$> (snd <$> list_find (λ e, e.2 = i) w).

Section Dispatch.
Context (HZ : Z) (m2j : Z → Z) (i t : nat) (q : list nat).

(** The worker has taken [t], after the tasks [q]. *)
Definition dispatched (s : wsys) : Prop := ∃ q', y_deq (q_sys s) !! i = Some (q ++ t :: q').

(** [t] is at the head of the queue of an idle worker that is not being stopped. *)
Record ready (b : bool) (pc : wpc) (s : wsys) : Prop := {
  rd_inv : wq_inv HZ m2j s;
  rd_asleep : q_asleep s !! i = Some b;
  rd_worker : y_workers (q_sys s) !! i = Some pc;
  rd_idle : idle pc = true;
  rd_deq : y_deq (q_sys s) !! i = Some q;
  rd_enq : ∃ l, y_enq (q_sys s) !! i = Some (q ++ t :: l);
  rd_running : ∃ r, running_flags (y_dev (q_sys s)) !! i = Some r ∧ r ≠ 0;
  rd_stopping : q_stopping s = None;
}.

(** The event that brings the worker closer: the wake-up it sleeps for, or its
    own next statement. *)
Definition dispatch_turn (b : bool) (s : wsys) (e : wevent) : Prop :=
  if b then ∃ k c, first_waker i (q_waking s) = Some k ∧ e = WE (E_user k c)
  else e = WE (E_worker i).

Lemma exec_parts e y y' :
  sys_exec HZ m2j e y = Some y' → e ≠ E_worker i → e ≠ E_remove →
  y_deq y' !! i = y_deq y !! i ∧ y_workers y' !! i = y_workers y !! i ∧
  running_flags (y_dev y') = running_flags (y_dev y) ∧
  (∀ e0, y_enq y !! i = Some e0 → ∃ x, y_enq y' !! i = Some (e0 ++ x)).
Proof.
  intros He Hw Hrem. destruct e as [n|pc0|k copied|j|]; cbn [sys_exec] in He; [| | | |done].
  - injection He as <-. split_and!; try done. intros e0 ?. exists []. by rewrite app_nil_r.
  - case_decide; [|done]. injection He as <-. split_and!; try done. intros e0 ?. exists [].
    by rewrite app_nil_r.
  - destruct (y_calls y !! k) as [pc|]; [|done]. cbn [mbind option_bind] in He.
    pose proof (ustep_keeps a_running HZ (y_now y) copied pc (y_dev y)) as Hr.
    destruct (ustep _ _ _ _ _) as [[pc'| |] d']; simplify_eq. split_and!; try done.
    cbn. intros e0 He0. destruct pc as [| | | | | |u desc| | | | | | | | | | | | | | |];
      try (exists []; by rewrite app_nil_r).
    cbn. rewrite arr_upd_lookup, He0. case_decide; [by exists [u]|exists []; by rewrite app_nil_r].
  - assert (Hij : j ≠ i) by congruence.
    destruct (y_workers y !! j) as [pcj|]; [|done]. cbn [mbind option_bind] in He.
    destruct (y_stop y !! j) as [stop|]; [|done]. cbn [mbind option_bind] in He.
    pose proof (worker_step_keeps a_running m2j j (y_now y) stop pcj (y_dev y)) as Hr.
    destruct (worker_step _ _ _ _ _ _) as [[pc'| |] d']; simplify_eq. split_and!; try done; cbn.
    + unfold deq_effect. destruct pcj, pc'; try done. by apply arr_upd_other.
    + by rewrite list_lookup_insert_ne.
    + intros e0 ?. exists []. by rewrite app_nil_r.
Qed.

(** A step of the rest of the system. *)
Lemma ready_sys b pc e s y w :
  ready b pc s → sys_exec HZ m2j e (q_sys s) = Some y → e ≠ E_worker i → e ≠ E_remove →
  ∀ asleep, asleep !! i = Some b →
  let s' := {| q_sys := y; q_asleep := asleep; q_waking := w; q_stopping := q_stopping s |} in
  wq_inv HZ m2j s' → ready b pc s'.
Proof.
  intros [] He Hne Hrem asleep Has s' Hinv. destruct rd_enq0 as [l Hl].
  destruct (exec_parts e _ y He Hne Hrem) as (Hdeq & Hwk & Hfl & Henq).
  destruct (Henq _ Hl) as [x Hx]. split; cbn; try congruence; try done.
  - exists (l ++ x). rewrite Hx. by rewrite <- app_assoc.
  - by rewrite Hfl.
Qed.

(** The worker's own statement. *)
Lemma ready_worker pc s y :
  ready false pc s → sys_exec HZ m2j (E_worker i) (q_sys s) = Some y →
  let s' := set_q_sys y s in wq_inv HZ m2j s' →
  dispatched s' ∨ ∃ pc', ready false pc' s' ∧
    (dispatch_rank false pc' < dispatch_rank false pc)%nat.
Proof.
  intros [] He s' Hinv. destruct rd_enq0 as [l Hl]. destruct rd_running0 as (r & Hr & Hnz).
  pose proof (sys_inv_reachable HZ m2j _ (wq_sys _ _ _ rd_inv0)) as Hsi.
  destruct (accel_parts (q_sys s) i Hsi) as (a & e & q0 & pc0 & Ha & He0 & Hq0 & Hpc0).
  { rewrite <- (si_workers_len _ Hsi). by eapply lookup_lt_Some. }
  rewrite (observed_lookup a_running _ _ _ Ha) in Hr. simplify_eq.
  pose proof (queue_history _ i a _ _ Hsi Ha Hl rd_deq0) as Hq.
  apply app_inv_head in Hq. cbn [sys_exec] in He. rewrite rd_worker0 in He. cbn [mbind option_bind] in He.
  destruct (y_stop (q_sys s) !! i) as [stop|] eqn:Hst; [|done]. cbn [mbind option_bind] in He.
  assert (Hlt : (i < length (y_workers (q_sys s)))%nat) by (by eapply lookup_lt_Some).
  assert (Hgo : ∀ pc' d', worker_step m2j i (y_now (q_sys s)) stop pc (y_dev (q_sys s)) = (Ok pc', d') →
    idle pc' = true → d' = y_dev (q_sys s) → deq_effect i pc pc' (y_deq (q_sys s)) = y_deq (q_sys s) →
    ready false pc' s').
  { intros pc' d' Hs Hidle -> Hdeq. rewrite Hs in He. simplify_eq.
    split; try done; unfold s'; cbn; rewrite ?Hdeq; try done; [by apply list_lookup_insert_eq|eauto|].
    exists (a_running a). by rewrite (observed_lookup a_running _ _ _ Ha). }
  destruct pc; try done; cbn [worker_step] in *; unfold mbind, KM_bind, mret, KM_ret in *;
    rewrite ?(get_accel_run _ _ _ Ha) in *; rewrite ?(proj2 (Z.eqb_neq _ _) Hnz) in *.
  - right. eexists. split; [by eapply Hgo|cbn; lia].
  - right. eexists. split; [by eapply Hgo|cbn; lia].
  - right. eexists. split; [by eapply Hgo|cbn; lia].
  - left. rewrite (dequeue_run i _ _ Ha), <- Hq in He. simplify_eq. exists []. cbn.
    rewrite arr_upd_same, rd_deq0. done.
Qed.

(** What one attempt does while [t] waits: it gets [t] dispatched, brings the
    awake worker closer, or leaves it to the same event. *)
Definition stays (b : bool) (pc : wpc) (e : wevent) (s s' : wsys) : Prop :=
  ready b pc s' ∧ (∀ e', dispatch_turn b s e' → dispatch_turn b s' e') ∧ ¬ dispatch_turn b s e.

Definition closer_by (n : nat) (s' : wsys) : Prop :=
  dispatched s' ∨ ∃ pc', ready false pc' s' ∧ (dispatch_rank false pc' < n)%nat.

(** An event of somebody else that keeps who wakes the worker. *)
Lemma stays_sys b pc e s y w asleep e0 :
  ready b pc s → sys_exec HZ m2j e (q_sys s) = Some y → e ≠ E_worker i → e ≠ E_remove →
  asleep !! i = Some b →
  (∀ k, first_waker i (q_waking s) = Some k → first_waker i w = Some k) →
  ¬ dispatch_turn b s e0 →
  let s' := {| q_sys := y; q_asleep := asleep; q_waking := w; q_stopping := q_stopping s |} in
  wq_inv HZ m2j s' → stays b pc e0 s s'.
Proof.
  intros Hr He Hw Hrem Has Hfw Hno s' Hinv. split_and!; [by eapply ready_sys| |done].
  unfold dispatch_turn. destruct b; [|done]. intros e' (k & c & Hk & ->). cbn. eauto.
Qed.

Lemma stays_idle b pc s e0 : ready b pc s → ¬ dispatch_turn b s e0 → stays b pc e0 s s.
Proof. by intros ? ?. Qed.

Lemma first_waker_app w w' k : first_waker i w = Some k → first_waker i (w ++ w') = Some k.
Proof.
  unfold first_waker. intros (e & ([n e'] & Hf & ->)%fmap_Some & ->)%fmap_Some.
  by rewrite (list_find_app_l _ _ _ _ _ Hf).
Qed.

Lemma first_waker_elem w k : first_waker i w = Some k → (k, i) ∈ w.
Proof.
  unfold first_waker. intros ([k' i'] & ([n e'] & Hf & Hx)%fmap_Some & ->)%fmap_Some.
  cbn in Hx. subst e'. apply list_find_Some in Hf as (Hn & Hk & _). cbn in Hk. subst i'. cbn.
  by eapply list_elem_of_lookup_2.
Qed.

Lemma first_waker_exists w k : (k, i) ∈ w → ∃ k0, first_waker i w = Some k0.
Proof.
  intros Hin. destruct (list_find_elem_of (λ e : nat * nat, e.2 = i) w (k, i) Hin eq_refl) as [[n e] Hf].
  unfold first_waker. rewrite Hf. by eexists.
Qed.

Lemma first_waker_filter w k k' :
  first_waker i w = Some k → k ≠ k' → first_waker i (filter (λ e, e.1 ≠ k') w) = Some k.
Proof.
  unfold first_waker. induction w as [|[k0 i0] w IH]; cbn [list_find]; [done|]. intros Hf Hne.
  rewrite filter_cons. cbn [fst snd] in *. destruct (decide (i0 = i)) as [->|Hi].
  - cbn in Hf. injection Hf as ->. rewrite decide_True by done. cbn [list_find snd].
    by rewrite decide_True.
  - assert (Hf' : fst <$> (snd <$> list_find (λ e : nat * nat, e.2 = i) w) = Some k)
      by (by destruct (list_find (λ e : nat * nat, e.2 = i) w) as [[]|]).
    specialize (IH Hf' Hne). case_decide; [|done]. cbn [list_find snd].
    rewrite decide_False by done.
    by destruct (list_find (λ e : nat * nat, e.2 = i) (filter _ w)) as [[]|].
Qed.

(** The waker of a sleeping worker is a call whose next statement is the
    wake_up. *)
Lemma waker_of k s :
  wq_inv HZ m2j s → first_waker i (q_waking s) = Some k → waking_of k s = Some i.
Proof.
  intros [] Hk%first_waker_elem. destruct (waking_of k s) as [j|] eqn:Hj.
  - f_equal. eapply keys_unique; [done| |done]. by apply waking_of_Some.
  - apply waking_of_None in Hj. exfalso. apply Hj, list_elem_of_fmap. by exists (k, i).
Qed.

Lemma no_turn b s e :
  e ≠ WE (E_worker i) → (∀ k c, e ≠ WE (E_user k c)) → ¬ dispatch_turn b s e.
Proof. unfold dispatch_turn. intros Hw Hu. destruct b; [|done]. intros (k & c & _ & ->). by eapply Hu. Qed.

Lemma dispatch_user b pc k c s :
  ready b pc s →
  closer_by (dispatch_rank b pc) (wq_try HZ m2j (WE (E_user k c)) s) ∨
  stays b pc (WE (E_user k c)) s (wq_try HZ m2j (WE (E_user k c)) s).
Proof.
  intros Hr. pose proof Hr as []. unfold wq_try. cbn [wq_exec].
  destruct (w_user HZ m2j k c s) as [s'|] eqn:Hs; cbn [default from_option]; [|right].
  2: { apply stays_idle; [done|]. unfold dispatch_turn. destruct b; [|done].
       intros (k' & c' & Hk & [= <- <-]). apply waker_of in Hk; [|done].
       unfold w_user in Hs. by rewrite Hk in Hs. }
  pose proof (w_user_inv HZ m2j k c s s' rd_inv0 Hs) as Hinv. unfold w_user in Hs.
  destruct (waking_of k s) as [j|] eqn:Hk.
  - injection Hs as <-. destruct rd_running0 as (r & Hrun & Hnz).
    destruct b, (decide (j = i)) as [->|Hj].
    + left. right. exists pc. cbn in *. split; [|pose proof (wq_asleep _ _ _ rd_inv0 i rd_asleep0); simplify_eq; cbn; lia].
      split; try done; cbn; [|eauto]. rewrite list_lookup_insert_eq; [done|by eapply lookup_lt_Some].
    + right. split_and!.
      * split; try done; cbn; [|eauto]. by rewrite list_lookup_insert_ne.
      * intros e' (k' & c' & Hk' & ->). exists k', c'. split; [|done]. cbn.
        apply first_waker_filter; [done|]. intros ->. apply waker_of in Hk'; [congruence|done].
      * intros (k' & c' & Hk' & [= <- <-]). apply waker_of in Hk'; [congruence|done].
    + right. split_and!; [|done|by unfold dispatch_turn].
      split; try done; cbn; [|eauto]. rewrite list_lookup_insert_eq; [done|by eapply lookup_lt_Some].
    + right. split_and!; [|done|by unfold dispatch_turn].
      split; try done; cbn; [|eauto]. by rewrite list_lookup_insert_ne.
  - right. unfold w_sys in Hs.
    destruct (sys_exec HZ m2j (E_user k c) (q_sys s)) as [y|] eqn:He; [|done].
    cbn [mbind option_bind] in Hs.
    assert (Hno : ¬ dispatch_turn b s (WE (E_user k c))).
    { unfold dispatch_turn. destruct b; [|done]. intros (k' & c' & Hk' & [= <- <-]).
      apply waker_of in Hk'; [congruence|done]. }
    injection Hs as <-.
    assert (Hgo : ∀ w, (∀ k0, first_waker i (q_waking s) = Some k0 → first_waker i w = Some k0) →
      wq_inv HZ m2j {| q_sys := y; q_asleep := q_asleep s; q_waking := w; q_stopping := q_stopping s |} →
      stays b pc (WE (E_user k c)) s
        {| q_sys := y; q_asleep := q_asleep s; q_waking := w; q_stopping := q_stopping s |}).
    { intros w Hw Hi. by eapply stays_sys. }
    destruct (y_calls (q_sys s) !! k) as [[]|]; apply Hgo; try done.
    intros k0. by apply first_waker_app.
Qed.

(** The awake worker goes on, and does not go to sleep. *)
Lemma dispatch_worker pc s :
  ready false pc s → closer_by (dispatch_rank false pc) (wq_try HZ m2j (WE (E_worker i)) s).
Proof.
  intros Hr. pose proof Hr as []. destruct rd_running0 as (r & Hrun & Hnz).
  pose proof (wq_sys _ _ _ rd_inv0) as Hreach. pose proof (sys_inv_reachable HZ m2j _ Hreach) as Hsi.
  assert (Hi : (i < NUM_ACCELERATORS)%nat).
  { rewrite <- (si_workers_len _ Hsi). by eapply lookup_lt_Some. }
  destruct (worker_can_run HZ m2j i (q_sys s) Hsi Hi) as [y He].
  assert (Hx : w_worker HZ m2j i s = Some (set_q_sys y s)).
  { unfold w_worker, w_sys. rewrite rd_asleep0, rd_worker0, He. cbn [mbind option_bind].
    destruct (accel_parts (q_sys s) i Hsi Hi) as (a & e & q0 & pc0 & Ha & He0 & Hq0 & _).
    destruct rd_enq0 as [l Hl]. simplify_eq.
    pose proof (queue_history _ i a _ _ Hsi Ha Hl rd_deq0) as Hq%app_inv_head.
    unfold wait_over, wait_condition. rewrite Ha. cbn [from_option]. rewrite <- Hq.
    by destruct pc. }
  unfold wq_try. cbn [wq_exec]. rewrite Hx. cbn [default from_option].
  apply ready_worker; [done|done|]. by eapply w_worker_inv.
Qed.

Lemma dispatch_other_worker b pc j s :
  ready b pc s → j ≠ i ∨ b = true →
  stays b pc (WE (E_worker j)) s (wq_try HZ m2j (WE (E_worker j)) s).
Proof.
  intros Hr Hj. pose proof Hr as []. unfold wq_try. cbn [wq_exec].
  assert (Hno : ¬ dispatch_turn b s (WE (E_worker j))).
  { unfold dispatch_turn. destruct b; [by intros (? & ? & _ & ?)|]. intros [= ->]. by destruct Hj. }
  destruct (w_worker HZ m2j j s) as [s'|] eqn:Hs; cbn [default from_option]; [|by apply stays_idle].
  pose proof (w_worker_inv HZ m2j j s s' rd_inv0 Hs) as Hinv. unfold w_worker in Hs.
  destruct (decide (j = i)) as [->|Hne].
  { destruct Hj as [?| ->]; [done|]. by rewrite rd_asleep0 in Hs. }
  destruct (q_asleep s !! j) as [[]|]; [done| |done].
  assert (Hgo : w_sys HZ m2j (E_worker j) s = Some s' → stays b pc (WE (E_worker j)) s s').
  { unfold w_sys. destruct (sys_exec HZ m2j (E_worker j) (q_sys s)) as [y|] eqn:He; [|done].
    cbn [mbind option_bind]. intros [= <-]. eapply stays_sys; try done. congruence. }
  destruct (y_workers (q_sys s) !! j) as [[]|]; try (by apply Hgo).
  destruct (wait_over j (y_dev (q_sys s))); [by apply Hgo|]. injection Hs as <-.
  split_and!; [|done|done]. split; try done; cbn. by rewrite list_lookup_insert_ne.
Qed.

Lemma dispatch_timeout b pc j s :
  ready b pc s →
  closer_by (dispatch_rank b pc) (wq_try HZ m2j (WE_timeout j) s) ∨
  stays b pc (WE_timeout j) s (wq_try HZ m2j (WE_timeout j) s).
Proof.
  intros Hr. pose proof Hr as []. unfold wq_try. cbn [wq_exec].
  assert (Hno : ¬ dispatch_turn b s (WE_timeout j)) by (by apply no_turn).
  destruct (q_asleep s !! j) as [[]|] eqn:Hj; [|right; by apply stays_idle..].
  unfold w_sys. destruct (sys_exec HZ m2j (E_worker j) (q_sys (set_asleep j false s))) as [y|] eqn:He;
    cbn [mbind option_bind default from_option]; [|right; by apply stays_idle].
  assert (Hinv : wq_inv HZ m2j (set_q_sys y (set_asleep j false s))).
  { eapply (timeout_inv HZ m2j j s); [done|]. cbn [wq_exec]. rewrite Hj. unfold w_sys. by rewrite He. }
  destruct (decide (j = i)) as [->|Hne].
  - left. assert (b = true) as -> by congruence.
    pose proof (wq_asleep _ _ _ rd_inv0 i rd_asleep0) as Hpc. simplify_eq.
    assert (Hr' : ready false W_wait (set_asleep i false s)).
    { split; try done; [by apply set_awake_inv|]. cbn. rewrite list_lookup_insert_eq; [done|].
      by eapply lookup_lt_Some. }
    destruct (ready_worker _ _ y Hr' He Hinv) as [?|(pc' & ? & Hlt)]; [by left|right].
    exists pc'. split; [done|]. cbn in *. lia.
  - right. eapply (stays_sys b pc (E_worker j) s y); try done; [congruence|].
    cbn. by rewrite list_lookup_insert_ne.
Qed.

Lemma dispatch_step b pc e s :
  ready b pc s → e ≠ WE E_remove →
  closer_by (dispatch_rank b pc) (wq_try HZ m2j e s) ∨ stays b pc e s (wq_try HZ m2j e s).
Proof.
  intros Hr Hrem. pose proof Hr as [].
  assert (Hsys : ∀ e0, e = WE e0 → (∀ k c, e0 ≠ E_user k c) → (∀ j, e0 ≠ E_worker j) →
    wq_exec HZ m2j e s = w_sys HZ m2j e0 s → stays b pc e s (wq_try HZ m2j e s)).
  { intros e0 -> Hu Hw Hx. unfold wq_try. rewrite Hx.
    assert (Hno : ¬ dispatch_turn b s (WE e0)).
    { apply no_turn; [intros [= ->]; by apply (Hw i)|intros k c [= ->]; by apply (Hu k c)]. }
    destruct (w_sys HZ m2j e0 s) as [s'|] eqn:Hs; [|by apply stays_idle].
    assert (Hinv : wq_inv HZ m2j s') by (by eapply wq_exec_inv). unfold w_sys in Hs.
    destruct (sys_exec HZ m2j e0 (q_sys s)) as [y|] eqn:He; [|done].
    cbn [mbind option_bind] in Hs. injection Hs as <-. eapply stays_sys; try done; congruence. }
  destruct e as [[n|pc0|k c|j|]|j]; [right; by eapply Hsys..| | | |].
  - by apply dispatch_user.
  - destruct (decide (j = i ∧ b = false)) as [[-> ->]|Hd].
    + left. by apply dispatch_worker.
    + right. apply dispatch_other_worker; [done|]. destruct b; [by right|left]. naive_solver.
  - done.
  - by apply dispatch_timeout.
Qed.

(** A task that was taken stays taken. *)
Lemma deq_grows e y y' q0 :
  sys_exec HZ m2j e y = Some y' → y_deq y !! i = Some q0 → ∃ x, y_deq y' !! i = Some (q0 ++ x).
Proof.
  intros He Hq. assert (Hid : ∃ x, y_deq y !! i = Some (q0 ++ x)) by (exists []; by rewrite app_nil_r).
  destruct e as [n|pc0|k copied|j|]; cbn [sys_exec] in He.
  - by injection He as <-.
  - case_decide; [|done]. by injection He as <-.
  - destruct (y_calls y !! k); [|done]. cbn [mbind option_bind] in He.
    destruct (ustep _ _ _ _ _) as [[]]; by simplify_eq.
  - destruct (y_workers y !! j) as [pcj|]; [|done]. cbn [mbind option_bind] in He.
    destruct (y_stop y !! j); [|done]. cbn [mbind option_bind] in He.
    destruct (worker_step _ _ _ _ _ _) as [[pc'| |] d']; simplify_eq. cbn. unfold deq_effect.
    destruct pcj, pc'; try done. rewrite arr_upd_lookup, Hq. case_decide; [by eexists|].
    cbn. exists []. by rewrite app_nil_r.
  - destruct (remover_exec y) as [[[]]|]; [|done]. cbn in He. by simplify_eq.
Qed.

Lemma wq_try_sys e s :
  q_sys (wq_try HZ m2j e s) = q_sys s ∨ ∃ e0, sys_exec HZ m2j e0 (q_sys s) = Some (q_sys (wq_try HZ m2j e s)).
Proof.
  unfold wq_try. destruct (wq_exec HZ m2j e s) as [s'|] eqn:Hs; [|by left]. cbn [default from_option].
  assert (Hw : ∀ e0 s0 s1, w_sys HZ m2j e0 s0 = Some s1 → sys_exec HZ m2j e0 (q_sys s0) = Some (q_sys s1)).
  { intros e0 s0 s1. unfold w_sys. destruct (sys_exec HZ m2j e0 (q_sys s0)); [|done]. by intros [= <-]. }
  destruct e as [[n|pc|k c|j|]|j]; cbn [wq_exec] in Hs; [right; eexists; by apply Hw..| | | |].
  - unfold w_user in Hs. destruct (waking_of k s); [left; by injection Hs as <-|].
    destruct (w_sys HZ m2j (E_user k c) s) as [s1|] eqn:H1; [|done]. cbn [mbind option_bind] in Hs.
    right. exists (E_user k c). rewrite (Hw _ _ _ H1).
    destruct (y_calls (q_sys s) !! k) as [[]|]; by injection Hs as <-.
  - unfold w_worker in Hs. destruct (q_asleep s !! j) as [[]|]; [done| |done].
    destruct (y_workers (q_sys s) !! j) as [[]|]; try (right; eexists; by apply Hw).
    destruct (wait_over j _); [right; eexists; by apply Hw|left; by injection Hs as <-].
  - unfold w_remove in Hs. destruct (q_stopping s); [left; by injection Hs as <-|].
    destruct (w_sys HZ m2j E_remove s) as [s1|] eqn:H1; [|done]. cbn [mbind option_bind] in Hs.
    right. exists E_remove. rewrite (Hw _ _ _ H1).
    destruct (y_remover (q_sys s)), (y_remover (q_sys s1)); by injection Hs as <-.
  - destruct (q_asleep s !! j) as [[]|]; [|done..]. right. eexists. by apply (Hw _ (set_asleep j false s)).
Qed.

Lemma dispatched_stays e s : dispatched s → dispatched (wq_try HZ m2j e s).
Proof.
  intros [q' Hq]. unfold dispatched. destruct (wq_try_sys e s) as [->|[e0 He]]; [eauto|].
  destruct (deq_grows e0 _ _ _ He Hq) as [x Hx]. exists (q' ++ x). rewrite Hx. by rewrite <- app_assoc.
Qed.

Lemma dispatched_play es s : dispatched s → dispatched (wq_play HZ m2j es s).
Proof. revert s. induction es as [|e es IH]; intros s Hs; cbn; [done|]. by apply IH, dispatched_stays. Qed.

(** Every thread gets a turn: the worker, and each of the [n] calls. *)
Definition dispatch_round (n : nat) (es : list wevent) : Prop :=
  WE E_remove ∉ es ∧ WE (E_worker i) ∈ es ∧ ∀ k, (k < n)%nat → ∃ c, WE (E_user k c) ∈ es.

(** The event that is waited for is one that every round has. *)
Definition turn_known (n : nat) (b : bool) (s : wsys) : Prop :=
  b = true → ∃ k, (k < n)%nat ∧ first_waker i (q_waking s) = Some k.

Lemma turn_in_dispatch_round n es b pc s :
  dispatch_round n es → ready b pc s → turn_known n b s → ∃ e, e ∈ es ∧ dispatch_turn b s e.
Proof.
  intros (_ & Hw & Hu) Hr Hk. unfold dispatch_turn. destruct b; [|eauto].
  destruct (Hk eq_refl) as (k & Hlt & Hf). destruct (Hu k Hlt) as [c Hc]. eauto 10.
Qed.

Lemma dispatch_round_progress es b pc s :
  WE E_remove ∉ es → (∃ e, e ∈ es ∧ dispatch_turn b s e) → ready b pc s →
  closer_by (dispatch_rank b pc) (wq_play HZ m2j es s).
Proof.
  revert b pc s. induction es as [|e es IH]; intros b pc s Hrem (e0 & Hin & Ht) Hr;
    [by apply not_elem_of_nil in Hin|].
  apply not_elem_of_cons in Hrem as [Hrem0 Hrem]. cbn [wq_play].
  destruct (dispatch_step b pc e s Hr) as [Hc|(Hr' & Hturn & Hno)]; [congruence| |].
  - clear -Hc Hrem. revert Hc. generalize (wq_try HZ m2j e s), (dispatch_rank b pc). clear s b pc e.
    induction es as [|e es IH]; intros s n Hc; cbn [wq_play]; [done|]. apply not_elem_of_cons in Hrem as [? ?].
    apply IH; [done|]. destruct Hc as [Hd|(pc & Hr & Hlt)]; [left; by apply dispatched_stays|].
    destruct (dispatch_step false pc e s Hr) as [[?|(pc' & ? & ?)]|(? & _)]; [congruence|by left|..].
    + right. exists pc'. split; [done|]. lia.
    + right. eauto.
  - apply elem_of_cons in Hin as [->|Hin]; [done|]. apply IH; [done| |done]. eauto.
Qed.

Lemma dispatch_rounds n rounds b pc s :
  Forall (dispatch_round n) rounds → ready b pc s → turn_known n b s →
  (dispatch_rank b pc ≤ length rounds)%nat → dispatched (wq_play HZ m2j (concat rounds) s).
Proof.
  intros Hf. revert b pc s. induction Hf as [|es rounds He Hf IH]; intros b pc s Hr Hk Hle.
  { destruct pc, b; cbn in *; try done; lia. }
  cbn [concat]. rewrite wq_play_app.
  destruct (dispatch_round_progress es b pc s (proj1 He)) as [Hd|(pc' & Hr' & Hlt)]; [|done|..].
  - by eapply turn_in_dispatch_round.
  - by apply dispatched_play.
  - apply (IH false pc'); [done|done|]. cbn in Hle. lia.
Qed.

(** C16: The 100 ms of the workers' wait are never needed.  When a worker that
    is not being stopped is between two tasks and a task is at the head of its
    queue, four rounds in which the worker and the calls under way each get a
    turn make it take that task: if the worker sleeps, a call is about to
    wake it, and awake it finds the condition of its wait true. *)
Theorem dispatch_without_timeout rounds s pc a l :
  wq_reachable HZ m2j s → q_stopping s = None →
  dev_accelerators (y_dev (q_sys s)) !! i = Some a → a_running a ≠ 0 → a_task_queue a = t :: l →
  y_workers (q_sys s) !! i = Some pc → idle pc = true → y_deq (q_sys s) !! i = Some q →
  Forall (dispatch_round (length (y_calls (q_sys s)))) rounds → (4 ≤ length rounds)%nat →
  dispatched (wq_play HZ m2j (concat rounds) s).
Proof.
  intros Hs%wq_reachable_inv Hst Ha Hrun Hq Hpc Hidle Hdeq Hf Hle. pose proof Hs as [].
  pose proof (sys_inv_reachable HZ m2j _ wq_sys0) as Hsi.
  assert (Hi : (i < NUM_ACCELERATORS)%nat).
  { rewrite <- (si_workers_len _ Hsi). by eapply lookup_lt_Some. }
  destruct (lookup_lt_is_Some_2 (q_asleep s) i) as [b Hb]; [by rewrite (wq_len _ _ _ Hs)|].
  destruct (accel_parts (q_sys s) i Hsi Hi) as (a' & e & q0 & pc0 & Ha' & He & Hq0 & _). simplify_eq.
  pose proof (queue_history _ i a _ _ Hsi Ha He Hdeq) as Hh. rewrite Hq in Hh.
  apply (dispatch_rounds (length (y_calls (q_sys s))) rounds b pc); [done| | |].
  - split; try done; [exists l; by rewrite He, Hh|]. exists (a_running a).
    by rewrite (observed_lookup a_running _ _ _ Ha).
  - intros ->. destruct (wq_awake0 i Hb) as [[k Hk]|?]; [|..|congruence].
    { unfold wait_over, wait_condition. rewrite Ha. cbn. by rewrite Hq. }
    destruct (first_waker_exists _ _ Hk) as [k0 Hk0]. exists k0. split; [|done].
    eapply wq_calls0. by apply first_waker_elem.
  - destruct pc, b; cbn; lia.
Qed.
End Dispatch.

(** ** A sleeping worker with a task queued

    The worker of DLA0 found its queue empty and sleeps; the call has executed
    list_add_tail and not yet wake_up. *)

Definition demo_asleep_events : list wevent :=
  [WE (E_worker 0); WE (E_worker 0)] ++ (WE <$> take 7 (demo_submit 0)).
Definition demo_asleep : wsys :=
  wq_play demo_HZ demo_m2j demo_asleep_events (wq_init sys0).
Definition demo_asleep_accel : accel :=
  default zero_accel (dev_accelerators (y_dev (q_sys demo_asleep)) !! 0%nat).

Lemma demo_asleep_reachable : wq_reachable demo_HZ demo_m2j demo_asleep.
Proof. exists sys0, demo_asleep_events. split; [reflexivity|unfold demo_asleep; reflexivity]. Qed.

Lemma no_lost_wakeup_witness :
  q_asleep demo_asleep !! 0%nat = Some true ∧ a_task_queue demo_asleep_accel = [0%nat] ∧
  wake_pending 0 demo_asleep.
Proof.
  split_and!; [by vm_compute..|].
  apply (no_lost_wakeup demo_HZ demo_m2j demo_asleep 0 demo_asleep_accel demo_asleep_reachable);
    [by vm_compute..|left; by vm_compute].
Defined.

Definition demo_dispatch_round : list wevent := [WE (E_worker 0); WE (E_user 0 true)].

Lemma demo_dispatch_round_ok : dispatch_round 0 1 demo_dispatch_round.
Proof.
  unfold dispatch_round, demo_dispatch_round. split_and!.
  - rewrite !not_elem_of_cons. split_and!; [done..|apply not_elem_of_nil].
  - apply list_elem_of_here.
  - intros k Hk. exists true. assert (k = 0%nat) as -> by lia. apply list_elem_of_further, list_elem_of_here.
Qed.

Lemma demo_asleep_calls : length (y_calls (q_sys demo_asleep)) = 1%nat.
Proof. by vm_compute. Qed.

(** Four rounds of the worker and the call, and no timeout. *)
Lemma dispatch_without_timeout_witness :
  q_asleep demo_asleep !! 0%nat = Some true ∧
  ∃ q', y_deq (q_sys (wq_play demo_HZ demo_m2j
    (concat (replicate 4 demo_dispatch_round)) demo_asleep)) !! 0%nat = Some ([] ++ 0%nat :: q').
Proof.
  split; [by vm_compute|].
  apply (dispatch_without_timeout demo_HZ demo_m2j 0 0 [] (replicate 4 demo_dispatch_round)
    demo_asleep W_wait demo_asleep_accel [] demo_asleep_reachable); try (vm_compute; congruence).
  - rewrite demo_asleep_calls. apply Forall_replicate, demo_dispatch_round_ok.
  - rewrite length_replicate. lia.
Defined.
