(* ===== verification/WaitStop.v ===== *)
(** * The removal, when waiting workers sleep

    accel_stop_workers (src/accel_manager.c) on the system of WaitQueue.v: every
    thread may be asleep in wait_event_interruptible_timeout when the removal
    starts, and no 100 ms timeout has to expire.  The wake_up after [running] is
    cleared and kthread_stop reach every thread: the removal ends. *)

From S2P Require Import Prelude CLayout Device UserMem Uapi TaskManager Pool AccelManager Worker DevInit Chardev System Frame SystemInv Schedule Shutdown Teardown Calls WaitQueue.

Section WaitStop.
Context (HZ : Z) (m2j : Z → Z).
Notation wq_try := (wq_try HZ m2j).
Notation wq_play := (wq_play HZ m2j).

(** ** The thread that is being stopped is awake *)

Record stop_inv (s : wsys) : Prop := {
  st_inv : wq_inv HZ m2j s;
  st_awake : ∀ i, y_remover (q_sys s) = R_join i → q_asleep s !! i = Some false;
}.

Lemma st_removal s : stop_inv s → removal_inv (q_sys s).
Proof. intros [Hs _]. apply (removal_inv_reachable HZ m2j), Hs. Qed.

Lemma st_sys s : stop_inv s → sys_inv (q_sys s).
Proof. intros [Hs _]. apply (sys_inv_reachable HZ m2j), Hs. Qed.

(** Its wait is over: it does not go back to sleep. *)
Lemma join_wait_over s i :
  stop_inv s → y_remover (q_sys s) = R_join i → wait_over i (y_dev (q_sys s)) = true.
Proof.
  intros Hs Hr. pose proof (ri_remover _ (st_removal s Hs)) as Hok. unfold remover_ok in Hok.
  rewrite Hr in Hok. destruct Hok as (Hi & Hrun & _).
  destruct (accel_parts (q_sys s) i (st_sys s Hs) Hi) as (a & _ & _ & _ & Ha & _).
  rewrite (observed_lookup a_running _ _ _ Ha) in Hrun. injection Hrun as Hz.
  unfold wait_over, wait_condition. rewrite Ha. cbn. by rewrite Hz, orb_true_r.
Qed.

Lemma w_sys_remover e s s' :
  w_sys HZ m2j e s = Some s' → e ≠ E_remove → y_remover (q_sys s') = y_remover (q_sys s).
Proof.
  unfold w_sys. destruct (sys_exec HZ m2j e (q_sys s)) as [y|] eqn:He; [|done]. intros [= <-] Hne.
  pose proof (remover_same HZ m2j e (q_sys s) Hne) as Hs. unfold sys_try in Hs. by rewrite He in Hs.
Qed.

(** Only the remover's own statements change its place and its wake_up. *)
Lemma others_keep e s s' :
  wq_exec HZ m2j e s = Some s' → e ≠ WE E_remove →
  y_remover (q_sys s') = y_remover (q_sys s) ∧ q_stopping s' = q_stopping s ∧
  (∀ i, q_asleep s !! i = Some false → wait_over i (y_dev (q_sys s)) = true → q_asleep s' !! i = Some false).
Proof.
  assert (Hw : ∀ e0 s0 s1, w_sys HZ m2j e0 s0 = Some s1 → e0 ≠ E_remove →
    y_remover (q_sys s1) = y_remover (q_sys s0) ∧ q_stopping s1 = q_stopping s0 ∧ q_asleep s1 = q_asleep s0).
  { intros e0 s0 s1 Hs Hne. split; [by eapply w_sys_remover|]. unfold w_sys in Hs.
    destruct (sys_exec HZ m2j e0 (q_sys s0)); [|done]. by injection Hs as <-. }
  intros Hs Hne. destruct e as [[n|pc|k c|j|]|j]; cbn [wq_exec] in Hs; [| | | |done|].
  - destruct (Hw _ _ _ Hs) as (? & ? & ->); [done|]. auto.
  - destruct (Hw _ _ _ Hs) as (? & ? & ->); [done|]. auto.
  - unfold w_user in Hs. destruct (waking_of k s) as [i'|].
    + injection Hs as <-. split_and!; [done..|]. intros i Hi _. cbn.
      destruct (decide (i = i')) as [->|]; [|by rewrite list_lookup_insert_ne].
      rewrite list_lookup_insert_eq; [done|]. by eapply lookup_lt_Some.
    + destruct (w_sys HZ m2j (E_user k c) s) as [s1|] eqn:H1; [|done]. cbn [mbind option_bind] in Hs.
      destruct (Hw _ _ _ H1) as (Hr & Hq & Ha); [done|].
      destruct (y_calls (q_sys s) !! k) as [[]|]; injection Hs as <-; cbn; rewrite Ha; auto.
  - unfold w_worker in Hs. destruct (q_asleep s !! j) as [[]|] eqn:Hj; [done| |done].
    assert (Hgo : w_sys HZ m2j (E_worker j) s = Some s' →
      y_remover (q_sys s') = y_remover (q_sys s) ∧ q_stopping s' = q_stopping s ∧
      (∀ i, q_asleep s !! i = Some false → wait_over i (y_dev (q_sys s)) = true → q_asleep s' !! i = Some false)).
    { intros H1. destruct (Hw _ _ _ H1) as (? & ? & ->); [done|]. auto. }
    destruct (y_workers (q_sys s) !! j) as [[]|]; try (by apply Hgo).
    destruct (wait_over j (y_dev (q_sys s))) eqn:Ho; [by apply Hgo|]. injection Hs as <-.
    split_and!; [done..|]. intros i Hi Hover. cbn. rewrite list_lookup_insert_ne; [done|congruence].
  - destruct (q_asleep s !! j) as [[]|] eqn:Hj; [|done..].
    destruct (Hw _ _ _ Hs) as (Hr & Hq & ->); [done|]. split_and!; [done..|]. intros i Hi _. cbn.
    destruct (decide (i = j)) as [->|]; [congruence|by rewrite list_lookup_insert_ne].
Qed.

Lemma remover_keep s s' :
  stop_inv s → w_remove HZ m2j s = Some s' →
  (∀ i, y_remover (q_sys s') = R_join i → q_asleep s' !! i = Some false).
Proof.
  intros Hinv Hs i Hj. unfold w_remove in Hs. destruct (q_stopping s) as [j|].
  { injection Hs as <-. cbn in *. pose proof (st_awake s Hinv i Hj) as Hi.
    destruct (decide (i = j)) as [->|]; [|by rewrite list_lookup_insert_ne].
    rewrite list_lookup_insert_eq; [done|]. by eapply lookup_lt_Some. }
  unfold w_sys in Hs. destruct (sys_exec HZ m2j E_remove (q_sys s)) as [y|] eqn:He; [|done].
  cbn [mbind option_bind q_sys set_q_sys] in Hs.
  assert (Hy : y_remover (q_sys s') = y_remover y)
    by (destruct (y_remover (q_sys s)), (y_remover y) eqn:E; injection Hs as <-; done).
  rewrite Hy in Hj. cbn [sys_exec] in He. unfold remover_exec in He.
  pose proof (ri_remover _ (st_removal s Hinv)) as Hok. unfold remover_ok in Hok.
  destruct (y_remover (q_sys s)) as [|j|j|j|] eqn:E.
  - cbn in He. injection He as <-. done.
  - destruct (dev_accelerators _ !! j); case_decide; cbn in He; simplify_eq; done.
  - cbn in He. injection He as <-. cbn in Hj. injection Hj as <-. cbn in Hs. injection Hs as <-. cbn.
    rewrite list_lookup_insert_eq; [done|]. rewrite (wq_len _ _ _ (st_inv s Hinv)). apply Hok.
  - case_decide; [|done]. cbn in He. by injection He as <-.
  - done.
Qed.

Lemma remover_or_other e : e = WE E_remove ∨ e ≠ WE E_remove.
Proof. destruct e as [[| | | |]|]; auto. Qed.

Lemma stop_inv_try e s : stop_inv s → stop_inv (wq_try e s).
Proof.
  intros Hinv. destruct (wq_exec HZ m2j e s) as [s'|] eqn:Hs; unfold WaitQueue.wq_try; rewrite Hs; [|done].
  cbn [from_option]. split; [eapply wq_exec_inv; [apply Hinv|done]|].
  destruct (remover_or_other e) as [->|Hne]; [by eapply remover_keep|].
  destruct (others_keep e s s' Hs Hne) as (Hr & _ & Ha). intros i Hj.
  apply Ha; [apply Hinv|apply join_wait_over; [done|]]; by rewrite <- Hr.
Qed.

Lemma stop_inv_play es s : stop_inv s → stop_inv (wq_play es s).
Proof. revert s. induction es as [|e es IH]; intros s Hs; [done|]. by apply IH, stop_inv_try. Qed.

Lemma stop_inv_reachable s : wq_reachable HZ m2j s → stop_inv s.
Proof.
  intros (y & es & Hy & <-). apply stop_inv_play. split.
  - apply wq_reachable_inv. by exists y, [].
  - intros i Hr. cbn in Hr. by rewrite Hy in Hr.
Qed.

(** ** The removal moves on *)

(** A wake_up of its own is one more statement. *)
Definition stop_rank (s : wsys) : nat :=
  2 * removal_rank (q_sys s) + (if q_stopping s then 1 else 0).

Definition stop_turn (s : wsys) : event :=
  match q_stopping s with Some _ => E_remove | None => removal_turn (q_sys s) end.

(** The remover's statement, when it runs, lowers the rank. *)
Lemma remover_lowers s s' :
  stop_inv s → w_remove HZ m2j s = Some s' → (stop_rank s' < stop_rank s)%nat.
Proof.
  intros Hinv Hs. unfold w_remove in Hs. unfold stop_rank.
  destruct (q_stopping s) as [j|]; [injection Hs as <-; cbn; lia|].
  unfold w_sys in Hs. destruct (sys_exec HZ m2j E_remove (q_sys s)) as [y|] eqn:He; [|done].
  cbn [mbind option_bind q_sys set_q_sys] in Hs.
  assert (Hlt : (removal_rank y < removal_rank (q_sys s))%nat).
  { cbn [sys_exec] in He. destruct (remover_exec (q_sys s)) as [[[r' d'] stop']|] eqn:Hr; [|done].
    cbn [mbind option_bind] in He. injection He as <-.
    by eapply remover_rank; [apply st_sys|apply st_removal|exact Hr|..]. }
  assert (Hy : q_sys s' = y)
    by (destruct (y_remover (q_sys s)), (y_remover y); injection Hs as <-; done).
  rewrite Hy. destruct (q_stopping s'); lia.
Qed.

(** The turn's statement runs. *)
Lemma turn_lowers s :
  stop_inv s → stop_rank s ≠ 0%nat → (stop_rank (wq_try (WE (stop_turn s)) s) < stop_rank s)%nat.
Proof.
  intros Hinv H0. pose proof (st_sys s Hinv) as Hsi. pose proof (st_removal s Hinv) as Hri.
  pose proof (wq_sys _ _ _ (st_inv s Hinv)) as Hreach.
  destruct (stop_turn s) as [| | |i|] eqn:Ht.
  1-3: unfold stop_turn, removal_turn in Ht; destruct (q_stopping s); [done|];
    destruct (y_remover (q_sys s)); try done; by case_decide.
  - assert (Hq : q_stopping s = None ∧ removal_turn (q_sys s) = E_worker i).
    { unfold stop_turn in Ht. by destruct (q_stopping s). }
    destruct Hq as [Hq Hturn]. assert (Hr : y_remover (q_sys s) = R_join i).
    { unfold removal_turn in Hturn. destruct (y_remover (q_sys s)); try done. case_decide; by simplify_eq. }
    pose proof (ri_remover _ Hri) as Hok. unfold remover_ok in Hok. rewrite Hr in Hok.
    destruct (worker_can_run HZ m2j i (q_sys s) Hsi (proj1 Hok)) as [y He].
    assert (Hx : w_worker HZ m2j i s = Some (set_q_sys y s)).
    { unfold w_worker, w_sys. rewrite (st_awake s Hinv i Hr), (join_wait_over s i Hinv Hr), He.
      by destruct (y_workers (q_sys s) !! i) as [[]|]. }
    assert (Hnew : wq_try (WE (E_worker i)) s = set_q_sys y s)
      by (unfold WaitQueue.wq_try; cbn [wq_exec]; by rewrite Hx).
    rewrite Hnew. unfold stop_rank. cbn. rewrite Hq.
    assert (Hy : y = sys_try HZ m2j (E_worker i) (q_sys s)) by (unfold sys_try; by rewrite He).
    destruct (removal_progress HZ m2j (E_worker i) (q_sys s) Hreach) as [Hlt|(_ & _ & _ & Hne)];
      [congruence|rewrite <- Hy in Hlt; lia|congruence].
  - assert (Hx : is_Some (w_remove HZ m2j s)).
    { unfold w_remove. destruct (q_stopping s) as [j|] eqn:Hq; [done|].
      assert (Hturn : removal_turn (q_sys s) = E_remove) by (unfold stop_turn in Ht; by rewrite Hq in Ht).
      destruct (remover_runs (q_sys s) Hsi Hri Hturn) as [[[r' d'] stop'] He].
      { intros Hd. apply H0. unfold stop_rank. rewrite Hq. by rewrite (proj2 (rank_done HZ m2j _ Hreach) Hd). }
      unfold w_sys. cbn [sys_exec]. by rewrite He. }
    destruct Hx as [s' Hx]. unfold WaitQueue.wq_try. cbn [wq_exec]. rewrite Hx.
    by apply remover_lowers.
Qed.

(** Everything else lowers the rank or leaves it to the same statement. *)
Definition same_turn (s s' : wsys) : Prop :=
  stop_rank s' = stop_rank s ∧ stop_turn s' = stop_turn s.

Lemma removal_same_turn e s s' :
  reachable HZ m2j (q_sys s) → sys_exec HZ m2j e (q_sys s) = Some (q_sys s') →
  q_stopping s' = q_stopping s → (stop_rank s' < stop_rank s)%nat ∨ same_turn s s'.
Proof.
  intros Hr He Hq. unfold same_turn, stop_rank, stop_turn. rewrite Hq.
  assert (Hy : q_sys s' = sys_try HZ m2j e (q_sys s)) by (unfold sys_try; by rewrite He).
  destruct (decide (y_remover (q_sys s) = R_done)) as [Hd|Hd].
  - right. rewrite Hy. pose proof (done_stays HZ m2j e _ Hd) as Hd'.
    unfold removal_rank, removal_turn. by rewrite Hd, Hd'.
  - rewrite Hy. destruct (removal_progress HZ m2j e (q_sys s) Hr Hd) as [Hlt|(-> & _ & -> & _)];
      [left; lia|by right].
Qed.

Lemma other_keeps e s :
  stop_inv s → e ≠ WE (stop_turn s) →
  (stop_rank (wq_try e s) < stop_rank s)%nat ∨ same_turn s (wq_try e s).
Proof.
  intros Hinv Hne. destruct (remover_or_other e) as [->|Hnr].
  - unfold WaitQueue.wq_try. cbn [wq_exec]. destruct (w_remove HZ m2j s) as [s'|] eqn:Hs; [|by right].
    left. by apply remover_lowers.
  - assert (Hq : q_stopping (wq_try e s) = q_stopping s).
    { unfold WaitQueue.wq_try. destruct (wq_exec HZ m2j e s) as [s'|] eqn:Hs; [|done].
      by destruct (others_keep e s s' Hs Hnr) as (_ & ? & _). }
    destruct (wq_try_sys HZ m2j e s) as [Hsame|[e0 He0]].
    + right. unfold same_turn, stop_rank, stop_turn. by rewrite Hsame, Hq.
    + eapply removal_same_turn; [apply Hinv|exact He0|done].
Qed.

Lemma turn_or_other e s : e = WE (stop_turn s) ∨ e ≠ WE (stop_turn s).
Proof.
  assert (Ht : stop_turn s = E_remove ∨ ∃ i, stop_turn s = E_worker i).
  { unfold stop_turn, removal_turn. destruct (q_stopping s); [auto|].
    destruct (y_remover (q_sys s)); auto. case_decide; eauto. }
  destruct Ht as [->|[i ->]]; destruct e as [[| | |j|]|]; try (by left); try (by right).
  - destruct (decide (j = i)) as [->|]; [by left|right; congruence].
Qed.

Lemma stop_rank_le e s : stop_inv s → (stop_rank (wq_try e s) ≤ stop_rank s)%nat.
Proof.
  intros Hinv. destruct (turn_or_other e s) as [->|Hne].
  - destruct (decide (stop_rank s = 0%nat)) as [H0|H0]; [|pose proof (turn_lowers s Hinv H0); lia].
    pose proof (wq_sys _ _ _ (st_inv s Hinv)) as Hreach.
    assert (Hq : q_stopping s = None ∧ removal_rank (q_sys s) = 0%nat)
      by (unfold stop_rank in H0; destruct (q_stopping s); split; done || lia).
    destruct Hq as [Hq Hd%(rank_done HZ m2j)]; [|done].
    assert (Hn : wq_exec HZ m2j (WE (stop_turn s)) s = None).
    { unfold stop_turn, removal_turn. rewrite Hq, Hd. cbn [wq_exec]. unfold w_remove, w_sys.
      rewrite Hq. cbn [sys_exec]. unfold remover_exec. by rewrite Hd. }
    unfold WaitQueue.wq_try. by rewrite Hn.
  - destruct (other_keeps e s Hinv Hne) as [?|[-> _]]; lia.
Qed.

Lemma stop_play_le es s : stop_inv s → (stop_rank (wq_play es s) ≤ stop_rank s)%nat.
Proof.
  revert s. induction es as [|e es IH]; intros s Hs; [done|]. cbn [WaitQueue.wq_play].
  pose proof (IH _ (stop_inv_try e s Hs)). pose proof (stop_rank_le e s Hs). lia.
Qed.

Lemma stop_turn_progress es s :
  stop_inv s → stop_rank s ≠ 0%nat → WE (stop_turn s) ∈ es → (stop_rank (wq_play es s) < stop_rank s)%nat.
Proof.
  revert s. induction es as [|e es IH]; intros s Hs H0 Hin; [by apply not_elem_of_nil in Hin|].
  cbn [WaitQueue.wq_play]. pose proof (stop_inv_try e s Hs) as Hs'. pose proof (stop_play_le es _ Hs') as Hle.
  destruct (turn_or_other e s) as [->|Hne]; [pose proof (turn_lowers s Hs H0); lia|].
  destruct (other_keeps e s Hs Hne) as [?|[Heq Hturn]]; [lia|].
  rewrite <- Heq. apply IH; [done|congruence|]. rewrite Hturn.
  apply elem_of_cons in Hin as [He|]; [by rewrite He in Hne|done].
Qed.

(** Each round has a turn of the remover and of every worker. *)
Definition stop_round (es : list wevent) : Prop :=
  WE E_remove ∈ es ∧ ∀ i, (i < NUM_ACCELERATORS)%nat → WE (E_worker i) ∈ es.

Lemma turn_in_stop_round es s : stop_inv s → stop_round es → WE (stop_turn s) ∈ es.
Proof.
  intros Hs [Hrem Hw]. unfold stop_turn, removal_turn. destruct (q_stopping s); [done|].
  pose proof (ri_remover _ (st_removal s Hs)) as Hok. unfold remover_ok in Hok.
  destruct (y_remover (q_sys s)); try done. case_decide; [done|]. apply Hw, Hok.
Qed.

(** C8: The removal of the driver terminates, and needs no timeout.  From any
    reachable state of the system in which waiting workers sleep, with any
    calls, cancellations and clock in between, whatever the three workers are
    doing and however long their queues are, 119 rounds of a schedule that lets
    the remover and each worker run bring accel_stop_workers to its end: its
    wake-ups reach every sleeping thread before kthread_stop waits for it. *)
Theorem removal_without_timeout rounds s :
  wq_reachable HZ m2j s → Forall stop_round rounds → (2 * removal_bound + 1 ≤ length rounds)%nat →
  y_remover (q_sys (wq_play (concat rounds) s)) = R_done.
Proof.
  intros Hs%stop_inv_reachable Hf Hlen.
  assert (Hrank : (stop_rank s ≤ length rounds)%nat).
  { pose proof (removal_rank_bound _ (st_removal s Hs)). unfold stop_rank. destruct (q_stopping s); lia. }
  clear Hlen. revert s Hs Hrank. induction Hf as [|es rounds Hes Hf IH]; intros s Hs Hrank; cbn [concat length] in *.
  { cbn [WaitQueue.wq_play]. apply (rank_done HZ m2j); [apply Hs|]. unfold stop_rank in Hrank. lia. }
  rewrite wq_play_app. apply IH; [by apply stop_inv_play|].
  pose proof (stop_play_le es s Hs) as Hle. destruct (decide (stop_rank s = 0%nat)) as [H0|H0]; [lia|].
  assert (Hlt : (stop_rank (wq_play es s) < stop_rank s)%nat); [|lia].
  apply stop_turn_progress; [done|done|by apply turn_in_stop_round].
Qed.
End WaitStop.

(** ** The removal of sleeping workers *)

Definition demo_stop_round : list wevent := WE <$> demo_round.

Lemma demo_stop_round_ok : stop_round demo_stop_round.
Proof.
  destruct demo_removal_round as [Hrem Hw]. split; [by apply list_elem_of_fmap_2|].
  intros i Hi. by apply list_elem_of_fmap_2, Hw.
Qed.

Lemma removal_without_timeout_witness :
  q_asleep demo_asleep !! 0%nat = Some true ∧
  y_remover (q_sys (wq_play demo_HZ demo_m2j
    (concat (replicate (2 * removal_bound + 1) demo_stop_round)) demo_asleep)) = R_done.
Proof.
  split; [by vm_compute|]. apply removal_without_timeout.
  - exact demo_asleep_reachable.
  - apply Forall_replicate, demo_stop_round_ok.
  - by rewrite length_replicate.
Defined.
