(* ===== verification/Solo.v ===== *)
(** * The statement machine and the handler agree

    System.v describes a request statement by statement, Chardev.v as one
    function.  Run alone, the machine does what the function does. *)

From S2P Require Import Prelude CLayout Device UserMem Uapi TaskManager Pool AccelManager Worker DevInit Chardev System Schedule IoctlSpec.

Section Solo.
Context (HZ now : Z) (copied : bool).

(** [n] statements of one call. *)
Fixpoint urun (n : nat) (pc : upc) : KM dev upc :=
  match n with
  | O => mret pc
  | S n' => pc' ← ustep HZ now copied pc; urun n' pc'
  end.

Lemma urun_S n pc pc' d d' :
  ustep HZ now copied pc d = (Ok pc', d') → urun (S n) pc d = urun n pc' d'.
Proof. intros E. cbn [urun]. unfold mbind, KM_bind. by rewrite E. Qed.

Lemma urun_app n m pc pc' d d' :
  urun n pc d = (Ok pc', d') → urun (n + m) pc d = urun m pc' d'.
Proof.
  revert pc d. induction n as [|n IH]; intros pc d; cbn [urun Nat.add].
  - by intros [= -> ->].
  - unfold mbind, KM_bind. destruct (ustep HZ now copied pc d) as [[pc1| |] d1]; [|done..].
    apply IH.
Qed.

(** The two scans, from slot [i] on. *)
Definition scan_pc (pc : nat → upc) (hit : nat → upc) (id : Z) : Prop :=
  ∀ i d, ustep HZ now copied (pc i) d =
    (if decide (i < MAX_TASKS)%nat then
       tk ← get_task i; mret (if task_matches id tk then hit i else pc (S i))
     else mret (U_ret (- ENOENT))) d.

Lemma scan_found pc hit id d j t :
  scan_pc pc hit id → length (dev_tasks d) = MAX_TASKS → find_task id d = Some (j, t) →
  ∀ k i, (i + k = j)%nat → urun (S k) (pc i) d = (Ok (hit j), d).
Proof.
  intros Hs Hl (Hj & Hm & Hbefore)%list_find_Some.
  assert (Hlt : (j < MAX_TASKS)%nat) by (rewrite <- Hl; by eapply lookup_lt_Some).
  induction k as [|k IH]; intros i Hi.
  - assert (i = j) as -> by lia. erewrite urun_S; [done|].
    rewrite Hs, decide_True by done. unfold mbind, KM_bind.
    by rewrite (get_task_run _ _ _ Hj), Hm.
  - destruct (lookup_lt_is_Some_2 (dev_tasks d) i) as [tk Ht]; [lia|].
    erewrite urun_S; [apply (IH (S i)); lia|].
    rewrite Hs, decide_True by lia. unfold mbind, KM_bind.
    rewrite (get_task_run _ _ _ Ht). pose proof (Hbefore i tk Ht ltac:(lia)) as Hn.
    destruct (task_matches id tk); done.
Qed.

Lemma scan_missing pc hit id d :
  scan_pc pc hit id → length (dev_tasks d) = MAX_TASKS → find_task id d = None →
  ∀ k i, (i + k = MAX_TASKS)%nat → urun (S k) (pc i) d = (Ok (U_ret (- ENOENT)), d).
Proof.
  intros Hs Hl Hf%list_find_None. rewrite Forall_lookup in Hf.
  induction k as [|k IH]; intros i Hi.
  - erewrite urun_S; [done|]. by rewrite Hs, decide_False by lia.
  - destruct (lookup_lt_is_Some_2 (dev_tasks d) i) as [tk Ht]; [lia|].
    erewrite urun_S; [apply (IH (S i)); lia|].
    rewrite Hs, decide_True by lia. unfold mbind, KM_bind.
    rewrite (get_task_run _ _ _ Ht). pose proof (Hf i tk Ht) as Hn. cbn in Hn.
    destruct (task_matches id tk); done.
Qed.

Ltac ustep_run :=
  erewrite urun_S;
  [ | cbn [ustep]; unfold mbind, KM_bind, mret, KM_ret;
      first [ erewrite upd_task_run; [reflexivity|lookup_solve]
            | erewrite get_task_run; [reflexivity|lookup_solve]
            | reflexivity ] ].

Lemma cancel_solo id d :
  length (dev_tasks d) = MAX_TASKS →
  ∃ n, urun n (U_cancel id 0) d =
    match find_task id d with
    | Some (i, _) => (Ok (U_ret 0), upd_tasks (arr_upd i cancelled) d)
    | None => (Ok (U_ret (- ENOENT)), d)
    end.
Proof.
  intros Hl. assert (Hs : scan_pc (U_cancel id) U_c_state id) by done.
  destruct (find_task id d) as [[i t]|] eqn:Hf.
  - exists (S i + 3)%nat. rewrite (urun_app _ _ _ _ _ _ (scan_found _ _ _ _ _ _ Hs Hl Hf i 0 eq_refl)).
    apply find_task_Some in Hf as [Ht _]. do 3 ustep_run. cbn [urun]. unfold mret, KM_ret.
    unfold upd_tasks, set_tasks. cbn. by rewrite !arr_upd_compose.
  - eexists. exact (scan_missing _ _ _ _ Hs Hl Hf MAX_TASKS 0 eq_refl).
Qed.

Lemma query_solo id d :
  length (dev_tasks d) = MAX_TASKS →
  ∃ n, urun n (U_query id 0) d =
    match find_task id d with
    | Some (i, t) => (Ok (U_ret (if copied then 0 else - EFAULT)), d)
    | None => (Ok (U_ret (- ENOENT)), d)
    end.
Proof.
  intros Hl. assert (Hs : scan_pc (U_query id) U_q_state id) by done.
  destruct (find_task id d) as [[i t]|] eqn:Hf.
  - exists (S i + 4)%nat. rewrite (urun_app _ _ _ _ _ _ (scan_found _ _ _ _ _ _ Hs Hl Hf i 0 eq_refl)).
    apply find_task_Some in Hf as [Ht _]. by do 4 ustep_run.
  - eexists. exact (scan_missing _ _ _ _ Hs Hl Hf MAX_TASKS 0 eq_refl).
Qed.

Lemma submit_solo desc d :
  dev_ok d → 0 <= d_accel_type desc →
  ∃ n, urun n (U_check desc) d =
    match submit_error desc, dev_free_tasks d with
    | Some e, _ => (Ok (U_ret e), d)
    | None, [] => (Ok (U_ret (- ENOMEM)), d)
    | None, i :: _ =>
        (Ok (U_ret (if copied then 0 else - EFAULT)), submitted i now desc d)
    end.
Proof.
  intros Hok Hty. destruct (submit_error desc) as [e|] eqn:He.
  { exists 1%nat. erewrite urun_S; [reflexivity|]. cbn [ustep]. by rewrite He. }
  assert (Hty3 : d_accel_type desc < 3).
  { unfold submit_error in He. destruct (Z.leb_spec 3 (d_accel_type desc)); [done|lia]. }
  pose proof (accounted_next _ (dok_accounted _ Hok) (dok_pool _ Hok)).
  pose proof (task_alloc_ok _ (dok_pool _ Hok) ltac:(lia)) as Halloc.
  assert (Hcheck : ustep HZ now copied (U_check desc) d = (Ok (U_alloc desc), d))
    by (cbn [ustep]; by rewrite He).
  destruct (dev_free_tasks d) as [|i l] eqn:Hf.
  { exists 2%nat. erewrite urun_S by exact Hcheck. erewrite urun_S; [reflexivity|].
    cbn [ustep]. unfold mbind, KM_bind. by rewrite Halloc. }
  destruct (pool_inv_head i l _ (dok_pool _ Hok) Hf) as (_ & _ & _ & t & Ht & _).
  destruct (lookup_lt_is_Some_2 (dev_accelerators d) (Z.to_nat (d_accel_type desc))) as [a Ha].
  { rewrite (dok_accels _ Hok). unfold NUM_ACCELERATORS. lia. }
  exists 7%nat. erewrite urun_S by exact Hcheck.
  erewrite urun_S by (cbn [ustep]; unfold mbind, KM_bind; by rewrite Halloc).
  ustep_run. erewrite urun_S.
  2: { cbn [ustep]. unfold mbind, KM_bind, mret, KM_ret.
       erewrite get_task_run by lookup_solve. cbn [t_accel_type fill_task].
       change (t_accel_type (fill_task desc ?x)) with (d_accel_type desc).
       change (Z.of_nat NUM_ACCELERATORS) with 3. rewrite (proj2 (Z.leb_gt _ _)) by lia.
       erewrite upd_task_run by lookup_solve. reflexivity. }
  ustep_run. erewrite urun_S.
  2: { cbn [ustep]. unfold mbind, KM_bind, mret, KM_ret.
       erewrite upd_accel_run by (cbn; exact Ha). reflexivity. }
  ustep_run. cbn [urun]. unfold mret, KM_ret.
  unfold submitted, upd_accelerators, upd_tasks, set_accelerators, set_tasks. cbn.
  by rewrite !arr_upd_compose.
Qed.
End Solo.

Lemma info_solo HZ now copied info d :
  length (dev_accelerators d) = NUM_ACCELERATORS → representable info →
  urun HZ now copied (S (S O)) (U_info info) d =
  match dev_accelerators d !! Z.to_nat (i_accel_type info) with
  | None => (Ok (U_ret (- EINVAL)), d)
  | Some a => (Ok (U_ret (if copied then 0 else - EFAULT)), d)
  end.
Proof.
  intros Hl Hrep%accel_info_type_range. unfold is_u32 in Hrep.
  cbn [urun ustep]. unfold NUM_ACCELERATORS in Hl. change (Z.of_nat NUM_ACCELERATORS) with 3.
  destruct (Z.leb_spec 3 (i_accel_type info)) as [Hi|Hi].
  - by rewrite lookup_ge_None_2 by lia.
  - destruct (lookup_lt_is_Some_2 (dev_accelerators d) (Z.to_nat (i_accel_type info)))
      as [a Ha]; [lia|].
    rewrite Ha. unfold mbind, KM_bind, mret, KM_ret. by rewrite (get_accel_run _ _ _ Ha).
Qed.

(** *** The machine of a request and its handler end alike *)

Section Agrees.
Context {U : Type} `{UserMemoryLaws U} (HZ uarg : Z) (w : world U).
Hypothesis Hok : dev_ok (w_dev w).

Definition agrees (cmd : Z) (pc : upc) : Prop :=
  is_entry pc ∧ ∃ n copied code d' u,
    urun HZ (w_jiffies w) copied n pc (w_dev w) = (Ok (U_ret code), d') ∧
    cortex_forge_ioctl HZ cmd uarg w = (Ok code, set_w_user u (set_w_dev d' w)).

(** A run that ends in one step for each answer of [copy_to_user]. *)
Lemma agrees_intro cmd pc n copied code d' u :
  is_entry pc → urun HZ (w_jiffies w) copied n pc (w_dev w) = (Ok (U_ret code), d') →
  cortex_forge_ioctl HZ cmd uarg w = (Ok code, set_w_user u (set_w_dev d' w)) → agrees cmd pc.
Proof. intros He Hr Hi. split; [done|]. by exists n, copied, code, d', u. Qed.

Lemma world_unchanged : w = set_w_user (w_user w) (set_w_dev (w_dev w) w).
Proof. by destruct w. Qed.

(** A request that ends at once, having changed nothing. *)
Lemma agrees_pure cmd pc n copied code :
  is_entry pc → urun HZ (w_jiffies w) copied n pc (w_dev w) = (Ok (U_ret code), w_dev w) →
  cortex_forge_ioctl HZ cmd uarg w = (Ok code, w) → agrees cmd pc.
Proof.
  intros He Hr Hi. eapply agrees_intro; [done|exact Hr|]. rewrite Hi. f_equal. apply world_unchanged.
Qed.

Lemma submit_agrees :
  agrees CORTEX_FORGE_IOCTL_SUBMIT_TASK
    (match read_user task_desc (w_user w) uarg with Some v => U_check v | None => U_ret (- EFAULT) end).
Proof.
  pose proof (read_user_bytes (A := task_desc) uarg (w_user w)) as Hu.
  destruct (read_user _ _ _) as [desc|].
  - destruct Hu as [Hu Hrep].
    pose proof (submit_run HZ uarg desc w Hok (conj Hu Hrep)) as Hi.
    assert (Hty : 0 <= d_accel_type desc).
    { destruct (task_desc_range desc Hrep) as (_ & Hr & _). unfold is_u32 in Hr. lia. }
    pose proof (λ c, submit_solo HZ (w_jiffies w) c desc (w_dev w) Hok Hty) as Hs.
    destruct (submit_error desc) as [e|]; [|destruct (dev_free_tasks (w_dev w)) as [|i l]].
    + destruct (Hs true) as [n Hn]. by eapply agrees_pure.
    + destruct (Hs true) as [n Hn]. by eapply agrees_pure.
    + destruct (copy_to_user _ _ _) as [r u]. destruct (Hs (r =? 0)) as [n Hn].
      by eapply agrees_intro.
  - pose proof (ioctl_submit_run HZ uarg w Hok) as Hi. cbn [decl task_desc_repr] in Hu.
    rewrite Hu in Hi. by eapply (agrees_pure _ _ 0 true); [left| |].
Qed.

Lemma query_agrees :
  agrees CORTEX_FORGE_IOCTL_QUERY_TASK
    (match read_user task_status (w_user w) uarg with
     | Some v => U_query (s_task_id v) 0 | None => U_ret (- EFAULT) end).
Proof.
  pose proof (read_user_bytes (A := task_status) uarg (w_user w)) as Hu.
  pose proof (ioctl_query_run HZ uarg w Hok) as Hi. cbn [decl task_status_repr] in Hu.
  assert (Hl := pi_tasks _ (dok_pool _ Hok)).
  destruct (read_user _ _ _) as [st|].
  - destruct Hu as [Hu Hrep]. rewrite Hu in Hi. destruct Hi as (st' & He & Hrep' & Hi).
    apply (encode_inj st' st Hrep' Hrep) in He as ->.
    pose proof (λ c, query_solo HZ (w_jiffies w) c (s_task_id st) _ Hl) as Hs.
    destruct (find_task (s_task_id st) (w_dev w)) as [[i t]|].
    + destruct (copy_to_user _ _ _) as [r u]. destruct (Hs (r =? 0)) as [n Hn].
      by eapply agrees_intro.
    + destruct (Hs true) as [n Hn]. by eapply agrees_pure.
  - rewrite Hu in Hi. by eapply (agrees_pure _ _ 0 true); [left| |].
Qed.

Lemma cancel_agrees :
  agrees CORTEX_FORGE_IOCTL_CANCEL_TASK
    (match read_user Z (w_user w) uarg with
     | Some v => U_cancel v 0 | None => U_ret (- EFAULT) end).
Proof.
  pose proof (read_user_bytes (A := Z) uarg (w_user w)) as Hu.
  pose proof (ioctl_cancel_run HZ uarg w Hok) as Hi. change (sizeof lp64 (decl Z)) with 4%nat in Hu.
  assert (Hl := pi_tasks _ (dok_pool _ Hok)).
  destruct (read_user _ _ _) as [id|].
  - destruct Hu as [Hu Hrep]. rewrite Hu in Hi. destruct Hi as (id' & He & Hrep' & Hi).
    apply (encode_inj id' id Hrep' Hrep) in He as ->.
    destruct (cancel_solo HZ (w_jiffies w) true id _ Hl) as [n Hn].
    destruct (find_task id (w_dev w)) as [[i t]|]; [|by eapply agrees_pure].
    eapply (agrees_intro _ _ n true 0 _ (w_user w)); [done|exact Hn|]. by rewrite Hi.
  - rewrite Hu in Hi. by eapply (agrees_pure _ _ 0 true); [left| |].
Qed.

Lemma info_agrees :
  agrees CORTEX_FORGE_IOCTL_GET_ACCEL_INFO
    (match read_user accel_info (w_user w) uarg with
     | Some v => U_info v | None => U_ret (- EFAULT) end).
Proof.
  pose proof (read_user_bytes (A := accel_info) uarg (w_user w)) as Hu.
  pose proof (ioctl_get_accel_info_run HZ uarg w Hok) as Hi. cbn [decl accel_info_repr] in Hu.
  destruct (read_user _ _ _) as [info|].
  - destruct Hu as [Hu Hrep]. rewrite Hu in Hi. destruct Hi as (info' & He & Hrep' & Hi).
    apply (encode_inj info' info Hrep' Hrep) in He as ->.
    pose proof (λ c, info_solo HZ (w_jiffies w) c info _ (dok_accels _ Hok) Hrep) as Hs.
    destruct (dev_accelerators (w_dev w) !! Z.to_nat (i_accel_type info)) as [a|].
    + destruct (copy_to_user _ _ _) as [r u].
      eapply (agrees_intro _ _ 2 (r =? 0)); [exact Hrep|apply Hs|exact Hi].
    + eapply (agrees_pure _ _ 2 true); [exact Hrep|apply Hs|exact Hi].
  - rewrite Hu in Hi. by eapply (agrees_pure _ _ 0 true); [left| |].
Qed.

Lemma limit_agrees cmd bound :
  (cmd = CORTEX_FORGE_IOCTL_SET_POWER ∧ bound = 2) ∨
  (cmd = CORTEX_FORGE_IOCTL_SET_ACCEL ∧ bound = 4) →
  agrees cmd
    (match read_user Z (w_user w) uarg with
     | Some v => U_limit v bound | None => U_ret (- EFAULT) end).
Proof.
  intros Hcmd. pose proof (read_user_bytes (A := Z) uarg (w_user w)) as Hu.
  pose proof (ioctl_checked_u32_run HZ cmd bound uarg w Hcmd) as Hi.
  change (sizeof lp64 (decl Z)) with 4%nat in Hu.
  destruct (read_user _ _ _) as [v|].
  - destruct Hu as [Hu Hrep]. rewrite Hu in Hi. destruct Hi as (v' & He & Hrep' & Hi).
    apply (encode_inj v' v Hrep' Hrep) in He as ->.
    eapply (agrees_pure _ _ 1 true); [|reflexivity|exact Hi].
    split; [by apply u32_representable|]. destruct Hcmd as [[_ ->] | [_ ->]]; auto.
  - rewrite Hu in Hi. by eapply (agrees_pure _ _ 0 true); [left| |].
Qed.

Lemma const_agrees cmd :
  cmd = CORTEX_FORGE_IOCTL_GET_VERSION ∨ cmd = CORTEX_FORGE_IOCTL_GET_PROFILE → agrees cmd U_const.
Proof.
  destruct (ioctl_constant_run HZ uarg w) as [Hv Hp].
  intros [-> | ->]; [rename Hv into Hi; clear Hp|rename Hp into Hi; clear Hv];
    destruct (copy_to_user _ _ _) as [r u];
    by eapply (agrees_intro _ _ 1 (r =? 0)); [| |exact Hi].
Qed.
End Agrees.

Lemma request_agrees {U} `{UserMemoryLaws U} HZ (w : world U) cmd uarg :
  dev_ok (w_dev w) → agrees HZ uarg w cmd (request_entry cmd uarg (w_user w)).
Proof.
  intros Hok.
  unfold request_entry.
  destruct (Z.eqb_spec cmd CORTEX_FORGE_IOCTL_SUBMIT_TASK) as [->|?]; [by apply submit_agrees|].
  destruct (Z.eqb_spec cmd CORTEX_FORGE_IOCTL_QUERY_TASK) as [->|?]; [by apply query_agrees|].
  destruct (Z.eqb_spec cmd CORTEX_FORGE_IOCTL_CANCEL_TASK) as [->|?]; [by apply cancel_agrees|].
  destruct (Z.eqb_spec cmd CORTEX_FORGE_IOCTL_GET_ACCEL_INFO) as [->|?]; [by apply info_agrees|].
  destruct (Z.eqb_spec cmd CORTEX_FORGE_IOCTL_SET_POWER) as [->|?]; [apply limit_agrees; auto|].
  destruct (Z.eqb_spec cmd CORTEX_FORGE_IOCTL_GET_VERSION) as [->|?]; [apply const_agrees; auto|].
  destruct (Z.eqb_spec cmd CORTEX_FORGE_IOCTL_GET_PROFILE) as [->|?]; [apply const_agrees; auto|].
  destruct (Z.eqb_spec cmd CORTEX_FORGE_IOCTL_SET_ACCEL) as [->|?]; [apply limit_agrees; auto|].
  eapply agrees_pure with (n := 0%nat) (copied := true); [done|by right|done|].
  apply ioctl_unknown_run. unfold ioctl_requests. rewrite !not_elem_of_cons.
  split_and!; try done. apply not_elem_of_nil.
Qed.

(** C6: The concurrent model agrees with the handler.  Every request, known or
    not and whatever its argument, enters one of the machines of the concurrent
    model at a point where calls start; running that machine's statements one
    after the other ends with the code the handler returns and with the device
    the handler leaves. *)
Theorem machine_agrees_with_handler {U} `{UserMemoryLaws U} HZ (w : world U) cmd uarg :
  dev_ok (w_dev w) →
  is_entry (request_entry cmd uarg (w_user w)) ∧
  ∃ n copied code d' u,
    urun HZ (w_jiffies w) copied n (request_entry cmd uarg (w_user w)) (w_dev w) =
      (Ok (U_ret code), d') ∧
    cortex_forge_ioctl HZ cmd uarg w = (Ok code, set_w_user u (set_w_dev d' w)).
Proof. apply request_agrees. Qed.

Lemma machine_agrees_with_handler_witness :
  request_entry CORTEX_FORGE_IOCTL_SUBMIT_TASK 4096 (w_user demo_user) = U_check demo_desc ∧
  ∃ n copied code d' u,
    urun 250 (w_jiffies demo_user) copied n
      (request_entry CORTEX_FORGE_IOCTL_SUBMIT_TASK 4096 (w_user demo_user)) (w_dev demo_user) =
      (Ok (U_ret code), d') ∧
    cortex_forge_ioctl 250 CORTEX_FORGE_IOCTL_SUBMIT_TASK 4096 demo_user =
    (Ok code, set_w_user u (set_w_dev d' demo_user)).
Proof.
  split; [by vm_compute|].
  exact (proj2 (machine_agrees_with_handler 250 demo_user CORTEX_FORGE_IOCTL_SUBMIT_TASK 4096
    (demo_world_ok _ _ boot_dev_ok))).
Defined.
