(* ===== verification/Probe.v ===== *)
(** * Binding and unbinding the device: src/main.c

    cortex_forge_probe and cortex_forge_remove with every kernel call they
    make, and the module's init and exit.  What the kernel manages by itself
    (the devm_ allocations and the mappings) needs no release and is not in
    the ledger; what the driver must release is. *)

From S2P Require Import Prelude Device TaskManager Pool AccelManager DevInit.

(** ** Operations *)

Section Probe.
Context (env : kenv).

(** A kernel call that returns a code, and its ledger entry on success. *)
Definition acquire (ret : Z) (c : kcall) : KM pstate Z :=
  (if ret =? 0 then kcall_ c else mret ()) ;; mret ret.

Definition goto_err_stop_workers (ret : Z) : KM pstate unit :=
  accel_stop_workers NUM_ACCELERATORS ;; return_ ret.

Definition cortex_forge_probe : KM pstate Z :=
  call (
    return_if (negb (ke_kzalloc env)) (- ENOMEM) ;;
    modify (set_ps_dev zero_dev) ;;
    on_ps_dev dev_init ;;
    return_if (ke_ioremap env <? 0) (ke_ioremap env) ;;
    on_ps_dev (modify (set_num_clks (ke_clk_bulk_get_all env))) ;;
    return_if (ke_clk_bulk_get_all env <? 0) (ke_clk_bulk_get_all env) ;;
    return_if (ke_reset_control_get env <? 0) (ke_reset_control_get env) ;;
    on_ps_dev (modify (set_irq (ke_platform_get_irq env))) ;;
    return_if (ke_platform_get_irq env <? 0) (ke_platform_get_irq env) ;;
    ret ← accel_start_workers env NUM_ACCELERATORS;
    return_if (negb (ret =? 0)) ret ;;
    ret ← acquire (ke_alloc_chrdev_region env) KC_alloc_chrdev_region;
    (if negb (ret =? 0) then goto_err_stop_workers ret else mret ()) ;;
    ret ← acquire (ke_cdev_add env) KC_cdev_add;
    (if negb (ret =? 0) then
       kcall_ KC_unregister_chrdev_region ;; goto_err_stop_workers ret
     else mret ()) ;;
    (if ke_device_create env <? 0 then
       kcall_ KC_cdev_del ;;
       kcall_ KC_unregister_chrdev_region ;;
       goto_err_stop_workers (ke_device_create env)
     else kcall_ KC_device_create) ;;
    mret 0).

Definition cortex_forge_remove : KM pstate unit :=
  kcall_ KC_device_destroy ;;
  kcall_ KC_cdev_del ;;
  kcall_ KC_unregister_chrdev_region ;;
  accel_stop_workers NUM_ACCELERATORS.

Definition cortex_forge_init : KM pstate Z :=
  call (
    r ← acquire (ke_class_register env) KC_class_register;
    return_if (negb (r =? 0)) r ;;
    r ← acquire (ke_driver_register env) KC_driver_register;
    (if negb (r =? 0) then kcall_ KC_class_unregister else mret ()) ;;
    mret r).

Definition cortex_forge_exit : KM pstate unit :=
  kcall_ KC_driver_unregister ;;
  kcall_ KC_class_unregister.
End Probe.

(** ** The ledger *)

(** The call that undoes an acquisition. *)
Definition undoes (c : kcall) : option kcall :=
  match c with
  | KC_kthread_stop tid => Some (KC_kthread_run tid)
  | KC_unregister_chrdev_region => Some KC_alloc_chrdev_region
  | KC_cdev_del => Some KC_cdev_add
  | KC_device_destroy => Some KC_device_create
  | KC_class_unregister => Some KC_class_register
  | KC_driver_unregister => Some KC_driver_register
  | _ => None
  end.

(** What is still held after a sequence of calls; [None] when something was
    released that was not held. *)
Fixpoint replay (log : list kcall) (held : list kcall) : option (list kcall) :=
  match log with
  | [] => Some held
  | c :: log' =>
      match undoes c with
      | None => replay log' (c :: held)
      | Some a => if decide (a ∈ held) then replay log' (list_del a held) else None
      end
  end.

Lemma replay_app l k held : replay (l ++ k) held = replay l held ≫= replay k.
Proof.
  revert held. induction l as [|c l IH]; intros held; cbn; [done|].
  destruct (undoes c); [|apply IH]. case_decide; [apply IH|done].
Qed.

(** ** Probe *)

(** The device once the resources were found, and once the threads run. *)
Definition probed_dev (env : kenv) : dev :=
  set_irq (ke_platform_get_irq env) (set_num_clks (ke_clk_bulk_get_all env) boot_dev).
Definition bound_dev (env : kenv) : dev :=
  upd_accelerators (map_range 0 NUM_ACCELERATORS started) (probed_dev env).

Definition thread_log : list kcall := KC_kthread_run <$> seq 0 NUM_ACCELERATORS.
Definition thread_stop_log : list kcall := KC_kthread_stop <$> seq 0 NUM_ACCELERATORS.

Lemma probed_dev_accels env : dev_accelerators (probed_dev env) = boot_accels.
Proof. apply boot_dev_accels. Qed.

Lemma bound_dev_ok env : dev_ok (bound_dev env).
Proof.
  destruct boot_dev_ok as [Hp Ha Hl].
  destruct (pool_inv_same boot_dev (bound_dev env) eq_refl eq_refl eq_refl (conj Hp Ha)).
  split; [done..|]. unfold bound_dev.
  cbn [dev_accelerators upd_accelerators set_accelerators]. by rewrite map_range_length.
Qed.

Lemma bound_dev_accels env : dev_accelerators (bound_dev env) = map_range 0 NUM_ACCELERATORS started boot_accels.
Proof. unfold bound_dev. cbn [dev_accelerators upd_accelerators set_accelerators]. by rewrite probed_dev_accels. Qed.

Lemma boot_accels_not_err k : Forall not_err (take k boot_accels).
Proof. apply Forall_take. repeat constructor. Qed.

Lemma start_all env log :
  first_fail env 0 NUM_ACCELERATORS = None →
  accel_start_workers env NUM_ACCELERATORS {| ps_dev := probed_dev env; ps_log := log |} =
  (Ok 0, {| ps_dev := bound_dev env; ps_log := log ++ thread_log |}).
Proof.
  intros Hf. rewrite accel_start_workers_run.
  - unfold start_outcome. by rewrite Hf.
  - by rewrite probed_dev_accels.
  - rewrite probed_dev_accels. apply boot_accels_not_err.
Qed.

Lemma start_some env log k :
  first_fail env 0 NUM_ACCELERATORS = Some k →
  ∃ d', accel_start_workers env NUM_ACCELERATORS {| ps_dev := probed_dev env; ps_log := log |} =
    (Ok (ke_kthread_run env k),
     {| ps_dev := d';
        ps_log := log ++ (KC_kthread_run <$> seq 0 k) ++ (KC_kthread_stop <$> seq 0 k) |}).
Proof.
  intros Hf. pose proof (first_fail_Some _ _ _ _ Hf) as (Hk & _).
  rewrite accel_start_workers_run.
  - unfold start_outcome. rewrite Hf, Nat.sub_0_r. eexists. do 3 f_equal.
    cbn [dev_accelerators upd_accelerators set_accelerators]. rewrite probed_dev_accels.
    rewrite take_map_range_started by (cbn; unfold NUM_ACCELERATORS in *; lia). done.
  - by rewrite probed_dev_accels.
  - rewrite probed_dev_accels. apply boot_accels_not_err.
Qed.

Lemma bound_stops env :
  thread_stops (take NUM_ACCELERATORS (dev_accelerators (bound_dev env))) = thread_stop_log.
Proof. rewrite bound_dev_accels. by apply take_map_range_started. Qed.

Lemma stop_bound env log :
  accel_stop_workers NUM_ACCELERATORS {| ps_dev := bound_dev env; ps_log := log |} =
  (Ok (), {| ps_dev := upd_accelerators (map_range 0 NUM_ACCELERATORS (λ _, stopped)) (bound_dev env);
             ps_log := log ++ thread_stop_log |}).
Proof.
  rewrite accel_stop_workers_run, bound_stops; [done| |].
  - by rewrite bound_dev_accels.
  - rewrite bound_dev_accels. repeat constructor.
Qed.

(** Everything a bound driver holds. *)
Definition bind_log : list kcall :=
  thread_log ++ [KC_alloc_chrdev_region; KC_cdev_add; KC_device_create].

(** How a probe can end. *)
Definition probe_outcome (env : kenv) (log : list kcall) (r : res Z * pstate) : Prop :=
  ∃ code p', r = (Ok code, p') ∧
    ((code = 0 ∧ p' = {| ps_dev := bound_dev env; ps_log := log ++ bind_log |}) ∨
     (code ≠ 0 ∧ ∃ l, ps_log p' = log ++ l ∧ replay l [] = Some [])).

Lemma outcome_error env log code p' l :
  code ≠ 0 → ps_log p' = log ++ l → replay l [] = Some [] →
  probe_outcome env log (call (return_ code) p').
Proof. intros. exists code, p'. split; [done|]. right. eauto. Qed.

(** The part of probe after the threads run. *)
Definition register (env : kenv) : KM pstate Z :=
  ret ← acquire (ke_alloc_chrdev_region env) KC_alloc_chrdev_region;
  (if negb (ret =? 0) then goto_err_stop_workers ret else mret ()) ;;
  ret ← acquire (ke_cdev_add env) KC_cdev_add;
  (if negb (ret =? 0) then
     kcall_ KC_unregister_chrdev_region ;; goto_err_stop_workers ret
   else mret ()) ;;
  (if ke_device_create env <? 0 then
     kcall_ KC_cdev_del ;;
     kcall_ KC_unregister_chrdev_region ;;
     goto_err_stop_workers (ke_device_create env)
   else kcall_ KC_device_create) ;;
  mret 0.

Lemma goto_err_run env ret log :
  goto_err_stop_workers ret {| ps_dev := bound_dev env; ps_log := log |} =
  (Ret ret, {| ps_dev := upd_accelerators (map_range 0 NUM_ACCELERATORS (λ _, stopped)) (bound_dev env);
               ps_log := log ++ thread_stop_log |}).
Proof. unfold goto_err_stop_workers. by rewrite (KM_bind_ok _ _ _ _ _ (stop_bound env log)). Qed.

Lemma acquire_run ret c p :
  acquire ret c p =
  (Ok ret, if ret =? 0 then {| ps_dev := ps_dev p; ps_log := ps_log p ++ [c] |} else p).
Proof. unfold acquire, kcall_, mbind, KM_bind, modify. by destruct (ret =? 0). Qed.

(** Symbolic execution of the next statement, by an equation or by computation. *)
Ltac kstep E := erewrite KM_bind_ok by (apply E).
Ltac kexit E := erewrite KM_bind_ret by (apply E).

Lemma register_run env log :
  probe_outcome env log
    (call (register env) {| ps_dev := bound_dev env; ps_log := log ++ thread_log |}).
Proof.
  assert (Herr : ∀ ret L l, ret ≠ 0 → L = log ++ l → replay l [] = Some [] →
    probe_outcome env log ((Ok ret, {|
      ps_dev := upd_accelerators (map_range 0 NUM_ACCELERATORS (λ _, stopped)) (bound_dev env);
      ps_log := L |}) : res Z * pstate)).
  { intros ret L l Hret -> Hl. eexists _, _. split; [reflexivity|]. right. eauto. }
  unfold register, call. kstep acquire_run.
  destruct (Z.eqb_spec (ke_alloc_chrdev_region env) 0) as [E1|E1]; cbn [negb ps_dev ps_log].
  2: { kexit goto_err_run.
       eapply Herr; [done|by rewrite <- !app_assoc|by vm_compute]. }
  erewrite KM_bind_ok by reflexivity. kstep acquire_run.
  destruct (Z.eqb_spec (ke_cdev_add env) 0) as [E2|E2]; cbn [negb ps_dev ps_log].
  2: { erewrite KM_bind_ret.
       2: { erewrite KM_bind_ok by reflexivity. cbn [ps_dev ps_log]. apply goto_err_run. }
       eapply Herr; [done|by rewrite <- !app_assoc|by vm_compute]. }
  erewrite KM_bind_ok by reflexivity.
  destruct (Z.ltb_spec (ke_device_create env) 0) as [E3|E3].
  - erewrite KM_bind_ret.
    2: { do 2 erewrite KM_bind_ok by reflexivity. cbn [ps_dev ps_log]. apply goto_err_run. }
    eapply Herr; [lia|by rewrite <- !app_assoc|by vm_compute].
  - erewrite KM_bind_ok by reflexivity. eexists _, _. split; [reflexivity|]. left.
    split; [done|]. cbn [ps_dev ps_log]. by rewrite <- !app_assoc.
Qed.

Lemma start_log_balanced k : (k ≤ 3)%nat →
  replay ((KC_kthread_run <$> seq 0 k) ++ (KC_kthread_stop <$> seq 0 k)) [] = Some [].
Proof. intros Hk. destruct k as [|[|[|[|k]]]]; [by vm_compute..|lia]. Qed.

Lemma probe_run env d log :
  probe_outcome env log (cortex_forge_probe env {| ps_dev := d; ps_log := log |}).
Proof.
  assert (Herr : ∀ code d', code ≠ 0 → probe_outcome env log
    ((Ok code, {| ps_dev := d'; ps_log := log |}) : res Z * pstate)).
  { intros code d' Hc. eexists _, _. split; [done|]. right. split; [done|]. exists [].
    by rewrite app_nil_r. }
  unfold cortex_forge_probe. fold (register env). unfold call, return_if.
  destruct (ke_kzalloc env); cbn [negb]; [|by apply Herr].
  do 2 erewrite KM_bind_ok by reflexivity.
  erewrite KM_bind_ok by (unfold on_ps_dev, zoom; cbn [ps_dev set_ps_dev];
    rewrite dev_init_run; reflexivity).
  destruct (Z.ltb_spec (ke_ioremap env) 0); [apply Herr; lia|].
  do 2 erewrite KM_bind_ok by reflexivity.
  destruct (Z.ltb_spec (ke_clk_bulk_get_all env) 0); [apply Herr; lia|].
  erewrite KM_bind_ok by reflexivity.
  destruct (Z.ltb_spec (ke_reset_control_get env) 0); [apply Herr; lia|].
  do 2 erewrite KM_bind_ok by reflexivity.
  destruct (Z.ltb_spec (ke_platform_get_irq env) 0); [apply Herr; lia|].
  erewrite KM_bind_ok by reflexivity. cbn [ps_dev ps_log set_ps_dev].
  fold (probed_dev env).
  destruct (first_fail env 0 NUM_ACCELERATORS) as [k|] eqn:Hf.
  - destruct (start_some env log k Hf) as [d' Hs]. kstep Hs.
    pose proof (first_fail_Some _ _ _ _ Hf) as (Hk & Hneg & _).
    rewrite (proj2 (Z.eqb_neq _ _)) by lia. cbn [negb].
    eexists _, _. split; [reflexivity|]. right. split; [lia|]. eexists. split; [reflexivity|].
    apply start_log_balanced. unfold NUM_ACCELERATORS in Hk. lia.
  - kstep (start_all env log Hf). cbn [Z.eqb negb]. erewrite KM_bind_ok by reflexivity.
    apply register_run.
Qed.

(** C28: Binding is all-or-nothing.  Whatever the kernel answers to each of its
    calls, probe makes no invalid access and either returns 0, with a well
    formed device (every slot free, identifiers from 1, one running thread per
    accelerator) and holding exactly the three threads, the device number, the
    cdev and the device node; or returns an error and holds nothing: whatever
    was acquired was released once, and nothing was released that was not
    held. *)
Theorem probe_all_or_nothing env d log :
  ∃ code p' l, cortex_forge_probe env {| ps_dev := d; ps_log := log |} = (Ok code, p') ∧
    ps_log p' = log ++ l ∧
    (code = 0 → dev_ok (ps_dev p') ∧ dev_free_tasks (ps_dev p') = seq 0 MAX_TASKS ∧
      a_worker_thread <$> dev_accelerators (ps_dev p') = KT_THREAD <$> seq 0 NUM_ACCELERATORS ∧
      replay l [] = Some (reverse bind_log)) ∧
    (code ≠ 0 → replay l [] = Some []).
Proof.
  destruct (probe_run env d log) as (code & p' & Hr & [[-> ->]|[Hc (l & Hl & Hrep)]]).
  - eexists 0, _, bind_log. split; [exact Hr|]. split; [done|]. split; [|done]. intros _.
    cbn [ps_dev]. split_and!; [apply bound_dev_ok|apply boot_dev_free| |by vm_compute].
    rewrite bound_dev_accels. by vm_compute.
  - exists code, p', l. split_and!; done.
Qed.

(** Removal undoes a successful probe: it makes no invalid access, releases
    everything probe acquired (node, cdev, number and threads, each once) and
    leaves every accelerator with no thread and [running] clear. *)
Theorem remove_undoes_probe env d log p' :
  cortex_forge_probe env {| ps_dev := d; ps_log := log |} = (Ok 0, p') →
  ∃ p'' l, cortex_forge_remove p' = (Ok (), p'') ∧ ps_log p'' = log ++ l ∧
    replay l [] = Some [] ∧
    Forall (λ a, a_worker_thread a = KT_NULL ∧ a_running a = 0) (dev_accelerators (ps_dev p'')).
Proof.
  intros Hp. destruct (probe_run env d log) as (code & p1 & Hr & Hout).
  rewrite Hr in Hp. injection Hp as -> ->.
  destruct Hout as [[_ ->]|[[] _]]; [|done].
  unfold cortex_forge_remove. do 3 erewrite KM_bind_ok by reflexivity. cbn [ps_dev ps_log].
  rewrite stop_bound. eexists _, _. split; [reflexivity|]. cbn [ps_dev ps_log].
  split; [by rewrite <- !app_assoc|]. split; [by vm_compute|].
  cbn [dev_accelerators upd_accelerators set_accelerators]. rewrite bound_dev_accels.
  vm_compute. by repeat constructor.
Qed.

(** Loading the module registers the class and the driver or neither, and
    unloading it releases both. *)
Theorem module_init_exit env p :
  ∃ code p' l, cortex_forge_init env p = (Ok code, p') ∧ ps_log p' = ps_log p ++ l ∧
    ps_dev p' = ps_dev p ∧
    (code ≠ 0 → replay l [] = Some []) ∧
    (code = 0 → ∃ p'' l', cortex_forge_exit p' = (Ok (), p'') ∧ ps_log p'' = ps_log p ++ l' ∧
       replay l' [] = Some []).
Proof.
  unfold cortex_forge_init, call, return_if. kstep acquire_run.
  destruct (Z.eqb_spec (ke_class_register env) 0) as [E1|E1]; cbn [negb].
  2: { erewrite KM_bind_ret by reflexivity. eexists _, _, []. split; [reflexivity|].
       rewrite app_nil_r. done. }
  erewrite KM_bind_ok by reflexivity. kstep acquire_run.
  destruct (Z.eqb_spec (ke_driver_register env) 0) as [E2|E2]; cbn [negb].
  - erewrite KM_bind_ok by reflexivity. eexists _, _, _. split; [reflexivity|].
    cbn [ps_log ps_dev]. rewrite <- app_assoc. split; [reflexivity|]. split; [done|].
    split; [done|]. intros _. eexists _, _. split; [reflexivity|]. cbn [ps_log].
    rewrite <- !app_assoc. split; [reflexivity|by vm_compute].
  - erewrite KM_bind_ok by reflexivity. eexists _, _, _. split; [reflexivity|].
    cbn [ps_log ps_dev]. rewrite <- app_assoc. split; [reflexivity|]. split; [done|].
    split; [by vm_compute|done].
Qed.

(** A kernel that grants everything. *)
Definition demo_kenv : kenv :=
  {| ke_kzalloc := true; ke_ioremap := 0; ke_clk_bulk_get_all := 6; ke_reset_control_get := 0;
     ke_platform_get_irq := 42; ke_kthread_run _ := 0; ke_alloc_chrdev_region := 0;
     ke_cdev_add := 0; ke_device_create := 0;
     ke_device_create_null := - 19; ke_class_register := 0;
     ke_driver_register := 0 |}.

Lemma remove_undoes_probe_witness :
  ∃ p'' l, cortex_forge_remove {| ps_dev := bound_dev demo_kenv; ps_log := [] ++ bind_log |} =
      (Ok (), p'') ∧ ps_log p'' = [] ++ l ∧ replay l [] = Some [].
Proof.
  destruct (remove_undoes_probe demo_kenv zero_dev []
    {| ps_dev := bound_dev demo_kenv; ps_log := [] ++ bind_log |}) as (p'' & l & Hr & Hl & Hb & _).
  - vm_compute. reflexivity.
  - exact (ex_intro _ p'' (ex_intro _ l (conj Hr (conj Hl Hb)))).
Defined.
