(* ===== verification/Lifetime.v ===== *)
(** * The lifetime of the device: open files and unbinding

    The device structure is allocated by probe (devm_kzalloc, src/main.c) and
    freed by the driver core when probe fails or after remove has run.  Two
    pointers to it outlive both: the [private_data] that cortex_forge_open
    (src/chardev.c) puts in every open file, and the global [g_dev].  This file
    puts probe, remove, open, release and the ioctl handler on a heap of device
    structures; dereferencing a freed one is an invalid access.

    A worker thread has a lifetime too.  accel_stop_workers
    (src/accel_manager.c) clears [running] before it calls kthread_stop, and
    the driver holds no reference on the thread, so a thread that sees the
    cleared flag returns and its task structure can be freed before
    kthread_stop looks at it ([Shutdown.stop_races_with_exit]: each of the three
    can have returned by then).  Here each bind and unbind says which
    threads are gone by then; stopping one of them is an invalid access. *)

From S2P Require Import Prelude CLayout Device UserMem Uapi TaskManager Pool AccelManager DevInit Chardev Probe.

(** ** Which requests dereference the device *)

Section NeedsDev.
Context {U : Type} `{UserMemory U}.

(** Whether the handler goes through [dev]: past the checks of the argument,
    for the pool, an accelerator, or the [pdev] of a log message. *)
Definition needs_dev (cmd uarg : Z) (u : U) : bool :=
  if cmd =? CORTEX_FORGE_IOCTL_SUBMIT_TASK then
    match read_user task_desc u uarg with
    | Some desc => bool_decide (submit_error desc = None)
    | None => false
    end
  else if cmd =? CORTEX_FORGE_IOCTL_QUERY_TASK then bool_decide (is_Some (read_user task_status u uarg))
  else if cmd =? CORTEX_FORGE_IOCTL_CANCEL_TASK then bool_decide (is_Some (read_user Z u uarg))
  else if cmd =? CORTEX_FORGE_IOCTL_GET_ACCEL_INFO then
    match read_user accel_info u uarg with
    | Some info => i_accel_type info <? Z.of_nat NUM_ACCELERATORS
    | None => false
    end
  else if cmd =? CORTEX_FORGE_IOCTL_SET_POWER then
    match read_user Z u uarg with Some mode => mode <=? 2 | None => false end
  else if cmd =? CORTEX_FORGE_IOCTL_SET_ACCEL then
    match read_user Z u uarg with Some accel => accel <=? 4 | None => false end
  else false.
End NeedsDev.

(** ** The host *)

Record host (U : Type) : Type := {
  h_heap : gmap nat dev;              (* the device structures that are allocated *)
  h_next : nat;                       (* the address of the next allocation *)
  h_drvdata : option nat;             (* the bound device *)
  h_g_dev : option nat;               (* [g_dev] *)
  h_files : list (option nat);        (* [private_data] of each open file *)
  h_log : list kcall;
  h_user : U;
  h_jiffies : Z;
}.
Arguments h_heap {U} h.
Arguments h_next {U} h.
Arguments h_drvdata {U} h.
Arguments h_g_dev {U} h.
Arguments h_files {U} h.
Arguments h_log {U} h.
Arguments h_user {U} h.
Arguments h_jiffies {U} h.

Inductive host_event : Type :=
  | H_bind (env : kenv) (gone : nat → bool)   (* the core calls probe *)
  | H_unbind (gone : nat → bool)              (* ... remove, then frees the device *)
  | H_open                                 (* open("/dev/cortex-forge0") *)
  | H_close (k : nat)
  | H_ioctl (k : nat) (cmd uarg : Z).

(** The thread a kernel call stops. *)
Definition stop_of (c : kcall) : option nat :=
  match c with KC_kthread_stop tid => Some tid | _ => None end.

(** kthread_stop is called on a thread whose task structure is gone. *)
Definition stops_gone (gone : nat → bool) (l : list kcall) : bool := existsb gone (omap stop_of l).

Section Host.
Context {U : Type} `{UserMemory U}.
Context (HZ : Z).

(** probe on a fresh allocation; the core frees it when probe fails. *)
Definition host_bind (env : kenv) (gone : nat → bool) (h : host U) : res Z * host U :=
  let p := h_next h in
  let '(r, s) := cortex_forge_probe env {| ps_dev := zero_dev; ps_log := [] |} in
  let bound := match r with Ok 0 => true | _ => false end in
  if stops_gone gone (ps_log s) then (Oops, h) else
  (r, {| h_heap := if bound then <[p := ps_dev s]> (h_heap h) else h_heap h;
         h_next := S p;
         h_drvdata := if bound then Some p else None;
         h_g_dev := if ke_kzalloc env then Some p else h_g_dev h;
         h_files := h_files h; h_log := h_log h ++ ps_log s; h_user := h_user h;
         h_jiffies := h_jiffies h |}).

(** remove, and the release of what devm manages. *)
Definition host_unbind (p : nat) (d : dev) (gone : nat → bool) (h : host U) : res Z * host U :=
  let '(r, s) := cortex_forge_remove {| ps_dev := d; ps_log := [] |} in
  if stops_gone gone (ps_log s) then (Oops, h) else
  (match r with Ok _ => Ok 0 | Ret z => Ret z | Oops => Oops end,
   {| h_heap := delete p (h_heap h); h_next := h_next h; h_drvdata := None;
      h_g_dev := h_g_dev h; h_files := h_files h; h_log := h_log h ++ ps_log s;
      h_user := h_user h; h_jiffies := h_jiffies h |}).

Definition set_h_files (f : list (option nat)) (h : host U) : host U :=
  {| h_heap := h_heap h; h_next := h_next h; h_drvdata := h_drvdata h; h_g_dev := h_g_dev h;
     h_files := f; h_log := h_log h; h_user := h_user h; h_jiffies := h_jiffies h |}.

(** The handler on the device [p], or on no device when it needs none. *)
Definition host_ioctl (p : nat) (cmd uarg : Z) (h : host U) : res Z * host U :=
  let run d := cortex_forge_ioctl HZ cmd uarg
    {| w_dev := d; w_user := h_user h; w_jiffies := h_jiffies h |} in
  let next heap u := {| h_heap := heap; h_next := h_next h; h_drvdata := h_drvdata h;
    h_g_dev := h_g_dev h; h_files := h_files h; h_log := h_log h; h_user := u;
    h_jiffies := h_jiffies h |} in
  match h_heap h !! p with
  | Some d => let '(r, w) := run d in (r, next (<[p := w_dev w]> (h_heap h)) (w_user w))
  | None =>
      if needs_dev cmd uarg (h_user h) then (Oops, h)
      else let '(r, w) := run zero_dev in (r, next (h_heap h) (w_user w))
  end.

(** An event that can happen, its result and the host after. *)
Definition host_exec (e : host_event) (h : host U) : option (res Z * host U) :=
  match e with
  | H_bind env gone => if h_drvdata h then None else Some (host_bind env gone h)
  | H_unbind gone => p ← h_drvdata h; d ← h_heap h !! p; Some (host_unbind p d gone h)
  | H_open => p ← h_drvdata h; Some (Ok 0, set_h_files (h_files h ++ [Some p]) h)
  | H_close k =>
      _ ← mjoin (h_files h !! k); Some (Ok 0, set_h_files (<[k := None]> (h_files h)) h)
  | H_ioctl k cmd uarg => p ← mjoin (h_files h !! k); Some (host_ioctl p cmd uarg h)
  end.

(** A history, up to the first invalid access. *)
Fixpoint host_run (es : list host_event) (h : host U) : option (res Z * host U) :=
  match es with
  | [] => Some (Ok 0, h)
  | e :: es' =>
      '(r, h') ← host_exec e h;
      match r with Oops => Some (Oops, h') | _ => host_run es' h' end
  end.

(** The module just loaded. *)
Definition host_init (u : U) (now : Z) : host U :=
  {| h_heap := ∅; h_next := 0; h_drvdata := None; h_g_dev := None; h_files := []; h_log := [];
     h_user := u; h_jiffies := now |}.
End Host.

(** ** A request that needs no device runs the same on any *)

Section Independent.
Context {U : Type} `{UserMemoryLaws U}.
Context (HZ : Z) (u : U) (now : Z).

(** A handler that starts with [copy_from_user] of an [A]. *)
Lemma input_run (A : Type) `{ReprLaws A} uarg (k : A → KM (world U) Z) w :
  call (v ← copy_in A uarg; k v) w =
  match read_user A (w_user w) uarg with Some v => call (k v) w | None => (Ok (- EFAULT), w) end.
Proof.
  unfold call, mbind, KM_bind. rewrite (copy_in_read (A := A)). by destruct (read_user A (w_user w) uarg).
Qed.

(** Same answer and same user memory whatever the device, which stays. *)
Definition any_dev (m : KM (world U) Z) : Prop :=
  ∃ r u', ∀ d, m {| w_dev := d; w_user := u; w_jiffies := now |} =
               (r, {| w_dev := d; w_user := u'; w_jiffies := now |}).

Lemma any_dev_input (A : Type) `{ReprLaws A} uarg (k : A → KM (world U) Z) :
  (∀ v, read_user A u uarg = Some v → any_dev (call (k v))) →
  any_dev (call (v ← copy_in A uarg; k v)).
Proof.
  intros Hk. destruct (read_user A u uarg) as [v|] eqn:Hr.
  - destruct (Hk v eq_refl) as (r & u' & Hd). exists r, u'. intros d.
    rewrite (input_run A). cbn [w_user]. by rewrite Hr.
  - exists (Ok (- EFAULT)), u. intros d. rewrite (input_run A). cbn [w_user]. by rewrite Hr.
Qed.

Lemma any_dev_code (m : KM (world U) Z) code : (∀ w, m w = (Ok code, w)) → any_dev m.
Proof. intros Hm. exists (Ok code), u. intros d. apply Hm. Qed.

Lemma any_dev_copy_out {A} `{Repr A} uarg (v : A) : any_dev (call (copy_out_or_fault uarg v)).
Proof.
  destruct (copy_to_user u uarg (encode v)) as [r u'] eqn:E.
  exists (Ok (if r =? 0 then 0 else - EFAULT)), u'. intros d. unfold call.
  rewrite copy_out_or_fault_run. cbn [w_user]. rewrite E. by destruct (r =? 0).
Qed.

Lemma submit_checks desc (k : KM (world U) Z) e w :
  submit_error desc = Some e →
  call (return_if (Z.of_nat NUM_ACCELERATORS <=? d_accel_type desc) (- EINVAL) ;;
        return_if (negb (d_flags desc =? 0)) (- EINVAL) ;;
        return_if (64 * 1024 * 1024 <? d_input_size desc) (- E2BIG) ;;
        return_if (64 * 1024 * 1024 <? d_output_size desc) (- E2BIG) ;;
        k) w = (Ok e, w : world U).
Proof.
  unfold submit_error. change (Z.of_nat NUM_ACCELERATORS) with 3.
  unfold call, return_if, mbind, KM_bind. intros He.
  repeat (case_match; cbn [negb] in *; simplify_eq; try done).
Qed.

Lemma needs_dev_sound cmd uarg :
  needs_dev cmd uarg u = false → any_dev (cortex_forge_ioctl HZ cmd uarg).
Proof.
  unfold needs_dev, cortex_forge_ioctl.
  repeat match goal with
  | |- context [if cmd =? ?c then _ else _] => destruct (cmd =? c)
  end; intros Hn;
    unfold ioctl_submit_task, ioctl_query_task, ioctl_cancel_task, ioctl_get_accel_info,
      ioctl_set_power, ioctl_set_accel; try apply any_dev_copy_out;
    try match goal with
    | |- any_dev (call (copy_in ?A _ ≫= _)) =>
        apply (any_dev_input A); intros v Hr; rewrite Hr in Hn; try done
    end.
  - apply bool_decide_eq_false in Hn. destruct (submit_error v) as [e|] eqn:He; [|done].
    apply (any_dev_code _ e). intros w. by apply submit_checks.
  - rewrite (proj2 (Z.leb_le _ _)) by (apply Z.ltb_ge in Hn; lia). by apply (any_dev_code _ (- EINVAL)).
  - rewrite (proj2 (Z.ltb_lt _ _)) by (apply Z.leb_gt in Hn; lia). by apply (any_dev_code _ (- EINVAL)).
  - rewrite (proj2 (Z.ltb_lt _ _)) by (apply Z.leb_gt in Hn; lia). by apply (any_dev_code _ (- EINVAL)).
  - by apply (any_dev_code _ (- ENOTTY)).
Qed.
End Independent.

(** ** Bound devices *)

(** A device remove can be called on: the three threads of probe run. *)
Record bound_ok (d : dev) : Prop := {
  bo_ok : dev_ok d;
  bo_threads : a_worker_thread <$> dev_accelerators d = KT_THREAD <$> seq 0 NUM_ACCELERATORS;
}.

Lemma bound_not_err d : bound_ok d → Forall not_err (dev_accelerators d).
Proof.
  intros [_ Ht]. apply Forall_lookup. intros i a Ha.
  assert (Hi : (a_worker_thread <$> dev_accelerators d) !! i = Some (a_worker_thread a))
    by (by rewrite list_lookup_fmap, Ha).
  rewrite Ht, list_lookup_fmap in Hi. apply fmap_Some in Hi as (k & _ & Hk).
  unfold not_err. by rewrite Hk.
Qed.

(** The threads a failing probe has started, and stops again. *)
Definition probe_stops (env : kenv) : list nat :=
  if negb (ke_kzalloc env) || (ke_ioremap env <? 0) || (ke_clk_bulk_get_all env <? 0) ||
     (ke_reset_control_get env <? 0) || (ke_platform_get_irq env <? 0)
  then []
  else match first_fail env 0 NUM_ACCELERATORS with
       | Some k => seq 0 k
       | None =>
           if (ke_alloc_chrdev_region env =? 0) && (ke_cdev_add env =? 0) && (0 <=? ke_device_create env)
           then [] else seq 0 NUM_ACCELERATORS
       end.

Lemma stop_of_runs (l : list nat) : omap stop_of (KC_kthread_run <$> l) = [].
Proof. by induction l. Qed.

Lemma stop_of_stops (l : list nat) : omap stop_of (KC_kthread_stop <$> l) = l.
Proof. induction l as [|t l IH]; cbn; [done|]. by rewrite IH. Qed.

Lemma register_stops env log :
  omap stop_of (ps_log (call (register env) {| ps_dev := bound_dev env; ps_log := log |}).2) =
  omap stop_of log ++
  (if (ke_alloc_chrdev_region env =? 0) && (ke_cdev_add env =? 0) && (0 <=? ke_device_create env)
   then [] else seq 0 NUM_ACCELERATORS).
Proof.
  unfold register, call. kstep acquire_run.
  destruct (Z.eqb_spec (ke_alloc_chrdev_region env) 0) as [E1|E1]; cbn [negb andb ps_dev ps_log].
  2: { kexit goto_err_run. cbn [snd ps_log]. by rewrite !omap_app. }
  erewrite KM_bind_ok by reflexivity. kstep acquire_run.
  destruct (Z.eqb_spec (ke_cdev_add env) 0) as [E2|E2]; cbn [negb andb ps_dev ps_log].
  2: { erewrite KM_bind_ret.
       2: { erewrite KM_bind_ok by reflexivity. cbn [ps_dev ps_log]. apply goto_err_run. }
       cbn [snd ps_log]. rewrite !omap_app. cbn [omap list_omap stop_of]. by rewrite !app_nil_r. }
  erewrite KM_bind_ok by reflexivity.
  destruct (Z.ltb_spec (ke_device_create env) 0) as [E3|E3].
  - rewrite (proj2 (Z.leb_gt _ _)) by lia. erewrite KM_bind_ret.
    2: { do 2 erewrite KM_bind_ok by reflexivity. cbn [ps_dev ps_log]. apply goto_err_run. }
    cbn [snd ps_log]. rewrite !omap_app. cbn [omap list_omap stop_of]. by rewrite !app_nil_r.
  - rewrite (proj2 (Z.leb_le _ _)) by lia. erewrite KM_bind_ok by reflexivity.
    cbn [snd ps_log mret KM_ret]. rewrite !omap_app. cbn [omap list_omap stop_of]. by rewrite !app_nil_r.
Qed.

Lemma probe_stops_run env d :
  omap stop_of (ps_log (cortex_forge_probe env {| ps_dev := d; ps_log := [] |}).2) = probe_stops env.
Proof.
  unfold cortex_forge_probe, probe_stops. fold (register env). unfold call, return_if.
  destruct (ke_kzalloc env); cbn [negb orb]; [|done].
  do 2 erewrite KM_bind_ok by reflexivity.
  erewrite KM_bind_ok by (unfold on_ps_dev, zoom; cbn [ps_dev set_ps_dev];
    rewrite dev_init_run; reflexivity).
  destruct (ke_ioremap env <? 0); cbn [orb]; [done|]. do 2 erewrite KM_bind_ok by reflexivity.
  destruct (ke_clk_bulk_get_all env <? 0); cbn [orb]; [done|]. erewrite KM_bind_ok by reflexivity.
  destruct (ke_reset_control_get env <? 0); cbn [orb]; [done|]. do 2 erewrite KM_bind_ok by reflexivity.
  destruct (ke_platform_get_irq env <? 0); cbn [orb]; [done|]. erewrite KM_bind_ok by reflexivity.
  cbn [ps_dev ps_log set_ps_dev]. fold (probed_dev env).
  destruct (first_fail env 0 NUM_ACCELERATORS) as [k|] eqn:Hf.
  - destruct (start_some env [] k Hf) as [d' Hs]. kstep Hs.
    pose proof (first_fail_Some _ _ _ _ Hf) as (Hk & Hneg & _).
    rewrite (proj2 (Z.eqb_neq _ _)) by lia. cbn [negb].
    change (omap stop_of ((KC_kthread_run <$> seq 0 k) ++ (KC_kthread_stop <$> seq 0 k)) = seq 0 k).
    by rewrite omap_app, stop_of_runs, stop_of_stops.
  - kstep (start_all env [] Hf). cbn [Z.eqb negb]. erewrite KM_bind_ok by reflexivity.
    apply (register_stops env ([] ++ thread_log)).
Qed.

Lemma probe_bound env :
  ∃ code s, cortex_forge_probe env {| ps_dev := zero_dev; ps_log := [] |} = (Ok code, s) ∧
    omap stop_of (ps_log s) = probe_stops env ∧
    (code = 0 → ke_kzalloc env = true ∧ bound_ok (ps_dev s)).
Proof.
  pose proof (probe_stops_run env zero_dev) as Hst.
  destruct (probe_run env zero_dev []) as (code & s & Hr & Hout). exists code, s.
  rewrite Hr in Hst. split_and!; [done..|]. intros ->. split.
  { destruct (ke_kzalloc env) eqn:Hk; [done|]. unfold cortex_forge_probe, call, return_if in Hr.
    rewrite Hk in Hr. discriminate. }
  destruct Hout as [[_ ->]|[[] _]]; [|done]. split; [apply bound_dev_ok|].
  cbn [ps_dev]. rewrite bound_dev_accels. by vm_compute.
Qed.

Lemma thread_stops_all l ts :
  a_worker_thread <$> l = KT_THREAD <$> ts → thread_stops l = KC_kthread_stop <$> ts.
Proof.
  revert ts. induction l as [|a l IH]; intros [|t ts]; try done. intros [= Ha Hl].
  unfold thread_stops in *. cbn [omap list_omap fmap list_fmap]. by rewrite Ha, (IH ts Hl).
Qed.

Lemma remove_bound d :
  bound_ok d → ∃ s, cortex_forge_remove {| ps_dev := d; ps_log := [] |} = (Ok (), s) ∧
    omap stop_of (ps_log s) = seq 0 NUM_ACCELERATORS.
Proof.
  intros Hb. pose proof (bound_not_err d Hb) as Herr. destruct Hb as [Hok Hth].
  unfold cortex_forge_remove. do 3 erewrite KM_bind_ok by reflexivity.
  cbn [ps_dev ps_log]. eexists. split.
  - apply accel_stop_workers_run; [by rewrite (dok_accels d Hok)|by apply Forall_take].
  - cbn [ps_log]. rewrite omap_app. cbn [omap list_omap stop_of app].
    rewrite take_ge by (by rewrite (dok_accels d Hok)). 
    by rewrite (thread_stops_all _ _ Hth), stop_of_stops.
Qed.

Lemma bound_effect now d d' : dev_effect now d d' → bound_ok d → bound_ok d'.
Proof.
  intros He [Hok Hth]. split; [by eapply dev_ok_effect|]. destruct He; [done| |done].
  rewrite <- Hth. unfold submitted. cbn. apply list_eq. intros j.
  rewrite !list_lookup_fmap, arr_upd_lookup. case_decide; [|done].
  by destruct (dev_accelerators d !! j).
Qed.

Section HostProps.
Context {U : Type} `{UserMemoryLaws U}.
Context (HZ : Z).

(** Only the bound device is allocated; it is well formed and [g_dev] is its
    address; every pointer held was allocated once. *)
Record host_inv (h : host U) : Prop := {
  hi_heap : ∀ p d, h_heap h !! p = Some d → h_drvdata h = Some p ∧ bound_ok d;
  hi_bound : ∀ p, h_drvdata h = Some p → is_Some (h_heap h !! p) ∧ h_g_dev h = Some p;
  hi_fresh : ∀ p, h_drvdata h = Some p → (p < h_next h)%nat;
}.

(** Every open file is on the bound device. *)
Definition files_current (h : host U) : Prop :=
  ∀ k p, h_files h !! k = Some (Some p) → h_drvdata h = Some p.

Lemma host_bind_inv env gone h :
  host_inv h → h_drvdata h = None → existsb gone (probe_stops env) = false →
  ∃ code h', host_bind env gone h = (Ok code, h') ∧ host_inv h' ∧ h_files h' = h_files h.
Proof.
  intros [Hh _ _] Hnone Hgone. unfold host_bind, stops_gone.
  destruct (probe_bound env) as (code & s & -> & -> & Hb). rewrite Hgone.
  eexists _, _. split; [reflexivity|]. split; [|done].
  assert (Hempty : ∀ p, h_heap h !! p = None).
  { intros p. destruct (h_heap h !! p) as [d|] eqn:E; [|done].
    destruct (Hh p d E) as [E' _]. congruence. }
  destruct (decide (code = 0)) as [->|Hne].
  - destruct (Hb eq_refl) as [-> Hok]. split; cbn.
    + intros p d. destruct (decide (p = h_next h)) as [->|Hne].
      * rewrite lookup_insert_eq. by intros [= <-].
      * rewrite lookup_insert_ne by done. by rewrite Hempty.
    + intros p [= <-]. by rewrite lookup_insert_eq.
    + intros p [= <-]. lia.
  - replace (match code with 0 => true | _ => false end) with false by (by destruct code).
    split; cbn; [|done..]. intros p d. by rewrite Hempty.
Qed.

Lemma host_bind_gone env gone (h : host U) :
  existsb gone (probe_stops env) = true → host_bind env gone h = (Oops, h).
Proof.
  intros Hgone. unfold host_bind, stops_gone.
  destruct (probe_bound env) as (code & s & -> & -> & _). by rewrite Hgone.
Qed.

Lemma host_unbind_inv p d gone h :
  host_inv h → h_drvdata h = Some p → h_heap h !! p = Some d →
  existsb gone (seq 0 NUM_ACCELERATORS) = false →
  ∃ h', host_unbind p d gone h = (Ok 0, h') ∧ host_inv h' ∧ h_files h' = h_files h ∧
    h_heap h' = ∅ ∧ h_g_dev h' = Some p ∧ h_user h' = h_user h.
Proof.
  intros [Hh Hb _] Hp Hd Hgone. destruct (Hh p d Hd) as [_ Hok]. unfold host_unbind, stops_gone.
  destruct (remove_bound d Hok) as (s & -> & ->). rewrite Hgone. eexists. split; [reflexivity|]. cbn.
  assert (Hempty : delete p (h_heap h) = ∅).
  { apply map_empty. intros q. destruct (decide (q = p)) as [->|Hne]; [apply lookup_delete_eq|].
    rewrite lookup_delete_ne by done. destruct (h_heap h !! q) as [d'|] eqn:E; [|done].
    destruct (Hh q d' E) as [E' _]. congruence. }
  rewrite Hempty. split.
  { split; cbn; [|done..]. intros q d'. by rewrite lookup_empty. }
  split_and!; try done. by apply Hb.
Qed.

Lemma host_unbind_gone p d gone h :
  host_inv h → h_heap h !! p = Some d → existsb gone (seq 0 NUM_ACCELERATORS) = true →
  host_unbind p d gone h = (Oops, h).
Proof.
  intros [Hh _ _] Hd Hgone. destruct (Hh p d Hd) as [_ Hok]. unfold host_unbind, stops_gone.
  destruct (remove_bound d Hok) as (s & -> & ->). by rewrite Hgone.
Qed.

(** A request never crashes on an allocated device, nor when it needs none. *)
Lemma host_ioctl_inv p cmd uarg h :
  host_inv h → (h_drvdata h = Some p ∨ needs_dev cmd uarg (h_user h) = false) →
  ∃ code h', host_ioctl HZ p cmd uarg h = (Ok code, h') ∧ host_inv h' ∧ h_files h' = h_files h ∧
    h_drvdata h' = h_drvdata h.
Proof.
  intros Hinv Hp. pose proof Hinv as [Hh Hb Hf]. unfold host_ioctl.
  destruct (h_heap h !! p) as [d|] eqn:Hd.
  - destruct (Hh p d Hd) as [Hp' Hok].
    destruct (ioctl_outcome HZ cmd uarg {| w_dev := d; w_user := h_user h; w_jiffies := h_jiffies h |})
      as (code & w & -> & _ & _ & He & _); [apply Hok|].
    eexists _, _. split; [reflexivity|]. split; [|done]. split; cbn.
    + intros q d'. destruct (decide (q = p)) as [->|Hne].
      * rewrite lookup_insert_eq. intros [= <-]. split; [done|]. by eapply bound_effect.
      * rewrite lookup_insert_ne by done. apply Hh.
    + intros q Hq. assert (q = p) as -> by congruence. rewrite lookup_insert_eq. split; [done|].
      by apply Hb.
    + done.
  - destruct Hp as [Hp|Hn]; [destruct (Hb p Hp) as [[d' Hd'] _]; congruence|]. rewrite Hn.
    destruct (needs_dev_sound HZ (h_user h) (h_jiffies h) cmd uarg Hn) as (r & u' & Hrun).
    destruct (ioctl_outcome HZ cmd uarg
      {| w_dev := boot_dev; w_user := h_user h; w_jiffies := h_jiffies h |})
      as (code & w & Hr & _); [apply boot_dev_ok|].
    rewrite Hrun in Hr. injection Hr as -> _. rewrite Hrun. eexists _, _. split; [reflexivity|].
    split; [|done]. split; cbn; auto.
Qed.

(** A history in which the driver is unbound only while no file is open. *)
Fixpoint unbinds_when_closed (es : list host_event) (h : host U) : bool :=
  match es with
  | [] => true
  | e :: es' =>
      match e with H_unbind _ => forallb (λ f, bool_decide (f = None)) (h_files h) | _ => true end &&
      match host_exec HZ e h with
      | Some (Oops, _) | None => true
      | Some (_, h') => unbinds_when_closed es' h'
      end
  end.

(** An event that stops a thread that is gone. *)
Definition stops_late (e : host_event) : bool :=
  match e with
  | H_bind env gone => existsb gone (probe_stops env)
  | H_unbind gone => existsb gone (seq 0 NUM_ACCELERATORS)
  | _ => false
  end.

Lemma mjoin_file (f : list (option nat)) k p : mjoin (f !! k) = Some p ↔ f !! k = Some (Some p).
Proof. destruct (f !! k) as [[]|]; cbn; naive_solver. Qed.

(** An event whose request, if it is one, is on a current file or needs no
    device: it makes an invalid access if it stops a thread that is gone, and
    no other. *)
Lemma host_exec_inv e h r h' :
  host_inv h → host_exec HZ e h = Some (r, h') →
  (∀ k cmd uarg p, e = H_ioctl k cmd uarg → h_files h !! k = Some (Some p) →
     h_drvdata h = Some p ∨ needs_dev cmd uarg (h_user h) = false) →
  if stops_late e then r = Oops
  else ∃ code, r = Ok code ∧ host_inv h' ∧
    (files_current h → (∀ gone, e = H_unbind gone → Forall (λ f, f = None) (h_files h)) →
     files_current h').
Proof.
  intros Hinv He Hio. destruct e as [env gone|gone| |k|k cmd uarg]; cbn [host_exec stops_late] in *.
  - destruct (h_drvdata h) eqn:Hd; [done|]. destruct (existsb gone (probe_stops env)) eqn:Hg.
    { rewrite host_bind_gone in He by done. by injection He as <- _. }
    destruct (host_bind_inv env gone h Hinv Hd Hg) as (code & h1 & Hr & Hinv' & Hf).
    rewrite Hr in He. injection He as <- <-.
    exists code. split_and!; [done..|]. intros Hcur _ k p Hk. rewrite Hf in Hk.
    specialize (Hcur k p Hk). congruence.
  - destruct (h_drvdata h) as [p|] eqn:Hd; [|done]. cbn [mbind option_bind] in He.
    destruct (h_heap h !! p) as [d|] eqn:Hp; [|done]. cbn [mbind option_bind] in He.
    destruct (existsb gone (seq 0 NUM_ACCELERATORS)) eqn:Hg.
    { rewrite (host_unbind_gone p d) in He by done. by injection He as <- _. }
    destruct (host_unbind_inv p d gone h Hinv Hd Hp Hg) as (h1 & Hr & Hinv' & Hf & _).
    rewrite Hr in He. injection He as <- <-.
    exists 0. split_and!; [done..|]. intros _ Hcl k q Hk. rewrite Hf in Hk.
    by apply (Forall_lookup_1 _ _ _ _ (Hcl gone eq_refl)) in Hk.
  - destruct (h_drvdata h) as [p|] eqn:Hd; [|done]. cbn [mbind option_bind] in He. simplify_eq.
    exists 0. split_and!; [done|by destruct Hinv; split|]. intros Hcur _ k q. cbn.
    intros [Hk|[_ Hk]]%lookup_app_Some; [by eapply Hcur|].
    apply list_lookup_singleton_Some in Hk as [_ [= <-]]. done.
  - destruct (mjoin (h_files h !! k)) as [p|] eqn:Hk; [|done]. cbn [mbind option_bind] in He.
    simplify_eq. exists 0. split_and!; [done|by destruct Hinv; split|]. intros Hcur _ j q. cbn.
    intros [(_ & [=] & _)|[_ Hj]]%list_lookup_insert_Some. by eapply Hcur.
  - destruct (mjoin (h_files h !! k)) as [p|] eqn:Hk; [|done]. cbn [mbind option_bind] in He.
    apply mjoin_file in Hk.
    destruct (host_ioctl_inv p cmd uarg h Hinv (Hio k cmd uarg p eq_refl Hk))
      as (code & h1 & Hr & Hinv' & Hf & Hd).
    rewrite Hr in He. injection He as <- <-.
    exists code. split_and!; [done..|]. intros Hcur _ j q. rewrite Hf, Hd. apply Hcur.
Qed.

Lemma disciplined_run es h r h' :
  host_inv h → files_current h → unbinds_when_closed es h = true → host_run HZ es h = Some (r, h') →
  if existsb stops_late es then r = Oops else r = Ok 0 ∧ host_inv h' ∧ files_current h'.
Proof.
  revert h. induction es as [|e es IH]; intros h Hinv Hcur; cbn [unbinds_when_closed host_run existsb].
  { by intros _ [= <- <-]. }
  intros [Hcl Hd]%andb_prop. destruct (host_exec HZ e h) as [[r1 h1]|] eqn:He; [|done].
  cbn [mbind option_bind].
  pose proof (host_exec_inv e h r1 h1 Hinv He) as Hstep.
  destruct (stops_late e); cbn [orb].
  { rewrite Hstep by (intros k cmd uarg p -> Hk; left; by eapply Hcur). by intros [= <- _]. }
  destruct Hstep as (code & -> & Hinv1 & Hcur1).
  { intros k cmd uarg p -> Hk. left. by eapply Hcur. }
  apply IH; auto. apply Hcur1; [done|]. intros gone ->. apply Forall_forall.
  intros f Hf%list_elem_of_In.
  by apply (proj1 (forallb_forall _ _) Hcl), bool_decide_eq_true in Hf.
Qed.

(** The heap stays well formed in any history up to its first invalid access. *)
Lemma host_run_inv es h r h' :
  host_inv h → host_run HZ es h = Some (r, h') → r ≠ Oops → host_inv h'.
Proof.
  revert h. induction es as [|e es IH]; intros h Hinv; cbn [host_run].
  { by intros [= <- <-]. }
  destruct (host_exec HZ e h) as [[r1 h1]|] eqn:He; [|done]. cbn [mbind option_bind]. intros Hr Hne.
  assert (Hno : r1 ≠ Oops) by (intros ->; by injection Hr as <- _).
  pose proof (host_exec_inv e h r1 h1 Hinv He) as Hstep.
  assert (Hio : ∀ k cmd uarg p, e = H_ioctl k cmd uarg → h_files h !! k = Some (Some p) →
    h_drvdata h = Some p ∨ needs_dev cmd uarg (h_user h) = false).
  { intros k cmd uarg p -> Hk. destruct (needs_dev cmd uarg (h_user h)) eqn:Hn; [left|by right].
    cbn [host_exec] in He. rewrite (proj2 (mjoin_file _ _ _) Hk) in He. cbn [mbind option_bind] in He.
    unfold host_ioctl in He. destruct (h_heap h !! p) as [d|] eqn:Hp; [by apply (hi_heap h Hinv p d)|].
    rewrite Hn in He. by injection He as <- _. }
  specialize (Hstep Hio). destruct (stops_late e); [done|].
  destruct Hstep as (code & -> & Hinv1 & _). by apply IH in Hr.
Qed.

Lemma host_init_inv (u : U) now : host_inv (host_init u now).
Proof. split; cbn; [|done..]. intros p d. by rewrite lookup_empty. Qed.

Lemma host_init_files (u : U) now : files_current (host_init u now).
Proof. intros k p Hk. by destruct k. Qed.

(** C14: Open files, unbinding and the threads' own lifetime, when files and
    unbinding are in order.  Take any history of binds (failing or not), opens,
    closes, requests and unbinds in which the driver is only unbound while no
    file is open.  It makes an invalid access exactly when some remove, or the
    error path of some probe, stops a worker thread that had already returned
    and whose task structure was freed: the driver clears [running] before
    kthread_stop and holds no reference on the thread, so nothing in the code
    rules that out.  Otherwise every request, probe and remove ends, and every
    open file is on an allocated, well formed device. *)
Theorem disciplined_history_safe es u now r h :
  unbinds_when_closed es (host_init u now) = true →
  host_run HZ es (host_init u now) = Some (r, h) →
  (r = Oops ↔ ∃ e, e ∈ es ∧ stops_late e = true) ∧
  (r ≠ Oops → r = Ok 0 ∧
     ∀ k p, h_files h !! k = Some (Some p) → ∃ d, h_heap h !! p = Some d ∧ dev_ok d).
Proof.
  intros Hcl Hr.
  pose proof (disciplined_run es _ r h (host_init_inv u now) (host_init_files u now) Hcl Hr) as Hrun.
  assert (Hex : existsb stops_late es = true ↔ ∃ e, e ∈ es ∧ stops_late e = true)
    by (rewrite existsb_exists; by setoid_rewrite <- list_elem_of_In).
  rewrite <- Hex. destruct (existsb stops_late es); [by subst r|].
  destruct Hrun as (-> & Hinv & Hcur). split; [done|]. intros _. split; [done|]. intros k p Hk.
  destruct (hi_bound h Hinv p (Hcur k p Hk)) as [[d Hd] _]. exists d.
  split; [done|]. by apply (hi_heap h Hinv p d Hd).
Qed.

(** The code does not enforce that order either.  Whenever the driver is
    unbound while a file is open on its device, and remove itself succeeds, the
    device is freed under the file: the next request on it that gets past the
    checks of its argument is an access to freed memory.  [g_dev] too still
    holds the freed address. *)
Theorem unbind_while_open es u now h k p cmd uarg :
  host_run HZ es (host_init u now) = Some (Ok 0, h) →
  h_drvdata h = Some p → h_files h !! k = Some (Some p) → needs_dev cmd uarg (h_user h) = true →
  ∃ h', host_run HZ [H_unbind (λ _, false)] h = Some (Ok 0, h') ∧ h_g_dev h' = Some p ∧
    h_heap h' !! p = None ∧ host_run HZ [H_ioctl k cmd uarg] h' = Some (Oops, h').
Proof.
  intros Hr Hp Hk Hn. pose proof (host_run_inv es _ _ h (host_init_inv u now) Hr ltac:(done)) as Hinv.
  destruct (hi_bound h Hinv p Hp) as [[d Hd] _].
  destruct (host_unbind_inv p d (λ _, false) h Hinv Hp Hd eq_refl)
    as (h' & Hu & Hinv' & Hf & Hheap & Hg & Huser).
  exists h'. cbn [host_run host_exec]. rewrite Hp. cbn [mbind option_bind]. rewrite Hd.
  cbn [mbind option_bind]. rewrite Hu, Hf, (proj2 (mjoin_file _ _ _) Hk). split_and!; [done..| |].
  - by rewrite Hheap.
  - cbn [mbind option_bind]. unfold host_ioctl. by rewrite Hheap, lookup_empty, Huser, Hn.
Qed.
End HostProps.

(** ** Histories on a concrete memory *)

(** A process whose memory holds 16 zero bytes at 4096: task 0, accelerator 0. *)
Definition zero_user : flatmem := {| fm_bytes := fm_write ∅ 4096 (replicate 16 Byte.x00) |}.

(** Every thread is still there when it is stopped. *)
Definition none_gone : nat → bool := λ _, false.

Definition closed_history : list host_event :=
  [H_bind demo_kenv none_gone; H_open; H_ioctl 0 CORTEX_FORGE_IOCTL_CANCEL_TASK 4096; H_close 0;
   H_unbind none_gone; H_bind demo_kenv none_gone; H_open;
   H_ioctl 1 CORTEX_FORGE_IOCTL_SET_POWER 4096].

(** The same, but the thread of the second accelerator returned at once. *)
Definition late_history : list host_event :=
  [H_bind demo_kenv none_gone; H_open; H_close 0; H_unbind (λ i, bool_decide (i = 1%nat))].

Lemma disciplined_history_safe_witness :
  (∃ h, host_run 250 late_history (host_init zero_user 1000) = Some (Oops, h)) ∧
  ∃ h, host_run 250 closed_history (host_init zero_user 1000) = Some (Ok 0, h) ∧
    h_files h !! 1%nat = Some (Some 1%nat) ∧ ∃ d, h_heap h !! 1%nat = Some d ∧ dev_ok d.
Proof.
  split.
  { destruct (host_run 250 late_history (host_init zero_user 1000)) as [[r h]|] eqn:E;
      [|exfalso; by vm_compute in E].
    destruct (disciplined_history_safe 250 late_history zero_user 1000 r h
      ltac:(by vm_compute) E) as [[_ Hlate] _].
    exists h. f_equal. f_equal. apply Hlate.
    exists (H_unbind (λ i, bool_decide (i = 1%nat))). split; [|by vm_compute].
    do 3 apply list_elem_of_further. apply list_elem_of_here. }
  destruct (host_run 250 closed_history (host_init zero_user 1000)) as [[r h]|] eqn:E;
    [|exfalso; by vm_compute in E].
  assert (Hf : fst <$> Some (r, h) = Some (Ok 0) ∧ h_files h !! 1%nat = Some (Some 1%nat)).
  { assert (Hc : (λ x : res Z * host flatmem, (x.1, h_files x.2)) <$> Some (r, h) =
      Some (Ok 0, [None; Some 1%nat])) by (rewrite <- E; by vm_compute).
    cbn in Hc. injection Hc as -> ->. by split. }
  destruct Hf as [[= ->] Hf].
  destruct (disciplined_history_safe 250 closed_history zero_user 1000 (Ok 0) h) as [_ Hd].
  - by vm_compute.
  - exact E.
  - exists h. split; [reflexivity|]. split; [exact Hf|].
    exact (proj2 (Hd ltac:(discriminate)) 1%nat 1%nat Hf).
Defined.

Definition open_history : list host_event := [H_bind demo_kenv none_gone; H_open].

Lemma unbind_while_open_witness :
  ∃ h h', host_run 250 open_history (host_init zero_user 1000) = Some (Ok 0, h) ∧
    host_run 250 [H_unbind none_gone] h = Some (Ok 0, h') ∧
    host_run 250 [H_ioctl 0 CORTEX_FORGE_IOCTL_CANCEL_TASK 4096] h' = Some (Oops, h').
Proof.
  destruct (host_run 250 open_history (host_init zero_user 1000)) as [[r h]|] eqn:E;
    [|exfalso; by vm_compute in E].
  assert (Hr : fst <$> Some (r, h) = Some (Ok 0)) by (rewrite <- E; by vm_compute).
  assert (Hc : (λ h', (h_drvdata h', h_files h',
      needs_dev CORTEX_FORGE_IOCTL_CANCEL_TASK 4096 (h_user h'))) <$> (snd <$> Some (r, h)) =
    Some (Some 0%nat, [Some 0%nat], true)) by (rewrite <- E; by vm_compute).
  cbn in Hr, Hc. injection Hr as ->. injection Hc as Hd Hf Hn.
  destruct (unbind_while_open 250 open_history zero_user 1000 h 0 0
    CORTEX_FORGE_IOCTL_CANCEL_TASK 4096 E Hd (f_equal (λ l, l !! 0%nat) Hf) Hn) as (h' & Hu & _ & _ & Ho).
  exists h, h'. split; [reflexivity|]. split; [exact Hu|exact Ho].
Defined.
