(* ===== verification/Release.v ===== *)
(** * The release of the device against calls in flight

    When cortex_forge_remove (src/main.c) has returned, the driver core frees
    the device structure (devm).  The concurrent system of System.v, with the
    files open on the device and the release as one more event: a statement
    that dereferences the freed device is an invalid access.  The calls are
    those of cortex_forge_ioctl (src/chardev.c), the threads those of
    src/accel_manager.c. *)

From S2P Require Import Prelude CLayout Device UserMem Uapi TaskManager Pool AccelManager Worker DevInit Chardev System SystemInv Schedule Shutdown Teardown Probe Lifetime.

(** ** Statements that dereference the device *)

Definition touches_dev (pc : upc) : bool :=
  match pc with
  | U_check _ | U_q_copy _ | U_i_copy _ | U_const | U_ret _ => false
  | U_cancel _ i | U_query _ i => bool_decide (i < MAX_TASKS)%nat
  | U_info info => i_accel_type info <? Z.of_nat NUM_ACCELERATORS
  | U_limit v bound => v <=? bound      (* dev_info(&dev->pdev->dev, ...) *)
  | _ => true
  end.

(** ... in this statement or a later one of the call. *)
Definition may_touch (pc : upc) : bool :=
  match pc with
  | U_check desc => bool_decide (submit_error desc = None)
  | _ => touches_dev pc
  end.

Definition thread_touches (pc : wpc) : bool := negb (bool_decide (pc = W_exit)).

(** ** The system with its open files *)

Record mach : Type := {
  b_sys : sys;
  b_files : nat;
  b_freed : bool;
}.

Inductive bevent : Type :=
  | B_open                 (* open("/dev/cortex-forge0") *)
  | B_close                (* the last reference to a file goes *)
  | B_sys (e : event)
  | B_release.             (* remove has returned: devm frees the device *)

Definition set_b_sys (s : sys) (b : mach) : mach :=
  {| b_sys := s; b_files := b_files b; b_freed := b_freed b |}.
Definition set_b_files (n : nat) (b : mach) : mach :=
  {| b_sys := b_sys b; b_files := n; b_freed := b_freed b |}.

(** Whether the statement that [e] runs dereferences the device. *)
Definition event_touches (e : event) (s : sys) : bool :=
  match e with
  | E_user k _ => from_option touches_dev false (y_calls s !! k)
  | E_worker i => from_option thread_touches false (y_workers s !! i)
  | _ => false
  end.

Section Mach.
Context (HZ : Z) (m2j : Z → Z).

(** A new call needs an open file; cdev_del, the start of the removal, ends
    the opens. *)
Definition b_exec (e : bevent) (b : mach) : option (res () * mach) :=
  match e with
  | B_open =>
      if decide (y_remover (b_sys b) = R_idle) then Some (Ok (), set_b_files (S (b_files b)) b)
      else None
  | B_close =>
      match b_files b with O => None | S n => Some (Ok (), set_b_files n b) end
  | B_sys e =>
      if b_freed b && event_touches e (b_sys b) then Some (Oops, b)
      else
        match e, b_files b with
        | E_call _, O => None
        | _, _ => s' ← sys_exec HZ m2j e (b_sys b); Some (Ok (), set_b_sys s' b)
        end
  | B_release =>
      if decide (y_remover (b_sys b) = R_done ∧ b_freed b = false) then
        Some (Ok (), {| b_sys := b_sys b; b_files := b_files b; b_freed := true |})
      else None
  end.

(** A history, up to the first invalid access. *)
Fixpoint b_run (es : list bevent) (b : mach) : option (res () * mach) :=
  match es with
  | [] => Some (Ok (), b)
  | e :: es' =>
      '(r, b') ← b_exec e b;
      match r with Oops => Some (Oops, b') | _ => b_run es' b' end
  end.
End Mach.

(** ** Statements that do not *)

(** A statement that does not dereference the device runs the same on any, and
    writes none. *)
Lemma untouched_step HZ now copied pc :
  touches_dev pc = false → ∃ pc', (∀ d, ustep HZ now copied pc d = (Ok pc', d)) ∧
    (may_touch pc = false → may_touch pc' = false).
Proof.
  destruct pc as [desc| | | | | | | |id i| | | |id i| | | |status|info|info|v bound| |code];
    cbn [touches_dev]; try done; intros Ht.
  - eexists. split; [done|]. cbn [may_touch]. intros Hs%bool_decide_eq_false.
    by destruct (submit_error desc).
  - apply bool_decide_eq_false in Ht. exists (U_ret (- ENOENT)). split; [|done]. intros d. cbn [ustep].
    by rewrite decide_False by done.
  - apply bool_decide_eq_false in Ht. exists (U_ret (- ENOENT)). split; [|done]. intros d. cbn [ustep].
    by rewrite decide_False by done.
  - by eexists.
  - apply Z.ltb_ge in Ht. exists (U_ret (- EINVAL)). split; [|done]. intros d. cbn [ustep].
    by rewrite (proj2 (Z.leb_le _ _) Ht).
  - by eexists.
  - by eexists.
  - by eexists.
  - by eexists.
Qed.

(** What a request needs is what Lifetime.v says of its handler. *)
Lemma request_may_touch {U} `{UserMemory U} cmd uarg (u : U) :
  may_touch (request_entry cmd uarg u) = needs_dev cmd uarg u.
Proof.
  unfold request_entry, needs_dev.
  repeat match goal with
  | |- context [if cmd =? ?c then _ else _] => destruct (Z.eqb_spec cmd c) as [->|]
  end; try done;
    match goal with |- context [read_user ?A u uarg] => by destruct (read_user A u uarg) end.
Qed.

(** ** Which calls the release can hurt *)

Section Safe.
Context (HZ : Z) (m2j : Z → Z).

Definition mach_init (s : sys) : mach := {| b_sys := s; b_files := 0; b_freed := false |}.

Definition mach_reachable (b : mach) : Prop :=
  ∃ s es, sys_init s ∧ b_run HZ m2j es (mach_init s) = Some (Ok (), b).

Lemma b_exec_sys e b r b' :
  b_exec HZ m2j e b = Some (r, b') → b_sys b' = b_sys b ∨ sys_step HZ m2j (b_sys b) (b_sys b').
Proof.
  destruct e as [| |e|]; cbn [b_exec].
  - case_decide; [|done]. intros [= <- <-]. by left.
  - destruct (b_files b); [done|]. intros [= <- <-]. by left.
  - destruct (_ && _); [intros [= <- <-]; by left|]. intros Hx.
    assert (Hs : ∃ s', sys_exec HZ m2j e (b_sys b) = Some s' ∧ b' = set_b_sys s' b).
    { destruct (sys_exec HZ m2j e (b_sys b)) as [s'|];
        destruct e, (b_files b); simplify_eq/=; eauto. }
    destruct Hs as (s' & Hs & ->). right. by eapply sys_exec_step.
  - case_decide; [|done]. intros [= <- <-]. by left.
Qed.

Lemma b_run_reachable es b r b' :
  reachable HZ m2j (b_sys b) → b_run HZ m2j es b = Some (r, b') → reachable HZ m2j (b_sys b').
Proof.
  revert b. induction es as [|e es IH]; intros b Hr; cbn [b_run]; [by intros [= <- <-]|].
  destruct (b_exec HZ m2j e b) as [[r1 b1]|] eqn:He; [|done]. cbn [mbind option_bind].
  assert (Hr1 : reachable HZ m2j (b_sys b1)).
  { destruct (b_exec_sys e b r1 b1 He) as [->|Hs]; [done|]. by eapply reach_step. }
  destruct r1; [by apply IH..|]. by intros [= <- <-].
Qed.

Lemma mach_reachable_sys b : mach_reachable b → reachable HZ m2j (b_sys b).
Proof.
  intros (s & es & Hs & Hrun). eapply (b_run_reachable es); [|exact Hrun]. by apply reach_init.
Qed.

(** After the release, with no file open and no call that needs the device. *)
Record quiet (b : mach) : Prop := {
  q_files : b_files b = 0%nat;
  q_calls : Forall (λ pc, may_touch pc = false) (y_calls (b_sys b));
  q_workers : y_workers (b_sys b) = replicate NUM_ACCELERATORS W_exit;
  q_done : y_remover (b_sys b) = R_done;
  q_freed : b_freed b = true;
}.

Lemma may_touch_not pc : may_touch pc = false → touches_dev pc = false.
Proof. by destruct pc. Qed.

Lemma quiet_touches e b : quiet b → event_touches e (b_sys b) = false.
Proof.
  intros []. destruct e as [| |k copied|i|]; cbn; try done.
  - destruct (y_calls (b_sys b) !! k) as [pc|] eqn:Hk; [|done]. cbn.
    by eapply may_touch_not, (Forall_lookup_1 _ _ _ _ q_calls0).
  - rewrite q_workers0. destruct (replicate _ _ !! i) as [pc|] eqn:Hi; [|done].
    by apply lookup_replicate in Hi as [-> _].
Qed.

Lemma quiet_sys e b s' :
  quiet b → (∀ pc, e ≠ E_call pc) → sys_exec HZ m2j e (b_sys b) = Some s' → quiet (set_b_sys s' b).
Proof.
  intros [] Hne He. destruct e as [n|pc|k copied|i|]; cbn [sys_exec] in He.
  - by injection He as <-.
  - by destruct (Hne pc).
  - destruct (y_calls (b_sys b) !! k) as [pc|] eqn:Hk; [|done]. cbn [mbind option_bind] in He.
    pose proof (Forall_lookup_1 _ _ _ _ q_calls0 Hk) as Hm.
    destruct (untouched_step HZ (y_now (b_sys b)) copied pc (may_touch_not pc Hm)) as (pc' & Hu & Hm').
    rewrite Hu in He. injection He as <-. split; try done. cbn. apply Forall_insert; auto.
  - destruct (y_workers (b_sys b) !! i) as [pc|] eqn:Hi; [|done]. cbn [mbind option_bind] in He.
    destruct (y_stop (b_sys b) !! i); [|done]. cbn [mbind option_bind] in He.
    rewrite q_workers0 in Hi. pose proof Hi as [-> Hlt]%lookup_replicate.
    rewrite worker_exit_stays in He. injection He as <-. split; try done. cbn.
    rewrite q_workers0. by apply list_insert_id.
  - unfold remover_exec in He. by rewrite q_done0 in He.
Qed.

Lemma quiet_exec e b r b' : quiet b → b_exec HZ m2j e b = Some (r, b') → r = Ok () ∧ quiet b'.
Proof.
  intros Hq. pose proof Hq as []. destruct e as [| |e|]; cbn [b_exec].
  - rewrite q_done0. by rewrite decide_False by done.
  - by rewrite q_files0.
  - rewrite (quiet_touches e b Hq), andb_false_r, q_files0. intros He.
    destruct e as [n|pc|k copied|i|]; [|done|..];
      (destruct (sys_exec HZ m2j _ (b_sys b)) as [s'|] eqn:Hs; [|done]);
      injection He as <- <-; (split; [done|eapply (quiet_sys _ b s' Hq); [|exact Hs]; done]).
  - rewrite q_freed0, decide_False; [done|]. by intros [_ ?].
Qed.

Lemma quiet_run es b r b' : quiet b → b_run HZ m2j es b = Some (r, b') → r = Ok ().
Proof.
  revert b. induction es as [|e es IH]; intros b Hq; cbn [b_run]; [by intros [= <- _]|].
  destruct (b_exec HZ m2j e b) as [[r1 b1]|] eqn:He; [|done]. cbn [mbind option_bind].
  destruct (quiet_exec e b r1 b1 Hq He) as [-> Hq1]. by apply IH.
Qed.

(** The device after its release. *)
Definition released (b : mach) : mach :=
  {| b_sys := b_sys b; b_files := b_files b; b_freed := true |}.

(** A call that will dereference the device does so within two statements. *)
Lemma call_oops b k pc :
  b_freed b = true → y_calls (b_sys b) !! k = Some pc → may_touch pc = true →
  ∃ es b', b_run HZ m2j es b = Some (Oops, b').
Proof.
  intros Hf Hk Hm. destruct (touches_dev pc) eqn:Ht.
  - exists [B_sys (E_user k true)], b. cbn [b_run b_exec]. rewrite Hf. cbn [event_touches].
    rewrite Hk. cbn [from_option]. by rewrite Ht.
  - destruct pc as [desc| | | | | | | | | | | | | | | | | | | | |]; try (cbn in *; congruence).
    cbn [may_touch] in Hm. apply bool_decide_eq_true in Hm.
    exists [B_sys (E_user k true); B_sys (E_user k true)].
    eexists. cbn [b_run b_exec]. rewrite Hf. cbn [event_touches]. rewrite Hk.
    cbn [from_option touches_dev andb sys_exec]. rewrite Hk. cbn [mbind option_bind ustep mret KM_ret].
    rewrite Hm. cbn [set_b_sys b_sys b_freed y_calls]. rewrite Hf.
    rewrite list_lookup_insert_eq by (by eapply lookup_lt_Some). cbn. reflexivity.
Qed.

(** C9: Whether the release of the device is safe.  Removal has stopped the
    threads, so no worker can touch the device any more; but the release,
    which waits for nothing, is followed by no invalid access in any
    continuation if and only if no file is open on the device and no call in
    flight still dereferences it.  Nothing in the driver ensures either. *)
Theorem release_safe_iff b :
  mach_reachable b → b_freed b = false → y_remover (b_sys b) = R_done →
  ((∀ es r b', b_run HZ m2j (B_release :: es) b = Some (r, b') → r = Ok ()) ↔
   b_files b = 0%nat ∧ Forall (λ pc, may_touch pc = false) (y_calls (b_sys b))).
Proof.
  intros Hb Hf Hd. pose proof (mach_reachable_sys b Hb) as Hr.
  assert (Hrel : ∀ es, b_run HZ m2j (B_release :: es) b = b_run HZ m2j es (released b)).
  { intros es. cbn [b_run b_exec]. by rewrite decide_True by done. }
  split.
  - intros Hsafe.
    assert (Hno : ∀ es b', b_run HZ m2j es (released b) ≠ Some (Oops, b')).
    { intros es b' E. specialize (Hsafe es Oops b'). rewrite Hrel in Hsafe. by specialize (Hsafe E). }
    split.
    + destruct (b_files b) as [|n] eqn:Hn; [done|exfalso].
      set (k := length (y_calls (b_sys b))).
      apply (Hno [B_sys (E_call (U_cancel 0 0)); B_sys (E_user k true)]
        (set_b_sys {| y_dev := y_dev (b_sys b); y_now := y_now (b_sys b);
           y_workers := y_workers (b_sys b); y_stop := y_stop (b_sys b);
           y_calls := y_calls (b_sys b) ++ [U_cancel 0 0]; y_remover := y_remover (b_sys b);
           y_enq := y_enq (b_sys b); y_deq := y_deq (b_sys b) |} (released b))).
      cbn [b_run b_exec released b_freed b_sys b_files event_touches andb]. rewrite Hn.
      cbn [sys_exec]. rewrite decide_True by done.
      cbn [mbind option_bind set_b_sys b_freed b_sys b_files y_calls].
      by rewrite (list_lookup_middle _ [] _ k).
    + apply Forall_lookup. intros k pc Hk. destruct (may_touch pc) eqn:Hm; [exfalso|done].
      destruct (call_oops (released b) k pc) as (es & b' & E); [done..|]. by eapply Hno.
  - intros [Hfiles Hcalls] es r b'. rewrite Hrel. apply quiet_run.
    split; try done. by eapply done_exited.
Qed.
End Safe.

(** ** On concrete histories

    One submission on a file, then the removal, with the file closed before it
    or still open. *)

Definition demo_unbind (closed : bool) : list bevent :=
  [B_open] ++ (B_sys <$> demo_submit 0) ++ (if closed then [B_close] else []) ++
  (B_sys <$> [E_remove] ++ demo_stop 0 ++ demo_stop 1 ++ demo_stop 2 ++ [E_remove]).

Definition demo_mach (closed : bool) : mach :=
  from_option snd (mach_init sys0)
    (b_run demo_HZ demo_m2j (demo_unbind closed) (mach_init sys0)).

Lemma demo_mach_reachable closed : mach_reachable demo_HZ demo_m2j (demo_mach closed).
Proof. exists sys0, (demo_unbind closed). split; [done|]. destruct closed; by vm_compute. Qed.

Lemma release_safe_iff_witness :
  (∀ es r b', b_run demo_HZ demo_m2j (B_release :: es) (demo_mach true) = Some (r, b') →
     r = Ok ()) ∧
  ¬ (∀ es r b', b_run demo_HZ demo_m2j (B_release :: es) (demo_mach false) = Some (r, b') →
     r = Ok ()).
Proof.
  split.
  - apply (release_safe_iff demo_HZ demo_m2j (demo_mach true) (demo_mach_reachable true));
      [by vm_compute..|].
    split; [by vm_compute|].
    assert (Hc : y_calls (b_sys (demo_mach true)) = [U_ret 0]) by (by vm_compute).
    rewrite Hc. by repeat constructor.
  - intros Hsafe.
    apply (release_safe_iff demo_HZ demo_m2j (demo_mach false) (demo_mach_reachable false)) in Hsafe
      as [Hfiles _]; [|by vm_compute..].
    by vm_compute in Hfiles.
Defined.
