(* ===== verification/Races.v ===== *)
(** * Data races

    Which memory the statements of System.v access, how (an ordinary access, an
    operation on an atomic_t or a completion) and under which lock
    (src/chardev.c, src/task_manager.c, src/accel_manager.c); that they access
    nothing else; and which accesses race: two of different threads, ready at
    the same time, to the same location, one of them a write, with no lock in
    common and not both atomic.  What does not race is sequentially consistent
    on any memory model; what does is listed.

    A list's location is its head with the [entry] nodes on it; that no node is
    on two lists is [SystemProps.lists_exclusive]. *)

From S2P Require Import Prelude CLayout Device UserMem Uapi TaskManager Pool AccelManager Worker DevInit Chardev System Frame SystemInv Schedule Shutdown Teardown.

(** ** Locations *)

(** The fields of struct cortex_forge_task; [F_desc] are those copied from the
    descriptor. *)
Inductive field : Type :=
  | F_id | F_state | F_desc | F_submit | F_complete | F_error | F_done.

(** The fields of struct cortex_forge_accel; [A_static] are those only the
    initialisation writes. *)
Inductive afield : Type :=
  | A_queue | A_active | A_load | A_running | A_thread | A_static.

Inductive loc : Type :=
  | L_task (t : nat) (f : field)
  | L_accel (i : nat) (f : afield)
  | L_free                     (* dev->free_tasks *)
  | L_next.                    (* dev->next_task_id *)

#[export] Instance field_eq_dec : EqDecision field.
Proof. solve_decision. Defined.
#[export] Instance afield_eq_dec : EqDecision afield.
Proof. solve_decision. Defined.
#[export] Instance loc_eq_dec : EqDecision loc.
Proof. solve_decision. Defined.

(** ** What is stored there *)

Definition field_val (f : field) (t : task) : list Z :=
  match f with
  | F_id => [t_id t]
  | F_state => [task_state_val (t_state t)]
  | F_desc => [t_accel_type t; t_priority t; t_input_addr t; t_input_size t; t_output_addr t;
               t_output_size t; t_timeout_ms t]
  | F_submit => [t_submit_jiffies t]
  | F_complete => [t_complete_jiffies t]
  | F_error => [t_error_code t]
  | F_done => [if t_done t then 1 else 0]
  end.

Definition kthread_val (k : kthread) : list Z :=
  match k with KT_NULL => [0] | KT_THREAD n => [1; Z.of_nat n] | KT_ERR e => [2; e] end.

Definition afield_val (f : afield) (a : accel) : list Z :=
  match f with
  | A_queue => Z.of_nat <$> a_task_queue a
  | A_active => Z.of_nat <$> a_active_tasks a
  | A_load => [a_load_percent a]
  | A_running => [a_running a]
  | A_thread => kthread_val (a_worker_thread a)
  | A_static =>
      [a_type a; a_freq_hz a; a_temp_celsius a; a_fw_version a; a_hw_version a; a_mem_total a;
       a_mem_free a; a_state a] ++ ((λ c, Z.of_N (Ascii.N_of_ascii c)) <$> a_name a)
  end.

Definition loc_val (l : loc) (d : dev) : option (list Z) :=
  match l with
  | L_task t f => field_val f <$> dev_tasks d !! t
  | L_accel i f => afield_val f <$> dev_accelerators d !! i
  | L_free => Some (Z.of_nat <$> dev_free_tasks d)
  | L_next => Some [dev_next_task_id d]
  end.

(** ** Accesses *)

Inductive lock : Type :=
  | TASK_LOCK                  (* dev->task_lock, a spinlock *)
  | ACCEL_LOCK (i : nat).      (* accelerators[i].lock, a mutex *)

#[export] Instance lock_eq_dec : EqDecision lock.
Proof. solve_decision. Defined.

(** [ac_atomic]: an operation of atomic_t, or complete_all. *)
Record access : Type := {
  ac_loc : loc;
  ac_write : bool;
  ac_atomic : bool;
  ac_lock : option lock;
}.

Definition rd (l : loc) : access :=
  {| ac_loc := l; ac_write := false; ac_atomic := false; ac_lock := None |}.
Definition wr (l : loc) : access :=
  {| ac_loc := l; ac_write := true; ac_atomic := false; ac_lock := None |}.
Definition atomic (x : access) : access :=
  {| ac_loc := ac_loc x; ac_write := ac_write x; ac_atomic := true; ac_lock := ac_lock x |}.
Definition under (m : lock) (x : access) : access :=
  {| ac_loc := ac_loc x; ac_write := ac_write x; ac_atomic := ac_atomic x; ac_lock := Some m |}.

Definition all_fields : list field := [F_id; F_state; F_desc; F_submit; F_complete; F_error; F_done].

(** *** The statements of a call *)

Definition ufoot (d : dev) (pc : upc) : list access :=
  match pc with
  | U_alloc _ =>
      under TASK_LOCK (rd L_free) ::
      match dev_free_tasks d with
      | [] => []
      | t :: _ =>
          under TASK_LOCK (wr L_free) :: under TASK_LOCK (atomic (wr L_next)) ::
          ((λ f, under TASK_LOCK (wr (L_task t f))) <$> all_fields)
      end
  | U_fill t _ => [wr (L_task t F_desc)]
  | U_pending t _ => [rd (L_task t F_desc); wr (L_task t F_state)]
  | U_free t => [under TASK_LOCK (wr (L_task t F_state)); under TASK_LOCK (wr L_free)]
  | U_stamp t _ => [wr (L_task t F_submit)]
  | U_enqueue _ desc =>
      let i := Z.to_nat (d_accel_type desc) in [under (ACCEL_LOCK i) (wr (L_accel i A_queue))]
  | U_copy t => [rd (L_task t F_id)]
  | U_cancel _ i | U_query _ i =>
      if decide (i < MAX_TASKS)%nat then [rd (L_task i F_id); rd (L_task i F_state)] else []
  | U_c_state i => [wr (L_task i F_state)]
  | U_c_error i => [wr (L_task i F_error)]
  | U_c_done i => [atomic (wr (L_task i F_done))]
  | U_q_state i => [rd (L_task i F_id); rd (L_task i F_state)]
  | U_q_usec i _ _ => [rd (L_task i F_submit); rd (L_task i F_complete)]
  | U_q_error i _ _ _ => [rd (L_task i F_error)]
  | U_info info =>
      if Z.of_nat NUM_ACCELERATORS <=? i_accel_type info then []
      else let i := Z.to_nat (i_accel_type info) in
        [under (ACCEL_LOCK i) (rd (L_accel i A_load)); under (ACCEL_LOCK i) (rd (L_accel i A_static))]
  | U_check _ | U_q_copy _ | U_i_copy _ | U_const | U_limit _ _ | U_ret _ => []
  end.

(** *** Of worker [i]

    [W_wait] is the condition of wait_event_interruptible_timeout: list_empty
    without the lock. *)
Definition wfoot (i : nat) (d : dev) (pc : wpc) : list access :=
  match pc with
  | W_while | W_check => [atomic (rd (L_accel i A_running))]
  | W_wait => [rd (L_accel i A_queue); atomic (rd (L_accel i A_running))]
  | W_lock =>
      under (ACCEL_LOCK i) (rd (L_accel i A_queue)) ::
      match a_task_queue <$> dev_accelerators d !! i with
      | Some (_ :: _) =>
          [under (ACCEL_LOCK i) (wr (L_accel i A_queue)); under (ACCEL_LOCK i) (wr (L_accel i A_active))]
      | _ => []
      end
  | W_run t | W_complete t => [wr (L_task t F_state)]
  | W_load_up _ | W_load_down _ => [rd (L_accel i A_load); wr (L_accel i A_load)]
  | W_timeout t => [rd (L_task t F_desc)]
  | W_spin_state t _ _ => [rd (L_task t F_state)]
  | W_stamp t => [wr (L_task t F_complete)]
  | W_error_code t => [wr (L_task t F_error)]
  | W_done t => [atomic (wr (L_task t F_done))]
  | W_unlink _ => [under (ACCEL_LOCK i) (wr (L_accel i A_active))]
  | W_start _ _ | W_spin _ _ _ | W_sleep _ _ _ | W_stop _ _ _ | W_msleep _ | W_exit => []
  end.

(** *** Of accel_stop_workers *)
Definition rfoot (r : rpc) : list access :=
  match r with
  | R_clear i =>
      if decide (i < NUM_ACCELERATORS)%nat then [rd (L_accel i A_thread); atomic (wr (L_accel i A_running))] else []
  | R_kthread i => [rd (L_accel i A_thread)]
  | R_join i => [wr (L_accel i A_thread)]
  | R_idle | R_done => []
  end.

(** ** Footprints are sound

    [local xs m d]: run on [d], the block writes only what [xs] writes, and what
    it does depends only on what is stored at the locations of [xs]. *)

Definition writes (xs : list access) (l : loc) : Prop :=
  ∃ x, x ∈ xs ∧ ac_loc x = l ∧ ac_write x = true.

Definition agree (xs : list access) (d1 d2 : dev) : Prop :=
  ∀ x, x ∈ xs → loc_val (ac_loc x) d1 = loc_val (ac_loc x) d2.

Definition local {A} (xs : list access) (m : KM dev A) (d : dev) : Prop :=
  ∀ v d', m d = (Ok v, d') →
    (∀ l, ¬ writes xs l → loc_val l d' = loc_val l d) ∧
    ∀ d2, agree xs d2 d → ∃ d2', m d2 = (Ok v, d2') ∧ agree xs d2' d'.

Lemma local_ret {A} xs (v : A) d : local xs (mret v) d.
Proof. intros v' d' [= <- <-]. split; [done|]. intros d2 Ha. by exists d2. Qed.

Lemma agree_elem xs x l d1 d2 : agree xs d1 d2 → x ∈ xs → ac_loc x = l → loc_val l d1 = loc_val l d2.
Proof. intros Ha Hx <-. by apply Ha. Qed.

Lemma local_bind {A B} xs (m : KM dev A) (k : A → KM dev B) d :
  local xs m d → (∀ v d', local xs (k v) d') → local xs (m ≫= k) d.
Proof.
  intros Hm Hk v d'. unfold mbind, KM_bind. destruct (m d) as [[w| |] d1] eqn:Hr; [|done..]. intros Hr'.
  destruct (Hm _ _ Hr) as [Hs Hi]. destruct (Hk w d1 _ _ Hr') as [Hs' Hi']. split.
  - intros l Hl. by rewrite Hs', Hs.
  - intros d2 (d1' & E & Ha)%Hi. rewrite E. by apply Hi'.
Qed.

Lemma local_seq {A} xs (m : KM dev unit) (v : A) d : local xs m d → local xs (m ;; mret v) d.
Proof. intros Hm. apply local_bind; [done|]. intros. apply local_ret. Qed.

(** Reading fields [f0 :: fs] of a task. *)
Lemma local_read_task {A} xs f0 fs t (k : task → KM dev A) d :
  (∀ f, f ∈ f0 :: fs → ∃ x, x ∈ xs ∧ ac_loc x = L_task t f) →
  (∀ tk tk2, flip field_val tk <$> f0 :: fs = flip field_val tk2 <$> f0 :: fs → k tk = k tk2) →
  (∀ tk, local xs (k tk) d) →
  local xs (tk ← get_task t; k tk) d.
Proof.
  intros Hxs Hg Hk v d'. unfold get_task, arr_get, mbind, KM_bind.
  destruct (dev_tasks d !! t) as [tk|] eqn:Ht; [|done]. intros Hr. destruct (Hk tk _ _ Hr) as [Hs Hi].
  split; [done|]. intros d2 Ha.
  assert (Hf : ∀ f, f ∈ f0 :: fs → field_val f <$> dev_tasks d2 !! t = Some (field_val f tk)).
  { intros f Hf. destruct (Hxs f Hf) as (x & Hx & Hl).
    pose proof (agree_elem _ _ _ _ _ Ha Hx Hl) as E. cbn in E. by rewrite E, Ht. }
  destruct (dev_tasks d2 !! t) as [tk2|] eqn:Ht2; [|by specialize (Hf f0 (list_elem_of_here _ _))].
  rewrite (Hg tk2 tk); [by apply Hi|]. apply list_fmap_ext. intros i f Hin%list_elem_of_lookup_2.
  specialize (Hf f Hin). cbn in *. by simplify_eq.
Qed.

(** Reading fields [f0 :: fs] of an accelerator. *)
Lemma local_read_accel {A} xs f0 fs i (k : accel → KM dev A) d :
  (∀ f, f ∈ f0 :: fs → ∃ x, x ∈ xs ∧ ac_loc x = L_accel i f) →
  (∀ a a2, flip afield_val a <$> f0 :: fs = flip afield_val a2 <$> f0 :: fs → k a = k a2) →
  (∀ a, dev_accelerators d !! i = Some a → local xs (k a) d) →
  local xs (a ← get_accel i; k a) d.
Proof.
  intros Hxs Hg Hk v d'. unfold get_accel, arr_get, mbind, KM_bind.
  destruct (dev_accelerators d !! i) as [a|] eqn:Hi; [|done]. intros Hr. destruct (Hk a eq_refl _ _ Hr) as [Hs Hd].
  split; [done|]. intros d2 Ha.
  assert (Hf : ∀ f, f ∈ f0 :: fs → afield_val f <$> dev_accelerators d2 !! i = Some (afield_val f a)).
  { intros f Hf. destruct (Hxs f Hf) as (x & Hx & Hl).
    pose proof (agree_elem _ _ _ _ _ Ha Hx Hl) as E. cbn in E. by rewrite E, Hi. }
  destruct (dev_accelerators d2 !! i) as [a2|] eqn:Hi2; [|by specialize (Hf f0 (list_elem_of_here _ _))].
  rewrite (Hg a2 a); [by apply Hd|]. apply list_fmap_ext. intros j f Hin%list_elem_of_lookup_2.
  specialize (Hf f Hin). cbn in *. by simplify_eq.
Qed.

(** Writing one location. *)
Lemma local_write xs L (m : KM dev unit) (u : dev → dev) d :
  (∀ d, m d = if decide (is_Some (loc_val L d)) then (Ok (), u d) else (Oops, d)) →
  (∀ d l, l ≠ L → loc_val l (u d) = loc_val l d) →
  (∀ d d2, loc_val L d = loc_val L d2 → loc_val L (u d) = loc_val L (u d2)) →
  writes xs L → local xs m d.
Proof.
  intros Hm Hother Hsame Hw v' d'. rewrite Hm.
  destruct (decide (is_Some (loc_val L d))) as [Hs|]; [|done]. intros [= <- <-]. split.
  { intros l Hl. apply Hother. intros ->. done. }
  intros d2 Ha. pose proof Hw as (x & Hx & Hl & _). pose proof (agree_elem _ _ _ _ _ Ha Hx Hl) as E.
  exists (u d2). rewrite Hm, decide_True by (by rewrite E). split; [done|].
  intros y Hy. destruct (decide (ac_loc y = L)) as [->|Hne]; [by apply Hsame|].
  rewrite !Hother by done. by apply Ha.
Qed.

Lemma local_write_task xs t f g d :
  writes xs (L_task t f) → (∀ tk f', f' ≠ f → field_val f' (g tk) = field_val f' tk) →
  (∀ tk tk2, field_val f tk = field_val f tk2 → field_val f (g tk) = field_val f (g tk2)) →
  local xs (upd_task t g) d.
Proof.
  intros Hw Hother Hsame. apply (local_write xs (L_task t f) _ (upd_tasks (arr_upd t g))); [| | |done].
  - intros d1. unfold upd_task, get_task, arr_get, mbind, KM_bind. cbn. destruct (dev_tasks d1 !! t); cbn.
    + by rewrite decide_True by eauto.
    + rewrite decide_False by (by intros [? ?]). done.
  - intros d1 [u f'| | |] Hne; try done. cbn. rewrite arr_upd_lookup. case_decide; [|done]. subst.
    destruct (dev_tasks d1 !! _); cbn; [|done]. rewrite Hother; congruence.
  - intros d1 d2 E. cbn in *. rewrite !arr_upd_same.
    destruct (dev_tasks d1 !! t), (dev_tasks d2 !! t); cbn in *; try done. injection E as E. f_equal. by apply Hsame.
Qed.

Lemma local_write_accel xs i f g d :
  writes xs (L_accel i f) → (∀ a f', f' ≠ f → afield_val f' (g a) = afield_val f' a) →
  (∀ a a2, afield_val f a = afield_val f a2 → afield_val f (g a) = afield_val f (g a2)) →
  local xs (upd_accel i g) d.
Proof.
  intros Hw Hother Hsame. apply (local_write xs (L_accel i f) _ (upd_accelerators (arr_upd i g))); [| | |done].
  - intros d1. unfold upd_accel, get_accel, arr_get, mbind, KM_bind. cbn. destruct (dev_accelerators d1 !! i); cbn.
    + by rewrite decide_True by eauto.
    + rewrite decide_False by (by intros [? ?]). done.
  - intros d1 [|u f'| |] Hne; try done. cbn. rewrite arr_upd_lookup. case_decide; [|done]. subst.
    destruct (dev_accelerators d1 !! _); cbn; [|done]. rewrite Hother; congruence.
  - intros d1 d2 E. cbn in *. rewrite !arr_upd_same.
    destruct (dev_accelerators d1 !! i), (dev_accelerators d2 !! i); cbn in *; try done.
    injection E as E. f_equal. by apply Hsame.
Qed.

Ltac pick := apply list_elem_of_here + (apply list_elem_of_further; pick).
Ltac in_foot := once (eexists; split; [pick|by repeat split]).

Lemma task_state_val_inj s s' : task_state_val s = task_state_val s' → s = s'.
Proof. by destruct s, s'. Qed.

Lemma nat_list_inj (l k : list nat) : Z.of_nat <$> l = Z.of_nat <$> k → l = k.
Proof. apply list_fmap_eq_inj. intros x y. lia. Qed.

Ltac foot_fields :=
  intros ? Hf; repeat (apply elem_of_cons in Hf as [->|Hf]); [in_foot..|by apply not_elem_of_nil in Hf].
Ltac write_field F :=
  apply (local_write_task _ _ F); [in_foot|by intros ? [] ?|done].
Ltac write_afield F :=
  apply (local_write_accel _ _ F);
  [in_foot|by intros ? [] ?|intros ? ?; cbn; try (intros ->%nat_list_inj); try (intros [= ->]); done].

Ltac read_fields F FS :=
  apply (local_read_task _ F FS);
  [foot_fields
  |intros tk tk2; cbn; intros [=]; unfold task_matches, exec_usec;
   repeat match goal with
   | H : task_state_val _ = task_state_val _ |- _ => apply task_state_val_inj in H
   | H : _ = _ |- _ => rewrite H; clear H
   end; reflexivity
  |intros tk; apply local_ret].

Lemma append_local xs t d :
  writes xs L_free → local xs (modify (upd_free_tasks (λ l, l ++ [t]))) d.
Proof.
  intros Hw. eapply (local_write xs L_free _ (upd_free_tasks (λ l, l ++ [t]))); [by intros|by intros d0 []| |done].
  intros d1 d2 E. cbn in *. injection E as E%nat_list_inj. by rewrite E.
Qed.

Lemma alloc_local d desc :
  local (ufoot d (U_alloc desc))
    (r ← task_alloc; mret (match r with Some t => U_fill t desc | None => U_ret (- ENOMEM) end)) d.
Proof.
  intros v d'. unfold mbind, KM_bind. rewrite task_alloc_run. cbn [ufoot].
  destruct (dev_free_tasks d) as [|t q] eqn:Hf.
  { intros [= <- <-]. split; [done|]. intros d2 Ha. exists d2. rewrite task_alloc_run.
    assert (Hf2 : dev_free_tasks d2 = []); [|by rewrite Hf2].
    pose proof (Ha _ (list_elem_of_here _ _)) as E. cbn in E. injection E as E. rewrite Hf in E.
    by destruct (dev_free_tasks d2). }
  case_decide as Ht; [|done]. intros [= <- <-]. set (xs := _ :: _ :: _ :: _). split.
  - assert (Hw : ∀ f, writes xs (L_task t f)).
    { intros f. exists (under TASK_LOCK (wr (L_task t f))). split; [|done].
      do 3 apply list_elem_of_further. apply (list_elem_of_fmap_2 (λ f, under TASK_LOCK (wr (L_task t f)))).
      destruct f; set_solver. }
    intros [t' f| | |] Hl; try done; cbn.
    + rewrite arr_upd_lookup. case_decide; subst; [|done]. by destruct Hl.
    + destruct Hl. exists (under TASK_LOCK (wr L_free)). split; [set_solver|done].
    + destruct Hl. exists (under TASK_LOCK (atomic (wr L_next))). split; [set_solver|done].
  - intros d2 Ha.
    assert (Hf2 : dev_free_tasks d2 = t :: q).
    { rewrite <- Hf. apply nat_list_inj. pose proof (Ha _ (list_elem_of_here _ _)) as E. cbn in E. congruence. }
    assert (Hn : dev_next_task_id d2 = dev_next_task_id d).
    { pose proof (Ha (under TASK_LOCK (atomic (wr L_next))) ltac:(set_solver)) as E. cbn in E. congruence. }
    assert (Htask : is_Some (dev_tasks d2 !! t)).
    { pose proof (Ha (under TASK_LOCK (wr (L_task t F_id))) ltac:(set_solver)) as E. cbn in E.
      apply lookup_lt_is_Some_2 in Ht as [tk Htk]. rewrite Htk in E. by destruct (dev_tasks d2 !! t). }
    pose proof (lookup_lt_is_Some_1 _ _ Htask) as Ht2. rewrite task_alloc_run, Hf2, decide_True by done.
    eexists. split; [reflexivity|]. apply lookup_lt_is_Some_2 in Ht as [tk Htk]. destruct Htask as [tk2 Htk2].
    intros x Hx. unfold xs in Hx. repeat (apply elem_of_cons in Hx as [->|Hx]); cbn -[field_val];
      rewrite ?Hf, ?Hf2, ?arr_upd_same, ?Htk, ?Htk2; unfold next_id; rewrite ?Hn; try done.
    by apply not_elem_of_nil in Hx.
Qed.

Lemma ustep_local HZ now copied pc d : local (ufoot d pc) (ustep HZ now copied pc) d.
Proof.
  destruct pc as [desc|desc|t desc|t desc|t|t desc|t desc|t|id i|i|i|i|id i|i|i id st|i id st us|status|info|info|v b| |code];
    cbn [ustep ufoot]; try apply local_ret.
  - apply alloc_local.
  - apply local_seq. write_field F_desc.
  - apply (local_read_task _ F_desc []); [foot_fields| |].
    + intros tk tk2. cbn. intros [= ->]. done.
    + intros tk. case_match; [apply local_ret|]. apply local_seq. write_field F_state.
  - apply local_seq. apply local_bind; [|intros _ d1; apply append_local; in_foot].
    write_field F_state.
  - apply local_seq. write_field F_submit.
  - apply local_seq. write_afield A_queue.
  - read_fields F_id (@nil field).
  - case_decide; [|apply local_ret]. read_fields F_id [F_state].
  - apply local_seq. write_field F_state.
  - apply local_seq. write_field F_error.
  - apply local_seq. write_field F_done.
  - case_decide; [|apply local_ret]. read_fields F_id [F_state].
  - read_fields F_id [F_state].
  - read_fields F_submit [F_complete].
  - read_fields F_error (@nil field).
  - case_match; [apply local_ret|].
    apply (local_read_accel _ A_load [A_static]); [foot_fields| |intros a _; apply local_ret].
    intros a a2. cbn -[fmap]. intros [=]. unfold accel_get_info. congruence.
Qed.

Lemma running_local i d (pc pc' : wpc) :
  local [atomic (rd (L_accel i A_running))]
    (a ← get_accel i; mret (if a_running a =? 0 then pc else pc')) d.
Proof.
  apply (local_read_accel _ A_running []); [foot_fields| |intros a _; apply local_ret].
  intros a a2. cbn. by intros [= ->].
Qed.

Lemma worker_local m2j i now stop pc d : local (wfoot i d pc) (worker_step m2j i now stop pc) d.
Proof.
  destruct pc; cbn [worker_step wfoot]; try apply local_ret; try apply running_local.
  - apply local_bind; [|intros; apply local_ret]. unfold dequeue.
    apply (local_read_accel _ A_queue []); [foot_fields| |].
    + intros a a2. cbn. by intros [= ->%nat_list_inj].
    + intros a Ha. rewrite Ha. cbn [fmap option_fmap option_map]. destruct (a_task_queue a) as [|t q]; [apply local_ret|].
      apply local_bind; [write_afield A_queue|intros _ d1]. apply local_seq. write_afield A_active.
  - apply local_seq. write_field F_state.
  - apply local_seq. write_afield A_load.
  - read_fields F_desc (@nil field).
  - read_fields F_state (@nil field).
  - apply local_seq. write_field F_complete.
  - apply local_seq. write_field F_state.
  - apply local_seq. write_field F_error.
  - apply local_seq. write_afield A_load.
  - apply local_seq. write_field F_done.
  - apply local_seq. write_afield A_active.
Qed.

(** ** Threads of the system *)

Inductive agent : Type :=
  | A_call (k : nat)
  | A_worker (i : nat)
  | A_remover.

#[export] Instance agent_eq_dec : EqDecision agent.
Proof. solve_decision. Defined.

(** What the next statement of [a] accesses. *)
Definition foot (s : sys) (a : agent) : list access :=
  match a with
  | A_call k => from_option (ufoot (y_dev s)) [] (y_calls s !! k)
  | A_worker i => from_option (wfoot i (y_dev s)) [] (y_workers s !! i)
  | A_remover => rfoot (y_remover s)
  end.

(** Its execution; [copied] is the outcome of a copy to user memory. *)
Definition agent_event (a : agent) (copied : bool) : event :=
  match a with
  | A_call k => E_user k copied
  | A_worker i => E_worker i
  | A_remover => E_remove
  end.

Definition with_dev (d : dev) (s : sys) : sys :=
  {| y_dev := d; y_now := y_now s; y_workers := y_workers s; y_stop := y_stop s;
     y_calls := y_calls s; y_remover := y_remover s; y_enq := y_enq s; y_deq := y_deq s |}.

Lemma kthread_val_inj k k' : kthread_val k = kthread_val k' → k = k'.
Proof. destruct k, k'; cbn; intros [=]; subst; try done. f_equal. lia. Qed.

(** [remover_exec] as an operation on the device. *)
Definition clear_worker (i : nat) : KM dev rpc :=
  a ← get_accel i;
  if decide (a_worker_thread a = KT_NULL) then mret (R_clear (S i))
  else upd_accel i (set_a_running 0) ;; mret (R_kthread i).

Definition null_worker (i : nat) : KM dev rpc :=
  upd_accel i (set_a_worker_thread KT_NULL) ;; mret (R_clear (S i)).

Definition rstep (workers : list wpc) (r : rpc) : KM dev rpc :=
  match r with
  | R_idle => mret (R_clear 0)
  | R_clear i =>
      if decide (i < NUM_ACCELERATORS)%nat then clear_worker i
      else if decide (i = NUM_ACCELERATORS) then mret R_done else oops
  | R_kthread i => mret (R_join i)
  | R_join i => if decide (workers !! i = Some W_exit) then null_worker i else oops
  | R_done => oops
  end.

Definition rstop (r : rpc) (stop : list bool) : list bool :=
  match r with R_kthread i => arr_upd i (λ _, true) stop | _ => stop end.

Lemma clear_local i d : (i < NUM_ACCELERATORS)%nat → local (rfoot (R_clear i)) (clear_worker i) d.
Proof.
  intros Hi. cbn [rfoot]. rewrite decide_True by done.
  apply (local_read_accel _ A_thread []); [foot_fields| |].
  - intros a a2 [= E%kthread_val_inj]. by rewrite E.
  - intros a _. case_decide; [apply local_ret|]. apply local_seq. write_afield A_running.
Qed.

Lemma null_local i d : local (rfoot (R_join i)) (null_worker i) d.
Proof. apply local_seq. write_afield A_thread. Qed.

Lemma local_oops {A} xs d : local xs (oops : KM dev A) d.
Proof. by intros v d'. Qed.

Lemma rstep_local workers r d : local (rfoot r) (rstep workers r) d.
Proof.
  destruct r as [|i|i|i|]; cbn [rstep]; try apply local_ret; try apply local_oops.
  - case_decide; [by apply clear_local|]. case_decide; [apply local_ret|apply local_oops].
  - case_decide; [apply null_local|apply local_oops].
Qed.

Definition accels_ok (d : dev) : Prop := length (dev_accelerators d) = NUM_ACCELERATORS.

Lemma rstep_exec s :
  accels_ok (y_dev s) → length (y_workers s) = NUM_ACCELERATORS →
  remover_exec s =
  match rstep (y_workers s) (y_remover s) (y_dev s) with
  | (Ok r, d) => Some (r, d, rstop (y_remover s) (y_stop s))
  | _ => None
  end.
Proof.
  intros Hacc Hw. unfold remover_exec. destruct (y_remover s) as [|i|i|i|]; cbn [rstep rstop]; try done.
  - destruct (decide (i < NUM_ACCELERATORS)%nat) as [Hi|Hi].
    + destruct (lookup_lt_is_Some_2 (dev_accelerators (y_dev s)) i) as [a Ha]; [by rewrite Hacc|].
      unfold clear_worker, mbind, KM_bind. rewrite Ha, (get_accel_run _ _ _ Ha).
      case_decide; [done|]. by rewrite (upd_accel_run _ _ _ _ Ha).
    + rewrite lookup_ge_None_2 by (rewrite Hacc; lia). by case_decide.
  - case_decide as He; [|done]. apply lookup_lt_Some in He. rewrite Hw, <- Hacc in He.
    destruct (lookup_lt_is_Some_2 _ _ He) as [a Ha]. unfold null_worker, mbind, KM_bind.
    by rewrite (upd_accel_run _ _ _ _ Ha).
Qed.

(** *** Every statement *)

(** What a statement does to a system, as its operation on the device: the
    operation and what becomes of the control points. *)
Lemma local_exec {A} xs (m : KM dev A) (f : A → dev → sys) s s' :
  local xs m (y_dev s) → (∀ v d, y_dev (f v d) = d) → (∀ v d d2, f v d2 = with_dev d2 (f v d)) →
  (match m (y_dev s) with (Ok v, d) => Some (f v d) | _ => None end) = Some s' →
  (∀ l, ¬ writes xs l → loc_val l (y_dev s') = loc_val l (y_dev s)) ∧
  ∀ d2, agree xs d2 (y_dev s) → ∃ d2',
    (match m d2 with (Ok v, d) => Some (f v d) | _ => None end) = Some (with_dev d2' s') ∧
    agree xs d2' (y_dev s').
Proof.
  intros Hl Hf Hf2 He. destruct (m (y_dev s)) as [[v| |] d'] eqn:Hm; [|done..]. injection He as <-.
  rewrite Hf. destruct (Hl _ _ Hm) as [Hs Hd]. split; [done|].
  intros d2 (d2' & -> & Ha)%Hd. exists d2'. split; [by rewrite <- Hf2|done].
Qed.

Definition remover_next (s : sys) (r : rpc) (d : dev) : sys :=
  {| y_dev := d; y_now := y_now s; y_workers := y_workers s;
     y_stop := rstop (y_remover s) (y_stop s); y_calls := y_calls s; y_remover := r;
     y_enq := y_enq s; y_deq := y_deq s |}.

(** C11: A statement writes only the locations of its footprint that it marks as
    written, and depends only on what its footprint holds: on any other device
    with the same values there, it runs, goes to the same control point and
    leaves the same values there. *)
Theorem footprints_sound HZ m2j a copied s s' :
  accels_ok (y_dev s) → length (y_workers s) = NUM_ACCELERATORS →
  sys_exec HZ m2j (agent_event a copied) s = Some s' →
  (∀ l, ¬ writes (foot s a) l → loc_val l (y_dev s') = loc_val l (y_dev s)) ∧
  ∀ d2, accels_ok d2 → agree (foot s a) d2 (y_dev s) →
    ∃ d2', sys_exec HZ m2j (agent_event a copied) (with_dev d2 s) = Some (with_dev d2' s') ∧
           agree (foot s a) d2' (y_dev s').
Proof.
  intros Hacc Hw. destruct a as [k|i|]; cbn [agent_event sys_exec foot with_dev y_dev y_now y_workers y_stop y_calls y_remover y_enq y_deq].
  - destruct (y_calls s !! k) as [pc|]; [|done]. intros He.
    destruct (local_exec _ _ (user_next s k pc) s s' (ustep_local HZ (y_now s) copied pc (y_dev s))
                (λ _ _, eq_refl) (λ _ _ _, eq_refl) He) as [Hs Hd].
    split; [done|]. intros d2 _ Ha. by apply Hd.
  - destruct (y_workers s !! i) as [pc|]; [|done]. destruct (y_stop s !! i) as [st|]; [|done]. intros He.
    destruct (local_exec _ _ (worker_next s i pc) s s' (worker_local m2j i (y_now s) st pc (y_dev s))
                (λ _ _, eq_refl) (λ _ _ _, eq_refl) He) as [Hs Hd].
    split; [done|]. intros d2 _ Ha. by apply Hd.
  - intros He. destruct (local_exec _ (rstep (y_workers s) (y_remover s)) (remover_next s) s s'
      (rstep_local _ _ _) (λ _ _, eq_refl) (λ _ _ _, eq_refl)) as [Hs Hd].
    { rewrite (rstep_exec s Hacc Hw) in He. by destruct (rstep _ _ _) as [[]]. }
    split; [done|]. intros d2 H2 Ha. destruct (Hd d2 Ha) as (d2' & E & Ha'). exists d2'. split; [|done].
    rewrite (rstep_exec (with_dev d2 s)) by done. rewrite <- E. cbn. by destruct (rstep _ _ _) as [[]].
Qed.

(** The cancellation of the worked schedule, about to set the error code. *)
Definition cancelled_sys : sys :=
  default sys0 (sys_exec demo_HZ demo_m2j (agent_event (A_call 1) true) demo_sys).

Lemma footprints_sound_witness :
  ufoot (y_dev demo_sys) (U_c_error 0) = foot demo_sys (A_call 1) ∧
  loc_val (L_task 0 F_error) (y_dev demo_sys) = Some [0] ∧
  loc_val (L_task 0 F_error) (y_dev cancelled_sys) = Some [-125] ∧
  ∀ l, ¬ writes (foot demo_sys (A_call 1)) l →
    loc_val l (y_dev cancelled_sys) = loc_val l (y_dev demo_sys).
Proof.
  split_and!; [by vm_compute..|].
  apply (footprints_sound demo_HZ demo_m2j (A_call 1) true demo_sys cancelled_sys);
    vm_compute; reflexivity.
Defined.

(** ** Races *)

(** Two accesses that no lock orders. *)
Definition conflict (x y : access) : Prop :=
  ac_loc x = ac_loc y ∧ (ac_write x = true ∨ ac_write y = true) ∧
  ¬ (ac_atomic x = true ∧ ac_atomic y = true) ∧ (ac_lock x = None ∨ ac_lock x ≠ ac_lock y).

#[export] Instance conflict_dec x y : Decision (conflict x y).
Proof. apply _. Defined.

Definition race (s : sys) (a b : agent) (l : loc) : Prop :=
  a ≠ b ∧ ∃ x y, x ∈ foot s a ∧ y ∈ foot s b ∧ ac_loc x = l ∧ conflict x y.

(** What the driver leaves unordered. *)
Definition racy (l : loc) : bool :=
  match l with
  | L_task _ (F_id | F_state | F_submit | F_complete | F_error) => true
  | L_accel _ (A_queue | A_load) => true
  | _ => false
  end.

(** The thread that works on slot [t]. *)
Definition owns (s : sys) (a : agent) (t : nat) : Prop :=
  match a with
  | A_call k => ∃ pc, y_calls s !! k = Some pc ∧ t ∈ upc_held pc
  | A_worker i => ∃ pc, y_workers s !! i = Some pc ∧ wpc_task pc = Some t
  | A_remover => False
  end.

(** How each access of [a] is protected. *)
Definition guarded (s : sys) (a : agent) (x : access) : Prop :=
  match ac_loc x with
  | L_task t F_desc =>
      (ac_lock x = Some TASK_LOCK ∧ t ∈ dev_free_tasks (y_dev s)) ∨ owns s a t
  | L_task t F_done =>
      (ac_lock x = Some TASK_LOCK ∧ t ∈ dev_free_tasks (y_dev s)) ∨
      (ac_atomic x = true ∧ t ∉ dev_free_tasks (y_dev s))
  | L_free => ac_lock x = Some TASK_LOCK
  | L_next => ac_atomic x = true
  | L_accel i A_active => ac_lock x = Some (ACCEL_LOCK i)
  | L_accel i A_running => ac_atomic x = true
  | L_accel i A_thread => a = A_remover
  | L_accel i A_static => ac_write x = false
  | _ => True
  end.

Section Guarded.
Context (s : sys) (Hinv : sys_inv s).

Lemma worker_task_enq i pc t :
  y_workers s !! i = Some pc → wpc_task pc = Some t → ∃ e, y_enq s !! i = Some e ∧ t ∈ e.
Proof.
  intros Hi Ht. destruct (lookup_lt_is_Some_2 (dev_accelerators (y_dev s)) i) as [a Ha].
  { rewrite (si_accels s Hinv), <- (si_workers_len s Hinv). by eapply lookup_lt_Some. }
  destruct (si_workers s Hinv i a Ha) as (pc' & e & q & Hpc & He & _ & Hw). simplify_eq.
  exists e. split; [done|]. rewrite (wi_fifo _ _ _ _ _ _ Hw). apply elem_of_app. left. by apply (wi_current _ _ _ _ _ _ Hw).
Qed.

Lemma owns_not_free a t : owns s a t → t ∉ dev_free_tasks (y_dev s).
Proof.
  destruct a as [k|i|]; cbn; [|intros (pc & Hi & Ht)|done].
  - intros (pc & Hk & Ht). by apply (owned_held _ _ _ (si_nodup s Hinv) k pc t).
  - destruct (worker_task_enq i pc t Hi Ht) as (e & He & Hte). by apply (owned_enq _ _ _ (si_nodup s Hinv) i e t).
Qed.

Lemma owns_unique a b t : owns s a t → owns s b t → a = b.
Proof.
  pose proof (si_nodup s Hinv) as Hnd.
  destruct a as [k|i|], b as [j|j|]; cbn; try done; intros (pc & Hk & Ht) (pc' & Hj & Ht').
  - f_equal. by apply (owned_held_other _ _ _ Hnd j pc' k pc t).
  - destruct (worker_task_enq j pc' t Hj Ht') as (e & He & Hte).
    destruct (owned_enq _ _ _ Hnd j e t He Hte) as (_ & Hh & _). destruct Hh. by eapply held_lookup.
  - destruct (worker_task_enq i pc t Hk Ht) as (e & He & Hte).
    destruct (owned_enq _ _ _ Hnd i e t He Hte) as (_ & Hh & _). destruct Hh. by eapply held_lookup.
  - destruct (worker_task_enq i pc t Hk Ht) as (e & He & Hte).
    destruct (worker_task_enq j pc' t Hj Ht') as (e' & He' & Hte').
    f_equal. by apply (owned_enq_other _ _ _ Hnd i j e e' t).
Qed.

Lemma call_slot_not_free k pc t :
  y_calls s !! k = Some pc → upc_slot pc = Some t → upc_held pc = [] → t ∉ dev_free_tasks (y_dev s).
Proof.
  intros Hk Ht Hh Hf. destruct (si_calls s Hinv k pc Hk) as [_ Hs]. destruct (Hs t Ht) as (tk & Htk & Hok).
  destruct (upc_slot_cases pc t Ht) as [Hc|[_ Hiff]]; [congruence|]. apply Hiff in Hok.
  by apply Hok, (pi_free _ (si_pool s Hinv) t).
Qed.

Ltac each_access Hx :=
  repeat (apply elem_of_cons in Hx as [->|Hx]); try by apply not_elem_of_nil in Hx.

Lemma call_guarded k x : x ∈ foot s (A_call k) → guarded s (A_call k) x.
Proof.
  cbn [foot]. destruct (y_calls s !! k) as [pc|] eqn:Hk; [|by intros []%not_elem_of_nil].
  cbn [from_option]. intros Hx.
  destruct pc as [desc|desc|t desc|t desc|t|t desc|t desc|t|id i|i|i|i|id i|i|i id st|i id st us|status|info|info|v b| |code];
    cbn [ufoot] in Hx; try case_match; each_access Hx; try done;
    try (right; exists (U_fill t desc); split; [done|cbn; set_solver]);
    try (right; exists (U_pending t desc); split; [done|cbn; set_solver]).
  - left. split; [done|]. rewrite H. set_solver.
  - left. split; [done|]. rewrite H. set_solver.
  - right. split; [done|]. by apply (call_slot_not_free k (U_c_done i) i).
Qed.

Lemma worker_guarded i x : x ∈ foot s (A_worker i) → guarded s (A_worker i) x.
Proof.
  cbn [foot]. destruct (y_workers s !! i) as [pc|] eqn:Hi; [|by intros []%not_elem_of_nil].
  cbn [from_option]. intros Hx.
  assert (Ho : ∀ t, wpc_task pc = Some t → owns s (A_worker i) t) by (intros t Ht; by exists pc).
  destruct pc; cbn [wfoot] in Hx; repeat case_match; each_access Hx; try done.
  - right. by apply Ho.
  - right. split; [done|]. by apply (owns_not_free (A_worker i)), Ho.
Qed.

Lemma remover_guarded x : x ∈ foot s A_remover → guarded s A_remover x.
Proof.
  cbn [foot]. intros Hx. destruct (y_remover s); cbn [rfoot] in Hx; try case_decide; each_access Hx; done.
Qed.

Lemma access_guarded a x : x ∈ foot s a → guarded s a x.
Proof. destruct a; eauto using call_guarded, worker_guarded, remover_guarded. Qed.

Lemma race_racy a b l : race s a b l → racy l = true.
Proof.
  intros (Hab & x & y & Hx%access_guarded & Hy%access_guarded & Hl & Hc & Hw & Hat & Hlk).
  unfold guarded in Hx, Hy. rewrite <- Hc in Hy. rewrite Hl in Hx, Hy.
  destruct l as [t []|i []| |]; try done; exfalso.
  - destruct Hx as [[Hx Hfx]|Hx], Hy as [[Hy Hfy]|Hy].
    + destruct Hlk; congruence.
    + by apply (owns_not_free b t).
    + by apply (owns_not_free a t).
    + by destruct Hab; apply (owns_unique a b t).
  - destruct Hx as [[Hx Hfx]|[Hx Hfx]], Hy as [[Hy Hfy]|[Hy Hfy]]; [destruct Hlk; congruence|done..|].
    by apply Hat.
  - destruct Hlk; congruence.
  - by apply Hat.
  - congruence.
  - destruct Hw; congruence.
  - destruct Hlk; congruence.
  - by apply Hat.
Qed.
End Guarded.

(** *** Schedules that race *)

Definition race_desc (i : Z) : task_desc :=
  {| d_task_id := 0; d_accel_type := i; d_priority := 5; d_input_size := 4096;
     d_output_size := 4096; d_pad := 0; d_input_addr := 0x1000; d_output_addr := 0x2000;
     d_timeout_ms := 0; d_flags := 0; d_reserved := (0, 0, 0, 0) |}.

Definition race_info (i : Z) : accel_info :=
  {| i_accel_type := i; i_freq_hz := 0; i_temp_celsius := 0; i_load_percent := 0; i_fw_version := 0;
     i_hw_version := 0; i_mem_total := 0; i_mem_free := 0; i_state := 0; i_reserved := (0, 0, 0) |}.

(** A submission to accelerator [i] that has made [n] statements, the worker
    [m], and a request [pc] that has made [q]. *)
Definition race_events (i n m : nat) (pc : upc) (q : nat) : list event :=
  [E_call (U_check (race_desc (Z.of_nat i)))] ++ replicate n (E_user 0 true) ++
  replicate m (E_worker i) ++ [E_call pc] ++ replicate q (E_user 1 true).

Definition race_check (s : sys) (a b : agent) (l : loc) : bool :=
  existsb (λ x, existsb (λ y, bool_decide (ac_loc x = l ∧ conflict x y)) (foot s b)) (foot s a).

Lemma race_check_sound s a b l : a ≠ b → race_check s a b l = true → race s a b l.
Proof.
  intros Hab. unfold race_check. intros (x & Hx & (y & Hy & Hc%bool_decide_eq_true)%existsb_exists)%existsb_exists.
  split; [done|]. exists x, y. rewrite !list_elem_of_In. tauto.
Qed.

(** The schedule is possible and ends in a race. *)
Definition ends_in_race (HZ : Z) (m2j : Z → Z) (es : list event) (a b : agent) (l : loc) : bool :=
  match sys_run HZ m2j es sys0 with Some s => race_check s a b l | None => false end.

Lemma ends_in_race_reachable HZ m2j es a b l :
  a ≠ b → ends_in_race HZ m2j es a b l = true → ∃ s, reachable HZ m2j s ∧ race s a b l.
Proof.
  intros Hab. unfold ends_in_race. destruct (sys_run HZ m2j es sys0) as [s|] eqn:Hs; [|done].
  intros Hc. exists s. split; [|by apply race_check_sound].
  eapply sys_run_reachable; [|exact Hs]. by apply reach_init.
Qed.

(** Each racy field of slot 0: the submission against a query, then the worker
    against it. *)
Definition task_race (f : field) : list event * agent :=
  match f with
  | F_submit => (race_events 0 4 0 (U_query 1 0) 2, A_call 0)
  | F_complete => (race_events 0 7 8 (U_query 1 0) 2, A_worker 0)
  | F_error => (race_events 0 7 10 (U_query 1 0) 3, A_worker 0)
  | _ => (race_events 0 1 0 (U_query 1 0) 0, A_call 0)
  end.

(** Each racy field of accelerator [i]: the worker against the submission, or
    against GET_ACCEL_INFO. *)
Definition accel_race (i : nat) (f : afield) : list event * agent :=
  match f with
  | A_load => (race_events i 7 5 (U_info (race_info (Z.of_nat i))) 0, A_call 1)
  | _ => (race_events i 5 1 U_const 0, A_call 0)
  end.

Lemma task_races HZ m2j f :
  racy (L_task 0 f) = true →
  ends_in_race HZ m2j (task_race f).1 (task_race f).2 (A_call 1) (L_task 0 f) = true.
Proof. destruct f; try discriminate; intros _; vm_compute; reflexivity. Qed.

Lemma accel_races HZ m2j i f :
  (i < NUM_ACCELERATORS)%nat → racy (L_accel i f) = true →
  ends_in_race HZ m2j (accel_race i f).1 (accel_race i f).2 (A_worker i) (L_accel i f) = true.
Proof.
  intros Hi. destruct i as [|[|[|i]]]; [..|unfold NUM_ACCELERATORS in Hi; lia];
    destruct f; try discriminate; intros _; vm_compute; reflexivity.
Qed.

(** C10: The driver's data races are those on the id, state, time stamps and error
    code of a task, and on an accelerator's queue (the test before the wait) and
    load; each of them occurs.  The free list, the identifiers, the descriptor
    and completion of a task, the active list, the [running] flag, the thread
    pointer and what GET_ACCEL_INFO reports besides the load never race. *)
Theorem data_races_exact HZ m2j :
  (∀ s a b l, reachable HZ m2j s → race s a b l → racy l = true) ∧
  (∀ f, racy (L_task 0 f) = true →
    ∃ s a b, reachable HZ m2j s ∧ race s a b (L_task 0 f)) ∧
  (∀ i f, (i < NUM_ACCELERATORS)%nat → racy (L_accel i f) = true →
    ∃ s a b, reachable HZ m2j s ∧ race s a b (L_accel i f)).
Proof.
  split_and!.
  - intros s a b l Hr%sys_inv_reachable. by apply race_racy.
  - intros f Hf. pose proof (task_races HZ m2j f Hf) as He.
    apply ends_in_race_reachable in He as (s & Hs & Hrace); [by eauto|by destruct f].
  - intros i f Hi Hf. pose proof (accel_races HZ m2j i f Hi Hf) as He.
    apply ends_in_race_reachable in He as (s & Hs & Hrace); [by eauto|by destruct f].
Qed.
