(* ===== verification/Life.v ===== *)
(** * From probe to removal

    The concurrent driver of System.v between the two functions of src/main.c
    that begin and end it: every run that starts on the device probe leaves is a
    run of System.v (the interrupt number and the clock count, which probe also
    stores, play no part), and the removal among calls and workers leaves the
    threads and flags, and makes the kthread_stop calls, of cortex_forge_remove
    executed at once. *)

From S2P Require Import Prelude CLayout Device UserMem Uapi TaskManager Pool AccelManager Worker DevInit Chardev System Frame SystemInv Schedule SystemProps Shutdown Teardown Probe Races.

(** ** What probe adds to the device

    [m] is the same operation whatever the interrupt and the clocks. *)

Section Hardware.
Context (irq clks : Z).

Definition with_hw (d : dev) : dev := set_irq irq (set_num_clks clks d).

Definition blind {A} (m : KM dev A) : Prop := ∀ d, m (with_hw d) = ((m d).1, with_hw (m d).2).

Lemma blind_ret {A} (x : A) : blind (mret x).
Proof. done. Qed.

Lemma blind_oops {A} : blind (oops : KM dev A).
Proof. done. Qed.

Lemma blind_bind {A B} (m : KM dev A) (k : A → KM dev B) :
  blind m → (∀ x, blind (k x)) → blind (m ≫= k).
Proof.
  intros Hm Hk d. unfold mbind, KM_bind. rewrite Hm. destruct (m d) as [[x| |] d1]; cbn; [apply Hk|done..].
Qed.

Lemma blind_modify f : (∀ d, f (with_hw d) = with_hw (f d)) → blind (modify f).
Proof. intros Hf d. unfold modify. cbn. by rewrite Hf. Qed.

Lemma blind_get_task t : blind (get_task t).
Proof. intros d. unfold get_task, arr_get. cbn. by destruct (dev_tasks d !! t). Qed.

Lemma blind_get_accel i : blind (get_accel i).
Proof. intros d. unfold get_accel, arr_get. cbn. by destruct (dev_accelerators d !! i). Qed.

Lemma blind_upd_task t f : blind (upd_task t f).
Proof. apply blind_bind; [apply blind_get_task|]. intros _. by apply blind_modify. Qed.

Lemma blind_upd_accel i f : blind (upd_accel i f).
Proof. apply blind_bind; [apply blind_get_accel|]. intros _. by apply blind_modify. Qed.

Lemma blind_gets {A} (f : dev → A) : (∀ d, f (with_hw d) = f d) → blind (gets f).
Proof. intros Hf d. unfold gets. by rewrite Hf. Qed.

#[local] Hint Resolve blind_ret blind_oops blind_get_task blind_get_accel blind_upd_task blind_upd_accel : blind.

Ltac blind :=
  repeat first [ progress auto with blind | apply blind_bind; [|intros] | apply blind_modify; done
               | apply blind_gets; done | case_decide | case_match ].

Lemma blind_task_alloc : blind task_alloc.
Proof. unfold task_alloc. blind. by intros d. Qed.
#[local] Hint Resolve blind_task_alloc : blind.

Lemma blind_ustep HZ now copied pc : blind (ustep HZ now copied pc).
Proof. destruct pc; cbn [ustep]; unfold task_free; blind. Qed.

Lemma blind_worker m2j i now stop pc : blind (worker_step m2j i now stop pc).
Proof. destruct pc; cbn [worker_step]; unfold dequeue; blind. Qed.

Lemma blind_removal workers r : blind (rstep workers r).
Proof. destruct r; cbn [rstep]; unfold clear_worker, null_worker; blind. Qed.

(** *** Runs *)

Definition hw_sys (s : sys) : sys := with_dev (with_hw (y_dev s)) s.

Lemma hw_exec HZ m2j e s :
  accels_ok (y_dev s) → length (y_workers s) = NUM_ACCELERATORS →
  sys_exec HZ m2j e (hw_sys s) = hw_sys <$> sys_exec HZ m2j e s.
Proof.
  intros Hacc Hw. destruct e as [n|pc|k copied|i|];
    [unfold hw_sys; cbn [sys_exec with_dev y_dev y_now y_workers y_stop y_calls y_remover y_enq y_deq]..|].
  - done.
  - by case_decide.
  - destruct (y_calls s !! k) as [pc|]; [|done]. cbn [mbind option_bind].
    rewrite blind_ustep. by destruct (ustep _ _ _ _ _) as [[]].
  - destruct (y_workers s !! i) as [pc|]; [|done]. destruct (y_stop s !! i); [|done]. cbn [mbind option_bind].
    rewrite blind_worker. by destruct (worker_step _ _ _ _ _ _) as [[]].
  - cbn [sys_exec]. rewrite (rstep_exec s), (rstep_exec (hw_sys s)) by done.
    unfold hw_sys. cbn [with_dev y_dev y_workers y_remover y_stop]. rewrite blind_removal. by destruct (rstep _ _ _) as [[]].
Qed.

Lemma hw_run HZ m2j es s :
  reachable HZ m2j s → sys_run HZ m2j es (hw_sys s) = hw_sys <$> sys_run HZ m2j es s.
Proof.
  revert s. induction es as [|e es IH]; intros s Hr; [done|]. cbn [sys_run].
  pose proof (sys_inv_reachable HZ m2j s Hr) as Hinv.
  rewrite hw_exec by apply Hinv. destruct (sys_exec HZ m2j e s) as [s1|] eqn:He; [|done].
  cbn [fmap option_fmap option_map mbind option_bind]. apply IH.
  eapply (sys_run_reachable HZ m2j [e]); [exact Hr|]. cbn [sys_run]. by rewrite He.
Qed.
End Hardware.

(** ** The threads and flags of the removal *)

(** The accelerators whose [running] was cleared. *)
Definition cleared (r : rpc) : nat :=
  match r with
  | R_idle => 0
  | R_clear i => i
  | R_kthread i | R_join i => S i
  | R_done => NUM_ACCELERATORS
  end.

(** ... and whose thread kthread_stop was asked for. *)
Definition asked (r : rpc) : nat :=
  match r with R_join i => S i | _ => Teardown.stopped r end.

Record threads_inv (s : sys) : Prop := {
  ti_threads : ∀ j, (j < NUM_ACCELERATORS)%nat →
    threads (y_dev s) !! j =
    Some (if decide (j < Teardown.stopped (y_remover s))%nat then KT_NULL else KT_THREAD j);
  ti_flags : ∀ j, (j < NUM_ACCELERATORS)%nat →
    running_flags (y_dev s) !! j = Some (if decide (j < cleared (y_remover s))%nat then 0 else 1);
  ti_asked : ∀ j, (j < NUM_ACCELERATORS)%nat →
    y_stop s !! j = Some (bool_decide (j < asked (y_remover s))%nat);
}.

Lemma threads_inv_keep s s' :
  threads_inv s → y_remover s' = y_remover s → threads (y_dev s') = threads (y_dev s) →
  running_flags (y_dev s') = running_flags (y_dev s) → y_stop s' = y_stop s → threads_inv s'.
Proof. intros [] Hr Ht Hf Hst. split; rewrite Hr, ?Ht, ?Hf, ?Hst; done. Qed.

(** One more accelerator of a list of three has changed. *)
Lemma observed_next {P} (obs : accel → P) (x : P) (z : nat → P) i f d :
  accels_ok d → (∀ a, obs (f a) = x) →
  (∀ j, (j < NUM_ACCELERATORS)%nat → observed obs d !! j = Some (if decide (j < i)%nat then x else z j)) →
  ∀ j, (j < NUM_ACCELERATORS)%nat →
    observed obs (upd_accelerators (arr_upd i f) d) !! j = Some (if decide (j < S i)%nat then x else z j).
Proof.
  intros Hacc Hf Hd j Hj. unfold observed in *. cbn. rewrite list_lookup_fmap, arr_upd_lookup.
  specialize (Hd j Hj). rewrite list_lookup_fmap in Hd.
  destruct (dev_accelerators d !! j) as [a|] eqn:Ha; [|done].
  destruct (decide (i = j)) as [->|Hij].
  - rewrite decide_True by lia. cbn. by rewrite Hf.
  - rewrite Hd. repeat case_decide; done || lia.
Qed.

Lemma threads_inv_remover s r' d' stop' s' :
  accels_ok (y_dev s) → threads_inv s → remover_step s r' d' stop' →
  y_remover s' = r' → y_dev s' = d' → y_stop s' = stop' → threads_inv s'.
Proof.
  intros Hacc [Ht Hf Hst] Hstep Hr Hd Hs.
  destruct Hstep as [E|i a E Ha Hn|i a E Ha Hn|i E|i E Hexit|E]; rewrite E in *;
    cbn [Teardown.stopped cleared asked] in *; try (split; rewrite Hr, ?Hd, ?Hs; done).
  - assert (Hi : (i < NUM_ACCELERATORS)%nat) by (rewrite <- Hacc; by eapply lookup_lt_Some).
    specialize (Ht i Hi). rewrite (observed_lookup _ _ _ _ Ha), decide_False in Ht by lia. congruence.
  - split; rewrite Hr, ?Hd, ?Hs; cbn [Teardown.stopped cleared asked]; [by rewrite observed_upd| |done].
    by apply (observed_next a_running 0 (λ _, 1)).
  - split; rewrite Hr, ?Hd, ?Hs; cbn [Teardown.stopped cleared asked]; [done..|]. intros j Hj.
    rewrite arr_upd_lookup, (Hst j Hj). case_decide; cbn; f_equal; [subst; by rewrite bool_decide_true by lia|].
    apply bool_decide_ext. lia.
  - split; rewrite Hr, ?Hd, ?Hs; cbn [Teardown.stopped cleared asked]; [|by rewrite observed_upd|done].
    by apply (observed_next a_worker_thread KT_NULL KT_THREAD).
Qed.

Section Threads.
Context (HZ : Z) (m2j : Z → Z).

Lemma threads_inv_step s s' :
  sys_inv s → threads_inv s → sys_step HZ m2j s s' → threads_inv s'.
Proof.
  intros Hinv Hti Hs.
  destruct Hs as [n Hn|pc Hpc|k pc copied pc' d' Hk Hu|i pc stop pc' d' Hi Hst Hw|r' d' stop' Hr].
  - by apply (threads_inv_keep s).
  - by apply (threads_inv_keep s).
  - pose proof (ustep_keeps a_worker_thread HZ (y_now s) copied pc (y_dev s)) as Ht.
    pose proof (ustep_keeps a_running HZ (y_now s) copied pc (y_dev s)) as Hf.
    rewrite Hu in Ht, Hf. by apply (threads_inv_keep s).
  - pose proof (worker_step_keeps a_worker_thread m2j i (y_now s) stop pc (y_dev s)) as Ht.
    pose proof (worker_step_keeps a_running m2j i (y_now s) stop pc (y_dev s)) as Hf.
    rewrite Hw in Ht, Hf. by apply (threads_inv_keep s).
  - by eapply threads_inv_remover; [apply Hinv|..].
Qed.

Lemma threads_inv_reachable s : reachable HZ m2j s → threads_inv s.
Proof.
  intros Hr. induction Hr as [s ->|s s' Hr IH Hs].
  - split; cbn [y_dev y_remover y_stop Teardown.stopped cleared asked]; intros [|[|[|j]]] Hj;
      try reflexivity; unfold NUM_ACCELERATORS in Hj; lia.
  - eapply threads_inv_step; [by eapply sys_inv_reachable|done|done].
Qed.
End Threads.

(** A list of three, element by element. *)
Lemma list_three {A} (l k : list A) :
  length l = NUM_ACCELERATORS → length k = NUM_ACCELERATORS →
  (∀ j, (j < NUM_ACCELERATORS)%nat → l !! j = k !! j) → l = k.
Proof.
  intros Hl Hk Hj. apply list_eq. intros j. destruct (decide (j < NUM_ACCELERATORS)%nat); [by apply Hj|].
  rewrite !lookup_ge_None_2; [done|lia|lia].
Qed.

(** While the driver is in use, and once it is removed. *)
Lemma threads_in_use s :
  accels_ok (y_dev s) → threads_inv s → y_remover s = R_idle →
  threads (y_dev s) = KT_THREAD <$> seq 0 NUM_ACCELERATORS.
Proof.
  unfold accels_ok. intros Hacc [Ht _ _] Hr. rewrite Hr in Ht. cbn [Teardown.stopped] in Ht.
  apply list_three; [by unfold observed; rewrite length_fmap|done|]. intros j Hj.
  rewrite Ht, decide_False by lia. rewrite list_lookup_fmap, lookup_seq_lt by done. done.
Qed.

Lemma threads_removed s :
  accels_ok (y_dev s) → length (y_stop s) = NUM_ACCELERATORS → threads_inv s → y_remover s = R_done →
  threads (y_dev s) = replicate NUM_ACCELERATORS KT_NULL ∧
  running_flags (y_dev s) = replicate NUM_ACCELERATORS 0 ∧
  y_stop s = replicate NUM_ACCELERATORS true.
Proof.
  unfold accels_ok. intros Hacc Hlen [Ht Hf Hst] Hr. rewrite Hr in *. cbn [Teardown.stopped cleared asked] in *.
  split_and!; (apply list_three; [by unfold observed; rewrite ?length_fmap|done|]); intros j Hj.
  - by rewrite Ht, decide_True, lookup_replicate_2.
  - by rewrite Hf, decide_True, lookup_replicate_2.
  - by rewrite Hst, bool_decide_true, lookup_replicate_2.
Qed.

(** cortex_forge_remove on a device whose three threads run. *)
Lemma remove_in_use d log :
  accels_ok d → threads d = KT_THREAD <$> seq 0 NUM_ACCELERATORS →
  ∃ p, cortex_forge_remove {| ps_dev := d; ps_log := log |} = (Ok (), p) ∧
    ps_log p = log ++ [KC_device_destroy; KC_cdev_del; KC_unregister_chrdev_region] ++ thread_stop_log ∧
    threads (ps_dev p) = replicate NUM_ACCELERATORS KT_NULL ∧
    running_flags (ps_dev p) = replicate NUM_ACCELERATORS 0.
Proof.
  unfold accels_ok, observed. intros Hacc Ht. unfold cortex_forge_remove.
  do 3 erewrite KM_bind_ok by reflexivity. cbn [ps_dev ps_log].
  destruct (dev_accelerators d) as [|a0 [|a1 [|a2 [|]]]] eqn:Hd; try discriminate Hacc.
  cbn in Ht. injection Ht as H0 H1 H2.
  rewrite accel_stop_workers_run; rewrite Hd.
  - eexists. split; [reflexivity|]. cbn. unfold AccelManager.stopped.
    rewrite Hd. cbn. rewrite H0, H1, H2. cbn. by rewrite <- !app_assoc.
  - done.
  - cbn. repeat constructor; unfold not_err; by rewrite ?H0, ?H1, ?H2.
Qed.

(** ** From the first request to the last *)

(** The concurrent system on the device [d], at the time probe returns. *)
Definition after_probe (now : Z) (d : dev) : sys :=
  {| y_dev := d; y_now := now; y_workers := replicate NUM_ACCELERATORS W_while;
     y_stop := replicate NUM_ACCELERATORS false; y_calls := []; y_remover := R_idle;
     y_enq := replicate NUM_ACCELERATORS []; y_deq := replicate NUM_ACCELERATORS [] |}.

Lemma after_probe_reachable HZ m2j now : reachable HZ m2j (after_probe now running_dev).
Proof. by apply reach_init. Qed.

Lemma after_probe_bound env now :
  after_probe now (bound_dev env) =
  hw_sys (ke_platform_get_irq env) (ke_clk_bulk_get_all env) (after_probe now running_dev).
Proof. reflexivity. Qed.

Lemma life_run HZ m2j env now es s :
  sys_run HZ m2j es (after_probe now (bound_dev env)) = Some s →
  ∃ s0, reachable HZ m2j s0 ∧ sys_run HZ m2j es (after_probe now running_dev) = Some s0 ∧
    s = hw_sys (ke_platform_get_irq env) (ke_clk_bulk_get_all env) s0.
Proof.
  pose proof (after_probe_reachable HZ m2j now) as Hr. rewrite after_probe_bound, hw_run by done.
  destruct (sys_run HZ m2j es _) as [s0|] eqn:Hs; [|done]. intros [= <-].
  exists s0. split_and!; [by eapply sys_run_reachable|done..].
Qed.

(** C7: The concurrent driver runs between probe and remove.  Whatever the kernel
    answers, when probe returns 0 any schedule of calls, workers and removal on
    the device it leaves runs exactly as on the initial device of the concurrent
    system, so that what holds in all reachable states holds of it; and a
    removal that starts after any such schedule and goes on among calls and
    workers ends with the thread pointers and [running] flags cortex_forge_remove
    leaves when executed at once, every thread asked to stop and returned, and
    every resource probe acquired released once. *)
Theorem removal_refines_remove HZ m2j env d log p' now es s1 es' s2 :
  cortex_forge_probe env {| ps_dev := d; ps_log := log |} = (Ok 0, p') →
  sys_run HZ m2j es (after_probe now (ps_dev p')) = Some s1 → y_remover s1 = R_idle →
  sys_run HZ m2j es' s1 = Some s2 → y_remover s2 = R_done →
  (∃ s0, reachable HZ m2j s0 ∧ sys_run HZ m2j (es ++ es') (after_probe now running_dev) = Some s0 ∧
     s2 = hw_sys (ke_platform_get_irq env) (ke_clk_bulk_get_all env) s0) ∧
  ∃ p'' l, cortex_forge_remove {| ps_dev := y_dev s1; ps_log := ps_log p' |} = (Ok (), p'') ∧
    ps_log p'' = log ++ l ∧ replay l [] = Some [] ∧
    threads (y_dev s2) = threads (ps_dev p'') ∧
    running_flags (y_dev s2) = running_flags (ps_dev p'') ∧
    y_workers s2 = replicate NUM_ACCELERATORS W_exit ∧ y_stop s2 = replicate NUM_ACCELERATORS true.
Proof.
  intros Hp Hs1 Hidle Hs2 Hdone. destruct (probe_run env d log) as (code & p1 & Hr & Hout).
  rewrite Hr in Hp. injection Hp as -> ->. destruct Hout as [[_ ->]|[[] _]]; [|done].
  cbn [ps_dev ps_log] in *.
  assert (Hs12 : sys_run HZ m2j (es ++ es') (after_probe now (bound_dev env)) = Some s2)
    by (by rewrite sys_run_app, Hs1).
  destruct (life_run HZ m2j env now es s1 Hs1) as (u1 & Hu1 & _ & ->).
  destruct (life_run HZ m2j env now _ s2 Hs12) as (u2 & Hu2 & Hrun & ->).
  split; [by exists u2|].
  pose proof (sys_inv_reachable HZ m2j u1 Hu1) as Hi1. pose proof (sys_inv_reachable HZ m2j u2 Hu2) as Hi2.
  destruct (remove_in_use (with_hw (ke_platform_get_irq env) (ke_clk_bulk_get_all env) (y_dev u1)) (log ++ bind_log))
    as (p'' & Hrem & Hlog & Ht & Hf).
  { apply Hi1. }
  { apply (threads_in_use u1); [apply Hi1|by eapply threads_inv_reachable|done]. }
  destruct (threads_removed u2) as (Ht2 & Hf2 & Hst2); [apply Hi2..|by eapply threads_inv_reachable|done|].
  exists p'', (bind_log ++ [KC_device_destroy; KC_cdev_del; KC_unregister_chrdev_region] ++ thread_stop_log).
  rewrite Ht, Hf. split_and!; [exact Hrem|by rewrite Hlog, <- app_assoc|by vm_compute|done..| |done].
  by apply (done_exited HZ m2j u2).
Qed.

(** A task is queued, and the driver removed before its worker takes it. *)
Definition life_bound : sys := after_probe 1000 (bound_dev demo_kenv).
Definition life_used : sys :=
  default life_bound (sys_run demo_HZ demo_m2j (demo_submit 0) life_bound).
Definition life_removal : list event := [E_remove] ++ demo_stop 0 ++ demo_stop 1 ++ demo_stop 2 ++ [E_remove].
Definition life_removed : sys := default life_bound (sys_run demo_HZ demo_m2j life_removal life_used).

Lemma removal_refines_remove_witness :
  y_calls life_used = [U_ret 0] ∧ dev_irq (y_dev life_removed) = 42 ∧
  ∃ p l, cortex_forge_remove {| ps_dev := y_dev life_used; ps_log := [] ++ bind_log |} = (Ok (), p) ∧
    ps_log p = [] ++ l ∧ replay l [] = Some [] ∧ threads (y_dev life_removed) = threads (ps_dev p).
Proof.
  split; [by vm_compute|]. split; [by vm_compute|].
  destruct (removal_refines_remove demo_HZ demo_m2j demo_kenv zero_dev []
    {| ps_dev := bound_dev demo_kenv; ps_log := [] ++ bind_log |} 1000 (demo_submit 0) life_used
    life_removal life_removed) as (_ & p & l & Hr & Hl & Hrep & Ht & _).
  - vm_compute. reflexivity.
  - vm_compute. reflexivity.
  - vm_compute. reflexivity.
  - vm_compute. reflexivity.
  - vm_compute. reflexivity.
  - exact (ex_intro _ p (ex_intro _ l (conj Hr (conj Hl (conj Hrep Ht))))).
Defined.
