(* ===== verification/Stamps.v ===== *)
(** * The time stamps of a task

    [submit_jiffies] and [complete_jiffies] (src/task_manager.c,
    src/accel_manager.c) over all interleavings of calls, workers and removal
    since probe, and what they make of the [exec_usec] a query answers.  The
    clock is [jiffies]; the results are for runs in which it does not pass
    2^64. *)

From S2P Require Import Prelude CLayout Device UserMem Uapi TaskManager Pool AccelManager Worker DevInit Chardev System Frame SystemInv Schedule Probe Races Life.

(** The jiffies that pass in a schedule. *)
Fixpoint ticks (es : list event) : Z :=
  match es with
  | [] => 0
  | E_tick n :: es' => Z.of_nat n + ticks es'
  | _ :: es' => ticks es'
  end.

Lemma ticks_nonneg es : 0 <= ticks es.
Proof. induction es as [|[] es IH]; cbn; lia. Qed.

(** ** The invariant *)

Section Invariant.
Context (HZ : Z) (m2j : Z → Z) (now0 : Z).
Hypothesis now0_nonneg : 0 <= now0.

(** A slot's stamps, at time [now]; of a task that completed they are in order. *)
Definition stamped (now : Z) (tk : task) : Prop :=
  0 <= t_submit_jiffies tk <= now ∧ 0 <= t_complete_jiffies tk <= now ∧
  (t_state tk = TASK_STATE_COMPLETE →
   now0 <= t_submit_jiffies tk <= t_complete_jiffies tk).

(** A call about to queue its task has stamped it. *)
Definition call_stamp (pc : upc) (tk : task) : Prop :=
  match pc with U_enqueue _ _ => now0 <= t_submit_jiffies tk | _ => True end.

(** A worker about to mark its task COMPLETE has stamped it. *)
Definition worker_stamp (pc : wpc) (tk : task) : Prop :=
  match pc with W_complete _ => t_submit_jiffies tk <= t_complete_jiffies tk | _ => True end.

Record stamps_inv (s : sys) : Prop := {
  st_now : now0 <= y_now s;
  st_slots : ∀ t tk, dev_tasks (y_dev s) !! t = Some tk → stamped (y_now s) tk;
  st_calls : ∀ k pc t tk, y_calls s !! k = Some pc → upc_slot pc = Some t →
    dev_tasks (y_dev s) !! t = Some tk → call_stamp pc tk;
  st_workers : ∀ i pc t tk, y_workers s !! i = Some pc → wpc_task pc = Some t →
    dev_tasks (y_dev s) !! t = Some tk → worker_stamp pc tk;
  st_enq : ∀ i e t tk, y_enq s !! i = Some e → t ∈ e →
    dev_tasks (y_dev s) !! t = Some tk → now0 <= t_submit_jiffies tk;
}.

(** A write that keeps what the invariant says of the slot. *)
Record write_ok (s : sys) (t : nat) (f : task → task) : Prop := {
  wo_slot : ∀ tk, dev_tasks (y_dev s) !! t = Some tk → stamped (y_now s) (f tk);
  wo_calls : ∀ j pc tk, y_calls s !! j = Some pc → upc_slot pc = Some t →
    dev_tasks (y_dev s) !! t = Some tk → call_stamp pc (f tk);
  wo_workers : ∀ j pc tk, y_workers s !! j = Some pc → wpc_task pc = Some t →
    dev_tasks (y_dev s) !! t = Some tk → worker_stamp pc (f tk);
  wo_enq : ∀ j e tk, y_enq s !! j = Some e → t ∈ e →
    dev_tasks (y_dev s) !! t = Some tk → now0 <= t_submit_jiffies (f tk);
}.

(** One that leaves the stamps alone and completes nothing. *)
Lemma write_quiet s t f :
  stamps_inv s →
  (∀ tk, t_submit_jiffies (f tk) = t_submit_jiffies tk ∧
     t_complete_jiffies (f tk) = t_complete_jiffies tk ∧
     (t_state (f tk) = TASK_STATE_COMPLETE → t_state tk = TASK_STATE_COMPLETE)) →
  write_ok s t f.
Proof.
  intros [] Hf. split.
  - intros tk Ht. destruct (st_slots0 t tk Ht) as (Hs & Hc & Hd). destruct (Hf tk) as (Es & Ec & Ed).
    unfold stamped. rewrite Es, Ec. auto.
  - intros j pc tk Hj Hs Ht. specialize (st_calls0 j pc t tk Hj Hs Ht).
    destruct (Hf tk) as (Es & _). destruct pc; cbn in *; rewrite ?Es; auto.
  - intros j pc tk Hj Hs Ht. specialize (st_workers0 j pc t tk Hj Hs Ht).
    destruct (Hf tk) as (Es & Ec & _). destruct pc; cbn in *; rewrite ?Es, ?Ec; auto.
  - intros j e tk He Ht Htk. destruct (Hf tk) as (-> & _). eauto.
Qed.

(** A step that writes one slot. *)
Lemma stamps_write s t f d' calls' workers' stop' deq' rem' :
  stamps_inv s → write_ok s t f → dev_tasks d' = arr_upd t f (dev_tasks (y_dev s)) →
  (∀ k pc, calls' !! k = Some pc → y_calls s !! k = Some pc ∨
     ∀ u tk, upc_slot pc = Some u → dev_tasks d' !! u = Some tk → call_stamp pc tk) →
  (∀ i pc, workers' !! i = Some pc → y_workers s !! i = Some pc ∨
     ∀ u tk, wpc_task pc = Some u → dev_tasks d' !! u = Some tk → worker_stamp pc tk) →
  stamps_inv {| y_dev := d'; y_now := y_now s; y_workers := workers'; y_stop := stop';
                y_calls := calls'; y_remover := rem'; y_enq := y_enq s; y_deq := deq' |}.
Proof.
  intros [] [] Hd Hc Hw. split; cbn [y_dev y_now y_calls y_workers y_enq]; [done| | | |].
  - intros u tk. rewrite Hd, arr_upd_lookup. case_decide; [|by apply st_slots0].
    subst u. intros (tk0 & Htk & ->)%fmap_Some. auto.
  - intros k pc u tk Hk Hu Htk. destruct (Hc k pc Hk) as [Hold|Hnew]; [|by eapply Hnew].
    rewrite Hd, arr_upd_lookup in Htk. case_decide; [|by eapply st_calls0].
    subst u. apply fmap_Some in Htk as (tk0 & Htk & ->). eauto.
  - intros i pc u tk Hi Hu Htk. destruct (Hw i pc Hi) as [Hold|Hnew]; [|by eapply Hnew].
    rewrite Hd, arr_upd_lookup in Htk. case_decide; [|by eapply st_workers0].
    subst u. apply fmap_Some in Htk as (tk0 & Htk & ->). eauto.
  - intros i e u tk He Hu. rewrite Hd, arr_upd_lookup. case_decide; [|by eapply st_enq0].
    subst u. intros (tk0 & Htk & ->)%fmap_Some. eauto.
Qed.

Lemma write_id s t : stamps_inv s → write_ok s t id.
Proof. intros Hs. by apply write_quiet. Qed.

(** ** A step of a call *)

Section Step.
Context (s : sys) (Hinv : sys_inv s) (Hs : stamps_inv s).

Lemma worker_in_enq i pc t :
  y_workers s !! i = Some pc → wpc_task pc = Some t → t ∈ concat (y_enq s).
Proof.
  intros Hi Ht. destruct (worker_task_enq s Hinv i pc t Hi Ht) as (e & He & Hte).
  by eapply elem_of_concat.
Qed.

Lemma write_alloc i x : i ∈ dev_free_tasks (y_dev s) → write_ok s i (λ _, fresh_task x).
Proof.
  intros Hf. destruct (owned_free _ _ _ (si_nodup s Hinv) i Hf) as [Hh He].
  pose proof (st_now s Hs). split.
  - intros tk _. split_and!; cbn; try lia. discriminate.
  - intros j pc tk Hj Hsl _. destruct pc; cbn; try done. destruct Hh. injection Hsl as ->.
    eapply held_lookup; [done|]. cbn. set_solver.
  - intros j pc tk Hj Hw _. destruct He. by eapply worker_in_enq.
  - intros j e tk Hj Hi _. destruct He. by eapply elem_of_concat.
Qed.

Lemma write_submit k t desc :
  y_calls s !! k = Some (U_stamp t desc) → write_ok s t (set_t_submit_jiffies (y_now s)).
Proof.
  intros Hk. pose proof (st_now s Hs).
  destruct (owned_held _ _ _ (si_nodup s Hinv) k _ t Hk) as [_ He]; [cbn; set_solver|].
  destruct (call_slot s k Hinv _ t Hk eq_refl) as (_ & tk0 & Ht0 & Hq & _). split.
  - intros tk Ht. rewrite Ht0 in Ht. injection Ht as <-.
    destruct (st_slots s Hs t tk0 Ht0) as (_ & Hc & _).
    split_and!; cbn; try lia. intros E. rewrite E in Hq. unfold queued_states in Hq. set_solver.
  - intros j pc tk _ _ _. destruct pc; cbn; try done.
  - intros j pc tk Hj Hw _. destruct He. by eapply worker_in_enq.
  - cbn. lia.
Qed.

Lemma write_complete_time t : write_ok s t (set_t_complete_jiffies (y_now s)).
Proof.
  pose proof (st_now s Hs). split.
  - intros tk Ht. destruct (st_slots s Hs t tk Ht) as (Hsub & Hc & Hd).
    split_and!; cbn; try lia. intros E. specialize (Hd E). lia.
  - intros j pc tk Hj Hsl Ht. pose proof (st_calls s Hs j pc t tk Hj Hsl Ht). by destruct pc.
  - intros j pc tk _ _ Ht. destruct (st_slots s Hs t tk Ht) as (Hsub & _). destruct pc; cbn; try done. lia.
  - intros j e tk He Ht Htk. exact (st_enq s Hs j e t tk He Ht Htk).
Qed.

Lemma write_complete i t :
  y_workers s !! i = Some (W_complete t) → write_ok s t (set_t_state TASK_STATE_COMPLETE).
Proof.
  intros Hi. destruct (worker_task_enq s Hinv i _ t Hi eq_refl) as (e & He & Hte). split.
  - intros tk Ht. destruct (st_slots s Hs t tk Ht) as (Hsub & Hc & _).
    pose proof (st_enq s Hs i e t tk He Hte Ht). pose proof (st_workers s Hs i _ t tk Hi eq_refl Ht) as Hw.
    cbn in Hw. split_and!; cbn; try lia.
  - intros j pc tk Hj Hsl Ht. pose proof (st_calls s Hs j pc t tk Hj Hsl Ht). by destruct pc.
  - intros j pc tk Hj Hsl Ht. pose proof (st_workers s Hs j pc t tk Hj Hsl Ht). by destruct pc.
  - intros j e1 tk He1 Ht Htk. exact (st_enq s Hs j e1 t tk He1 Ht Htk).
Qed.

(** The task goes to the queue. *)
Lemma stamps_enqueue k t desc :
  y_calls s !! k = Some (U_enqueue t desc) →
  stamps_inv (user_next s k (U_enqueue t desc) (U_copy t)
    (upd_accelerators (arr_upd (Z.to_nat (d_accel_type desc)) (enqueue t)) (y_dev s))).
Proof.
  intros Hk. pose proof Hs as [].
  split; cbn [user_next y_dev y_now y_calls y_workers y_enq enq_effect]; [done..| |done|].
  - intros j pc u tk. rewrite list_lookup_insert_Some. intros [(-> & <- & _)|[_ Hj]]; [done|by eapply st_calls0].
  - intros i e u tk. rewrite arr_upd_lookup. case_decide; [|by apply st_enq0].
    intros (e0 & He & ->)%fmap_Some [Hu|Hu]%elem_of_app; [by eapply st_enq0|].
    apply list_elem_of_singleton in Hu as ->. by apply (st_calls0 k _ t tk Hk eq_refl).
Qed.
(** A statement of a call that writes one slot and does not queue. *)
Lemma stamps_call k pc' t f d' :
  write_ok s t f → dev_tasks d' = arr_upd t f (dev_tasks (y_dev s)) →
  (∀ u tk, upc_slot pc' = Some u → dev_tasks d' !! u = Some tk → call_stamp pc' tk) →
  stamps_inv {| y_dev := d'; y_now := y_now s; y_workers := y_workers s; y_stop := y_stop s;
                y_calls := <[k := pc']> (y_calls s); y_remover := y_remover s;
                y_enq := y_enq s; y_deq := y_deq s |}.
Proof.
  intros Hf Hd Hc. eapply stamps_write; [done|exact Hf|done| |auto].
  intros j pc. rewrite list_lookup_insert_Some. intros [(-> & <- & _)|[_ Hj]]; auto.
Qed.

(** ... and one that writes none. *)
Lemma stamps_call_read k pc' d' :
  dev_tasks d' = dev_tasks (y_dev s) → (∀ u tk, upc_slot pc' = Some u → call_stamp pc' tk) →
  stamps_inv {| y_dev := d'; y_now := y_now s; y_workers := y_workers s; y_stop := y_stop s;
                y_calls := <[k := pc']> (y_calls s); y_remover := y_remover s;
                y_enq := y_enq s; y_deq := y_deq s |}.
Proof.
  intros Hd Hc. eapply (stamps_call k pc' 0 id); [by apply write_id| |eauto].
  by rewrite arr_upd_id.
Qed.

Lemma stamps_worker i pc' t f d' deq' :
  write_ok s t f → dev_tasks d' = arr_upd t f (dev_tasks (y_dev s)) →
  (∀ u tk, wpc_task pc' = Some u → dev_tasks d' !! u = Some tk → worker_stamp pc' tk) →
  stamps_inv {| y_dev := d'; y_now := y_now s; y_workers := <[i := pc']> (y_workers s);
                y_stop := y_stop s; y_calls := y_calls s; y_remover := y_remover s;
                y_enq := y_enq s; y_deq := deq' |}.
Proof.
  intros Hf Hd Hc. eapply stamps_write; [done|exact Hf|done|auto|].
  intros j pc. rewrite list_lookup_insert_Some. intros [(-> & <- & _)|[_ Hj]]; auto.
Qed.

Lemma stamps_worker_read i pc' d' deq' :
  dev_tasks d' = dev_tasks (y_dev s) → (∀ u tk, wpc_task pc' = Some u → worker_stamp pc' tk) →
  stamps_inv {| y_dev := d'; y_now := y_now s; y_workers := <[i := pc']> (y_workers s);
                y_stop := y_stop s; y_calls := y_calls s; y_remover := y_remover s;
                y_enq := y_enq s; y_deq := deq' |}.
Proof.
  intros Hd Hc. eapply (stamps_worker i pc' 0 id); [by apply write_id| |eauto].
  by rewrite arr_upd_id.
Qed.

Ltac step_result H := injection H as <- <-.

Lemma stamps_user_step k pc copied pc' d' :
  y_calls s !! k = Some pc → ustep HZ (y_now s) copied pc (y_dev s) = (Ok pc', d') →
  stamps_inv (user_next s k pc pc' d').
Proof.
  intros Hk Hrun.
  assert (Hslot : ∀ t, upc_slot pc = Some t →
    call_ok pc ∧ ∃ tk, dev_tasks (y_dev s) !! t = Some tk ∧ call_slot_ok pc tk)
    by (intros; by eapply call_slot).
  destruct pc; cbn [ustep upc_slot] in *; unfold mbind, KM_bind, mret, KM_ret in Hrun;
    try (destruct (Hslot _ eq_refl) as (Hok & tk & Ht & Hst);
         repeat rewrite (upd_task_run _ _ _ _ Ht) in Hrun;
         repeat rewrite (get_task_run _ _ _ Ht) in Hrun);
    try (step_result Hrun; apply stamps_call_read; [done|by repeat case_match]; fail).
  - pose proof (accounted_next _ (si_accounted s Hinv) (si_pool s Hinv)).
    rewrite (task_alloc_ok _ (si_pool s Hinv) ltac:(lia)) in Hrun.
    destruct (dev_free_tasks (y_dev s)) as [|i l] eqn:Hf; step_result Hrun;
      [by apply stamps_call_read|].
    eapply stamps_call; [apply (write_alloc i); rewrite Hf; set_solver|done|done].
  - step_result Hrun. eapply stamps_call; [|done|done]. by apply write_quiet.
  - destruct Hst as [_ Hty]. cbn in Hok. unfold valid_desc in Hok.
    change (Z.of_nat NUM_ACCELERATORS) with 3 in Hrun.
    rewrite Hty, (proj2 (Z.leb_gt _ _)) in Hrun by lia.
    rewrite (upd_task_run _ _ _ _ Ht) in Hrun. step_result Hrun.
    eapply stamps_call; [|done|done]. by apply write_quiet.
  - by destruct (si_calls s Hinv k _ Hk) as [[] _].
  - step_result Hrun. eapply stamps_call; [by eapply write_submit|done|].
    intros u tk'. cbn. intros [= <-]. rewrite arr_upd_same, Ht. intros [= <-].
    cbn. apply (st_now s Hs).
  - cbn in Hok. unfold valid_desc in Hok.
    destruct (lookup_lt_is_Some_2 (dev_accelerators (y_dev s)) (Z.to_nat (d_accel_type desc)))
      as [a Ha]; [rewrite (si_accels s Hinv); unfold NUM_ACCELERATORS; lia|].
    rewrite (upd_accel_run _ _ _ _ Ha) in Hrun. step_result Hrun. by apply stamps_enqueue.
  - case_decide; [|by step_result Hrun; apply stamps_call_read].
    destruct (scan_lookup s Hinv i) as [tk Ht]; [done|]. rewrite (get_task_run _ _ _ Ht) in Hrun.
    step_result Hrun. apply stamps_call_read; [done|by case_match].
  - step_result Hrun. eapply stamps_call; [|done|done]. by apply write_quiet.
  - step_result Hrun. eapply stamps_call; [|done|done]. by apply write_quiet.
  - step_result Hrun. eapply stamps_call; [|done|done]. by apply write_quiet.
  - case_decide; [|by step_result Hrun; apply stamps_call_read].
    destruct (scan_lookup s Hinv i) as [tk Ht]; [done|]. rewrite (get_task_run _ _ _ Ht) in Hrun.
    step_result Hrun. apply stamps_call_read; [done|by case_match].
  - destruct (ustep_info HZ (y_now s) copied info _ _ _ Hrun) as [-> [->|(a & _ & _ & ->)]];
      by apply stamps_call_read.
Qed.

Lemma stamps_worker_step i pc stop pc' d' deq' :
  y_workers s !! i = Some pc →
  worker_step m2j i (y_now s) stop pc (y_dev s) = (Ok pc', d') →
  stamps_inv {| y_dev := d'; y_now := y_now s; y_workers := <[i := pc']> (y_workers s);
                y_stop := y_stop s; y_calls := y_calls s; y_remover := y_remover s;
                y_enq := y_enq s; y_deq := deq' |}.
Proof.
  intros Hpc Hrun. destruct (worker_parts s i pc Hinv Hpc) as (a & e & q & Ha & _).
  assert (Htask : ∀ t, wpc_task pc = Some t → ∃ tk, dev_tasks (y_dev s) !! t = Some tk).
  { intros t Ht. destruct (worker_task_parts s i pc Hinv Hpc t Ht)
      as (? & ? & tk & _ & _ & _ & _ & _ & _ & _ & _ & _ & Htk & _). eauto. }
  destruct pc; cbn [worker_step wpc_task] in *; unfold mbind, KM_bind, mret, KM_ret in Hrun;
    repeat rewrite (get_accel_run _ _ _ Ha) in Hrun;
    repeat rewrite (upd_accel_run _ _ _ _ Ha) in Hrun;
    try (destruct (Htask _ eq_refl) as (tk & Ht);
         repeat rewrite (upd_task_run _ _ _ _ Ht) in Hrun;
         repeat rewrite (get_task_run _ _ _ Ht) in Hrun);
    try (step_result Hrun; apply stamps_worker_read; [done|by repeat case_match]; fail);
    try (step_result Hrun; eapply stamps_worker; [|done|done]; by apply write_quiet).
  - rewrite (dequeue_run i _ _ Ha) in Hrun.
    destruct (a_task_queue a); step_result Hrun; by apply stamps_worker_read.
  - step_result Hrun. eapply (stamps_worker i _ t); [by apply write_complete_time|done|].
    intros u tk'. cbn. intros [= <-]. rewrite arr_upd_same, Ht. intros [= <-].
    cbn. apply (st_slots s Hs _ tk Ht).
  - step_result Hrun. eapply (stamps_worker i _ t); [by eapply write_complete|done|done].
Qed.
End Step.

(** ** Every run *)

Lemma stamps_inv_later s now :
  stamps_inv s → y_now s <= now →
  stamps_inv {| y_dev := y_dev s; y_now := now; y_workers := y_workers s; y_stop := y_stop s;
                y_calls := y_calls s; y_remover := y_remover s; y_enq := y_enq s; y_deq := y_deq s |}.
Proof.
  intros [] Hle. split; cbn; [lia| |done..]. intros t tk Ht.
  destruct (st_slots0 t tk Ht) as (? & ? & ?). unfold stamped. split_and!; auto; lia.
Qed.

Lemma stamps_remove s r' d' stop' :
  stamps_inv s → remover_step s r' d' stop' →
  stamps_inv {| y_dev := d'; y_now := y_now s; y_workers := y_workers s; y_stop := stop';
                y_calls := y_calls s; y_remover := r'; y_enq := y_enq s; y_deq := y_deq s |}.
Proof.
  intros Hs Hr. assert (Hd : dev_tasks d' = dev_tasks (y_dev s)) by (by destruct Hr).
  eapply (stamps_write s 0 id); [done|by apply write_id| |auto..]. by rewrite arr_upd_id.
Qed.

Lemma stamps_exec e s s' :
  sys_inv s → stamps_inv s → y_now s + ticks [e] < 2 ^ 64 → sys_exec HZ m2j e s = Some s' →
  stamps_inv s' ∧ y_now s' = y_now s + ticks [e].
Proof.
  intros Hinv Hs. destruct e as [n|pc|k copied|i|]; cbn [sys_exec ticks]; intros Hw.
  - intros [= <-]. cbn. pose proof (st_now s Hs).
    rewrite u64_id by (unfold is_u64; lia). split; [|lia]. apply stamps_inv_later; [done|lia].
  - case_decide as He; intros [= <-]. split; [|cbn; lia].
    eapply (stamps_write s 0 id); [done|by apply write_id|by rewrite arr_upd_id| |auto].
    intros k pc0 [Hk|[_ Hk]]%lookup_app_Some; [by left|right].
    apply list_lookup_singleton_Some in Hk as [_ <-]. intros u tk Hu. by destruct pc.
  - destruct (y_calls s !! k) as [pc|] eqn:Hk; [|done]. cbn [mbind option_bind].
    destruct (ustep HZ (y_now s) copied pc (y_dev s)) as [[pc'| |] d'] eqn:Hr; intros [= <-].
    split; [|cbn; lia]. by eapply (stamps_user_step s Hinv Hs k pc copied).
  - destruct (y_workers s !! i) as [pc|] eqn:Hi; [|done]. cbn [mbind option_bind].
    destruct (y_stop s !! i) as [stop|] eqn:Hst; [|done]. cbn [mbind option_bind].
    destruct (worker_step _ i (y_now s) stop pc (y_dev s)) as [[pc'| |] d'] eqn:Hr; intros [= <-].
    split; [|cbn; lia]. by eapply (stamps_worker_step s Hinv Hs i pc stop).
  - destruct (remover_exec s) as [[[r' d'] stop']|] eqn:Hr; [|done]. cbn [mbind option_bind].
    intros [= <-]. split; [|cbn; lia]. apply stamps_remove; [done|]. by apply remover_exec_step.
Qed.

Lemma stamps_run es s s' :
  sys_inv s → stamps_inv s → y_now s + ticks es < 2 ^ 64 → sys_run HZ m2j es s = Some s' →
  stamps_inv s' ∧ y_now s' = y_now s + ticks es.
Proof.
  revert s. induction es as [|e es IH]; intros s Hinv Hs; cbn [sys_run].
  { intros _ [= <-]. cbn. split; [done|lia]. }
  destruct (sys_exec HZ m2j e s) as [s1|] eqn:He; [|done]. cbn [mbind option_bind]. intros Hw Hr.
  assert (Hadd : ticks (e :: es) = ticks [e] + ticks es) by (destruct e; cbn; lia).
  pose proof (ticks_nonneg es). rewrite Hadd in *.
  destruct (stamps_exec e s s1 Hinv Hs ltac:(lia) He) as [Hs1 Hn1].
  destruct (IH s1) as [Hs' Hn']; [|done|lia|done|split; [done|lia]].
  eapply sys_inv_step; [done|]. by eapply sys_exec_step.
Qed.

Lemma stamps_init : stamps_inv (after_probe now0 running_dev).
Proof.
  split; cbn [after_probe y_dev y_now y_calls y_workers y_enq].
  - lia.
  - intros t tk. rewrite running_dev_tasks. intros [-> _]%lookup_replicate.
    split_and!; cbn; try lia. discriminate.
  - intros k pc t tk Hk. rewrite lookup_nil in Hk. discriminate Hk.
  - intros i pc t tk [-> _]%lookup_replicate Ht. discriminate Ht.
  - intros i e t tk [-> _]%lookup_replicate Ht. exfalso. exact (not_elem_of_nil t Ht).
Qed.
End Invariant.

(** ** The latency a query reports *)

(** Reducing modulo [2^64] before dividing loses a unit at least when it loses
    anything. *)
Lemma div_wrapped_iff HZ x :
  0 < HZ <= 2 ^ 64 → 0 <= x → (u64 x / HZ = x / HZ ↔ x < 2 ^ 64).
Proof.
  intros HHZ Hx. split; [|intros Hlt; by rewrite u64_id by (unfold is_u64; lia)].
  intros Heq. destruct (Z.lt_ge_cases x (2 ^ 64)) as [|Hge]; [done|exfalso].
  assert (Hle : u64 x <= x - HZ).
  { unfold u64. pose proof (Z.div_mod x (2 ^ 64) ltac:(lia)).
    assert (1 <= x / 2 ^ 64) by (apply Z.div_le_lower_bound; lia). lia. }
  apply (Z.div_le_mono _ _ HZ) in Hle; [|lia].
  replace (x - HZ) with (x + (-1) * HZ) in Hle by lia. rewrite Z.div_add in Hle; lia.
Qed.

(** C37: What [exec_usec] means.  In any schedule of calls, workers and removal
    that starts when probe returns, at jiffy [now], and in which [jiffies] does
    not pass 2^64: a task that is COMPLETE was stamped at its submission and at
    its completion, in this order and both within the schedule.  The
    [exec_usec] a query reads from it never exceeds the time since probe, and is
    the time from submission to completion, waiting in the queue included (not
    the execution time the interface documents), in whole microseconds, exactly
    when that time is below 2^64 / 10^6 jiffies; a longer one is reported too
    short, since the product wraps before the division. *)
Theorem exec_usec_of_completed HZ m2j es now s t tk :
  0 < HZ <= 2 ^ 64 → 0 <= now → now + ticks es < 2 ^ 64 →
  sys_run HZ m2j es (after_probe now running_dev) = Some s →
  dev_tasks (y_dev s) !! t = Some tk → t_state tk = TASK_STATE_COMPLETE →
  let latency := t_complete_jiffies tk - t_submit_jiffies tk in
  now <= t_submit_jiffies tk ∧ 0 <= latency ∧ t_complete_jiffies tk <= now + ticks es ∧
  exec_usec HZ tk <= ticks es * 1000000 / HZ ∧
  (exec_usec HZ tk = latency * 1000000 / HZ ↔ latency * 1000000 < 2 ^ 64) ∧
  (2 ^ 64 <= latency * 1000000 → exec_usec HZ tk < latency * 1000000 / HZ).
Proof.
  intros HHZ Hnow Hw Hrun Ht Hc latency.
  destruct (stamps_run HZ m2j now Hnow es (after_probe now running_dev) s) as [Hs Hn];
    [|by apply stamps_init|done..|].
  { eapply sys_inv_reachable, (after_probe_reachable HZ m2j). }
  cbn [after_probe y_now] in Hn. destruct (st_slots now s Hs t tk Ht) as (Hsub & Hcom & Hord).
  specialize (Hord Hc). rewrite Hn in *.
  assert (Hlat : exec_usec HZ tk = u64 (latency * 1000000) / HZ).
  { unfold exec_usec. rewrite (u64_id (t_complete_jiffies tk - t_submit_jiffies tk)) by (unfold is_u64; lia).
    done. }
  pose proof (div_wrapped_iff HZ (latency * 1000000) HHZ ltac:(unfold latency; lia)) as Hiff.
  assert (Hle : u64 (latency * 1000000) <= latency * 1000000)
    by (unfold u64; apply Z.mod_le; unfold latency; lia).
  rewrite Hlat. split_and!; [lia|unfold latency; lia|lia| |done|].
  - apply Z.div_le_mono; [lia|]. unfold latency in *. lia.
  - intros Hge. apply Z.div_le_mono with (c := HZ) in Hle; [|lia]. lia.
Qed.

(** A task of 2 jiffies, queued for 5 before the worker took it. *)
Definition waited_events : list event :=
  [E_call (U_check demo_desc)] ++ replicate 7 (E_user 0 true) ++ [E_tick 5] ++
  replicate 10 (E_worker 0) ++ [E_tick 2] ++ replicate 12 (E_worker 0).

Lemma exec_usec_of_completed_witness :
  ∃ s tk, sys_run demo_HZ demo_m2j waited_events (after_probe 1000 running_dev) = Some s ∧
    dev_tasks (y_dev s) !! 0%nat = Some tk ∧
    t_complete_jiffies tk - t_submit_jiffies tk = 7 ∧ exec_usec demo_HZ tk = 28000.
Proof.
  destruct (sys_run demo_HZ demo_m2j waited_events (after_probe 1000 running_dev)) as [s|] eqn:E;
    [|exfalso; by vm_compute in E].
  assert (Hc : (λ s', (λ tk, (t_state tk, t_complete_jiffies tk - t_submit_jiffies tk)) <$>
      dev_tasks (y_dev s') !! 0%nat) <$> Some s = Some (Some (TASK_STATE_COMPLETE, 7)))
    by (rewrite <- E; by vm_compute).
  destruct (dev_tasks (y_dev s) !! 0%nat) as [tk|] eqn:Ht; [|cbn in Hc; by rewrite Ht in Hc].
  cbn in Hc. rewrite Ht in Hc. injection Hc as Hst Hlat.
  destruct (exec_usec_of_completed demo_HZ demo_m2j waited_events 1000 s 0 tk)
    as (_ & _ & _ & _ & Hiff & _).
  - split; vm_compute; [reflexivity|discriminate].
  - discriminate.
  - vm_compute. reflexivity.
  - exact E.
  - exact Ht.
  - exact Hst.
  - exists s, tk. split_and!; [reflexivity|exact Ht|exact Hlat|].
    rewrite (proj2 Hiff); rewrite Hlat; vm_compute; reflexivity.
Defined.
