(* ===== verification/Commute.v ===== *)
(** * Statements that do not conflict commute

    What the footprints of Races.v are good for: in the concurrent driver, the
    order of two statements of different threads matters only if they access a
    location in common that one of them writes, or are kthread_stop and its
    thread.  So schedules that differ in the order of other statements end in
    the same system. *)

From S2P Require Import Prelude CLayout Device UserMem Uapi TaskManager Pool AccelManager Worker DevInit Chardev System Frame SystemInv Schedule Shutdown Teardown Probe Races Life.

(** ** A device is what its locations hold *)

Lemma lookup_list_ext {A B} (fs : list B) (val : B → A → list Z) (l k : list A) :
  (∀ x y, (∀ f, f ∈ fs → val f x = val f y) → x = y) → fs ≠ [] →
  (∀ i f, f ∈ fs → val f <$> l !! i = val f <$> k !! i) → l = k.
Proof.
  intros Hinj Hne Hv. apply list_eq. intros i. destruct fs as [|f0 fs]; [done|].
  pose proof (Hv i f0 (list_elem_of_here _ _)) as H0.
  destruct (l !! i) as [x|] eqn:Hx, (k !! i) as [y|] eqn:Hy; try done.
  f_equal. apply Hinj. intros f Hf. pose proof (Hv i f Hf) as H. rewrite Hx, Hy in H. by injection H.
Qed.

Lemma task_ext (x y : task) : (∀ f, f ∈ all_fields → field_val f x = field_val f y) → x = y.
Proof.
  intros H. destruct x, y. unfold all_fields in H.
  pose proof (H F_id ltac:(set_solver)) as [=]. pose proof (H F_state ltac:(set_solver)) as [=Hst].
  pose proof (H F_desc ltac:(set_solver)) as [=]. pose proof (H F_submit ltac:(set_solver)) as [=].
  pose proof (H F_complete ltac:(set_solver)) as [=]. pose proof (H F_error ltac:(set_solver)) as [=].
  pose proof (H F_done ltac:(set_solver)) as [=Hd]. cbn in *. apply task_state_val_inj in Hst.
  subst. f_equal. by destruct t_done, t_done0.
Qed.

Definition all_afields : list afield := [A_queue; A_active; A_load; A_running; A_thread; A_static].

Lemma ascii_list_inj (l k : list Ascii.ascii) :
  (λ c, Z.of_N (Ascii.N_of_ascii c)) <$> l = (λ c, Z.of_N (Ascii.N_of_ascii c)) <$> k → l = k.
Proof.
  apply list_fmap_eq_inj. intros x y H%N2Z.inj.
  by rewrite <- (Ascii.ascii_N_embedding x), <- (Ascii.ascii_N_embedding y), H.
Qed.

Lemma accel_ext (x y : accel) : (∀ f, f ∈ all_afields → afield_val f x = afield_val f y) → x = y.
Proof.
  intros H. destruct x, y. unfold all_afields in H.
  pose proof (H A_queue ltac:(set_solver)) as Hq%nat_list_inj. pose proof (H A_active ltac:(set_solver)) as Ha%nat_list_inj.
  pose proof (H A_load ltac:(set_solver)) as [=]. pose proof (H A_running ltac:(set_solver)) as [=].
  pose proof (H A_thread ltac:(set_solver)) as Ht%kthread_val_inj.
  pose proof (H A_static ltac:(set_solver)) as Hs. cbn -[fmap] in *. injection Hs as ? ? ? ? ? ? ? ? Hn%ascii_list_inj. by subst.
Qed.

(** The parts of the device that no statement touches. *)
Definition hw (d : dev) : Z * Z := (dev_irq d, dev_num_clks d).

Lemma dev_ext d d' : (∀ l, loc_val l d = loc_val l d') → hw d = hw d' → d = d'.
Proof.
  intros H [=]. destruct d as [as_ ts fr nx cl ir], d' as [as' ts' fr' nx' cl' ir']. cbn in *.
  assert (as_ = as') as ->.
  { apply (lookup_list_ext all_afields afield_val); [apply accel_ext|done|]. intros i f _. apply (H (L_accel i f)). }
  assert (ts = ts') as ->.
  { apply (lookup_list_ext all_fields field_val); [apply task_ext|done|]. intros i f _. apply (H (L_task i f)). }
  pose proof (H L_free) as [= Hf%nat_list_inj]. pose proof (H L_next) as [=]. cbn in *. by subst.
Qed.

(** ** Operations on the device *)

Lemma blind_hw {A} (m : KM dev A) d : (∀ irq clks, blind irq clks m) → hw (m d).2 = hw d.
Proof.
  intros Hm. pose proof (Hm (dev_irq d) (dev_num_clks d) d) as H.
  assert (Hd : with_hw (dev_irq d) (dev_num_clks d) d = d) by (by destruct d).
  rewrite Hd in H. by rewrite H.
Qed.

(** No location in common that one of them writes. *)
Definition independent (xs ys : list access) : Prop :=
  ∀ x y, x ∈ xs → y ∈ ys → ac_loc x = ac_loc y → ac_write x = false ∧ ac_write y = false.

Lemma independent_sym xs ys : independent xs ys → independent ys xs.
Proof. intros H x y Hx Hy Hl. by apply and_comm, H. Qed.

(** What the one writes, the other does not access. *)
Lemma independent_agree xs ys d d1 :
  independent xs ys → (∀ l, ¬ writes xs l → loc_val l d1 = loc_val l d) → agree ys d1 d.
Proof.
  intros Hi Hs y Hy. apply Hs. intros (x & Hx & Hl & Hw). destruct (Hi x y Hx Hy Hl). congruence.
Qed.

Lemma independent_writes xs ys l : independent xs ys → writes xs l → ¬ writes ys l.
Proof.
  intros Hi (x & Hx & Hl & Hw) (y & Hy & Hl' & _). destruct (Hi x y Hx Hy); congruence.
Qed.

#[export] Instance writes_dec xs l : Decision (writes xs l).
Proof.
  destruct (existsb (λ x, bool_decide (ac_loc x = l) && ac_write x) xs) eqn:E; [left|right].
  - apply existsb_exists in E as (x & Hx & [Hl%bool_decide_eq_true Hw]%andb_prop).
    exists x. by rewrite list_elem_of_In.
  - intros (x & Hx & Hl & Hw). rewrite (proj2 (existsb_exists _ _)) in E; [done|].
    exists x. rewrite <- list_elem_of_In. by rewrite bool_decide_true, Hw.
Defined.

Lemma agree_sym xs d d' : agree xs d d' → agree xs d' d.
Proof. intros H x Hx. symmetry. by apply H. Qed.

Lemma dev_commute {A B} xs ys (ma : KM dev A) (mb : KM dev B) d va d1 vb d2 :
  (∀ d0, agree xs d0 d → local xs ma d0) → (∀ d0, agree ys d0 d → local ys mb d0) →
  (∀ irq clks, blind irq clks ma) → (∀ irq clks, blind irq clks mb) → independent xs ys →
  ma d = (Ok va, d1) → mb d1 = (Ok vb, d2) →
  ∃ d', mb d = (Ok vb, d') ∧ ma d' = (Ok va, d2).
Proof.
  intros Hla Hlb Hba Hbb Hi Ha Hb.
  destruct (Hla d (λ _ _, eq_refl) _ _ Ha) as [Hs1 Hd1].
  pose proof (independent_agree _ _ _ _ Hi Hs1) as Hag1.
  destruct (Hlb d1 Hag1 _ _ Hb) as [Hs2 Hd2].
  destruct (Hd2 d (agree_sym _ _ _ Hag1)) as (d' & Hb' & Hag2).
  destruct (Hlb d (λ _ _, eq_refl) _ _ Hb') as [Hs' _].
  pose proof (independent_agree _ _ _ _ (independent_sym _ _ Hi) Hs') as Hag'.
  destruct (Hd1 d' Hag') as (d'' & Ha' & Hag3).
  destruct (Hla d' Hag' _ _ Ha') as [Hs'' _].
  exists d'. split; [done|]. rewrite Ha'. do 2 f_equal. apply dev_ext.
  - intros l. destruct (decide (writes xs l)) as [Hx|Hx].
    + pose proof (independent_writes _ _ _ Hi Hx) as Hy. rewrite (Hs2 l Hy).
      destruct Hx as (x & Hx & <- & _). by apply Hag3.
    + rewrite (Hs'' l Hx). destruct (decide (writes ys l)) as [Hy|Hy].
      * destruct Hy as (y & Hy & <- & _). by apply Hag2.
      * by rewrite (Hs' l Hy), (Hs2 l Hy), (Hs1 l Hx).
  - pose proof (blind_hw ma d Hba) as E1. pose proof (blind_hw mb d1 Hbb) as E2.
    pose proof (blind_hw mb d Hbb) as E3. pose proof (blind_hw ma d' Hba) as E4.
    rewrite Ha in E1. rewrite Hb in E2. rewrite Hb' in E3. rewrite Ha' in E4. cbn in *. congruence.
Qed.

(** ** Statements of the system *)

Inductive outcome : Type :=
  | O_call (pc : upc)
  | O_worker (pc : wpc)
  | O_remover (r : rpc).

(** What the next statement of [a] does to the device ... *)
Definition op (HZ : Z) (m2j : Z → Z) (a : agent) (copied : bool) (s : sys) : KM dev outcome :=
  match a with
  | A_call k =>
      match y_calls s !! k with
      | Some pc => r ← ustep HZ (y_now s) copied pc; mret (O_call r)
      | None => oops
      end
  | A_worker i =>
      match y_workers s !! i, y_stop s !! i with
      | Some pc, Some stop => r ← worker_step m2j i (y_now s) stop pc; mret (O_worker r)
      | _, _ => oops
      end
  | A_remover => r ← rstep (y_workers s) (y_remover s); mret (O_remover r)
  end.

(** ... and to the control points. *)
Definition ctl (a : agent) (o : outcome) (s : sys) : sys :=
  match a, o with
  | A_call k, O_call pc' =>
      match y_calls s !! k with Some pc => user_next s k pc pc' (y_dev s) | None => s end
  | A_worker i, O_worker pc' =>
      match y_workers s !! i with Some pc => worker_next s i pc pc' (y_dev s) | None => s end
  | A_remover, O_remover r => remover_next s r (y_dev s)
  | _, _ => s
  end.

Section Agents.
Context (HZ : Z) (m2j : Z → Z).

Lemma exec_op a copied s :
  accels_ok (y_dev s) → length (y_workers s) = NUM_ACCELERATORS →
  sys_exec HZ m2j (agent_event a copied) s =
  match op HZ m2j a copied s (y_dev s) with
  | (Ok o, d) => Some (with_dev d (ctl a o s))
  | _ => None
  end.
Proof.
  intros Hacc Hw. destruct a as [k|i|]; cbn [agent_event sys_exec op].
  - destruct (y_calls s !! k) as [pc|] eqn:Hk; [|done]. cbn [mbind option_bind]. unfold mbind, KM_bind.
    destruct (ustep _ _ _ _ _) as [[pc'| |] d']; [|done..]. cbn [mret KM_ret ctl]. by rewrite Hk.
  - destruct (y_workers s !! i) as [pc|] eqn:Hi; [|done]. destruct (y_stop s !! i); [|done].
    cbn [mbind option_bind]. unfold mbind, KM_bind.
    destruct (worker_step _ _ _ _ _ _) as [[pc'| |] d']; [|done..]. cbn [mret KM_ret ctl]. by rewrite Hi.
  - rewrite (rstep_exec s Hacc Hw). unfold mbind at 2, KM_bind. by destruct (rstep _ _ _) as [[]].
Qed.

(** The footprint of [a]'s statement, were the device [d]. *)
Definition foot_on (d : dev) (s : sys) (a : agent) : list access := foot (with_dev d s) a.

Lemma op_local a copied s d : local (foot_on d s a) (op HZ m2j a copied s) d.
Proof.
  destruct a as [k|i|]; cbn [foot_on foot op with_dev y_calls y_workers y_remover y_dev].
  - destruct (y_calls s !! k) as [pc|]; [|apply local_oops].
    apply local_bind; [apply ustep_local|]. intros. apply local_ret.
  - destruct (y_workers s !! i) as [pc|]; [|apply local_oops]. destruct (y_stop s !! i); [|apply local_oops].
    apply local_bind; [apply worker_local|]. intros. apply local_ret.
  - apply local_bind; [apply rstep_local|]. intros. apply local_ret.
Qed.

Lemma op_blind a copied s irq clks : blind irq clks (op HZ m2j a copied s).
Proof.
  destruct a as [k|i|]; cbn [op].
  - destruct (y_calls s !! k) as [pc|]; [|done]. apply blind_bind; [apply blind_ustep|done].
  - destruct (y_workers s !! i) as [pc|]; [|done]. destruct (y_stop s !! i); [|done].
    apply blind_bind; [apply blind_worker|done].
  - apply blind_bind; [apply blind_removal|done].
Qed.

(** A footprint reads what it depends on. *)
Lemma foot_on_agree s a d d' : agree (foot_on d s a) d' d → foot_on d' s a = foot_on d s a.
Proof.
  unfold foot_on. destruct a as [k|i|]; cbn [foot with_dev y_calls y_workers y_remover y_dev]; [| |done].
  - destruct (y_calls s !! k) as [[]|]; try done. cbn [from_option ufoot]. intros Ha.
    assert (Hf : dev_free_tasks d' = dev_free_tasks d).
    { apply nat_list_inj. pose proof (Ha _ (list_elem_of_here _ _)) as E. cbn in E. congruence. }
    by rewrite Hf.
  - destruct (y_workers s !! i) as [[]|]; try done. cbn [from_option wfoot]. intros Ha.
    pose proof (Ha _ (list_elem_of_here _ _)) as E. cbn in E.
    assert (Hq : a_task_queue <$> dev_accelerators d' !! i = a_task_queue <$> dev_accelerators d !! i).
    { destruct (dev_accelerators d' !! i), (dev_accelerators d !! i); cbn in *; try done.
      injection E as E%nat_list_inj. by rewrite E. }
    by rewrite Hq.
Qed.

(** kthread_stop and its thread: they meet at the thread's stop flag and exit,
    which are not locations. *)
Definition handshake (s : sys) (a b : agent) : Prop :=
  match a, b with
  | A_remover, A_worker i | A_worker i, A_remover =>
      y_remover s = R_kthread i ∨ y_remover s = R_join i
  | _, _ => False
  end.

Lemma op_ctl a b copied s o :
  a ≠ b → ¬ handshake s a b → op HZ m2j b copied (ctl a o s) = op HZ m2j b copied s.
Proof.
  intros Hab Hh. destruct a as [k|i|], o as [pc|pc|r]; cbn [ctl]; try done;
    repeat case_match; try done;
    destruct b as [j|j|]; cbn [op user_next worker_next remover_next y_calls y_workers y_stop y_remover y_now];
    try done; try (by rewrite list_lookup_insert_ne by congruence).
  - cbn in Hh. destruct (y_remover s) as [|n|n|n|] eqn:Hr; cbn [rstep]; try done.
    assert (i ≠ n) by (intros ->; destruct Hh; auto). by rewrite list_lookup_insert_ne.
  - cbn in Hh. destruct (y_remover s) as [|n|n|n|] eqn:Hr; cbn [rstop]; try done.
    assert (j ≠ n) by (intros ->; destruct Hh; auto). by rewrite arr_upd_other.
Qed.

Lemma foot_ctl a b d s o : a ≠ b → foot_on d (ctl a o s) b = foot_on d s b.
Proof.
  intros Hab. unfold foot_on. destruct a as [k|i|], o as [pc|pc|r]; cbn [ctl]; try done;
    repeat case_match; try done;
    destruct b as [j|j|]; cbn [foot with_dev user_next worker_next remover_next y_calls y_workers y_remover y_dev];
    try done; by rewrite list_lookup_insert_ne by congruence.
Qed.

Lemma arr_upd_comm {A} i j (f g : A → A) l : i ≠ j → arr_upd i f (arr_upd j g l) = arr_upd j g (arr_upd i f l).
Proof.
  intros Hij. apply list_eq. intros n. rewrite !arr_upd_lookup. by repeat case_decide; subst.
Qed.

Lemma insert_comm {A} (i j : nat) (x y : A) (l : list A) : i ≠ j → <[i := x]> (<[j := y]> l) = <[j := y]> (<[i := x]> l).
Proof. intros Hij. rewrite !list_insert_alter. by apply (arr_upd_comm i j). Qed.

Lemma deq_effect_comm i j pc pc' qc qc' deq :
  i ≠ j → deq_effect i pc pc' (deq_effect j qc qc' deq) = deq_effect j qc qc' (deq_effect i pc pc' deq).
Proof.
  intros Hij. unfold deq_effect. destruct pc; try done; destruct pc'; try done; destruct qc; try done; destruct qc'; try done.
  by apply arr_upd_comm.
Qed.

Lemma enq_effect_comm d pc qc enq :
  independent (ufoot d pc) (ufoot d qc) → enq_effect pc (enq_effect qc enq) = enq_effect qc (enq_effect pc enq).
Proof.
  intros Hi. destruct pc as [| | | | | |t desc| | | | | | | | | | | | | | |]; try done.
  destruct qc as [| | | | | |u desc'| | | | | | | | | | | | | | |]; try done. cbn [enq_effect].
  apply arr_upd_comm. intros E.
  destruct (Hi _ _ (list_elem_of_here _ _) (list_elem_of_here _ _)) as [? _]; [|done]. cbn. by rewrite E.
Qed.

Lemma ctl_comm a b oa ob s :
  a ≠ b → independent (foot s a) (foot s b) → ctl b ob (ctl a oa s) = ctl a oa (ctl b ob s).
Proof.
  intros Hab Hi. destruct a as [k|i|], oa as [pc|pc|r]; try done; destruct b as [j|j|], ob as [qc|qc|r']; try done;
    cbn [ctl foot] in *; unfold user_next, worker_next, remover_next;
    repeat match goal with
    | |- context [y_calls s !! ?k] => destruct (y_calls s !! k) as [?|] eqn:?
    | |- context [y_workers s !! ?k] => destruct (y_workers s !! k) as [?|] eqn:?
    end;
    cbn [y_calls y_workers y_dev y_now y_stop y_remover y_enq y_deq];
    rewrite ?list_lookup_insert_ne by congruence;
    repeat match goal with
    | H : y_calls s !! _ = _ |- _ => rewrite !H
    | H : y_workers s !! _ = _ |- _ => rewrite !H
    end;
    cbn [y_calls y_workers y_dev y_now y_stop y_remover y_enq y_deq]; try done; f_equal;
    try (apply insert_comm; congruence); try (apply deq_effect_comm; congruence).
  1: by apply (enq_effect_comm (y_dev s) u0 u), independent_sym.
  all: congruence.
Qed.

Lemma op_with_dev a copied s d : op HZ m2j a copied (with_dev d s) = op HZ m2j a copied s.
Proof. by destruct a. Qed.

Lemma ctl_with_dev a o s d d' : with_dev d' (ctl a o (with_dev d s)) = with_dev d' (ctl a o s).
Proof. destruct a, o; cbn [ctl with_dev y_calls y_workers]; repeat case_match; done. Qed.

Lemma handshake_sym s a b : handshake s a b → handshake s b a.
Proof. by destruct a, b. Qed.

(** A statement, as its operation and its control. *)
Lemma exec_reachable a copied s s' :
  reachable HZ m2j s →
  sys_exec HZ m2j (agent_event a copied) s = Some s' ↔
  ∃ o d, op HZ m2j a copied s (y_dev s) = (Ok o, d) ∧ s' = with_dev d (ctl a o s).
Proof.
  intros Hr. pose proof (sys_inv_reachable HZ m2j s Hr) as Hinv. rewrite exec_op by apply Hinv.
  destruct (op _ _ _ _ _ _) as [[o| |] d]; split; try done.
  - intros [= <-]. by exists o, d.
  - intros (? & ? & [= <- <-] & ->). done.
  - intros (? & ? & ? & ?). done.
  - intros (? & ? & ? & ?). done.
Qed.

Lemma exec_next_reachable a copied s s' :
  reachable HZ m2j s → sys_exec HZ m2j (agent_event a copied) s = Some s' → reachable HZ m2j s'.
Proof. intros Hr He. eapply (sys_run_reachable HZ m2j [_]); [exact Hr|]. cbn [sys_run]. by rewrite He. Qed.

(** C12: Statements that do not conflict commute.  In any reachable state, if the
    next statements of two threads access no location in common that one of
    them writes (and are not kthread_stop and its thread), running one and then
    the other gives the same system as the other order: the same device, the
    same control points, the same history of the queues. *)
Theorem independent_statements_commute a b ca cb s s1 s2 :
  reachable HZ m2j s → a ≠ b → independent (foot s a) (foot s b) → ¬ handshake s a b →
  sys_exec HZ m2j (agent_event a ca) s = Some s1 → sys_exec HZ m2j (agent_event b cb) s1 = Some s2 →
  ∃ s', sys_exec HZ m2j (agent_event b cb) s = Some s' ∧ sys_exec HZ m2j (agent_event a ca) s' = Some s2.
Proof.
  intros Hr Hab Hi Hh Ha Hb. pose proof (exec_next_reachable _ _ _ _ Hr Ha) as Hr1.
  apply (exec_reachable _ _ _ _ Hr) in Ha as (oa & d1 & Ha & ->).
  apply (exec_reachable _ _ _ _ Hr1) in Hb as (ob & d2 & Hb & ->).
  rewrite op_with_dev, op_ctl in Hb by done.
  destruct (dev_commute (foot s a) (foot s b) (op HZ m2j a ca s) (op HZ m2j b cb s) (y_dev s) oa d1 ob d2)
    as (d' & Hb' & Ha'); [|..|done|done|done|].
  - intros d0 H0. change (foot s a) with (foot_on (y_dev s) s a) in *.
    rewrite <- (foot_on_agree s a (y_dev s) d0 H0). apply op_local.
  - intros d0 H0. change (foot s b) with (foot_on (y_dev s) s b) in *.
    rewrite <- (foot_on_agree s b (y_dev s) d0 H0). apply op_local.
  - intros. apply op_blind.
  - intros. apply op_blind.
  - exists (with_dev d' (ctl b ob s)).
    assert (He : sys_exec HZ m2j (agent_event b cb) s = Some (with_dev d' (ctl b ob s)))
      by (apply exec_reachable; eauto).
    split; [done|]. apply exec_reachable; [by apply (exec_next_reachable b cb s)|].
    exists oa, d2. split.
    + rewrite op_with_dev, op_ctl; [done|congruence|]. by intros H%handshake_sym.
    + rewrite !ctl_with_dev. by rewrite ctl_comm.
Qed.
End Agents.

(** ** On a concrete state *)

Definition independent_b (xs ys : list access) : bool :=
  forallb (λ x, forallb (λ y, negb (bool_decide (ac_loc x = ac_loc y)) || (negb (ac_write x) && negb (ac_write y))) ys) xs.

Lemma independent_b_sound xs ys : independent_b xs ys = true → independent xs ys.
Proof.
  unfold independent_b. rewrite forallb_forall. intros H x y Hx%list_elem_of_In Hy%list_elem_of_In Hl.
  specialize (H x Hx). rewrite forallb_forall in H. specialize (H y Hy).
  rewrite bool_decide_true in H by done. cbn in H. apply andb_prop in H as [? ?].
  by destruct (ac_write x), (ac_write y).
Qed.

(** One submission about to fill its slot, another about to allocate the next. *)
Definition two_events : list event :=
  [E_call (U_check demo_desc); E_user 0 true; E_user 0 true; E_call (U_check demo_desc); E_user 1 true].
Definition two_sys : sys := default sys0 (sys_run demo_HZ demo_m2j two_events sys0).
Definition two_next (e : event) (s : sys) : sys := default s (sys_exec demo_HZ demo_m2j e s).
Definition two_end : sys := two_next (E_user 1 true) (two_next (E_user 0 true) two_sys).

Lemma two_reachable : reachable demo_HZ demo_m2j two_sys.
Proof. eapply (sys_run_reachable _ _ two_events sys0); [by apply reach_init|by vm_compute]. Qed.

Lemma independent_statements_commute_witness :
  y_calls two_sys = [U_fill 0 demo_desc; U_alloc demo_desc] ∧
  y_calls two_end = [U_pending 0 demo_desc; U_fill 1 demo_desc] ∧
  ∃ s', sys_exec demo_HZ demo_m2j (E_user 1 true) two_sys = Some s' ∧
    sys_exec demo_HZ demo_m2j (E_user 0 true) s' = Some two_end.
Proof.
  split; [by vm_compute|]. split; [by vm_compute|].
  apply (independent_statements_commute demo_HZ demo_m2j (A_call 0) (A_call 1) true true two_sys
    (two_next (E_user 0 true) two_sys) two_end two_reachable).
  - discriminate.
  - apply independent_b_sound. vm_compute. reflexivity.
  - intros [].
  - vm_compute. reflexivity.
  - vm_compute. reflexivity.
Defined.
