(* ===== verification/Legacy.v ===== *)
(** * The single-file driver: src/cortex_forge_main.c

    The file the modular driver was split from.  It is not built any more, but
    it is kept in the tree; its functions are modelled on the same data, so
    that the two can be compared. *)

From S2P Require Import Prelude CLayout Device UserMem Uapi TaskManager Pool AccelManager Worker DevInit Chardev Probe.

Module Monolith.

(** ** Tasks *)

Definition task_alloc : KM dev (option nat) :=
free ← gets dev_free_tasks;
match free with
| [] => mret None
| task :: _ =>
    modify (upd_free_tasks (list_del task)) ;;
    upd_task task (λ _, zero_task) ;;
    upd_task task (set_t_done false) ;;
    n ← atomic_inc_return;
    upd_task task (set_t_id (u32 n)) ;;
    mret (Some task)
end.

Definition task_free (task : nat) : KM dev unit :=
upd_task task (set_t_state TASK_STATE_FREE) ;;
modify (upd_free_tasks (λ l, l ++ [task])).

(** Here the accelerator is looked up by the task's type. *)
Definition task_submit (now : Z) (task : nat) : KM dev Z :=
call (
  t ← get_task task;
  return_if (3 <=? t_accel_type t) (- EINVAL) ;;
  upd_task task (set_t_state TASK_STATE_PENDING) ;;
  upd_task task (set_t_submit_jiffies now) ;;
  upd_accel (Z.to_nat (t_accel_type t)) (λ a, set_a_task_queue (a_task_queue a ++ [task]) a) ;;
  mret 0).

Definition task_query {U} `{UserMemory U} (HZ task_id ustatus : Z) : KM (world U) Z :=
call (
  for_loop MAX_TASKS 0 (λ i,
    t ← arr_get (λ w, dev_tasks (w_dev w)) i;
    if task_matches task_id t then
      r ← copy_out ustatus (status_of HZ t);
      return_if (negb (r =? 0)) (- EFAULT) ;;
      return_ 0
    else mret ()) ;;
  mret (- ENOENT)).

Definition task_cancel (task_id : Z) : KM dev Z :=
call (
  for_loop MAX_TASKS 0 (λ i,
    t ← get_task i;
    if task_matches task_id t then
      upd_task i (set_t_state TASK_STATE_CANCELLED) ;;
      upd_task i (set_t_error_code (- ECANCELED)) ;;
      upd_task i (set_t_done true) ;;
      return_ 0
    else mret ()) ;;
  mret (- ENOENT)).

(** ** The worker thread, statement by statement *)

Definition accel_worker_thread (msecs_to_jiffies : Z → Z) (i : nat) (now : Z) (should_stop : bool)
  (pc : wpc) : KM dev wpc :=
match pc with
| W_while => a ← get_accel i; mret (if a_running a =? 0 then W_exit else W_wait)
| W_wait => mret W_check
| W_check => a ← get_accel i; mret (if a_running a =? 0 then W_exit else W_lock)
| W_lock =>
    a ← get_accel i;
    match a_task_queue a with
    | [] => mret W_while
    | t :: _ =>
        upd_accel i (λ a, set_a_task_queue (list_del t (a_task_queue a)) a) ;;
        upd_accel i (λ a, set_a_active_tasks (a_active_tasks a ++ [t]) a) ;;
        mret (W_run t)
    end
| W_run t => upd_task t (set_t_state TASK_STATE_RUNNING) ;; mret (W_load_up t)
| W_load_up t =>
    upd_accel i (λ a, set_a_load_percent (Z.min 100 (u32 (a_load_percent a + 10))) a) ;;
    mret (W_timeout t)
| W_timeout t =>
    tk ← get_task t;
    mret (if 0 <? t_timeout_ms tk then W_start t (msecs_to_jiffies (t_timeout_ms tk))
          else W_msleep t)
| W_start t timeout => mret (W_spin t timeout now)
| W_spin t timeout start =>
    mret (if u64 (now - start) <? timeout then W_spin_state t timeout start else W_stamp t)
| W_spin_state t timeout start =>
    tk ← get_task t;
    mret (if decide (t_state tk = TASK_STATE_RUNNING) then W_sleep t timeout start else W_stamp t)
| W_sleep t timeout start => mret (W_stop t timeout start)
| W_stop t timeout start => mret (if should_stop then W_stamp t else W_spin t timeout start)
| W_msleep t => mret (W_stamp t)
| W_stamp t => upd_task t (set_t_complete_jiffies now) ;; mret (W_complete t)
| W_complete t => upd_task t (set_t_state TASK_STATE_COMPLETE) ;; mret (W_error_code t)
| W_error_code t => upd_task t (set_t_error_code 0) ;; mret (W_load_down t)
| W_load_down t =>
    upd_accel i (λ a, set_a_load_percent (Z.max 0 (s32 (a_load_percent a) - 10)) a) ;;
    mret (W_done t)
| W_done t => upd_task t (set_t_done true) ;; mret (W_unlink t)
| W_unlink t =>
    upd_accel i (λ a, set_a_active_tasks (list_del t (a_active_tasks a)) a) ;; mret W_while
| W_exit => mret W_exit
end.

(** ** The ioctl handler *)

Section Ioctl.
Context {U : Type} `{UserMemory U}.
Context (HZ : Z).

(** The assignments of GET_ACCEL_INFO, in line here. *)
Definition fill_info (a : accel) (info : accel_info) : accel_info :=
{| i_accel_type := i_accel_type info;
   i_freq_hz := a_freq_hz a;
   i_temp_celsius := a_temp_celsius a;
   i_load_percent := a_load_percent a;
   i_fw_version := a_fw_version a;
   i_hw_version := a_hw_version a;
   i_mem_total := a_mem_total a;
   i_mem_free := a_mem_free a;
   i_state := a_state a;
   i_reserved := i_reserved info |}.

Definition cortex_forge_ioctl (cmd uarg : Z) : KM (world U) Z :=
call (
  if cmd =? CORTEX_FORGE_IOCTL_SUBMIT_TASK then
    desc ← copy_in task_desc uarg;
    return_if (3 <=? d_accel_type desc) (- EINVAL) ;;
    return_if (negb (d_flags desc =? 0)) (- EINVAL) ;;
    return_if (64 * 1024 * 1024 <? d_input_size desc) (- E2BIG) ;;
    return_if (64 * 1024 * 1024 <? d_output_size desc) (- E2BIG) ;;
    r ← on_dev task_alloc;
    match r with
    | None => return_ (- ENOMEM)
    | Some task =>
        on_dev (upd_task task (fill_task desc)) ;;
        now ← gets w_jiffies;
        ret ← on_dev (task_submit now task);
        (if negb (ret =? 0) then on_dev (task_free task) ;; return_ ret else mret ()) ;;
        t ← on_dev (get_task task);
        r ← copy_out uarg (set_d_task_id (t_id t) desc);
        return_if (negb (r =? 0)) (- EFAULT) ;;
        mret 0
    end
  else if cmd =? CORTEX_FORGE_IOCTL_QUERY_TASK then
    status ← copy_in task_status uarg;
    task_query HZ (s_task_id status) uarg
  else if cmd =? CORTEX_FORGE_IOCTL_CANCEL_TASK then
    task_id ← copy_in Z uarg;
    on_dev (task_cancel task_id)
  else if cmd =? CORTEX_FORGE_IOCTL_GET_ACCEL_INFO then
    info ← copy_in accel_info uarg;
    return_if (3 <=? i_accel_type info) (- EINVAL) ;;
    a ← on_dev (get_accel (Z.to_nat (i_accel_type info)));
    r ← copy_out uarg (fill_info a info);
    return_if (negb (r =? 0)) (- EFAULT) ;;
    mret 0
  else if cmd =? CORTEX_FORGE_IOCTL_SET_POWER then
    mode ← copy_in Z uarg;
    return_if (2 <? mode) (- EINVAL) ;;
    mret 0
  else if cmd =? CORTEX_FORGE_IOCTL_GET_VERSION then
    r ← copy_out uarg 0x00010000;
    return_if (negb (r =? 0)) (- EFAULT) ;;
    mret 0
  else if cmd =? CORTEX_FORGE_IOCTL_GET_PROFILE then
    r ← copy_out uarg
          {| p_compute_us := 1000; p_memory_us := 500; p_storage_us := 200;
             p_network_us := 300; p_thermal_celsius := 45; p_power_mw := 15000;
             p_reserved := (0, 0, 0, 0) |};
    return_if (negb (r =? 0)) (- EFAULT) ;;
    mret 0
  else if cmd =? CORTEX_FORGE_IOCTL_SET_ACCEL then
    accel ← copy_in Z uarg;
    return_if (4 <? accel) (- EINVAL) ;;
    mret 0
  else return_ (- ENOTTY)).
End Ioctl.

(** ** Probe, remove, init and exit *)

Definition accel_init (type : Z) (name : string) (a : accel) : accel :=
{| a_type := type;
   a_name := strncpy (a_name a) (String.list_ascii_of_string name) (16 - 1);
   a_freq_hz := 1000000000;
   a_temp_celsius := 40;
   a_load_percent := 0;
   a_fw_version := 0x00010000;
   a_hw_version := 0x02000000;
   a_mem_total := u64 (1024 * 1024 * 1024);
   a_mem_free := u64 (1024 * 1024 * 1024);
   a_state := 2;
   a_task_queue := [];
   a_active_tasks := [];
   a_worker_thread := a_worker_thread a;
   a_running := 1 |}.

Definition dev_init : KM dev unit :=
modify (set_free_tasks []) ;;
modify (set_next_task_id 0) ;;
for_loop MAX_TASKS 0 (λ i,
  upd_task i (set_t_state TASK_STATE_FREE) ;;
  upd_task i (set_t_done false) ;;
  modify (upd_free_tasks (λ l, l ++ [i]))) ;;
upd_accel 0 (accel_init 0 "nvdla0"%string) ;;
upd_accel 1 (accel_init 1 "nvdla1"%string) ;;
upd_accel 2 (accel_init 2 "pva0"%string).

Section Probe.
Context (env : kenv).

(** err_stop_workers: any pointer that is not NULL is stopped, and left. *)
Definition goto_err_stop_workers (ret : Z) : KM pstate unit :=
for_loop 3 0 (λ i,
  a ← on_ps_dev (get_accel i);
  match a_worker_thread a with
  | KT_NULL => mret ()
  | th =>
      on_ps_dev (upd_accel i (set_a_running 0)) ;;
      kthread_stop th
  end) ;;
return_ ret.

(** The file never assigns [dev->class]: device_create gets a NULL class. *)
Definition cortex_forge_probe : KM pstate Z :=
call (
  return_if (negb (ke_kzalloc env)) (- ENOMEM) ;;
  modify (set_ps_dev zero_dev) ;;
  on_ps_dev dev_init ;;
  return_if (ke_ioremap env <? 0) (ke_ioremap env) ;;
  on_ps_dev (modify (set_num_clks (ke_clk_bulk_get_all env))) ;;
  return_if (ke_clk_bulk_get_all env <? 0) (ke_clk_bulk_get_all env) ;;
  return_if (ke_reset_control_get env <? 0) (ke_reset_control_get env) ;;
  on_ps_dev (modify (set_irq (ke_platform_get_irq env))) ;;
  return_if (ke_platform_get_irq env <? 0) (ke_platform_get_irq env) ;;
  for_loop 3 0 (λ i,
    th ← kthread_run env i;
    on_ps_dev (upd_accel i (set_a_worker_thread th)) ;;
    match th with
    | KT_ERR e => goto_err_stop_workers e
    | _ => mret ()
    end) ;;
  ret ← acquire (ke_alloc_chrdev_region env) KC_alloc_chrdev_region;
  (if negb (ret =? 0) then goto_err_stop_workers ret else mret ()) ;;
  ret ← acquire (ke_cdev_add env) KC_cdev_add;
  (if negb (ret =? 0) then
     kcall_ KC_unregister_chrdev_region ;; goto_err_stop_workers ret
   else mret ()) ;;
  (if ke_device_create_null env <? 0 then
     kcall_ KC_cdev_del ;;
     kcall_ KC_unregister_chrdev_region ;;
     goto_err_stop_workers (ke_device_create_null env)
   else kcall_ KC_device_create) ;;
  mret 0).

Definition cortex_forge_remove : KM pstate unit :=
kcall_ KC_device_destroy ;;
kcall_ KC_cdev_del ;;
kcall_ KC_unregister_chrdev_region ;;
for_loop 3 0 (λ i,
  on_ps_dev (upd_accel i (set_a_running 0)) ;;
  a ← on_ps_dev (get_accel i);
  kthread_stop (a_worker_thread a)).

Definition cortex_forge_init : KM pstate Z :=
call (
  r ← acquire (ke_class_register env) KC_class_register;
  return_if (negb (r =? 0)) r ;;
  r ← acquire (ke_driver_register env) KC_driver_register;
  (if negb (r =? 0) then kcall_ KC_class_unregister else mret ()) ;;
  mret r).

Definition cortex_forge_exit : KM pstate unit :=
kcall_ KC_driver_unregister ;;
kcall_ KC_class_unregister.
End Probe.

End Monolith.

(** ** The two drivers compared *)

Lemma monolith_worker m2j i now stop pc d :
  Monolith.accel_worker_thread m2j i now stop pc d = worker_step m2j i now stop pc d.
Proof.
  destruct pc; try reflexivity. cbn [Monolith.accel_worker_thread worker_step]. unfold dequeue.
  unfold mbind, KM_bind. destruct (get_accel i d) as [[a| |] d1]; [|done..].
  destruct (a_task_queue a) as [|t q]; [done|].
  destruct (upd_accel i _ d1) as [[[]| |] d2]; [|done..].
  by destruct (upd_accel i _ d2) as [[[]| |] d3].
Qed.

Lemma monolith_submit now i d t :
  dev_tasks d !! i = Some t →
  Monolith.task_submit now i d = task_submit now i (Z.to_nat (t_accel_type t)) d.
Proof.
  intros Ht. unfold Monolith.task_submit, task_submit, call.
  by rewrite !(KM_bind_ok _ _ _ _ _ (get_task_run _ _ _ Ht)).
Qed.

(** The body of a submission, after the descriptor was checked. *)
Lemma monolith_fill_and_submit now i desc d :
  (upd_task i (fill_task desc) ;; Monolith.task_submit now i) d =
  (upd_task i (fill_task desc) ;; task_submit now i (Z.to_nat (d_accel_type desc))) d.
Proof.
  destruct (dev_tasks d !! i) as [t|] eqn:Ht.
  - rewrite !(KM_bind_ok _ _ _ _ _ (upd_task_run _ _ _ _ Ht)).
    by rewrite (monolith_submit _ _ _ (fill_task desc t)) by (cbn; by rewrite arr_upd_same, Ht).
  - unfold upd_task, get_task, arr_get, mbind, KM_bind. by rewrite Ht.
Qed.

Section Compare.
Context {U : Type} `{UserMemory U}.
Context (HZ : Z).

Lemma on_dev_bind {A B} (m : KM dev A) (f : A → KM dev B) (w : world U) :
  on_dev (x ← m; f x) w = (x ← on_dev m; on_dev (f x)) w.
Proof.
  unfold on_dev, zoom, mbind, KM_bind. destruct (m (w_dev w)) as [[x| |] d]; [|done..].
  cbn [w_dev set_w_dev]. by destruct (f x d).
Qed.

Lemma monolith_submit_path (desc : task_desc) i (k : Z → KM (world U) Z) (w : world U) :
  (on_dev (upd_task i (fill_task desc)) ;; now ← gets w_jiffies;
   ret ← on_dev (Monolith.task_submit now i); k ret) w =
  (on_dev (upd_task i (fill_task desc)) ;; now ← gets w_jiffies;
   ret ← on_dev (task_submit now i (Z.to_nat (d_accel_type desc))); k ret) w.
Proof.
  pose proof (monolith_fill_and_submit (w_jiffies w) i desc (w_dev w)) as Hd.
  unfold on_dev, zoom, gets, mbind, KM_bind in *.
  destruct (upd_task i (fill_task desc) (w_dev w)) as [[[]| |] d1]; [|done..].
  cbn [w_dev w_jiffies set_w_dev]. by rewrite Hd.
Qed.

Lemma monolith_ioctl cmd uarg (w : world U) :
  Monolith.cortex_forge_ioctl HZ cmd uarg w = cortex_forge_ioctl HZ cmd uarg w.
Proof.
  unfold Monolith.cortex_forge_ioctl, cortex_forge_ioctl.
  destruct (cmd =? CORTEX_FORGE_IOCTL_SUBMIT_TASK); [|reflexivity].
  apply call_ext, KM_bind_ext. intros desc w1.
  do 4 (apply KM_bind_ext; intros _ ?).
  apply (KM_bind_ext (on_dev task_alloc)). intros [t|] w2; [|reflexivity].
  apply (monolith_submit_path desc t (λ ret, _) w2).
Qed.

(** The single-file driver and the modular driver are the same program to
    user space and to the accelerators: for every request, argument, user
    memory and device state their ioctl handlers give the same result, memory
    and device (or both make an invalid access), and their worker threads
    take the same step from every control point. *)
Theorem monolith_equivalent cmd uarg (w : world U) m2j i now stop pc d :
  Monolith.cortex_forge_ioctl HZ cmd uarg w = cortex_forge_ioctl HZ cmd uarg w ∧
  Monolith.accel_worker_thread m2j i now stop pc d = worker_step m2j i now stop pc d.
Proof. split; [apply monolith_ioctl|apply monolith_worker]. Qed.
End Compare.

(** ** The probe of the single-file driver *)

Lemma monolith_dev_init : Monolith.dev_init zero_dev = (Ok (), boot_dev).
Proof. by vm_compute. Qed.

(** The loop body that starts a worker. *)
Definition mono_start (env : kenv) (i : nat) : KM pstate unit :=
  th ← kthread_run env i;
  on_ps_dev (upd_accel i (set_a_worker_thread th)) ;;
  match th with
  | KT_ERR e => Monolith.goto_err_stop_workers e
  | _ => mret ()
  end.

Lemma mono_start_run env i d log :
  (i < length (dev_accelerators d))%nat →
  mono_start env i {| ps_dev := d; ps_log := log |} =
  if ke_kthread_run env i <? 0 then
    Monolith.goto_err_stop_workers (ke_kthread_run env i)
      {| ps_dev := upd_accelerators (arr_upd i (failed env i)) d; ps_log := log |}
  else (Ok (), {| ps_dev := upd_accelerators (arr_upd i (started i)) d;
                  ps_log := log ++ [KC_kthread_run i] |}).
Proof.
  intros [a Ha]%lookup_lt_is_Some. unfold mono_start, kthread_run, on_ps_dev, zoom.
  destruct (ke_kthread_run env i <? 0); unfold mbind, KM_bind, mret, KM_ret, kcall_, modify;
    cbn [ps_dev]; by rewrite (upd_accel_run i _ _ a).
Qed.

(** The outcome of the start loop: all threads, or a crash. *)
Definition mono_start_loop (env : kenv) : KM pstate unit := for_loop 3 0 (mono_start env).

Lemma mono_start_loop_run env log :
  match first_fail env 0 3 with
  | None => mono_start_loop env {| ps_dev := probed_dev env; ps_log := log |} =
      (Ok (), {| ps_dev := bound_dev env; ps_log := log ++ thread_log |})
  | Some _ => (mono_start_loop env {| ps_dev := probed_dev env; ps_log := log |}).1 = Oops
  end.
Proof.
  set (d0 := probed_dev env).
  set (d1 := upd_accelerators (arr_upd 0 (started 0)) d0).
  set (d2 := upd_accelerators (arr_upd 1 (started 1)) d1).
  assert (H0 := mono_start_run env 0 d0 log ltac:(unfold d0; rewrite probed_dev_accels; cbn; lia)).
  assert (H1 := mono_start_run env 1 d1 (log ++ [KC_kthread_run 0])
    ltac:(unfold d1; cbn [dev_accelerators upd_accelerators set_accelerators];
          unfold d0;
          rewrite arr_upd_length, probed_dev_accels; cbn; lia)).
  assert (H2 := mono_start_run env 2 d2 ((log ++ [KC_kthread_run 0]) ++ [KC_kthread_run 1])
    ltac:(unfold d2, d1; cbn [dev_accelerators upd_accelerators set_accelerators];
          unfold d0;
          rewrite !arr_upd_length, probed_dev_accels; cbn; lia)).
  fold d1 in H0. fold d2 in H1. unfold mono_start_loop. cbn [for_loop first_fail].
  destruct (ke_kthread_run env 0 <? 0).
  { unfold mbind, KM_bind. rewrite H0. by vm_compute. }
  rewrite (KM_bind_ok _ _ _ _ _ H0). destruct (ke_kthread_run env 1 <? 0).
  { unfold mbind, KM_bind. rewrite H1. by vm_compute. }
  rewrite (KM_bind_ok _ _ _ _ _ H1). destruct (ke_kthread_run env 2 <? 0).
  { unfold mbind, KM_bind. rewrite H2. by vm_compute. }
  rewrite (KM_bind_ok _ _ _ _ _ H2).
  assert (Hd : upd_accelerators (arr_upd 2 (started 2)) d2 = bound_dev env).
  { apply upd_accelerators_ext with (d := probed_dev env)
      (f := λ l, arr_upd 2 (started 2) (arr_upd 1 (started 1) (arr_upd 0 (started 0) l))).
    rewrite probed_dev_accels. by vm_compute. }
  rewrite Hd, <- !app_assoc. reflexivity.
Qed.

Lemma mono_err_bound env ret log :
  (Monolith.goto_err_stop_workers ret {| ps_dev := bound_dev env; ps_log := log |}).1 = Ret ret.
Proof. by vm_compute. Qed.

(** The errors of the resources probe looks up before it starts the threads. *)
Definition early_error (env : kenv) : option Z :=
  if negb (ke_kzalloc env) then Some (- ENOMEM)
  else if ke_ioremap env <? 0 then Some (ke_ioremap env)
  else if ke_clk_bulk_get_all env <? 0 then Some (ke_clk_bulk_get_all env)
  else if ke_reset_control_get env <? 0 then Some (ke_reset_control_get env)
  else if ke_platform_get_irq env <? 0 then Some (ke_platform_get_irq env)
  else None.

(** What happens once the threads run. *)
Definition late_result (env : kenv) : Z :=
  if negb (ke_alloc_chrdev_region env =? 0) then ke_alloc_chrdev_region env
  else if negb (ke_cdev_add env =? 0) then ke_cdev_add env
  else if ke_device_create_null env <? 0 then ke_device_create_null env
  else 0.

Lemma bind_ret_fst {S A B} (m : KM S A) (f : A → KM S B) s z :
  (m s).1 = Ret z → ((x ← m; f x) s).1 = Ret z.
Proof. unfold mbind, KM_bind. destruct (m s) as [[] ?]; cbn; congruence. Qed.

Lemma bind_oops_fst {S A B} (m : KM S A) (f : A → KM S B) s :
  (m s).1 = Oops → ((x ← m; f x) s).1 = Oops.
Proof. unfold mbind, KM_bind. destruct (m s) as [[] ?]; cbn; congruence. Qed.

Lemma call_fst {S} (m : KM S Z) s :
  (call m s).1 = match (m s).1 with Ret z => Ok z | r => r end.
Proof. unfold call. by destruct (m s) as [[] ?]. Qed.

(** The rest of probe, and its result. *)
Definition mono_register (env : kenv) : KM pstate Z :=
  ret ← acquire (ke_alloc_chrdev_region env) KC_alloc_chrdev_region;
  (if negb (ret =? 0) then Monolith.goto_err_stop_workers ret else mret ()) ;;
  ret ← acquire (ke_cdev_add env) KC_cdev_add;
  (if negb (ret =? 0) then
     kcall_ KC_unregister_chrdev_region ;; Monolith.goto_err_stop_workers ret
   else mret ()) ;;
  (if ke_device_create_null env <? 0 then
     kcall_ KC_cdev_del ;;
     kcall_ KC_unregister_chrdev_region ;;
     Monolith.goto_err_stop_workers (ke_device_create_null env)
   else kcall_ KC_device_create) ;;
  mret 0.

Lemma mono_register_fst env log :
  (call (mono_register env) {| ps_dev := bound_dev env; ps_log := log |}).1 = Ok (late_result env).
Proof.
  rewrite call_fst. unfold mono_register, late_result. kstep acquire_run.
  destruct (Z.eqb_spec (ke_alloc_chrdev_region env) 0) as [E1|E1]; cbn [negb ps_dev ps_log].
  2: { by rewrite (bind_ret_fst _ _ _ _ (mono_err_bound env _ log)). }
  erewrite KM_bind_ok by reflexivity. kstep acquire_run.
  destruct (Z.eqb_spec (ke_cdev_add env) 0) as [E2|E2]; cbn [negb ps_dev ps_log].
  2: { erewrite bind_ret_fst; [reflexivity|]. erewrite KM_bind_ok by reflexivity.
       apply mono_err_bound. }
  erewrite KM_bind_ok by reflexivity.
  destruct (ke_device_create_null env <? 0).
  - erewrite bind_ret_fst; [reflexivity|]. do 2 erewrite KM_bind_ok by reflexivity.
    apply mono_err_bound.
  - erewrite KM_bind_ok by reflexivity. reflexivity.
Qed.

Lemma monolith_probe_fst env d log :
  (Monolith.cortex_forge_probe env {| ps_dev := d; ps_log := log |}).1 =
  match early_error env, first_fail env 0 3 with
  | Some e, _ => Ok e
  | None, Some _ => Oops
  | None, None => Ok (late_result env)
  end.
Proof.
  unfold Monolith.cortex_forge_probe, early_error, return_if. fold (mono_register env).
  destruct (ke_kzalloc env); cbn [negb]; [|reflexivity]. rewrite call_fst.
  do 2 erewrite KM_bind_ok by reflexivity.
  erewrite KM_bind_ok by (unfold on_ps_dev, zoom; cbn [ps_dev set_ps_dev];
    rewrite monolith_dev_init; reflexivity).
  destruct (ke_ioremap env <? 0); [reflexivity|].
  do 2 erewrite KM_bind_ok by reflexivity.
  destruct (ke_clk_bulk_get_all env <? 0); [reflexivity|]. erewrite KM_bind_ok by reflexivity.
  destruct (ke_reset_control_get env <? 0); [reflexivity|].
  do 2 erewrite KM_bind_ok by reflexivity.
  destruct (ke_platform_get_irq env <? 0); [reflexivity|]. erewrite KM_bind_ok by reflexivity.
  cbn [ps_dev ps_log set_ps_dev]. fold (probed_dev env). fold (mono_start_loop env).
  pose proof (mono_start_loop_run env log) as Hl. destruct (first_fail env 0 3) as [k|].
  - by rewrite (bind_oops_fst _ _ _ Hl).
  - rewrite (KM_bind_ok _ _ _ _ _ Hl). pose proof (mono_register_fst env (log ++ thread_log)) as Hr.
    rewrite call_fst in Hr. exact Hr.
Qed.

(** C38: In the single-file driver a worker thread that cannot be created is
    fatal: probe's error path hands the error pointer of the failed kthread_run
    to kthread_stop, an invalid access, for every accelerator and every error.
    (The modular driver returns the error: [probe_all_or_nothing].) *)
Theorem monolith_thread_failure_crashes env d log i :
  early_error env = None → (i < 3)%nat → ke_kthread_run env i < 0 →
  (Monolith.cortex_forge_probe env {| ps_dev := d; ps_log := log |}).1 = Oops.
Proof.
  intros He Hi Hneg. rewrite monolith_probe_fst, He.
  destruct (first_fail env 0 3) as [k|] eqn:Hf; [done|]. exfalso. cbn in Hf.
  destruct i as [|[|[|i]]]; [| | |lia];
    destruct (Z.ltb_spec (ke_kthread_run env 0) 0); try done; try lia;
    destruct (Z.ltb_spec (ke_kthread_run env 1) 0); try done; try lia;
    destruct (Z.ltb_spec (ke_kthread_run env 2) 0); try done; lia.
Qed.

Lemma early_error_not_0 env : early_error env ≠ Some 0.
Proof.
  unfold early_error. destruct (ke_kzalloc env); [cbn [negb]|done].
  repeat (match goal with |- context [?z <? 0] => destruct (Z.ltb_spec z 0) end;
          [intros [= E]; lia|]). done.
Qed.

(** The single-file driver can never bind a device: it creates its device
    node in a class it never sets, and as the kernel refuses a NULL class its
    probe never returns 0, whatever else the kernel answers. *)
Theorem monolith_never_binds env d log :
  ke_device_create_null env < 0 →
  (Monolith.cortex_forge_probe env {| ps_dev := d; ps_log := log |}).1 ≠ Ok 0.
Proof.
  intros Hnull. rewrite monolith_probe_fst.
  pose proof (early_error_not_0 env) as Hearly.
  destruct (early_error env) as [e|]; [congruence|].
  destruct (first_fail env 0 3); [done|]. intros [= E]. revert E. unfold late_result.
  destruct (Z.eqb_spec (ke_alloc_chrdev_region env) 0) as [E1|E1]; cbn [negb]; [|done].
  destruct (Z.eqb_spec (ke_cdev_add env) 0) as [E2|E2]; cbn [negb]; [|done].
  rewrite (proj2 (Z.ltb_lt _ _)) by done. lia.
Qed.

(** ** When the modular driver binds *)

(** The kernel grants every resource the modular probe asks for. *)
Record grants (env : kenv) : Prop := {
  gr_kzalloc : ke_kzalloc env = true;
  gr_ioremap : 0 <= ke_ioremap env;
  gr_clks : 0 <= ke_clk_bulk_get_all env;
  gr_reset : 0 <= ke_reset_control_get env;
  gr_irq : 0 <= ke_platform_get_irq env;
  gr_threads : ∀ i, (i < 3)%nat → 0 <= ke_kthread_run env i;
  gr_region : ke_alloc_chrdev_region env = 0;
  gr_cdev : ke_cdev_add env = 0;
  gr_node : 0 <= ke_device_create env;
}.

Lemma first_fail_None env : first_fail env 0 3 = None ↔ ∀ i, (i < 3)%nat → 0 <= ke_kthread_run env i.
Proof.
  cbn. destruct (Z.ltb_spec (ke_kthread_run env 0) 0), (Z.ltb_spec (ke_kthread_run env 1) 0),
    (Z.ltb_spec (ke_kthread_run env 2) 0); split; try done;
    try (intros Hall; exfalso; first [specialize (Hall 0%nat)|specialize (Hall 1%nat)]; lia).
  all: try (intros Hall; pose proof (Hall 0%nat); pose proof (Hall 1%nat);
            pose proof (Hall 2%nat); exfalso; lia).
  intros _ [|[|[|i]]] Hi; [done..|lia].
Qed.

Lemma early_error_None env :
  early_error env = None ↔ ke_kzalloc env = true ∧ 0 <= ke_ioremap env ∧
    0 <= ke_clk_bulk_get_all env ∧ 0 <= ke_reset_control_get env ∧ 0 <= ke_platform_get_irq env.
Proof.
  unfold early_error. destruct (ke_kzalloc env); cbn [negb].
  2: { split; [done|by intros [? _]]. }
  repeat match goal with |- context [?z <? 0] => destruct (Z.ltb_spec z 0) end; split; try done; lia.
Qed.

Lemma register_binds env log :
  (call (register env) {| ps_dev := bound_dev env; ps_log := log |}).1 = Ok 0 ↔
  ke_alloc_chrdev_region env = 0 ∧ ke_cdev_add env = 0 ∧ 0 <= ke_device_create env.
Proof.
  rewrite call_fst. unfold register. kstep acquire_run.
  destruct (Z.eqb_spec (ke_alloc_chrdev_region env) 0) as [E1|E1]; cbn [negb ps_dev ps_log].
  2: { erewrite bind_ret_fst by (by rewrite goto_err_run). split; [congruence|tauto]. }
  erewrite KM_bind_ok by reflexivity. kstep acquire_run.
  destruct (Z.eqb_spec (ke_cdev_add env) 0) as [E2|E2]; cbn [negb ps_dev ps_log].
  2: { erewrite (bind_ret_fst _ _ _ (ke_cdev_add env)); [split; [congruence|tauto]|].
       erewrite KM_bind_ok by reflexivity. exact (f_equal fst (goto_err_run env _ _)). }
  erewrite KM_bind_ok by reflexivity.
  destruct (Z.ltb_spec (ke_device_create env) 0) as [E3|E3].
  - erewrite (bind_ret_fst _ _ _ (ke_device_create env)); [split; [intros [= ?]; lia|lia]|].
    do 2 erewrite KM_bind_ok by reflexivity. exact (f_equal fst (goto_err_run env _ _)).
  - erewrite KM_bind_ok by reflexivity. done.
Qed.

(** An exit with the error [x]. *)
Ltac early_exit x :=
  intros Hnz; split; [intros E; destruct Hnz; change (Ok x = @Ok Z 0) in E; congruence|by intros [? _]].

Lemma probe_binds_iff env d log :
  (cortex_forge_probe env {| ps_dev := d; ps_log := log |}).1 = Ok 0 ↔ grants env.
Proof.
  transitivity (early_error env = None ∧ first_fail env 0 3 = None ∧
    ke_alloc_chrdev_region env = 0 ∧ ke_cdev_add env = 0 ∧ 0 <= ke_device_create env).
  2: { rewrite early_error_None, first_fail_None. split; [|by intros []].
       intros ((? & ? & ? & ? & ?) & ? & ? & ? & ?). by split. }
  pose proof (early_error_not_0 env) as Hnz. unfold cortex_forge_probe, early_error, return_if in *.
  revert Hnz. fold (register env).
  destruct (ke_kzalloc env); cbn [negb]; [|by split; [|intros [? _]]]. rewrite call_fst.
  do 2 erewrite KM_bind_ok by reflexivity.
  erewrite KM_bind_ok by (unfold on_ps_dev, zoom; cbn [ps_dev set_ps_dev];
    rewrite dev_init_run; reflexivity).
  destruct (ke_ioremap env <? 0); [early_exit (ke_ioremap env)|].
  do 2 erewrite KM_bind_ok by reflexivity.
  destruct (ke_clk_bulk_get_all env <? 0); [early_exit (ke_clk_bulk_get_all env)|].
  erewrite KM_bind_ok by reflexivity.
  destruct (ke_reset_control_get env <? 0); [early_exit (ke_reset_control_get env)|].
  do 2 erewrite KM_bind_ok by reflexivity.
  destruct (ke_platform_get_irq env <? 0); [early_exit (ke_platform_get_irq env)|].
  intros _. erewrite KM_bind_ok by reflexivity. cbn [ps_dev ps_log set_ps_dev]. fold (probed_dev env).
  change 3%nat with NUM_ACCELERATORS. destruct (first_fail env 0 NUM_ACCELERATORS) as [k|] eqn:Hf.
  - destruct (start_some env log k Hf) as [d' Hs]. kstep Hs.
    pose proof (first_fail_Some _ _ _ _ Hf) as (_ & Hneg & _).
    rewrite (proj2 (Z.eqb_neq _ _)) by lia. cbn [negb]. split; [|by intros (_ & ? & _)].
    cbn. intros [= ?]. lia.
  - kstep (start_all env log Hf). cbn [Z.eqb negb]. erewrite KM_bind_ok by reflexivity.
    rewrite <- call_fst, register_binds. tauto.
Qed.

Lemma monolith_thread_failure_crashes_witness :
  (Monolith.cortex_forge_probe AccelManager.demo_env {| ps_dev := zero_dev; ps_log := [] |}).1 =
  Oops.
Proof.
  apply (monolith_thread_failure_crashes AccelManager.demo_env zero_dev [] 1);
    vm_compute; [reflexivity|lia|reflexivity].
Defined.

Lemma monolith_never_binds_witness :
  (Monolith.cortex_forge_probe demo_kenv {| ps_dev := zero_dev; ps_log := [] |}).1 ≠ Ok 0.
Proof. apply (monolith_never_binds demo_kenv zero_dev []). by vm_compute. Defined.
