(* ===== verification/Lib.v ===== *)
(** * The user-space library: lib/src/libcortex-forge.c

    Handles, the wrappers around ioctl and the error texts, on top of the
    driver of Chardev.v.  Pointers to structures are user addresses, NULL is
    0; [stack] is the address of the local whose address a wrapper passes.
    The C library's [open], [calloc] and [strerror] are parameters. *)

From S2P Require Import Prelude CLayout Device UserMem Uapi TaskManager Pool AccelManager DevInit Chardev IoctlSpec Schedule.

(** ** The library's own structures and request numbers *)

Local Open Scope string_scope.

Definition lib_task_desc_decl : cdecl :=
  [("task_id", CU32); ("accel_type", CU32); ("priority", CU32); ("input_size", CU32);
   ("output_size", CU32); ("input_addr", CPtr); ("output_addr", CPtr); ("timeout_ms", CU32);
   ("flags", CU32)].

Definition lib_task_status_decl : cdecl :=
  [("task_id", CU32); ("status", CU32); ("exec_usec", CU64); ("error_code", CS32)].

Definition lib_accel_info_decl : cdecl :=
  [("accel_type", CU32); ("freq_hz", CU32); ("temp_celsius", CS32); ("load_percent", CU32);
   ("fw_version", CU32); ("hw_version", CU32); ("mem_total", CU64); ("mem_free", CU64);
   ("state", CU32)].

Local Close Scope string_scope.

Definition LIB_IOCTL_SUBMIT_TASK : Z := IOWR CORTEX_FORGE_MAGIC 1 (size_of lib_task_desc_decl).
Definition LIB_IOCTL_QUERY_TASK : Z := IOWR CORTEX_FORGE_MAGIC 2 (size_of lib_task_status_decl).
Definition LIB_IOCTL_CANCEL_TASK : Z := IOW CORTEX_FORGE_MAGIC 3 4.
Definition LIB_IOCTL_GET_ACCEL_INFO : Z := IOR CORTEX_FORGE_MAGIC 4 (size_of lib_accel_info_decl).
Definition LIB_IOCTL_SET_POWER : Z := IOW CORTEX_FORGE_MAGIC 5 4.
Definition LIB_IOCTL_GET_VERSION : Z := IOR CORTEX_FORGE_MAGIC 6 4.

(** ** Handles and the state of a process *)

Record handle : Type := {
  h_fd : Z;
  h_locked : bool;                      (* pthread_mutex_t lock *)
  h_path : list Ascii.ascii;            (* char path[256] *)
}.

Definition set_h_locked b (h : handle) : handle :=
  {| h_fd := h_fd h; h_locked := b; h_path := h_path h |}.

(** The driver as the process reaches it, its [errno], its open descriptors,
    and the handle in use. *)
Record process (U : Type) : Type := {
  p_world : world U;
  p_errno : Z;
  p_fds : list Z;
  p_handle : option handle;
}.
Arguments p_world {U} p.
Arguments p_errno {U} p.
Arguments p_fds {U} p.
Arguments p_handle {U} p.

Section Lib.
Context {U : Type} `{UserMemory U}.
Context (HZ : Z).

Definition set_errno (e : Z) : KM (process U) unit :=
  modify (λ p, Build_process U (p_world p) e (p_fds p) (p_handle p)).
Definition set_handle (h : option handle) : KM (process U) unit :=
  modify (λ p, Build_process U (p_world p) (p_errno p) (p_fds p) h).
Definition set_fds (f : list Z → list Z) : KM (process U) unit :=
  modify (λ p, Build_process U (p_world p) (p_errno p) (f (p_fds p)) (p_handle p)).

(** The C library's ioctl: a negative code of the driver becomes -1 and errno. *)
Definition ioctl (cmd arg : Z) : KM (process U) Z := λ p,
  match cortex_forge_ioctl HZ cmd arg (p_world p) with
  | (Ok code, w) =>
      if code <? 0 then (Ok (-1), Build_process U w (- code) (p_fds p) (p_handle p))
      else (Ok code, Build_process U w (p_errno p) (p_fds p) (p_handle p))
  | (Ret z, w) => (Ret z, Build_process U w (p_errno p) (p_fds p) (p_handle p))
  | (Oops, w) => (Oops, Build_process U w (p_errno p) (p_fds p) (p_handle p))
  end.

(** Locking a locked mutex would block for ever. *)
Definition pthread_mutex_lock : KM (process U) unit :=
  h ← gets p_handle;
  match h with
  | Some h => if h_locked h then oops else set_handle (Some (set_h_locked true h))
  | None => oops
  end.
Definition pthread_mutex_unlock : KM (process U) unit :=
  h ← gets p_handle;
  match h with
  | Some h => set_handle (Some (set_h_locked false h))
  | None => oops
  end.

(** [lock; r = ioctl(...); unlock; return r < 0 ? -errno : 0] *)
Definition locked_ioctl (cmd arg : Z) : KM (process U) Z :=
  pthread_mutex_lock ;;
  r ← ioctl cmd arg;
  pthread_mutex_unlock ;;
  e ← gets p_errno;
  mret (if r <? 0 then - e else 0).

(** [if (!h) return -EINVAL;], [if (!h || !p) return -EINVAL;] *)
Definition check_handle : KM (process U) unit :=
  h ← gets p_handle; return_if (bool_decide (h = None)) (- EINVAL).
Definition check_pointer (ptr : Z) : KM (process U) unit :=
  check_handle ;; return_if (ptr =? 0) (- EINVAL).

Definition cortex_forge_submit_task (d : Z) : KM (process U) Z :=
  call (check_pointer d ;; locked_ioctl LIB_IOCTL_SUBMIT_TASK d).
Definition cortex_forge_query_task (s : Z) : KM (process U) Z :=
  call (check_pointer s ;; locked_ioctl LIB_IOCTL_QUERY_TASK s).
Definition cortex_forge_get_accel_info (i : Z) : KM (process U) Z :=
  call (check_pointer i ;; locked_ioctl LIB_IOCTL_GET_ACCEL_INFO i).
Definition cortex_forge_get_version (v : Z) : KM (process U) Z :=
  call (check_pointer v ;; locked_ioctl LIB_IOCTL_GET_VERSION v).
Definition cortex_forge_cancel_task (stack : Z) : KM (process U) Z :=
  call (check_handle ;; locked_ioctl LIB_IOCTL_CANCEL_TASK stack).
Definition cortex_forge_set_power (stack : Z) : KM (process U) Z :=
  call (check_handle ;; locked_ioctl LIB_IOCTL_SET_POWER stack).

(** [open]'s answer (a descriptor, or a negative errno) and [calloc]'s. *)
Definition cortex_forge_open (open_ret : Z) (calloc_ok : bool)
    (path : option (list Ascii.ascii)) : KM (process U) unit :=
  match path with
  | None => set_errno EINVAL ;; set_handle None
  | Some p =>
      if open_ret <? 0 then set_errno (- open_ret) ;; set_handle None
      else
        set_fds (cons open_ret) ;;
        if calloc_ok then
          set_handle (Some {| h_fd := open_ret; h_locked := false;
                              h_path := strncpy (replicate 256 Ascii.zero) p 255 |})
        else set_errno ENOMEM ;; set_fds (list_del open_ret) ;; set_handle None
  end.

Definition cortex_forge_close : KM (process U) unit :=
  h ← gets p_handle;
  match h with
  | None => mret ()
  | Some h => set_fds (list_del (h_fd h)) ;; set_handle None
  end.
End Lib.

(** [strerror] is the C library's. *)
Definition cortex_forge_strerror (strerror : Z → string) (e : Z) : string :=
  if e =? 0 then "Success"
  else if e =? - EINVAL then "Invalid argument"
  else if e =? - EFAULT then "Bad address"
  else if e =? - ENOMEM then "Out of memory"
  else if e =? - ENOENT then "Task not found"
  else if e =? - ENOTTY then "Invalid ioctl command"
  else if e =? - EBUSY then "Device busy"
  else if e =? - ETIMEDOUT then "Operation timed out"
  else if e =? - E2BIG then "Data too large"
  else if e =? - ECANCELED then "Task cancelled"
  else strerror (- e).

(** ** Properties *)

Section LibSpec.
Context {U : Type} `{UserMemoryLaws U}.
Context (HZ : Z).
Implicit Types (p : process U).

Definition set_p_world (w : world U) p : process U :=
  Build_process U w (p_errno p) (p_fds p) (p_handle p).

(** The handle in use, unlocked. *)
Definition has_handle (p : process U) : Prop :=
  ∃ h, p_handle p = Some h ∧ h_locked h = false.

(** What a wrapper does with the driver's answer. *)
Lemma locked_ioctl_run cmd arg p code w :
  has_handle p → cortex_forge_ioctl HZ cmd arg (p_world p) = (Ok code, w) →
  ∃ e, locked_ioctl HZ cmd arg p =
    (Ok (if code <? 0 then code else 0),
     {| p_world := w; p_errno := e; p_fds := p_fds p; p_handle := p_handle p |}).
Proof.
  intros (h & Hh & Hl) Hr. destruct p as [pw pe pf ph]. cbn in *. subst ph.
  unfold locked_ioctl, pthread_mutex_lock, pthread_mutex_unlock, ioctl, set_handle.
  km_unfold. cbn [p_world p_errno p_fds p_handle]. rewrite Hl. cbn [p_world p_errno p_fds p_handle]. rewrite Hr.
  destruct h as [fd l path]. cbn in Hl. subst l.
  destruct (code <? 0) eqn:Hc; cbn [p_world p_errno p_fds p_handle]; eexists.
  - change (-1 <? 0) with true. cbn iota. by rewrite Z.opp_involutive.
  - by rewrite Hc.
Qed.

Lemma check_pointer_ok ptr p : has_handle p → ptr ≠ 0 → check_pointer ptr p = (Ok (), p).
Proof.
  intros (h & Hh & _) Hp. unfold check_pointer, check_handle, return_if. km_unfold.
  rewrite Hh. rewrite (proj2 (Z.eqb_neq _ _) Hp). done.
Qed.

Lemma check_handle_ok p : has_handle p → check_handle p = (Ok (), p).
Proof.
  intros (h & Hh & _). unfold check_handle, return_if. km_unfold. by rewrite Hh.
Qed.

(** A request number the driver does not know, from a wrapper that takes a
    pointer. *)
Lemma refused_run cmd ptr p :
  cmd ∉ ioctl_requests → has_handle p → ptr ≠ 0 →
  call (check_pointer ptr ;; locked_ioctl HZ cmd ptr) p =
  (Ok (- ENOTTY), {| p_world := p_world p; p_errno := ENOTTY; p_fds := p_fds p;
                     p_handle := p_handle p |}).
Proof.
  intros Hc Hh Hp. unfold call. rewrite (KM_bind_ok _ _ _ _ _ (check_pointer_ok ptr p Hh Hp)).
  destruct Hh as (h & Hh & Hl). destruct p as [pw pe pf ph]. cbn in *. subst ph.
  unfold locked_ioctl, pthread_mutex_lock, pthread_mutex_unlock, ioctl, set_handle.
  km_unfold. cbn [p_world p_errno p_fds p_handle]. rewrite Hl. cbn [p_world p_errno p_fds p_handle].
  rewrite ioctl_unknown_run by done. cbn. do 2 f_equal. by destruct h; cbn in *; subst.
Qed.

(** The sizes in these three differ from the driver's. *)
Lemma lib_unknown_requests :
  LIB_IOCTL_SUBMIT_TASK ∉ ioctl_requests ∧ LIB_IOCTL_QUERY_TASK ∉ ioctl_requests ∧
  LIB_IOCTL_GET_ACCEL_INFO ∉ ioctl_requests.
Proof.
  split_and!; apply (bool_decide_unpack (¬ (_ ∈ ioctl_requests))); by vm_compute.
Qed.

(** The library cannot submit, query or ask for information: its structures
    lack the reserved fields of the driver's, so the sizes in its request
    numbers differ (48, 24 and 48 bytes for 80, 32 and 56), and for every
    handle, argument, memory and device the driver refuses them with -ENOTTY
    and nothing happens. *)
Theorem lib_requests_refused ptr p :
  has_handle p → ptr ≠ 0 →
  ∃ e, let p' := {| p_world := p_world p; p_errno := e; p_fds := p_fds p;
                    p_handle := p_handle p |} in
    cortex_forge_submit_task HZ ptr p = (Ok (- ENOTTY), p') ∧
    cortex_forge_query_task HZ ptr p = (Ok (- ENOTTY), p') ∧
    cortex_forge_get_accel_info HZ ptr p = (Ok (- ENOTTY), p').
Proof.
  intros Hh Hp. exists ENOTTY. pose proof lib_unknown_requests as (? & ? & ?).
  split_and!; by apply refused_run.
Qed.

(** The requests whose argument is a bare [__u32] do reach the driver:
    cancellation, power mode and version return the driver's own code and
    leave its device and the caller's memory, with the lock released. *)
Theorem lib_requests_served arg p :
  has_handle p → dev_ok (w_dev (p_world p)) → arg ≠ 0 →
  ∀ cmd wrapper,
    (cmd, wrapper) ∈ [(CORTEX_FORGE_IOCTL_CANCEL_TASK, cortex_forge_cancel_task HZ arg);
                      (CORTEX_FORGE_IOCTL_SET_POWER, cortex_forge_set_power HZ arg);
                      (CORTEX_FORGE_IOCTL_GET_VERSION, cortex_forge_get_version HZ arg)] →
  ∃ code w e, cortex_forge_ioctl HZ cmd arg (p_world p) = (Ok code, w) ∧
    wrapper p = (Ok code, {| p_world := w; p_errno := e; p_fds := p_fds p;
                             p_handle := p_handle p |}).
Proof.
  intros Hh Hok Harg cmd wrapper Hin.
  destruct (ioctl_outcome HZ cmd arg (p_world p) Hok) as (code & w & Hr & Hc & _).
  destruct (locked_ioctl_run cmd arg p code w Hh Hr) as [e He].
  exists code, w, e. split; [exact Hr|].
  assert (Hcode : (if code <? 0 then code else 0) = code).
  { unfold ioctl_codes in Hc. destruct (Z.ltb_spec code 0); [done|].
    unfold EFAULT, EINVAL, E2BIG, ENOMEM, ENOENT, ENOTTY in Hc. set_solver by lia. }
  rewrite Hcode in He.
  repeat (apply elem_of_cons in Hin as [Hin|Hin]; [injection Hin as -> ->|]);
    [| | |by apply elem_of_nil in Hin].
  - change (call (check_handle ;; locked_ioctl HZ CORTEX_FORGE_IOCTL_CANCEL_TASK arg) p = 
      (Ok code, Build_process U w e (p_fds p) (p_handle p))).
    unfold call. rewrite (KM_bind_ok _ _ _ _ _ (check_handle_ok p Hh)). by rewrite He.
  - change (call (check_handle ;; locked_ioctl HZ CORTEX_FORGE_IOCTL_SET_POWER arg) p = 
      (Ok code, Build_process U w e (p_fds p) (p_handle p))).
    unfold call. rewrite (KM_bind_ok _ _ _ _ _ (check_handle_ok p Hh)). by rewrite He.
  - change (call (check_pointer arg ;; locked_ioctl HZ CORTEX_FORGE_IOCTL_GET_VERSION arg) p = 
      (Ok code, Build_process U w e (p_fds p) (p_handle p))).
    unfold call. rewrite (KM_bind_ok _ _ _ _ _ (check_pointer_ok arg p Hh Harg)). by rewrite He.
Qed.
End LibSpec.

(** ** Opening and closing *)

Section OpenClose.
Context {U : Type}.

(** Opening either gives an unlocked handle on the descriptor opened, whose
    [path] is the NUL-terminated copy of at most 255 characters of the
    argument, and closing it then closes that descriptor; or it gives NULL,
    sets errno unless [open] did, and leaks no descriptor. *)
Theorem open_close_balanced (p : process U) open_ret calloc_ok path :
  open_ret ∉ p_fds p → (∀ s, path = Some s → Forall (λ c, c ≠ Ascii.zero) s) →
  ∃ p', cortex_forge_open open_ret calloc_ok path p = (Ok (), p') ∧
    match p_handle p' with
    | Some h => path = Some (default [] path) ∧ 0 <= open_ret ∧ calloc_ok = true ∧
        h_fd h = open_ret ∧ h_locked h = false ∧ length (h_path h) = 256%nat ∧
        c_string (h_path h) = take 255 (default [] path) ∧
        p_fds p' = open_ret :: p_fds p ∧
        ∃ p'', cortex_forge_close p' = (Ok (), p'') ∧ p_fds p'' = p_fds p ∧ p_handle p'' = None
    | None => p_fds p' = p_fds p ∧ (path = None ∨ open_ret < 0 ∨ calloc_ok = false) ∧
        p_errno p' = match path with
                     | None => EINVAL
                     | Some _ => if open_ret <? 0 then - open_ret else ENOMEM
                     end
    end.
Proof.
  intros Hfd Hnul.
  pose proof (list_del_head open_ret (p_fds p) Hfd) as Hdel.
  destruct path as [s|]; cbn [cortex_forge_open].
  2: { eexists. split; [reflexivity|]. cbn. auto. }
  specialize (Hnul s eq_refl).
  destruct (Z.ltb_spec open_ret 0).
  { eexists. split; [reflexivity|]. cbn. auto. }
  destruct calloc_ok.
  2: { eexists. split; [reflexivity|]. cbn [p_handle p_fds p_errno]. auto. }
  eexists. split; [reflexivity|]. cbn [p_handle p_fds h_fd h_locked h_path default].
  split_and!; try done.
  - by rewrite strncpy_length by (cbn; lia).
  - by apply strncpy_truncated.
  - eexists. split; [reflexivity|]. split; [exact Hdel|reflexivity].
Qed.
End OpenClose.

(** Every answer of the driver has its own text in the library, never the C
    library's: different codes of the handler have different texts. *)
Theorem driver_codes_have_texts strerror strerror' e e' :
  e ∈ ioctl_codes → e' ∈ ioctl_codes →
  cortex_forge_strerror strerror e = cortex_forge_strerror strerror' e' → e = e'.
Proof.
  unfold ioctl_codes. intros He He'.
  repeat (apply elem_of_cons in He as [->|He]; [|]); try by apply elem_of_nil in He.
  all: repeat (apply elem_of_cons in He' as [->|He']; [|]); try by apply elem_of_nil in He'.
  all: first [reflexivity | intros E; vm_compute in E; discriminate].
Qed.

(** ** On concrete processes *)

Definition demo_handle : handle :=
  {| h_fd := 3; h_locked := false; h_path := replicate 256 Ascii.zero |}.
Definition demo_process : process flatmem :=
  {| p_world := demo_user; p_errno := 0; p_fds := [3]; p_handle := Some demo_handle |}.

Lemma demo_has_handle : has_handle demo_process.
Proof. by exists demo_handle. Qed.

Lemma lib_requests_refused_witness :
  ∃ p', cortex_forge_submit_task 250 4096 demo_process = (Ok (- ENOTTY), p') ∧
        p_world p' = p_world demo_process.
Proof.
  destruct (lib_requests_refused 250 4096 demo_process demo_has_handle ltac:(lia))
    as (e & Hr & _).
  exact (ex_intro _ _ (conj Hr eq_refl)).
Defined.

Lemma lib_requests_served_witness :
  ∃ code w e,
    cortex_forge_ioctl 250 CORTEX_FORGE_IOCTL_CANCEL_TASK 4096 (p_world demo_process) = (Ok code, w) ∧
    cortex_forge_cancel_task 250 4096 demo_process =
    (Ok code, {| p_world := w; p_errno := e; p_fds := p_fds demo_process;
                 p_handle := p_handle demo_process |}).
Proof.
  exact (lib_requests_served 250 4096 demo_process demo_has_handle
    (demo_world_ok _ _ boot_dev_ok) ltac:(lia) CORTEX_FORGE_IOCTL_CANCEL_TASK
    (cortex_forge_cancel_task 250 4096) (list_elem_of_here _ _)).
Defined.

Lemma open_close_balanced_witness :
  ∃ p', cortex_forge_open 4 true (Some [Ascii.ascii_of_nat 47]) demo_process = (Ok (), p').
Proof.
  destruct (open_close_balanced demo_process 4 true (Some [Ascii.ascii_of_nat 47]))
    as (p' & Hr & _).
  - cbn. intros Hin%list_elem_of_singleton. discriminate.
  - intros s [= <-]. repeat constructor. discriminate.
  - exact (ex_intro _ p' Hr).
Defined.

Lemma driver_codes_have_texts_witness :
  cortex_forge_strerror (λ _, "") (- ENOENT) = "Task not found" ∧ - ENOENT = - ENOENT.
Proof.
  split; [reflexivity|].
  apply (driver_codes_have_texts (λ _, "") (λ _, "x")); [| |reflexivity];
    unfold ioctl_codes; set_solver.
Defined.
