(* ===== verification/LibThreads.v ===== *)
(** * Threads that share a library handle

    lib/src/libcortex-forge.c promises a thread-safe interface: every wrapper
    locks the handle's mutex around its ioctl.  Any number of threads of a
    process, each in a wrapper or in cortex_forge_close on one handle, on top of
    the concurrent driver of System.v: a thread's ioctl is one of the driver's
    system calls, interleaved with the workers, the removal, the clock and the
    calls of other processes.

    The handle is a heap object: its mutex (the thread that holds it), whether
    the mutex was destroyed, whether its descriptor is open.  Using the object
    after free, locking or unlocking a destroyed mutex, destroying a locked or
    destroyed one and using a closed descriptor are undefined in POSIX and C:
    they are invalid accesses here.  [errno] belongs to the thread. *)

From S2P Require Import Prelude CLayout Device UserMem Uapi TaskManager Pool AccelManager Worker DevInit Chardev System SystemInv Schedule Teardown IoctlSpec Calls Lib.
From Stdlib Require Import Sorting.Sorted.

(** ** The wrappers *)

(** A call of the library on the handle; the argument is the pointer passed to
    ioctl (for cancel and power the address of the local). *)
Inductive lib_op : Type :=
  | OP_submit_task (d : Z)
  | OP_query_task (s : Z)
  | OP_cancel_task (stack : Z)
  | OP_get_accel_info (i : Z)
  | OP_set_power (stack : Z)
  | OP_get_version (v : Z).

Definition op_request (op : lib_op) : Z :=
  match op with
  | OP_submit_task _ => LIB_IOCTL_SUBMIT_TASK
  | OP_query_task _ => LIB_IOCTL_QUERY_TASK
  | OP_cancel_task _ => LIB_IOCTL_CANCEL_TASK
  | OP_get_accel_info _ => LIB_IOCTL_GET_ACCEL_INFO
  | OP_set_power _ => LIB_IOCTL_SET_POWER
  | OP_get_version _ => LIB_IOCTL_GET_VERSION
  end.

Definition op_arg (op : lib_op) : Z :=
  match op with
  | OP_submit_task a | OP_query_task a | OP_cancel_task a
  | OP_get_accel_info a | OP_set_power a | OP_get_version a => a
  end.

(** [if (!h || !p) return -EINVAL]: refused before the handle is touched (the
    handle itself is not NULL). *)
Definition op_refused (op : lib_op) : bool :=
  match op with
  | OP_submit_task p | OP_query_task p | OP_get_accel_info p | OP_get_version p => p =? 0
  | OP_cancel_task _ | OP_set_power _ => false
  end.

(** ** A thread in the library *)

Inductive lpc : Type :=
  | L_check (op : lib_op)            (* if (!h || !p) return -EINVAL; *)
  | L_lock (op : lib_op)             (* pthread_mutex_lock(&h->lock) *)
  | L_ioctl (op : lib_op)            (* ioctl(h->fd, ...): enters the kernel *)
  | L_wait (c : nat)                 (* ... in the kernel, as its call [c] *)
  | L_unlock (code : Z)              (* pthread_mutex_unlock(&h->lock) *)
  | L_return (code : Z)              (* return r < 0 ? -errno : 0 *)
  | C_destroy                        (* pthread_mutex_destroy(&h->lock) *)
  | C_close                          (* close(h->fd) *)
  | C_free                           (* free(h) *)
  | C_return.

Record hobject : Type := {
  ho_owner : option nat;             (* the thread that holds [lock] *)
  ho_destroyed : bool;
  ho_open : bool;
}.

Definition set_owner (k : option nat) (o : hobject) : hobject :=
  {| ho_owner := k; ho_destroyed := ho_destroyed o; ho_open := ho_open o |}.

(** [ls_made]: the driver calls made through the handle, in order. *)
Record lsys : Type := {
  ls_sys : sys;
  ls_obj : option hobject;
  ls_threads : list lpc;
  ls_made : list nat;
}.

(** The state after a statement of thread [k]. *)
Definition lnext (k : nat) (pc : lpc) (o : option hobject) (s : lsys) : lsys :=
  {| ls_sys := ls_sys s; ls_obj := o; ls_threads := <[k := pc]> (ls_threads s);
     ls_made := ls_made s |}.

Inductive levent (U : Type) : Type :=
  | LE_sys (e : event)               (* the rest of the system *)
  | LE_op (op : lib_op)              (* a thread calls a wrapper *)
  | LE_close                         (* a thread calls cortex_forge_close *)
  | LE_thread (k : nat) (u : U) (copied : bool).  (* thread [k]'s next statement *)
Arguments LE_sys {U}.
Arguments LE_op {U}.
Arguments LE_close {U}.
Arguments LE_thread {U}.

Section Threads.
Context {U : Type} `{UserMemory U}.
Context (HZ : Z) (m2j : Z → Z).

(** The driver's system call [pc] enters. *)
Definition enter_call (pc : upc) (s : sys) : sys := sys_try HZ m2j (E_call pc) s.

(** Thread [k] at [pc]; [None]: it has to wait, or has returned. *)
Definition thread_exec (k : nat) (u : U) (copied : bool) (pc : lpc) (s : lsys)
    : option (res () * lsys) :=
  let go pc' o := Some (Ok (), lnext k pc' o s) in
  let oops := Some (Oops, s) in
  match pc with
  | L_check op =>
      go (if op_refused op then L_return (- EINVAL) else L_lock op) (ls_obj s)
  | L_lock op =>
      match ls_obj s with
      | None => oops
      | Some o =>
          if ho_destroyed o then oops
          else match ho_owner o with
               | Some _ => None
               | None => go (L_ioctl op) (Some (set_owner (Some k) o))
               end
      end
  | L_ioctl op =>
      match ls_obj s with
      | None => oops
      | Some o =>
          if ho_open o then
            let c := length (y_calls (ls_sys s)) in
            Some (Ok (),
              {| ls_sys := enter_call (request_entry (op_request op) (op_arg op) u) (ls_sys s);
                 ls_obj := ls_obj s; ls_threads := <[k := L_wait c]> (ls_threads s);
                 ls_made := ls_made s ++ [c] |})
          else oops
      end
  | L_wait c =>
      match y_calls (ls_sys s) !! c with
      | Some (U_ret code) => go (L_unlock (if code <? 0 then code else 0)) (ls_obj s)
      | _ =>
          s' ← sys_exec HZ m2j (E_user c copied) (ls_sys s);
          Some (Ok (), {| ls_sys := s'; ls_obj := ls_obj s; ls_threads := ls_threads s;
                          ls_made := ls_made s |})
      end
  | L_unlock code =>
      match ls_obj s with
      | None => oops
      | Some o => if ho_destroyed o then oops else go (L_return code) (Some (set_owner None o))
      end
  | C_destroy =>
      match ls_obj s with
      | None => oops
      | Some o =>
          if ho_destroyed o || bool_decide (is_Some (ho_owner o)) then oops
          else go C_close (Some {| ho_owner := None; ho_destroyed := true; ho_open := ho_open o |})
      end
  | C_close =>
      match ls_obj s with
      | None => oops
      | Some o =>
          if ho_open o then
            go C_free (Some {| ho_owner := ho_owner o; ho_destroyed := ho_destroyed o;
                               ho_open := false |})
          else oops
      end
  | C_free => match ls_obj s with None => oops | Some _ => go C_return None end
  | L_return _ | C_return => None
  end.

Definition spawn (pc : lpc) (s : lsys) : lsys :=
  {| ls_sys := ls_sys s; ls_obj := ls_obj s; ls_threads := ls_threads s ++ [pc];
     ls_made := ls_made s |}.

Definition lib_exec (e : levent U) (s : lsys) : option (res () * lsys) :=
  match e with
  | LE_sys e =>
      s' ← sys_exec HZ m2j e (ls_sys s);
      Some (Ok (), {| ls_sys := s'; ls_obj := ls_obj s; ls_threads := ls_threads s;
                      ls_made := ls_made s |})
  | LE_op op => Some (Ok (), spawn (L_check op) s)
  | LE_close => Some (Ok (), spawn C_destroy s)
  | LE_thread k u copied => pc ← ls_threads s !! k; thread_exec k u copied pc s
  end.

(** A schedule of attempts (a statement that cannot run waits), up to the first
    invalid access. *)
Fixpoint lib_run (es : list (levent U)) (s : lsys) : res () * lsys :=
  match es with
  | [] => (Ok (), s)
  | e :: es' =>
      match lib_exec e s with
      | None => lib_run es' s
      | Some (Oops, s') => (Oops, s')
      | Some (_, s') => lib_run es' s'
      end
  end.

(** cortex_forge_open has just returned a handle, on any reachable driver. *)
Definition lib_init (y : sys) : lsys :=
  {| ls_sys := y; ls_obj := Some {| ho_owner := None; ho_destroyed := false; ho_open := true |};
     ls_threads := []; ls_made := [] |}.

Definition lib_reachable (s : lsys) : Prop :=
  ∃ y es, reachable HZ m2j y ∧ lib_run es (lib_init y) = (Ok (), s).
End Threads.

Lemma StronglySorted_snoc {A} (R : A → A → Prop) l x :
  StronglySorted R l → (∀ y, y ∈ l → R y x) → StronglySorted R (l ++ [x]).
Proof.
  induction 1 as [|z l Hs IH Hz]; intros Hx; cbn; [repeat constructor|].
  constructor; [apply IH; set_solver|]. apply List.Forall_app. split; [done|].
  constructor; [apply Hx; set_solver|constructor].
Qed.

(** ** Who holds the mutex *)

Definition holds (pc : lpc) : bool :=
  match pc with L_ioctl _ | L_wait _ | L_unlock _ => true | _ => false end.

(** Past the destruction of the mutex. *)
Definition closing (pc : lpc) : bool :=
  match pc with C_close | C_free => true | _ => false end.

(** The driver still runs call [c]. *)
Definition in_flight (y : sys) (c : nat) : Prop :=
  ∃ pc, y_calls y !! c = Some pc ∧ call_result pc = None.

Section Inv.
Context {U : Type} `{UserMemoryLaws U}.
Context (HZ : Z) (m2j : Z → Z).

Record lib_inv (s : lsys) : Prop := {
  li_sys : reachable HZ m2j (ls_sys s);
  li_holder : ∀ k pc, ls_threads s !! k = Some pc → holds pc = true →
    ∃ o, ls_obj s = Some o ∧ ho_owner o = Some k ∧ ho_destroyed o = false;
  li_owner : ∀ o k, ls_obj s = Some o → ho_owner o = Some k →
    ∃ pc, ls_threads s !! k = Some pc ∧ holds pc = true;
  li_closing : ∀ k pc o, ls_threads s !! k = Some pc → closing pc = true →
    ls_obj s = Some o → ho_destroyed o = true;
  li_made : ∀ c, c ∈ ls_made s → (c < length (y_calls (ls_sys s)))%nat ∧
    (in_flight (ls_sys s) c → ∃ k, ls_threads s !! k = Some (L_wait c));
  li_wait : ∀ k c, ls_threads s !! k = Some (L_wait c) → c ∈ ls_made s;
  li_sorted : StronglySorted lt (ls_made s);
}.

(** *** The driver's steps *)

(** What any step of the driver does to the calls. *)
Lemma sys_try_calls e y c :
  reachable HZ m2j y → (c < length (y_calls y))%nat →
  (c < length (y_calls (sys_try HZ m2j e y)))%nat ∧
  (in_flight (sys_try HZ m2j e y) c → in_flight y c).
Proof.
  intros Hr Hc. destruct (lookup_lt_is_Some_2 (y_calls y) c Hc) as [pc Hpc].
  assert (Hx : ∃ pc', y_calls (sys_try HZ m2j e y) !! c = Some pc' ∧
    (call_rank pc' ≤ call_rank pc)%nat).
  { destruct (is_user c e) eqn:He; [|exists pc; eauto using call_stays].
    destruct e as [| |k copied| |]; try done. apply bool_decide_eq_true in He as ->.
    destruct (call_moves HZ m2j c copied y pc) as (pc' & ? & ?);
      [by eapply sys_inv_reachable|done|]. exists pc'. split; [done|lia]. }
  destruct Hx as (pc' & Hpc' & Hle). split; [by eapply lookup_lt_Some|].
  intros (pc0 & Hpc0 & Hres). exists pc. split; [done|].
  destruct (call_result pc) as [code|] eqn:Hcode; [|done].
  assert (Hz : call_rank pc = 0%nat) by (by apply call_result_rank).
  assert (Hz' : call_rank pc' = 0%nat) by lia.
  apply call_result_rank in Hz' as [? ?]. congruence.
Qed.

Lemma lib_inv_sys e s y :
  lib_inv s → y = sys_try HZ m2j e (ls_sys s) →
  lib_inv {| ls_sys := y; ls_obj := ls_obj s; ls_threads := ls_threads s; ls_made := ls_made s |}.
Proof.
  intros [] ->. split; try done; cbn.
  - by apply sys_try_reachable.
  - intros c Hc. destruct (li_made0 c Hc) as [Hlt Hw].
    destruct (sys_try_calls e (ls_sys s) c li_sys0 Hlt) as [Hlt' Hfl]. auto.
Qed.

Lemma lib_inv_spawn pc s :
  lib_inv s → holds pc = false → closing pc = false → lib_inv (spawn pc s).
Proof.
  intros [] Hh Hcl. split; try done; cbn.
  - intros k pc' Hk Hpc'. apply lookup_app_Some in Hk as [Hk|[_ Hk]]; [eauto|].
    apply list_lookup_singleton_Some in Hk as [_ <-]. congruence.
  - intros o k Ho Hk. destruct (li_owner0 o k Ho Hk) as (pc' & Hpc' & ?).
    exists pc'. split; [by apply lookup_app_l_Some|done].
  - intros k pc' o Hk Hpc'. apply lookup_app_Some in Hk as [Hk|[_ Hk]]; [eauto|].
    apply list_lookup_singleton_Some in Hk as [_ <-]. congruence.
  - intros c Hc. destruct (li_made0 c Hc) as [? Hw]. split; [done|].
    intros [k Hk]%Hw. exists k. by apply lookup_app_l_Some.
  - intros k c Hk. apply lookup_app_Some in Hk as [Hk|[_ Hk]]; [eauto|].
    apply list_lookup_singleton_Some in Hk as [_ ->]. done.
Qed.

(** *** A thread's steps *)

(** One that leaves the object alone. *)
Lemma lib_inv_same s k pc pc' :
  lib_inv s → ls_threads s !! k = Some pc → holds pc' = holds pc → closing pc' = false →
  (∀ c, pc' ≠ L_wait c) → (∀ c, pc = L_wait c → ¬ in_flight (ls_sys s) c) →
  lib_inv (lnext k pc' (ls_obj s) s).
Proof.
  intros [] Hk Hh Hcl Hnw Hfl. split; try done; cbn.
  - intros j pcj Hj. apply list_lookup_insert_Some in Hj as [(<- & <- & _)|[_ Hj]]; [|eauto].
    rewrite Hh. eauto.
  - intros o j Ho Hj. destruct (li_owner0 o j Ho Hj) as (pcj & Hpcj & Hhj).
    destruct (decide (j = k)) as [->|].
    + exists pc'. rewrite list_lookup_insert_eq by (by eapply lookup_lt_Some). simplify_eq.
      by rewrite Hh.
    + exists pcj. by rewrite list_lookup_insert_ne.
  - intros j pcj o Hj. apply list_lookup_insert_Some in Hj as [(<- & <- & _)|[_ Hj]]; [congruence|eauto].
  - intros c Hc. destruct (li_made0 c Hc) as [? Hw]. split; [done|]. intros Hf.
    destruct (Hw Hf) as [j Hj]. exists j. rewrite list_lookup_insert_ne; [done|].
    intros <-. simplify_eq. by eapply Hfl.
  - intros j c Hj. apply list_lookup_insert_Some in Hj as [(_ & Hc & _)|[_ Hj]]; [|eauto].
    by destruct (Hnw c).
Qed.

(** One that changes it, when no other thread holds the mutex. *)
Lemma lib_inv_object s k pc pc' o' :
  lib_inv s → ls_threads s !! k = Some pc →
  (∀ j pcj, j ≠ k → ls_threads s !! j = Some pcj → holds pcj = false) →
  (∀ c, pc ≠ L_wait c) → (∀ c, pc' ≠ L_wait c) →
  (if holds pc' then ∃ o, o' = Some o ∧ ho_owner o = Some k ∧ ho_destroyed o = false
   else ∀ o, o' = Some o → ho_owner o = None) →
  (∀ o, o' = Some o → ho_destroyed o = true ∨
     closing pc' = false ∧ ∃ o0, ls_obj s = Some o0 ∧ ho_destroyed o0 = false) →
  lib_inv (lnext k pc' o' s).
Proof.
  intros [] Hk Hno Hw Hw' Hobj Hdes. split; try done; cbn.
  - intros j pcj Hj Hhj. apply list_lookup_insert_Some in Hj as [(<- & <- & _)|[Hne Hj]].
    + by rewrite Hhj in Hobj.
    + rewrite (Hno j pcj) in Hhj by done. done.
  - intros o j -> Hj. destruct (holds pc') eqn:Hh.
    + destruct Hobj as (o1 & [= <-] & Ho1 & _). assert (j = k) as -> by congruence.
      exists pc'. by rewrite list_lookup_insert_eq by (by eapply lookup_lt_Some).
    + rewrite (Hobj o) in Hj by done. done.
  - intros j pcj o Hj Hcl ->. destruct (Hdes o eq_refl) as [|(Hc' & o0 & Ho0 & Hd0)]; [done|].
    apply list_lookup_insert_Some in Hj as [(<- & <- & _)|[Hne Hj]]; [congruence|].
    pose proof (li_closing0 j pcj o0 Hj Hcl Ho0). congruence.
  - intros c Hc. destruct (li_made0 c Hc) as [? Hm]. split; [done|]. intros Hf.
    destruct (Hm Hf) as [j Hj]. exists j. rewrite list_lookup_insert_ne; [done|].
    intros <-. simplify_eq. by destruct (Hw c).
  - intros j c Hj. apply list_lookup_insert_Some in Hj as [(_ & Hc & _)|[_ Hj]]; [|eauto].
    by destruct (Hw' c).
Qed.

(** Every request enters one of the driver's calls. *)
Lemma request_is_entry cmd uarg (u : U) : is_entry (request_entry cmd uarg u).
Proof.
  clear HZ m2j. unfold request_entry.
  repeat match goal with
  | |- context [if cmd =? ?c then _ else _] => destruct (Z.eqb_spec cmd c) as [->|]
  end; try done; try (cbn; by right);
    match goal with |- context [read_user ?A u uarg] =>
      pose proof (read_user_bytes (A := A) uarg u); destruct (read_user A u uarg) end;
    cbn [is_entry]; try (by left); try (split; [apply u32_representable|]); intuition.
Qed.

(** Who holds the mutex is in the object. *)
Lemma holder_owner s j pc o :
  lib_inv s → ls_threads s !! j = Some pc → holds pc = true → ls_obj s = Some o →
  ho_owner o = Some j ∧ ho_destroyed o = false.
Proof.
  intros Hinv Hj Hh Ho. destruct (li_holder s Hinv j pc Hj Hh) as (o' & Ho' & ? & ?).
  by simplify_eq.
Qed.

Lemma not_holding s o j pc :
  lib_inv s → ls_obj s = Some o → ho_owner o ≠ Some j → ls_threads s !! j = Some pc →
  holds pc = false.
Proof.
  intros Hinv Ho Hne Hj. destruct (holds pc) eqn:Hh; [|done].
  by destruct (holder_owner s j pc o Hinv Hj Hh Ho).
Qed.

Lemma ioctl_inv k u op s :
  lib_inv s → ls_threads s !! k = Some (L_ioctl op) →
  lib_inv {| ls_sys := enter_call HZ m2j (request_entry (op_request op) (op_arg op) (u : U)) (ls_sys s);
             ls_obj := ls_obj s;
             ls_threads := <[k := L_wait (length (y_calls (ls_sys s)))]> (ls_threads s);
             ls_made := ls_made s ++ [length (y_calls (ls_sys s))] |}.
Proof.
  intros Hinv Hk. pose proof Hinv as []. set (c := length (y_calls (ls_sys s))).
  set (pc := request_entry _ _ u). unfold enter_call.
  assert (Hcalls : y_calls (sys_try HZ m2j (E_call pc) (ls_sys s)) = y_calls (ls_sys s) ++ [pc]).
  { unfold sys_try. cbn [sys_exec]. by rewrite decide_True by (by apply request_is_entry). }
  assert (Hkl : (k < length (ls_threads s))%nat) by (by eapply lookup_lt_Some).
  destruct (li_holder0 k _ Hk eq_refl) as (o & Ho & Hok & Hnd).
  split; cbn [ls_sys ls_obj ls_threads ls_made].
  - by apply sys_try_reachable.
  - intros j pcj Hj Hh. apply list_lookup_insert_Some in Hj as [(<- & _ & _)|[_ Hj]]; eauto.
  - intros o' j Ho' Hj. simplify_eq.
    exists (L_wait c). by rewrite list_lookup_insert_eq.
  - intros j pcj o' Hj. apply list_lookup_insert_Some in Hj as [(<- & <- & _)|[_ Hj]]; [done|eauto].
  - intros c' [Hc'|Hc']%elem_of_app.
    + destruct (li_made0 c' Hc') as [Hlt Hm]. split; [rewrite Hcalls, length_app; lia|].
      intros Hf. apply sys_try_calls in Hf; [|done..]. destruct (Hm Hf) as [j Hj].
      assert (Hjk : j = k); [|by subst; simplify_eq].
      destruct (holder_owner s j _ o Hinv Hj eq_refl Ho). congruence.
    + apply list_elem_of_singleton in Hc' as ->. split.
      { rewrite Hcalls, length_app. cbn. unfold c. lia. }
      intros _. exists k. by rewrite list_lookup_insert_eq.
  - intros j c' Hj. apply elem_of_app.
    apply list_lookup_insert_Some in Hj as [(_ & [= <-] & _)|[_ Hj]]; [|eauto].
    right. by apply list_elem_of_singleton.
  - apply StronglySorted_snoc; [done|]. intros x Hx. by apply li_made0.
Qed.

(** A destroyed mutex is held by nobody. *)
Lemma destroyed_free s o :
  lib_inv s → ls_obj s = Some o → ho_destroyed o = true → ho_owner o = None.
Proof.
  intros Hinv Ho Hd. destruct (ho_owner o) as [j|] eqn:How; [|done].
  destruct (li_owner s Hinv o j Ho How) as (pcj & Hj & Hh).
  destruct (holder_owner s j pcj o); [done..|]. congruence.
Qed.

(** What a statement of a thread can do. *)
Definition thread_ok (k : nat) (u : U) (copied : bool) (pc : lpc) (s : lsys) : Prop :=
  ∀ r s', thread_exec HZ m2j k u copied pc s = Some (r, s') →
    (r = Oops ∧ s' = s) ∨ (r = Ok () ∧ lib_inv s').

Section ThreadInv.
Context (k : nat) (u : U) (copied : bool) (s : lsys) (Hinv : lib_inv s).

Lemma mutex_inv pc :
  ls_threads s !! k = Some pc → (∃ op, pc = L_lock op) ∨ (∃ code, pc = L_unlock code) →
  thread_ok k u copied pc s.
Proof.
  intros Hk Hpc r s'. destruct (ls_obj s) as [o|] eqn:Ho.
  2: { destruct Hpc as [[? ->]|[? ->]]; cbn [thread_exec]; rewrite Ho; intros [= <- <-]; auto. }
  destruct Hpc as [[op ->]|[code ->]]; cbn [thread_exec]; rewrite Ho;
    (destruct (ho_destroyed o) eqn:Hd; [intros [= <- <-]; auto|]).
  - destruct (ho_owner o) eqn:How; [done|]. intros [= <- <-]. right. split; [done|].
    eapply lib_inv_object; [done|exact Hk| |done..|cbn; eauto|].
    + intros j pcj _ Hj. by eapply (not_holding s o j); rewrite ?How.
    + intros ? [= <-]. right. eauto.
  - intros [= <- <-]. right. split; [done|].
    destruct (holder_owner s k _ o Hinv Hk eq_refl Ho) as [How _].
    eapply lib_inv_object; [done|exact Hk| |done..| |].
    + intros j pcj Hne Hj. eapply (not_holding s o j); [done..| |done]. congruence.
    + by intros ? [= <-].
    + intros ? [= <-]. right. eauto.
Qed.

Lemma close_inv pc :
  ls_threads s !! k = Some pc → pc = C_destroy ∨ closing pc = true → thread_ok k u copied pc s.
Proof.
  intros Hk Hpc r s' Hx. destruct (ls_obj s) as [o|] eqn:Ho.
  2: { left. destruct Hpc as [->|Hpc]; [|destruct pc; try done];
       cbn [thread_exec] in Hx; rewrite Ho in Hx; by injection Hx. }
  assert (Hgo : ∀ pc' o', ho_owner o = None → holds pc' = false → (∀ c, pc ≠ L_wait c) →
    (∀ c, pc' ≠ L_wait c) →
    (∀ o1, o' = Some o1 → ho_owner o1 = None ∧ ho_destroyed o1 = true) → lib_inv (lnext k pc' o' s)).
  { intros pc' o' How Hh Hw Hw' Ho'. eapply lib_inv_object; [done|exact Hk| |done..| |].
    - intros j pcj _ Hj. by eapply (not_holding s o j); rewrite ?How.
    - rewrite Hh. intros o1 Ho1. by destruct (Ho' o1 Ho1).
    - intros o1 Ho1. left. by destruct (Ho' o1 Ho1). }
  destruct Hpc as [->|Hpc]; [|pose proof (li_closing s Hinv k pc o Hk Hpc Ho) as Hd;
    pose proof (destroyed_free s o Hinv Ho Hd) as How; destruct pc; try done];
    cbn [thread_exec] in Hx; rewrite Ho in Hx.
  - destruct (ho_destroyed o); cbn [orb] in Hx; [injection Hx as <- <-; auto|].
    case_bool_decide as How; injection Hx as <- <-; [auto|right]. split; [done|].
    apply Hgo; try done; [|by intros ? [= <-]]. destruct (ho_owner o); [|done]. by destruct How.
  - destruct (ho_open o); injection Hx as <- <-; [right|auto]. split; [done|].
    apply Hgo; try done. by intros ? [= <-].
  - injection Hx as <- <-. right. split; [done|]. by apply Hgo.
Qed.

Lemma wait_inv c : ls_threads s !! k = Some (L_wait c) → thread_ok k u copied (L_wait c) s.
Proof.
  intros Hk r s' Hx. right. cbn [thread_exec] in Hx.
  assert (Hcases : (∃ code, y_calls (ls_sys s) !! c = Some (U_ret code) ∧
      Some (Ok (), lnext k (L_unlock (if code <? 0 then code else 0)) (ls_obj s) s) = Some (r, s')) ∨
    (s1 ← sys_exec HZ m2j (E_user c copied) (ls_sys s);
     Some (Ok (), {| ls_sys := s1; ls_obj := ls_obj s; ls_threads := ls_threads s;
                     ls_made := ls_made s |})) = Some (r, s')).
  { destruct (y_calls (ls_sys s) !! c) as [[]|]; eauto. }
  clear Hx. destruct Hcases as [(code & Hc & [= <- <-])|Hx].
  - split; [done|]. eapply lib_inv_same; [done|exact Hk|done..|].
    intros c0 [= <-] (pc0 & Hpc0 & Hres). by simplify_eq.
  - destruct (sys_exec HZ m2j (E_user c copied) (ls_sys s)) as [s1|] eqn:Hs1; [|done].
    cbn in Hx. injection Hx as <- <-. split; [done|].
    apply (lib_inv_sys (E_user c copied)); [done|]. unfold sys_try. by rewrite Hs1.
Qed.

Lemma thread_inv pc : ls_threads s !! k = Some pc → thread_ok k u copied pc s.
Proof.
  intros Hk. destruct pc; try (by intros ? ?); eauto using mutex_inv, close_inv, wait_inv.
  - intros r s'. cbn [thread_exec]. intros [= <- <-]. right. split; [done|].
    by eapply lib_inv_same; [done|exact Hk|destruct (op_refused op)..|].
  - intros r s'. cbn [thread_exec]. destruct (ls_obj s) as [o|] eqn:Ho; [|intros [= <- <-]; auto].
    destruct (ho_open o); [|intros [= <- <-]; auto]. intros [= <- <-]. right.
    split; [done|]. rewrite <- Ho. by apply ioctl_inv.
Qed.
End ThreadInv.

Lemma lib_exec_inv e s r s' :
  lib_inv s → lib_exec HZ m2j (e : levent U) s = Some (r, s') →
  r = Oops ∨ (r = Ok () ∧ lib_inv s').
Proof.
  intros Hinv. destruct e as [e|op| |k u copied]; cbn [lib_exec].
  - destruct (sys_exec HZ m2j e (ls_sys s)) as [y|] eqn:He; [|done]. intros [= <- <-]. right.
    split; [done|]. apply (lib_inv_sys e); [done|]. unfold sys_try. by rewrite He.
  - intros [= <- <-]. right. split; [done|]. by apply lib_inv_spawn.
  - intros [= <- <-]. right. split; [done|]. by apply lib_inv_spawn.
  - destruct (ls_threads s !! k) as [pc|] eqn:Hk; [|done]. intros Hx.
    destruct (thread_inv k u copied s Hinv pc Hk r s' Hx) as [[-> _]|?]; auto.
Qed.

Lemma lib_run_inv es s s' :
  lib_inv s → lib_run HZ m2j (es : list (levent U)) s = (Ok (), s') → lib_inv s'.
Proof.
  revert s. induction es as [|e es IH]; intros s Hinv; cbn [lib_run]; [by intros [= <-]|].
  destruct (lib_exec HZ m2j e s) as [[r s1]|] eqn:He; [|by apply IH].
  destruct (lib_exec_inv e s r s1 Hinv He) as [->|[-> Hinv1]]; [done|by apply IH].
Qed.

Lemma lib_init_inv y : reachable HZ m2j y → lib_inv (lib_init y).
Proof.
  intros Hr. split; cbn; try done; try constructor.
  - intros o k [= <-]. done.
  - by apply not_elem_of_nil in H1.
  - by apply not_elem_of_nil in H1.
Qed.

Lemma lib_reachable_inv s : lib_reachable (U := U) HZ m2j s → lib_inv s.
Proof. intros (y & es & Hr & Hrun). eapply lib_run_inv; [by apply lib_init_inv|exact Hrun]. Qed.

(** C20: The handle's mutex serialises the driver.  Whatever threads call the
    library or close the handle, and as long as none of them has made an
    invalid access: at most one is between lock and unlock; the system calls
    made through the handle entered the driver in a single order, and at most
    one of them is still running, whichever the worker threads, the removal
    and other processes do. *)
Theorem handle_serialises s :
  lib_reachable (U := U) HZ m2j s →
  (∀ j k pc pc', ls_threads s !! j = Some pc → ls_threads s !! k = Some pc' →
     holds pc = true → holds pc' = true → j = k) ∧
  StronglySorted lt (ls_made s) ∧
  (∀ c c', c ∈ ls_made s → c' ∈ ls_made s →
     in_flight (ls_sys s) c → in_flight (ls_sys s) c' → c = c').
Proof.
  intros Hinv%lib_reachable_inv. pose proof Hinv as [].
  assert (Hone : ∀ j k pc pc', ls_threads s !! j = Some pc → ls_threads s !! k = Some pc' →
    holds pc = true → holds pc' = true → j = k).
  { intros j k pc pc' Hj Hk Hhj Hhk. destruct (li_holder0 j pc Hj Hhj) as (o & Ho & Hoj & _).
    destruct (holder_owner s k pc' o Hinv Hk Hhk Ho). congruence. }
  split_and!; [done..|]. intros c c' Hc Hc' Hf Hf'.
  destruct (proj2 (li_made0 c Hc) Hf) as [j Hj]. destruct (proj2 (li_made0 c' Hc') Hf') as [k Hk].
  pose proof (Hone j k _ _ Hj Hk eq_refl eq_refl). congruence.
Qed.
End Inv.

(** ** On a concrete schedule

    Thread 0 is in the driver with a cancellation, thread 1 waits for the
    mutex to submit. *)

Definition demo_umem : flatmem := w_user demo_user.
Definition demo_thread (k : nat) : levent flatmem := LE_thread k demo_umem true.
Definition demo_lib_events : list (levent flatmem) :=
  [LE_op (OP_cancel_task 4096); LE_op (OP_submit_task 4096)] ++
  replicate 3 (demo_thread 0) ++ replicate 2 (demo_thread 1).
Definition demo_lib : lsys := (lib_run demo_HZ demo_m2j demo_lib_events (lib_init sys0)).2.

Lemma demo_lib_run :
  lib_run demo_HZ demo_m2j demo_lib_events (lib_init sys0) = (Ok (), demo_lib) ∧
  ls_threads demo_lib = [L_wait 0; L_lock (OP_submit_task 4096)] ∧ ls_made demo_lib = [0%nat] ∧
  ls_obj demo_lib = Some {| ho_owner := Some 0%nat; ho_destroyed := false; ho_open := true |}.
Proof. split_and!; by vm_compute. Qed.

Lemma demo_lib_reachable : lib_reachable (U := flatmem) demo_HZ demo_m2j demo_lib.
Proof.
  exists sys0, demo_lib_events. split; [by apply reach_init|]. apply demo_lib_run.
Qed.

Lemma handle_serialises_witness :
  ls_threads demo_lib !! 0%nat = Some (L_wait 0) ∧ StronglySorted lt (ls_made demo_lib).
Proof.
  split; [by vm_compute|].
  exact (proj1 (proj2 (handle_serialises (U := flatmem) demo_HZ demo_m2j demo_lib demo_lib_reachable))).
Defined.
