(* ===== verification/LibUse.v ===== *)
(** * Using and closing a shared library handle

    The threads of LibThreads.v on one handle: no invalid access while it is
    open, when cortex_forge_close (lib/src/libcortex-forge.c) is safe, and that
    every call of the library returns. *)

From S2P Require Import Prelude CLayout Device UserMem Uapi TaskManager Pool AccelManager Worker DevInit Chardev System SystemInv Schedule Teardown IoctlSpec Calls Lib LibThreads.

(** ** Safety, and when the handle can be closed *)

Definition is_close {U} (e : levent U) : bool := match e with LE_close => true | _ => false end.
Definition is_entry_event {U} (e : levent U) : bool :=
  match e with LE_op _ | LE_close => true | _ => false end.

(** A thread in cortex_forge_close. *)
Definition closer (pc : lpc) : bool :=
  match pc with C_destroy | C_close | C_free => true | _ => false end.

(** A thread that will not touch the handle any more. *)
Definition finished (pc : lpc) : bool :=
  match pc with
  | L_return _ | C_return => true
  | L_check op => op_refused op
  | _ => false
  end.

(** The handle is in use, and no thread is closing it. *)
Definition open_handle (s : lsys) : Prop :=
  (∃ o, ls_obj s = Some o ∧ ho_destroyed o = false ∧ ho_open o = true) ∧
  ∀ k pc, ls_threads s !! k = Some pc → closer pc = false.

Section Close.
Context {U : Type} `{UserMemoryLaws U}.
Context (HZ : Z) (m2j : Z → Z).
Notation lib_inv := (lib_inv HZ m2j).

Lemma open_lnext k pc' o s :
  open_handle s → closer pc' = false → ho_destroyed o = false → ho_open o = true →
  open_handle (lnext k pc' (Some o) s).
Proof.
  intros [_ Hno] Hpc Hd Hop. split; [by exists o|]. cbn. intros j pc Hj.
  apply list_lookup_insert_Some in Hj as [(_ & <- & _)|[_ Hj]]; eauto.
Qed.

(** With the handle in use no statement goes wrong. *)
Lemma open_exec e s r s' :
  open_handle s → is_close e = false → lib_exec HZ m2j (e : levent U) s = Some (r, s') →
  r = Ok () ∧ open_handle s'.
Proof.
  intros Hopen He. pose proof Hopen as [(o & Ho & Hd & Hop) Hno].
  assert (Hsame : ∀ k pc', closer pc' = false → open_handle (lnext k pc' (ls_obj s) s)).
  { intros k pc' Hpc'. rewrite Ho. by apply open_lnext. }
  destruct e as [e|op| |k u copied]; cbn [lib_exec is_close] in *; [| |done|].
  - destruct (sys_exec HZ m2j e (ls_sys s)); [|done]. by intros [= <- <-].
  - intros [= <- <-]. split; [done|]. split; [by exists o|]. cbn. intros k pc Hk.
    apply lookup_app_Some in Hk as [Hk|[_ Hk]]; [eauto|].
    by apply list_lookup_singleton_Some in Hk as [_ <-].
  - destruct (ls_threads s !! k) as [pc|] eqn:Hk; [|done]. cbn [mbind option_bind].
    pose proof (Hno k pc Hk) as Hcl. destruct pc as [op|op|op|c|code|code| | | |]; try done;
      cbn [thread_exec].
    + intros [= <- <-]. split; [done|]. by apply Hsame; destruct (op_refused op).
    + rewrite Ho, Hd. destruct (ho_owner o); [done|]. intros [= <- <-]. split; [done|]. by apply open_lnext.
    + rewrite Ho, Hop. intros [= <- <-]. split; [done|]. split; [by exists o|]. cbn. intros j pc Hj.
      apply list_lookup_insert_Some in Hj as [(_ & <- & _)|[_ Hj]]; eauto.
    + destruct (y_calls (ls_sys s) !! c) as [[]|];
        try (destruct (sys_exec _ _ _ _); [|done]; by intros [= <- <-]).
      intros [= <- <-]. split; [done|]. by apply Hsame.
    + rewrite Ho, Hd. intros [= <- <-]. split; [done|]. by apply open_lnext.
Qed.

Lemma open_run es s :
  open_handle s → Forall (λ e, is_close e = false) es →
  ∃ s', lib_run HZ m2j (es : list (levent U)) s = (Ok (), s') ∧ open_handle s'.
Proof.
  intros Hopen Hes. revert s Hopen. induction Hes as [|e es He Hes IH]; intros s Hopen; cbn [lib_run].
  { by exists s. }
  destruct (lib_exec HZ m2j e s) as [[r s1]|] eqn:Hx; [|by apply IH].
  destruct (open_exec e s r s1 Hopen He Hx) as [-> Hopen1]. by apply IH.
Qed.

(** The one closing thread [n], and the handle at each of its statements. *)
Definition close_stage (pc : lpc) (obj : option hobject) : Prop :=
  match pc with
  | C_destroy => obj = Some {| ho_owner := None; ho_destroyed := false; ho_open := true |}
  | C_close => obj = Some {| ho_owner := None; ho_destroyed := true; ho_open := true |}
  | C_free => obj = Some {| ho_owner := None; ho_destroyed := true; ho_open := false |}
  | C_return => obj = None
  | _ => False
  end.

Definition closing_down (n : nat) (s : lsys) : Prop :=
  (∃ pc, ls_threads s !! n = Some pc ∧ close_stage pc (ls_obj s)) ∧
  ∀ k pc, k ≠ n → ls_threads s !! k = Some pc → finished pc = true.

Lemma closing_lnext n pc' o s :
  closing_down n s → close_stage pc' o → closing_down n (lnext n pc' o s).
Proof.
  intros [(pc & Hn & _) Hfin] Hst. split.
  - exists pc'. cbn. rewrite list_lookup_insert_eq by (by eapply lookup_lt_Some). done.
  - intros k pc0 Hne. cbn. rewrite list_lookup_insert_ne by done. eauto.
Qed.

Lemma closing_exec n e s r s' :
  closing_down n s → is_entry_event e = false →
  lib_exec HZ m2j (e : levent U) s = Some (r, s') → r = Ok () ∧ closing_down n s'.
Proof.
  intros Hcl He. pose proof Hcl as [(pc & Hn & Hst) Hfin].
  destruct e as [e|op| |k u copied]; cbn [lib_exec is_entry_event] in *; [|done..|].
  - destruct (sys_exec HZ m2j e (ls_sys s)); [|done]. by intros [= <- <-].
  - destruct (decide (k = n)) as [->|Hne].
    + rewrite Hn. cbn [mbind option_bind].
      destruct pc; try done; cbn [thread_exec]; cbn in Hst; rewrite Hst; cbn; try done;
        intros [= <- <-]; (split; [done|]); by apply closing_lnext.
    + destruct (ls_threads s !! k) as [pck|] eqn:Hk; [|done]. cbn [mbind option_bind].
      pose proof (Hfin k pck Hne Hk) as Hf. destruct pck; try done. cbn [thread_exec].
      cbn in Hf. rewrite Hf. intros [= <- <-]. split; [done|]. split.
      * exists pc. cbn. by rewrite list_lookup_insert_ne.
      * cbn. intros j pcj Hj Hl. apply list_lookup_insert_Some in Hl as [(_ & <- & _)|[_ Hl]]; eauto.
Qed.

Lemma closing_run n es s :
  closing_down n s → Forall (λ e, is_entry_event e = false) es →
  (lib_run HZ m2j (es : list (levent U)) s).1 = Ok ().
Proof.
  intros Hcl Hes. revert s Hcl. induction Hes as [|e es He Hes IH]; intros s Hcl; cbn [lib_run]; [done|].
  destruct (lib_exec HZ m2j e s) as [[r s1]|] eqn:Hx; [|by apply IH].
  destruct (closing_exec n e s r s1 Hcl He Hx) as [-> Hcl1]. by apply IH.
Qed.

(** An undisturbed close. *)
Lemma close_runs n u0 s :
  ls_threads s !! n = Some C_destroy →
  ls_obj s = Some {| ho_owner := None; ho_destroyed := false; ho_open := true |} →
  ∃ s', ls_obj s' = None ∧ (∀ k, k ≠ n → ls_threads s' !! k = ls_threads s !! k) ∧
    ∀ es, lib_run HZ m2j (replicate 3 (LE_thread n (u0 : U) true) ++ es) s = lib_run HZ m2j es s'.
Proof.
  intros Hn Ho. assert (Hlt : (n < length (ls_threads s))%nat) by (by eapply lookup_lt_Some).
  eexists (lnext n C_return None (lnext n C_free
    (Some {| ho_owner := None; ho_destroyed := true; ho_open := false |})
    (lnext n C_close (Some {| ho_owner := None; ho_destroyed := true; ho_open := true |}) s))).
  split_and!; [done| |].
  - intros k Hk. cbn. by rewrite !list_lookup_insert_ne.
  - intros es. cbn [replicate app lib_run lib_exec]. rewrite Hn. cbn [mbind option_bind thread_exec].
    rewrite Ho. cbn [orb ho_destroyed ho_owner ho_open lnext ls_threads ls_obj].
    rewrite bool_decide_eq_false_2 by (by intros [? ?]).
    cbn [lnext ls_threads ls_obj]. rewrite list_lookup_insert_eq by done.
    cbn [mbind option_bind thread_exec lnext ls_threads ls_obj ho_open].
    rewrite list_lookup_insert_eq by (by rewrite length_insert).
    done.
Qed.

(** A thread on its way to the handle reaches it, freed, in two statements. *)
Lemma late_thread_oops k u0 pc s :
  ls_obj s = None → ls_threads s !! k = Some pc → holds pc = false → closer pc = false →
  finished pc = false →
  (lib_run HZ m2j (replicate 2 (LE_thread k (u0 : U) true)) s).1 = Oops.
Proof.
  intros Ho Hk Hh Hc Hf. destruct pc as [op|op| | | | | | | |]; try done;
    cbn [replicate lib_run lib_exec]; rewrite Hk; cbn [mbind option_bind thread_exec].
  - cbn in Hf. rewrite Hf. cbn [lnext ls_threads ls_obj].
    rewrite list_lookup_insert_eq by (by eapply lookup_lt_Some).
    cbn [mbind option_bind thread_exec ls_obj]. by rewrite Ho.
  - by rewrite Ho.
Qed.

Lemma open_object s o :
  ho_destroyed o = false → ho_open o = true → ho_owner o = None → ls_obj s = Some o →
  ls_obj s = Some {| ho_owner := None; ho_destroyed := false; ho_open := true |}.
Proof. by destruct o; cbn; intros -> -> ->. Qed.

(** C21: The library is thread-safe while the handle is open, and closing it is
    safe exactly when no thread uses it.  From any state of the threads in
    which nobody is closing the handle, no schedule without
    cortex_forge_close makes an invalid access; and a cortex_forge_close, with
    no further call of the library, makes none in any schedule if and only if
    every thread has returned or is about to be refused for a NULL pointer. *)
Theorem close_safe_iff (u0 : U) s :
  lib_reachable (U := U) HZ m2j s → open_handle s →
  (∀ es : list (levent U), Forall (λ e, is_close e = false) es → (lib_run HZ m2j es s).1 = Ok ()) ∧
  ((∀ es : list (levent U), Forall (λ e, is_entry_event e = false) es →
      (lib_run HZ m2j (LE_close :: es) s).1 = Ok ()) ↔
   ∀ k pc, ls_threads s !! k = Some pc → finished pc = true).
Proof.
  intros Hr Hopen. pose proof (lib_reachable_inv HZ m2j s Hr) as Hinv. split.
  { intros es Hes. by destruct (open_run es s Hopen Hes) as (s' & -> & _). }
  destruct Hopen as [(o & Ho & Hd & Hop) Hno]. set (n := length (ls_threads s)).
  assert (Hn : ls_threads (spawn C_destroy s) !! n = Some C_destroy)
    by (cbn; by rewrite list_lookup_middle).
  assert (Hnone : ho_owner o = None →
    ls_obj (spawn C_destroy s) = Some {| ho_owner := None; ho_destroyed := false; ho_open := true |}).
  { intros How. by eapply (open_object (spawn C_destroy s) o). }
  split.
  - intros Hsafe k pc Hk. destruct (finished pc) eqn:Hf; [done|exfalso].
    destruct (ho_owner o) as [j|] eqn:How.
    + specialize (Hsafe [LE_thread n u0 true] ltac:(by constructor)).
      cbn [lib_run lib_exec] in Hsafe. rewrite Hn in Hsafe.
      cbn [mbind option_bind thread_exec spawn ls_obj] in Hsafe. rewrite Ho, Hd, How in Hsafe. done.
    + destruct (close_runs n u0 _ Hn (Hnone eq_refl)) as (s' & Ho' & Hk' & Hrun).
      assert (Hlt : (k < n)%nat) by (by eapply lookup_lt_Some).
      specialize (Hsafe (replicate 3 (LE_thread n u0 true) ++ replicate 2 (LE_thread k u0 true))).
      change (lib_run HZ m2j (LE_close :: ?es) s) with (lib_run HZ m2j es (spawn C_destroy s)) in Hsafe.
      rewrite Hrun, (late_thread_oops k u0 pc s') in Hsafe; try done.
      * by specialize (Hsafe ltac:(repeat constructor)).
      * rewrite Hk' by lia. cbn. by apply lookup_app_l_Some.
      * eapply not_holding; [exact Hinv|exact Ho|by rewrite How|done].
      * by eapply Hno.
  - intros Hfin es Hes.
    change (lib_run HZ m2j (LE_close :: es) s) with (lib_run HZ m2j es (spawn C_destroy s)).
    apply (closing_run n); [|done]. split.
    + exists C_destroy. split; [done|]. apply Hnone. destruct (ho_owner o) as [j|] eqn:How; [|done].
      destruct (li_owner HZ m2j s Hinv o j Ho How) as (pc & Hj & Hh).
      pose proof (Hfin j pc Hj). by destruct pc.
    + intros k pc Hne Hk. apply lookup_app_Some in Hk as [Hk|[Hge Hk]]; [eauto|].
      apply list_lookup_singleton_Some in Hk as [Hk _]. fold n in Hge, Hk. lia.
Qed.
End Close.

(** ** Every call of the library returns *)

Definition returned (pc : lpc) : bool :=
  match pc with L_return _ | C_return => true | _ => false end.

(** The statements a thread still needs. *)
Definition thread_rank (y : sys) (pc : lpc) : nat :=
  match pc with
  | L_check _ => call_bound + 5
  | L_lock _ => call_bound + 4
  | L_ioctl _ => call_bound + 3
  | L_wait c => 2 + from_option call_rank 0%nat (y_calls y !! c)
  | L_unlock _ => 1
  | _ => 0
  end.

Definition total_rank (s : lsys) : nat := sum_list_with (thread_rank (ls_sys s)) (ls_threads s).

(** The thread that can make progress: the one that holds the mutex, or any
    that has not returned. *)
Definition turn (s : lsys) : option nat :=
  match ls_obj s ≫= ho_owner with
  | Some k => Some k
  | None => fst <$> list_find (λ pc, returned pc = false) (ls_threads s)
  end.

Lemma sum_list_with_le {A} (f f' : A → nat) l :
  (∀ x, x ∈ l → (f' x ≤ f x)%nat) → (sum_list_with f' l ≤ sum_list_with f l)%nat.
Proof.
  induction l as [|x l IH]; intros Hf; cbn; [done|].
  pose proof (Hf x ltac:(set_solver)). assert (sum_list_with f' l ≤ sum_list_with f l)%nat; [|lia].
  apply IH. set_solver.
Qed.

Lemma sum_list_with_lt {A} (f f' : A → nat) l k x x' :
  l !! k = Some x → (∀ y, y ∈ l → (f' y ≤ f y)%nat) → (f' x' < f x)%nat →
  (sum_list_with f' (<[k := x']> l) < sum_list_with f l)%nat.
Proof.
  revert k. induction l as [|y l IH]; intros k Hk Hf Hx; [done|].
  destruct k as [|k].
  - cbn in *. simplify_eq. pose proof (sum_list_with_le f f' l ltac:(set_solver)). lia.
  - change (<[S k := x']> (y :: l)) with (y :: <[k := x']> l). cbn [sum_list_with].
    pose proof (Hf y ltac:(set_solver)). specialize (IH k Hk ltac:(set_solver) Hx). lia.
Qed.

Section Progress.
Context {U : Type} `{UserMemoryLaws U}.
Context (HZ : Z) (m2j : Z → Z).
Notation lib_inv := (lib_inv HZ m2j).

Lemma sys_try_ranks e s pc :
  lib_inv s → pc ∈ ls_threads s →
  (thread_rank (sys_try HZ m2j e (ls_sys s)) pc ≤ thread_rank (ls_sys s) pc)%nat.
Proof.
  intros Hinv Hpc. destruct pc as [| | |c| | | | | |]; cbn; try done.
  apply list_elem_of_lookup in Hpc as [k Hk].
  destruct (li_made HZ m2j s Hinv c) as [Hlt _]; [by eapply li_wait|].
  destruct (lookup_lt_is_Some_2 _ _ Hlt) as [pc Hc]. rewrite Hc.
  destruct (is_user c e) eqn:He.
  - destruct e as [| |k' copied| |]; try done. apply bool_decide_eq_true in He as ->.
    destruct (call_moves HZ m2j c copied (ls_sys s) pc) as (pc' & -> & ?);
      [eapply sys_inv_reachable, Hinv|done|]. cbn. lia.
  - by rewrite (call_stays HZ m2j c e (ls_sys s) pc He Hc).
Qed.

(** A statement of a thread lowers the rank. *)
Lemma thread_lowers k u copied pc s r s' :
  lib_inv s → open_handle s → ls_threads s !! k = Some pc →
  thread_exec HZ m2j k (u : U) copied pc s = Some (r, s') → (total_rank s' < total_rank s)%nat.
Proof.
  intros Hinv [(o & Ho & Hd & Hop) Hno] Hk. pose proof (Hno k pc Hk) as Hcl.
  assert (Hgo : ∀ pc' o', (thread_rank (ls_sys s) pc' < thread_rank (ls_sys s) pc)%nat →
    (total_rank (lnext k pc' o' s) < total_rank s)%nat).
  { intros pc' o' Hlt. unfold total_rank. cbn. by eapply sum_list_with_lt. }
  destruct pc as [op|op|op|c|code|code| | | |]; try done; cbn [thread_exec]; rewrite ?Ho, ?Hd, ?Hop.
  - intros [= <- <-]. apply Hgo. destruct (op_refused op); cbn; lia.
  - destruct (ho_owner o); [done|]. intros [= <- <-]. apply Hgo. cbn. lia.
  - intros [= <- <-]. unfold total_rank, enter_call. cbn [ls_sys ls_threads].
    eapply sum_list_with_lt; [exact Hk|intros; by apply sys_try_ranks|].
    pose proof (call_rank_bound (request_entry (op_request op) (op_arg op) u)) as He.
    unfold sys_try. cbn [sys_exec]. rewrite decide_True by apply request_is_entry.
    cbn. rewrite list_lookup_middle by done. cbn. lia.
  - destruct (li_made HZ m2j s Hinv c) as [Hlt _]; [by eapply li_wait|].
    destruct (lookup_lt_is_Some_2 _ _ Hlt) as [pc Hc].
    destruct (call_result pc) as [code|] eqn:Hres.
    + destruct pc; try done. rewrite Hc. intros [= <- <-]. rewrite <- Ho. apply Hgo. cbn. rewrite Hc. cbn. lia.
    + intros Hx. assert (Hs : ∃ s1, sys_exec HZ m2j (E_user c copied) (ls_sys s) = Some s1 ∧
        s' = {| ls_sys := s1; ls_obj := Some o; ls_threads := ls_threads s; ls_made := ls_made s |}).
      { rewrite Hc in Hx.
        destruct (sys_exec HZ m2j (E_user c copied) (ls_sys s)) as [s1|]; destruct pc; simplify_eq/=; eauto. }
      destruct Hs as (s1 & Hs1 & ->).
      assert (Hs1' : s1 = sys_try HZ m2j (E_user c copied) (ls_sys s)) by (unfold sys_try; by rewrite Hs1).
      unfold total_rank. cbn [ls_sys ls_threads]. rewrite <- (list_insert_id _ _ _ Hk) at 1.
      eapply sum_list_with_lt; [exact Hk|intros; rewrite Hs1'; by apply sys_try_ranks|].
      destruct (call_moves HZ m2j c copied (ls_sys s) pc) as (pc' & Hc' & Hle);
        [eapply sys_inv_reachable, Hinv|done|].
      cbn. rewrite Hs1', Hc', Hc. cbn.
      assert (call_rank pc ≠ 0%nat); [|lia]. intros Hz%call_result_rank. rewrite Hres in Hz. by destruct Hz.
  - intros [= <- <-]. apply Hgo. cbn. lia.
Qed.

(** The thread whose turn it is can go on. *)
Lemma turn_runs k u copied s :
  lib_inv s → open_handle s → turn s = Some k →
  ∃ pc, ls_threads s !! k = Some pc ∧ is_Some (thread_exec HZ m2j k (u : U) copied pc s).
Proof.
  intros Hinv [(o & Ho & Hd & Hop) Hno]. unfold turn. rewrite Ho. cbn [mbind option_bind].
  destruct (ho_owner o) as [j|] eqn:How.
  - intros [= ->]. destruct (li_owner HZ m2j s Hinv o k Ho How) as (pc & Hk & Hh). exists pc.
    split; [done|]. destruct pc as [op|op|op|c|code|code| | | |]; try done; cbn [thread_exec];
      rewrite ?Ho, ?Hd, ?Hop; try done.
    destruct (li_made HZ m2j s Hinv c) as [Hlt _]; [by eapply li_wait|].
    destruct (lookup_lt_is_Some_2 _ _ Hlt) as [pc Hc].
    destruct (user_step_safe HZ (ls_sys s) c copied) with pc as (pc' & d' & Hu & _);
      [eapply sys_inv_reachable, Hinv|done|].
    rewrite Hc. cbn [sys_exec]. rewrite Hc. cbn [mbind option_bind]. rewrite Hu. by destruct pc.
  - intros ([j pc] & Hy & Hyk)%fmap_Some. cbn in Hyk. subst k.
    apply list_find_Some in Hy as (Hj & Hret & _). exists pc. split; [done|].
    pose proof (Hno j pc Hj) as Hcl. destruct pc as [op|op|op|c|code|code| | | |]; try done;
      cbn [thread_exec]; rewrite ?Ho, ?Hd, ?Hop, ?How; try done;
      pose proof (not_holding HZ m2j s o j _ Hinv Ho ltac:(by rewrite How) Hj); done.
Qed.

(** The state after an attempt. *)
Definition lib_try (e : levent U) (s : lsys) : lsys :=
  match lib_exec HZ m2j e s with Some (_, s') => s' | None => s end.

Record working (s : lsys) : Prop := { wk_inv : lib_inv s; wk_open : open_handle s }.

Lemma lib_run_cons e es s :
  working s → is_entry_event e = false →
  lib_run HZ m2j (e :: es) s = lib_run HZ m2j es (lib_try e s) ∧ working (lib_try e s).
Proof.
  intros [Hinv Hopen] He. unfold lib_try. cbn [lib_run].
  destruct (lib_exec HZ m2j e s) as [[r s1]|] eqn:Hx; [|done].
  assert (Hc : is_close e = false) by (by destruct e).
  destruct (open_exec HZ m2j e s r s1 Hopen Hc Hx) as [-> Hopen1].
  destruct (lib_exec_inv HZ m2j e s _ s1 Hinv Hx) as [?|[_ ?]]; [done|]. done.
Qed.

(** The turn of a thread is taken by its own statement only. *)
Definition takes_turn (s : lsys) (e : levent U) : Prop :=
  ∃ k u copied, turn s = Some k ∧ e = LE_thread k u copied.

(** Whatever happens, the rank falls or it is still the same thread's turn. *)
Lemma lib_progress e s :
  working s → is_entry_event e = false →
  (total_rank (lib_try e s) < total_rank s)%nat ∨
  (total_rank (lib_try e s) = total_rank s ∧ turn (lib_try e s) = turn s ∧
   (takes_turn s e → False)).
Proof.
  intros [Hinv Hopen] He. unfold lib_try.
  destruct e as [e|op| |k u copied]; try done; cbn [lib_exec].
  - destruct (sys_exec HZ m2j e (ls_sys s)) as [y|] eqn:Hx; cbn [mbind option_bind].
    + assert (Hle : (sum_list_with (thread_rank y) (ls_threads s) ≤ total_rank s)%nat).
      { apply sum_list_with_le. intros pc Hpc.
        assert (Hy : y = sys_try HZ m2j e (ls_sys s)) by (unfold sys_try; by rewrite Hx).
        rewrite Hy. by apply sys_try_ranks. }
      destruct (decide (sum_list_with (thread_rank y) (ls_threads s) < total_rank s)%nat); [by left|].
      right. split_and!; [unfold total_rank in *; cbn; lia|done|]. by intros (? & ? & ? & _ & ?).
    + right. split_and!; [done..|]. by intros (? & ? & ? & _ & ?).
  - destruct (ls_threads s !! k) as [pc|] eqn:Hk; cbn [mbind option_bind].
    + destruct (thread_exec HZ m2j k u copied pc s) as [[r s1]|] eqn:Hx.
      { left. by eapply thread_lowers. }
      right. split_and!; [done..|]. intros (j & u' & c' & Ht & [= <- <- <-]).
      destruct (turn_runs k u copied s Hinv Hopen Ht) as (pc' & Hk' & Hs).
      simplify_eq. rewrite Hx in Hs. by destruct Hs.
    + right. split_and!; [done..|]. intros (j & u' & c' & Ht & [= <- <- <-]).
      destruct (turn_runs k u copied s Hinv Hopen Ht) as (pc' & Hk' & _). congruence.
Qed.

Lemma thread_exec_length k u copied pc s r s' :
  thread_exec HZ m2j k (u : U) copied pc s = Some (r, s') →
  length (ls_threads s') = length (ls_threads s).
Proof.
  assert (Hgo : ∀ pc' o, Some (Ok (), lnext k pc' o s) = Some (r, s') →
    length (ls_threads s') = length (ls_threads s)).
  { intros pc' o [= _ <-]. cbn. by rewrite length_insert. }
  destruct pc as [op|op|op|c|code|code| | | |]; cbn [thread_exec]; [by apply Hgo| | | | |done| | | |done].
  2: { destruct (ls_obj s) as [o|]; [destruct (ho_open o)|]; intros [= _ <-]; try done.
       cbn. by rewrite length_insert. }
  2: { destruct (sys_exec HZ m2j (E_user c copied) (ls_sys s));
         destruct (y_calls (ls_sys s) !! c) as [[]|]; try done; try (by intros [= _ <-]); apply Hgo. }
  all: destruct (ls_obj s) as [o|]; [|by intros [= _ <-]]; repeat case_match; simplify_eq; try done;
    try (by intros [= _ <-]); apply Hgo.
Qed.

Lemma lib_try_length e s :
  is_entry_event e = false → length (ls_threads (lib_try e s)) = length (ls_threads s).
Proof.
  unfold lib_try. destruct e as [e|op| |k u copied]; try done; intros _; cbn [lib_exec].
  - by destruct (sys_exec HZ m2j e (ls_sys s)).
  - destruct (ls_threads s !! k) as [pc|]; [|done]. cbn [mbind option_bind].
    destruct (thread_exec HZ m2j k u copied pc s) as [[r s1]|] eqn:Hx; [|done].
    by eapply thread_exec_length.
Qed.

(** A schedule in which the turn comes lowers the rank. *)
Lemma lib_run_progress es s :
  working s → Forall (λ e, is_entry_event e = false) es →
  ∃ s', lib_run HZ m2j es s = (Ok (), s') ∧ working s' ∧
    length (ls_threads s') = length (ls_threads s) ∧ (total_rank s' ≤ total_rank s)%nat ∧
    ((∃ e, e ∈ es ∧ takes_turn s e) → (total_rank s' < total_rank s)%nat).
Proof.
  intros Hw Hes. revert s Hw. induction Hes as [|e es He Hes IH]; intros s Hw.
  { exists s. split_and!; [done..|]. by intros (e & ?%not_elem_of_nil & _). }
  destruct (lib_run_cons e es s Hw He) as [-> Hw1].
  destruct (IH _ Hw1) as (s' & Hrun & Hw' & Hlen & Hle & Hlt). exists s'.
  rewrite lib_try_length in Hlen by done.
  destruct (lib_progress e s Hw He) as [Hlt1|(Heq & Hturn & Hno)].
  - split_and!; [done..|lia|lia].
  - split_and!; [done..|lia|]. intros (e' & Hin & Ht). rewrite <- Heq. apply Hlt. exists e'.
    apply elem_of_cons in Hin as [->|Hin]; [by destruct Hno|]. split; [done|].
    unfold takes_turn in *. by rewrite Hturn.
Qed.

(** A round lets each of [n] threads run once, among anything else but new
    calls of the library on this handle. *)
Definition lib_round (n : nat) (es : list (levent U)) : Prop :=
  Forall (λ e, is_entry_event e = false) es ∧
  ∀ k, (k < n)%nat → ∃ u copied, LE_thread k u copied ∈ es.

Definition all_returned (s : lsys) : Prop :=
  ∀ k pc, ls_threads s !! k = Some pc → returned pc = true.

(** While a thread has not returned it is somebody's turn. *)
Lemma turn_exists s : working s → turn s = None → all_returned s.
Proof.
  intros [Hinv Hopen]. unfold turn. destruct (ls_obj s ≫= ho_owner); [done|].
  intros Hf k pc Hk. apply fmap_None, list_find_None in Hf.
  pose proof (Forall_lookup_1 _ _ _ _ Hf Hk) as Hr. cbn in Hr. by destruct (returned pc).
Qed.

Lemma returned_run es s :
  working s → Forall (λ e, is_entry_event e = false) es → all_returned s →
  ∃ s', lib_run HZ m2j (es : list (levent U)) s = (Ok (), s') ∧ all_returned s'.
Proof.
  intros Hw Hes. revert s Hw. induction Hes as [|e es He Hes IH]; intros s Hw Hall; [by exists s|].
  destruct (lib_run_cons e es s Hw He) as [-> Hw1]. apply IH; [done|].
  unfold lib_try. destruct e as [e|op| |k u copied]; try done; cbn [lib_exec].
  - by destruct (sys_exec HZ m2j e (ls_sys s)).
  - destruct (ls_threads s !! k) as [pc|] eqn:Hk; [|done]. cbn [mbind option_bind].
    pose proof (Hall k pc Hk). by destruct pc.
Qed.

Lemma rank_zero s : open_handle s → total_rank s = 0%nat → all_returned s.
Proof.
  intros [_ Hno] Hz k pc Hk. pose proof (Hno k pc Hk) as Hcl.
  pose proof (sum_list_with_in pc (thread_rank (ls_sys s)) (ls_threads s)
    (list_elem_of_lookup_2 _ _ _ Hk)) as Hle.
  unfold total_rank in Hz. destruct pc; cbn in *; try done; lia.
Qed.

Lemma turn_lt s k : working s → turn s = Some k → (k < length (ls_threads s))%nat.
Proof.
  intros [Hinv _]. unfold turn. destruct (ls_obj s) as [o|] eqn:Ho; cbn [mbind option_bind].
  1: destruct (ho_owner o) as [j|] eqn:How.
  1: { intros [= ->]. destruct (li_owner HZ m2j s Hinv o k Ho How) as (pc & Hk & _).
       by eapply lookup_lt_Some. }
  all: intros ([j pc] & Hy & Hk)%fmap_Some; cbn in Hk; subst k; apply list_find_Some in Hy as (Hj & _);
    by eapply lookup_lt_Some.
Qed.

Lemma lib_run_app es es' s s1 :
  lib_run HZ m2j (es : list (levent U)) s = (Ok (), s1) →
  lib_run HZ m2j (es ++ es') s = lib_run HZ m2j es' s1.
Proof.
  revert s. induction es as [|e es IH]; intros s; cbn [lib_run app]; [by intros [= ->]|].
  destruct (lib_exec HZ m2j e s) as [[[]]|]; try done; apply IH.
Qed.

(** The rounds one thread takes at most: its library statements and the
    longest system call. *)
Definition thread_bound : nat := call_bound + 5.

Lemma total_rank_bound s : (total_rank s ≤ length (ls_threads s) * thread_bound)%nat.
Proof.
  unfold total_rank. induction (ls_threads s) as [|pc l IH]; cbn; [lia|].
  assert (thread_rank (ls_sys s) pc ≤ thread_bound)%nat; [|lia].
  unfold thread_bound. destruct pc as [| | |c| | | | | |]; cbn; try lia.
  destruct (y_calls (ls_sys s) !! c) as [pc|]; cbn; [|lia]. pose proof (call_rank_bound pc). lia.
Qed.

(** C22: Every call of the library returns.  Any number of threads in any of
    the wrappers on one open handle, with no new call on it: in a schedule of
    rounds that lets each thread run once, among anything the rest of the system
    does, 266 rounds per thread bring all of them back.  No thread waits for
    ever for the mutex, and its holder never waits for anything else. *)
Theorem library_calls_return rounds s :
  lib_reachable (U := U) HZ m2j s → open_handle s →
  Forall (lib_round (length (ls_threads s))) rounds →
  (length (ls_threads s) * thread_bound ≤ length rounds)%nat →
  ∃ s', lib_run HZ m2j (concat rounds) s = (Ok (), s') ∧ all_returned s'.
Proof.
  intros Hr Hopen Hrounds Hlen.
  assert (Hw : working s) by (split; [by eapply lib_reachable_inv|done]).
  pose proof (total_rank_bound s) as Hb. set (n := length (ls_threads s)) in *.
  assert (Hrank : (total_rank s ≤ length rounds)%nat) by lia.
  assert (Hn : length (ls_threads s) = n) by done. clearbody n. clear Hr Hopen Hlen Hb.
  assert (Hne : Forall (λ e, is_entry_event e = false) (concat rounds)).
  { apply Forall_concat. eapply Forall_impl; [exact Hrounds|]. by intros es [? _]. }
  revert s Hw Hrank Hn. induction Hrounds as [|es rounds [Hes Hall] Hrounds IH]; intros s Hw Hrank Hn;
    cbn [concat length] in *.
  - exists s. split; [done|]. apply rank_zero; [by apply wk_open|lia].
  - apply Forall_app in Hne as [_ Hne].
    destruct (turn s) as [k|] eqn:Ht.
    2: { apply returned_run; [done|by apply Forall_app|by apply turn_exists]. }
    destruct (lib_run_progress es s Hw Hes) as (s1 & Hrun & Hw1 & Hlen & _ & Hlt).
    rewrite (lib_run_app es _ s s1 Hrun). apply IH; [done..| |congruence].
    destruct (Hall k) as (u & copied & Hin); [rewrite <- Hn; by apply turn_lt|].
    assert (Hlt1 : (total_rank s1 < total_rank s)%nat); [|lia]. apply Hlt. by exists (LE_thread k u copied); split; [|exists k, u, copied].
Qed.
End Progress.

(** ** On the schedule of LibThreads.v *)

Lemma demo_lib_open : open_handle demo_lib.
Proof.
  destruct demo_lib_run as (_ & Ht & _ & Ho). split; [rewrite Ho; by eexists|].
  rewrite Ht. intros [|[|k]] pc; cbn; try done; by intros [= <-].
Qed.

(** Closing the handle now goes wrong. *)
Lemma close_safe_iff_witness :
  (lib_run demo_HZ demo_m2j (replicate 9 (demo_thread 0)) demo_lib).1 = Ok () ∧
  ¬ (∀ es : list (levent flatmem), Forall (λ e, is_entry_event e = false) es →
      (lib_run demo_HZ demo_m2j (LE_close :: es) demo_lib).1 = Ok ()).
Proof.
  destruct (close_safe_iff demo_HZ demo_m2j demo_umem demo_lib demo_lib_reachable demo_lib_open)
    as [Hopen Hclose].
  split; [apply Hopen; by repeat constructor|]. intros Hsafe.
  pose proof (proj1 Hclose Hsafe 0%nat (L_wait 0)) as Hf.
  rewrite (proj1 (proj2 demo_lib_run)) in Hf. specialize (Hf eq_refl). discriminate Hf.
Defined.

Definition demo_lib_round : list (levent flatmem) :=
  [demo_thread 1; LE_sys (E_worker 0); demo_thread 0; LE_sys (E_tick 1)].

Lemma library_calls_return_witness :
  ∃ s', lib_run demo_HZ demo_m2j (concat (replicate (2 * thread_bound) demo_lib_round)) demo_lib =
    (Ok (), s') ∧ all_returned s'.
Proof.
  apply (library_calls_return demo_HZ demo_m2j (replicate (2 * thread_bound) demo_lib_round) demo_lib
    demo_lib_reachable demo_lib_open).
  - rewrite (proj1 (proj2 demo_lib_run)). apply Forall_replicate. split; [by repeat constructor|].
    intros [|[|k]] Hk; cbn in Hk; [exists demo_umem, true; set_solver..|lia].
  - rewrite (proj1 (proj2 demo_lib_run)), length_replicate. cbn [length]. lia.
Defined.
