(* ===== verification/LibSolo.v ===== *)
(** * A library thread, run alone

    Lib.v models the wrappers of lib/src/libcortex-forge.c as functions on one
    process, on the handler of Chardev.v; LibThreads.v models them as statements
    of threads, on the concurrent driver.  Here the two are shown to be the same
    code: a thread that runs alone does what the function does. *)

From S2P Require Import Prelude CLayout Device UserMem Uapi TaskManager Pool AccelManager Worker DevInit Chardev System SystemInv Schedule Teardown IoctlSpec Calls Solo Lib LibThreads LibUse.

Section LibSolo.
Context {U : Type} `{UserMemoryLaws U}.
Context (HZ : Z) (m2j : Z → Z).

Definition wrapper (op : lib_op) : KM (process U) Z :=
  match op with
  | OP_submit_task d => cortex_forge_submit_task HZ d
  | OP_query_task s => cortex_forge_query_task HZ s
  | OP_cancel_task stack => cortex_forge_cancel_task HZ stack
  | OP_get_accel_info i => cortex_forge_get_accel_info HZ i
  | OP_set_power stack => cortex_forge_set_power HZ stack
  | OP_get_version v => cortex_forge_get_version HZ v
  end.

(** Thread [k] runs [n] times, nothing else does. *)
Definition alone (k : nat) (u : U) (copied : bool) (n : nat) : list (levent U) :=
  replicate n (LE_thread k u copied).

Definition idle_handle : hobject :=
  {| ho_owner := None; ho_destroyed := false; ho_open := true |}.

(** What the calling process sees of the system. *)
Definition world_of (u : U) (y : sys) : world U :=
  {| w_dev := y_dev y; w_user := u; w_jiffies := y_now y |}.

Lemma sys_inv_dev_ok y : sys_inv y → dev_ok (y_dev y).
Proof. intros []. by split. Qed.

(** ** The functions *)

Lemma wrapper_run op p code w :
  has_handle p → op_refused op = false →
  cortex_forge_ioctl HZ (op_request op) (op_arg op) (p_world p) = (Ok code, w) →
  ∃ e, wrapper op p = (Ok (if code <? 0 then code else 0),
    {| p_world := w; p_errno := e; p_fds := p_fds p; p_handle := p_handle p |}).
Proof.
  intros Hh Hr Hi. destruct (locked_ioctl_run HZ _ _ p code w Hh Hi) as [e He]. exists e.
  assert (Hp : ∀ ptr cmd, (ptr =? 0) = false → cmd = op_request op → ptr = op_arg op →
    call (check_pointer ptr ;; locked_ioctl HZ cmd ptr) p = call (locked_ioctl HZ (op_request op) (op_arg op)) p).
  { intros ptr cmd Hz -> ->. unfold call. apply Z.eqb_neq in Hz.
    by rewrite (KM_bind_ok _ _ _ _ _ (check_pointer_ok _ p Hh Hz)). }
  assert (Hc : ∀ cmd, cmd = op_request op →
    call (check_handle ;; locked_ioctl HZ cmd (op_arg op)) p = call (locked_ioctl HZ (op_request op) (op_arg op)) p).
  { intros cmd ->. unfold call. by rewrite (KM_bind_ok _ _ _ _ _ (check_handle_ok p Hh)). }
  assert (Hend : call (locked_ioctl HZ (op_request op) (op_arg op)) p =
    (Ok (if code <? 0 then code else 0),
     {| p_world := w; p_errno := e; p_fds := p_fds p; p_handle := p_handle p |}))
    by (unfold call; by rewrite He).
  rewrite <- Hend. destruct op; cbn [op_refused op_request op_arg] in *;
    [by apply Hp..|by apply Hc|by apply Hp|by apply Hc|by apply Hp].
Qed.

Lemma wrapper_refused op p :
  has_handle p → op_refused op = true → wrapper op p = (Ok (- EINVAL), p).
Proof.
  intros Hh Hr. pose proof Hh as (h & Hp & _).
  destruct op; cbn [op_refused] in Hr; try done; apply Z.eqb_eq in Hr as ->;
    unfold wrapper, cortex_forge_submit_task, cortex_forge_query_task, cortex_forge_get_accel_info,
      cortex_forge_get_version, check_pointer, call;
    unfold check_handle, return_if; km_unfold; by rewrite Hp.
Qed.

(** ** The thread *)

Lemma alone_S k u copied n s s1 :
  lib_exec HZ m2j (LE_thread k u copied) s = Some (Ok (), s1) →
  lib_run HZ m2j (alone k u copied (S n)) s = lib_run HZ m2j (alone k u copied n) s1.
Proof. intros He. unfold alone. cbn [replicate lib_run]. by rewrite He. Qed.

Lemma urun_ret now copied n code d :
  urun HZ now copied n (U_ret code) d = (Ok (U_ret code), d).
Proof. induction n as [|n IH]; [done|]. by rewrite (urun_S _ _ _ _ _ (U_ret code) _ d). Qed.

(** Inside the kernel: the thread runs the statements of its call. *)
Lemma alone_in_kernel k u copied c n pc code d' s :
  ls_threads s !! k = Some (L_wait c) → y_calls (ls_sys s) !! c = Some pc →
  urun HZ (y_now (ls_sys s)) copied n pc (y_dev (ls_sys s)) = (Ok (U_ret code), d') →
  ∃ m s', (∀ j, lib_run HZ m2j (alone k u copied (m + j)) s = lib_run HZ m2j (alone k u copied j) s') ∧
    y_calls (ls_sys s') !! c = Some (U_ret code) ∧ y_dev (ls_sys s') = d' ∧
    ls_threads s' = ls_threads s ∧ ls_obj s' = ls_obj s.
Proof.
  revert pc s. induction n as [|n IH]; intros pc s Hk Hc Hr.
  { injection Hr as -> <-. by exists 0%nat, s. }
  destruct (call_result pc) as [code0|] eqn:Hres.
  { destruct pc; try done. rewrite urun_ret in Hr. injection Hr as -> <-. by exists 0%nat, s. }
  destruct (ustep HZ (y_now (ls_sys s)) copied pc (y_dev (ls_sys s))) as [[pc1| |] d1] eqn:Hu;
    [|cbn [urun] in Hr; unfold mbind, KM_bind in Hr; by rewrite Hu in Hr..].
  rewrite (urun_S _ _ _ _ _ _ _ _ Hu) in Hr.
  assert (He : ∃ s1, lib_exec HZ m2j (LE_thread k u copied) s = Some (Ok (), s1) ∧
    ls_threads s1 = ls_threads s ∧ ls_obj s1 = ls_obj s ∧ y_now (ls_sys s1) = y_now (ls_sys s) ∧
    y_dev (ls_sys s1) = d1 ∧ y_calls (ls_sys s1) = <[c := pc1]> (y_calls (ls_sys s))).
  { cbn [lib_exec]. rewrite Hk. cbn [mbind option_bind thread_exec]. rewrite Hc.
    cbn [sys_exec]. rewrite Hc. cbn [mbind option_bind]. rewrite Hu. destruct pc; try discriminate Hres; by eexists. }
  destruct He as (s1 & He & Hth & Hobj & Hnow & Hdev & Hcalls).
  destruct (IH pc1 s1) as (m & s' & Hrun & Hc' & Hd' & Hth' & Hobj').
  - by rewrite Hth.
  - rewrite Hcalls. by rewrite list_lookup_insert_eq by (by eapply lookup_lt_Some).
  - by rewrite Hnow, Hdev.
  - exists (S m), s'. split_and!; try congruence. intros j. cbn [Nat.add].
    by rewrite (alone_S _ _ _ _ _ _ He).
Qed.

(** From the check of the arguments into the kernel. *)
Lemma alone_enters k u copied op s :
  ls_threads s !! k = Some (L_check op) → op_refused op = false → ls_obj s = Some idle_handle →
  let c := length (y_calls (ls_sys s)) in
  ∃ s', (∀ j, lib_run HZ m2j (alone k u copied (3 + j)) s = lib_run HZ m2j (alone k u copied j) s') ∧
    y_calls (ls_sys s') !! c = Some (request_entry (op_request op) (op_arg op) u) ∧
    y_dev (ls_sys s') = y_dev (ls_sys s) ∧ y_now (ls_sys s') = y_now (ls_sys s) ∧
    ls_threads s' = <[k := L_wait c]> (ls_threads s) ∧ ls_obj s' = Some (set_owner (Some k) idle_handle).
Proof.
  intros Hk Hr Ho c. assert (Hlt : (k < length (ls_threads s))%nat) by (by eapply lookup_lt_Some).
  assert (H1 : lib_exec HZ m2j (LE_thread k u copied) s = Some (Ok (), lnext k (L_lock op) (ls_obj s) s)).
  { cbn [lib_exec]. rewrite Hk. cbn [mbind option_bind thread_exec]. by rewrite Hr. }
  set (s1 := lnext k (L_lock op) (ls_obj s) s) in *.
  assert (Hk1 : ls_threads s1 !! k = Some (L_lock op)) by (by apply list_lookup_insert_eq).
  assert (H2 : lib_exec HZ m2j (LE_thread k u copied) s1 =
    Some (Ok (), lnext k (L_ioctl op) (Some (set_owner (Some k) idle_handle)) s1)).
  { cbn [lib_exec]. rewrite Hk1. cbn [mbind option_bind thread_exec]. change (ls_obj s1) with (ls_obj s).
    by rewrite Ho. }
  set (s2 := lnext k (L_ioctl op) (Some (set_owner (Some k) idle_handle)) s1) in *.
  assert (Hk2 : ls_threads s2 !! k = Some (L_ioctl op)).
  { apply list_lookup_insert_eq. cbn. by rewrite length_insert. }
  eexists. split; [|split_and!].
  - intros j. cbn [Nat.add]. rewrite (alone_S _ _ _ _ _ _ H1), (alone_S _ _ _ _ _ _ H2).
    apply alone_S. cbn [lib_exec]. rewrite Hk2. cbn [mbind option_bind thread_exec]. reflexivity.
  - cbn. unfold enter_call, sys_try. cbn [sys_exec]. rewrite decide_True by apply request_is_entry.
    cbn. by rewrite list_lookup_middle.
  - cbn. unfold enter_call, sys_try. cbn [sys_exec]. by rewrite decide_True by apply request_is_entry.
  - cbn. unfold enter_call, sys_try. cbn [sys_exec]. by rewrite decide_True by apply request_is_entry.
  - cbn. by rewrite !list_insert_insert_eq.
  - done.
Qed.

(** C36: A library thread that runs alone does what the wrapper of Lib.v does.
    On an open handle nobody holds, in any state of the driver and of user
    memory, the thread's statements, those of its system call included, end
    with the code the wrapper returns and with the device it leaves; the
    handle is free again and no other thread has moved. *)
Theorem thread_agrees_with_wrapper k op u s p :
  lib_reachable (U := U) HZ m2j s → ls_obj s = Some idle_handle →
  ls_threads s !! k = Some (L_check op) → has_handle p → p_world p = world_of u (ls_sys s) →
  ∃ n copied s' code p',
    lib_run HZ m2j (alone k u copied n) s = (Ok (), s') ∧
    ls_threads s' = <[k := L_return code]> (ls_threads s) ∧ ls_obj s' = Some idle_handle ∧
    wrapper op p = (Ok code, p') ∧ has_handle p' ∧ w_dev (p_world p') = y_dev (ls_sys s').
Proof.
  intros Hs Ho Hk Hh Hw. assert (Hlt : (k < length (ls_threads s))%nat) by (by eapply lookup_lt_Some).
  destruct (op_refused op) eqn:Hr.
  { exists 1%nat, true, (lnext k (L_return (- EINVAL)) (ls_obj s) s), (- EINVAL), p.
    split_and!; try done; [|by apply wrapper_refused|by rewrite Hw].
    unfold alone. cbn [replicate lib_run lib_exec]. rewrite Hk. cbn [mbind option_bind thread_exec].
    by rewrite Hr. }
  assert (Hok : dev_ok (w_dev (world_of u (ls_sys s)))).
  { apply sys_inv_dev_ok, (sys_inv_reachable HZ m2j), (li_sys HZ m2j s), lib_reachable_inv; done. }
  destruct (request_agrees HZ (world_of u (ls_sys s)) (op_request op) (op_arg op) Hok)
    as (_ & n & copied & code & d' & u' & Hrun & Hioctl).
  destruct (alone_enters k u copied op s Hk Hr Ho) as (s1 & Hr1 & Hc1 & Hd1 & Hn1 & Ht1 & Ho1).
  set (c := length (y_calls (ls_sys s))) in *.
  destruct (alone_in_kernel k u copied c n (request_entry (op_request op) (op_arg op) u) code d' s1)
    as (m & s2 & Hr2 & Hc2 & Hd2 & Ht2 & Ho2); [by rewrite Ht1, list_lookup_insert_eq|done| |].
  { by rewrite Hd1, Hn1. }
  destruct (wrapper_run op p code (set_w_user u' (set_w_dev d' (world_of u (ls_sys s)))) Hh Hr)
    as [e He]; [by rewrite Hw|].
  set (code' := if code <? 0 then code else 0) in *.
  assert (H3 : lib_exec HZ m2j (LE_thread k u copied) s2 = Some (Ok (), lnext k (L_unlock code') (ls_obj s2) s2)).
  { cbn [lib_exec]. rewrite Ht2, Ht1, list_lookup_insert_eq by done. cbn [mbind option_bind thread_exec].
    by rewrite Hc2. }
  set (s3 := lnext k (L_unlock code') (ls_obj s2) s2) in *.
  assert (H4 : lib_exec HZ m2j (LE_thread k u copied) s3 =
    Some (Ok (), lnext k (L_return code') (Some idle_handle) s3)).
  { cbn [lib_exec]. assert (ls_threads s3 !! k = Some (L_unlock code')) as ->.
    { apply list_lookup_insert_eq. by rewrite Ht2, Ht1, length_insert. }
    cbn [mbind option_bind thread_exec]. change (ls_obj s3) with (ls_obj s2). by rewrite Ho2, Ho1. }
  exists (3 + (m + 2))%nat, copied, (lnext k (L_return code') (Some idle_handle) s3), code',
    {| p_world := set_w_user u' (set_w_dev d' (world_of u (ls_sys s))); p_errno := e;
       p_fds := p_fds p; p_handle := p_handle p |}.
  split_and!; [|..|exact He| |].
  - rewrite Hr1, Hr2, (alone_S _ _ _ _ _ _ H3), (alone_S _ _ _ _ _ _ H4). done.
  - cbn. by rewrite Ht2, Ht1, !list_insert_insert_eq.
  - done.
  - by destruct Hh as (h & Hp & Hl); exists h.
  - cbn. by rewrite Hd2.
Qed.
End LibSolo.

(** ** A cancellation by the first thread of a process *)

Definition demo_caller : lsys :=
  (lib_run demo_HZ demo_m2j [LE_op (OP_cancel_task 4096) : levent flatmem] (lib_init sys0)).2.
Definition demo_caller_process : process flatmem :=
  {| p_world := world_of (w_user demo_user) (ls_sys demo_caller); p_errno := 0; p_fds := [3];
     p_handle := Some demo_handle |}.

Lemma thread_agrees_with_wrapper_witness :
  ls_threads demo_caller = [L_check (OP_cancel_task 4096)] ∧
  ∃ n copied s' code p',
    lib_run demo_HZ demo_m2j (alone 0 (w_user demo_user) copied n) demo_caller = (Ok (), s') ∧
    ls_threads s' = <[0%nat := L_return code]> (ls_threads demo_caller) ∧ ls_obj s' = Some idle_handle ∧
    wrapper demo_HZ (OP_cancel_task 4096) demo_caller_process = (Ok code, p') ∧
    has_handle p' ∧ w_dev (p_world p') = y_dev (ls_sys s').
Proof.
  split; [reflexivity|].
  apply (thread_agrees_with_wrapper demo_HZ demo_m2j 0 (OP_cancel_task 4096) (w_user demo_user)
    demo_caller demo_caller_process); [|reflexivity|reflexivity|by exists demo_handle|reflexivity].
  exists sys0, [LE_op (OP_cancel_task 4096)]. split; [by apply reach_init|reflexivity].
Defined.
