(* ===== verification/TestSuite.v ===== *)
(** * The test program: test/cortex-forge_test.c

    The program's sixteen tests as clients of the library (Lib.v) on the driver
    (Chardev.v), with its counters, its local variables in user memory, and
    everything else that can change the device before each of its library
    calls: worker threads, other processes, the clock.  The test of four
    threads takes the order of the threads' iterations as a parameter; what the
    other threads do to the device between the two calls of an iteration is
    part of that interference, and an iteration's locals are its own. *)

From S2P Require Import Prelude CLayout Device UserMem Uapi TaskManager Pool AccelManager DevInit Chardev IoctlSpec Lib.

(** ** The program's state and environment *)

Record suite : Type := {
  u_proc : process flatmem;
  u_passed : nat;
  u_failed : nat;
  u_calls : nat;             (* library calls made so far *)
}.

(** Where the locals of the tests and of the library's functions live. *)
Record frame : Type := {
  fr_desc : Z;               (* struct cortex_forge_task_desc d *)
  fr_status : Z;             (* struct cortex_forge_task_status s *)
  fr_info : Z;               (* struct cortex_forge_accel_info info *)
  fr_version : Z;            (* uint32_t v *)
  fr_ids : Z;                (* uint32_t ids[10] *)
  fr_arg : Z;                (* the library's uint32_t id or m *)
}.

(** [interference n]: what the rest of the system does to the device before
    the [n]-th library call.  [open_ret] and [calloc_ok] are the C library's
    answers to it, [rand] its random numbers, [sched] the order of the threads. *)
Record environment : Type := {
  en_interference : nat → dev → dev;
  en_open_ret : nat → Z;
  en_calloc_ok : nat → bool;
  en_rand : nat → Z;
  en_sched : list nat;
}.

Section Suite.
Context (HZ : Z) (env : environment) (fr : frame).

Definition set_u_proc (p : process flatmem) (s : suite) : suite :=
  {| u_proc := p; u_passed := u_passed s; u_failed := u_failed s; u_calls := u_calls s |}.
Definition count_call (s : suite) : suite :=
  {| u_proc := u_proc s; u_passed := u_passed s; u_failed := u_failed s;
     u_calls := S (u_calls s) |}.

Definition upd_user (f : flatmem → flatmem) (p : process flatmem) : process flatmem :=
  let w := p_world p in
  Build_process flatmem {| w_dev := w_dev w; w_user := f (w_user w); w_jiffies := w_jiffies w |}
    (p_errno p) (p_fds p) (p_handle p).
Definition upd_device (f : dev → dev) (p : process flatmem) : process flatmem :=
  let w := p_world p in
  Build_process flatmem {| w_dev := f (w_dev w); w_user := w_user w; w_jiffies := w_jiffies w |}
    (p_errno p) (p_fds p) (p_handle p).

(** [P()] and [F(m)] *)
Definition P : KM suite unit := modify (λ s,
  {| u_proc := u_proc s; u_passed := S (u_passed s); u_failed := u_failed s; u_calls := u_calls s |}).
Definition F : KM suite unit := modify (λ s,
  {| u_proc := u_proc s; u_passed := u_passed s; u_failed := S (u_failed s); u_calls := u_calls s |}).

(** A library call, after the interference. *)
Definition lib {A} (m : KM (process flatmem) A) : KM suite A :=
  modify (λ s, count_call (set_u_proc (upd_device (en_interference env (u_calls s)) (u_proc s)) s)) ;;
  zoom u_proc set_u_proc m.

(** A [static void] function. *)
Definition test (m : KM suite unit) : KM suite unit := λ s,
  match m s with
  | (Ret _, s') => (Ok (), s')
  | r => r
  end.

(** Locals *)
Definition store (a : Z) (bs : list cbyte) : KM suite unit := modify (λ s,
  set_u_proc (upd_user (λ u, {| fm_bytes := fm_write (fm_bytes u) a bs |}) (u_proc s)) s).
Definition load_u32 (a : Z) : KM suite Z := λ s,
  match fm_read (fm_bytes (w_user (p_world (u_proc s)))) a 4 with
  | Some bs => (Ok (LittleEndianList.le_combine bs), s)
  | None => (Oops, s)
  end.
Definition store_u32 (a v : Z) : KM suite unit := store a (encode (u32 v)).

(** [memset(&d, 0, sizeof d)] and the assignments to its fields *)
Definition store_desc (accel_type priority input_size output_size timeout_ms : Z) : KM suite unit :=
  store (fr_desc fr) (enc_chunks (chunks lp64 lib_task_desc_decl)
    [0; accel_type; priority; input_size; output_size; 0; 0; 0; timeout_ms; 0]).
Definition store_status (task_id : Z) : KM suite unit :=
  store (fr_status fr) (enc_chunks (chunks lp64 lib_task_status_decl) [task_id; 0; 0; 0; 0]).
Definition store_info (accel_type : Z) : KM suite unit :=
  store (fr_info fr) (enc_chunks (chunks lp64 lib_accel_info_decl)
    [accel_type; 0; 0; 0; 0; 0; 0; 0; 0; 0]).

(** ** The library's functions, as the tests call them *)

Definition DEVICE : list Ascii.ascii := String.list_ascii_of_string "/dev/cortex-forge0".

Definition open_DEVICE : KM suite unit :=
  n ← gets u_calls;
  lib (cortex_forge_open (en_open_ret env n) (en_calloc_ok env n) (Some DEVICE)).
Definition close : KM suite unit := lib cortex_forge_close.
Definition submit_task (p : Z) : KM suite Z := lib (cortex_forge_submit_task HZ p).
Definition query_task (p : Z) : KM suite Z := lib (cortex_forge_query_task HZ p).
Definition get_accel_info (p : Z) : KM suite Z := lib (cortex_forge_get_accel_info HZ p).
Definition get_version (p : Z) : KM suite Z := lib (cortex_forge_get_version HZ p).
(** The argument is passed by value: the library takes its address. *)
Definition cancel_task (id : Z) : KM suite Z :=
  store_u32 (fr_arg fr) id ;; lib (cortex_forge_cancel_task HZ (fr_arg fr)).
Definition set_power (mode : Z) : KM suite Z :=
  store_u32 (fr_arg fr) mode ;; lib (cortex_forge_set_power HZ (fr_arg fr)).

(** [if (!h) { S("driver not loaded"); return; }] *)
Definition with_device : KM suite unit :=
  open_DEVICE ;;
  h ← gets (p_handle ∘ u_proc);
  return_if (bool_decide (h = None)) 0.

(** [if (b) { cortex_forge_close(h); F(m); return; }] *)
Definition fail_if (b : bool) : KM suite unit :=
  if b then close ;; F ;; return_ 0 else mret ().

(** ** The tests *)

Definition t_open_close : KM suite unit := test (with_device ;; close ;; P).

Definition t_submit_dla0 : KM suite unit := test (
  with_device ;;
  store_desc 0 128 4096 4096 0 ;;
  r ← submit_task (fr_desc fr); fail_if (negb (r =? 0)) ;;
  task_id ← load_u32 (fr_desc fr); fail_if (task_id =? 0) ;;
  close ;; P).

Definition t_submit_dla1 : KM suite unit := test (
  with_device ;;
  store_desc 1 64 8192 8192 0 ;;
  r ← submit_task (fr_desc fr); fail_if (negb (r =? 0)) ;;
  close ;; P).

Definition t_submit_pva : KM suite unit := test (
  with_device ;;
  store_desc 2 255 2048 2048 0 ;;
  r ← submit_task (fr_desc fr); fail_if (negb (r =? 0)) ;;
  close ;; P).

Definition t_submit_query : KM suite unit := test (
  with_device ;;
  store_desc 0 0 1024 1024 0 ;;
  r ← submit_task (fr_desc fr); fail_if (negb (r =? 0)) ;;
  task_id ← load_u32 (fr_desc fr); store_status task_id ;;
  r ← query_task (fr_status fr); fail_if (negb (r =? 0)) ;;
  s_id ← load_u32 (fr_status fr); d_id ← load_u32 (fr_desc fr);
  fail_if (negb (s_id =? d_id)) ;;
  close ;; P).

Definition t_submit_cancel : KM suite unit := test (
  with_device ;;
  store_desc 0 0 0 0 5000 ;;
  r ← submit_task (fr_desc fr); fail_if (negb (r =? 0)) ;;
  task_id ← load_u32 (fr_desc fr);
  r ← cancel_task task_id; fail_if (negb (r =? 0)) ;;
  close ;; P).

Definition t_get_info_all : KM suite unit := test (
  with_device ;;
  for_loop 3 0 (λ i,
    store_info (Z.of_nat i) ;;
    r ← get_accel_info (fr_info fr); fail_if (negb (r =? 0))) ;;
  close ;; P).

(** [v0]: what the uninitialised [v] happens to hold. *)
Definition t_get_version (v0 : Z) : KM suite unit := test (
  with_device ;;
  store_u32 (fr_version fr) v0 ;;
  r ← get_version (fr_version fr); v ← load_u32 (fr_version fr);
  fail_if (negb (r =? 0) || (v =? 0)) ;;
  close ;; P).

Definition t_set_power : KM suite unit := test (
  with_device ;;
  r ← set_power 1; fail_if (negb (r =? 0)) ;;
  close ;; P).

Definition t_invalid_type : KM suite unit := test (
  with_device ;;
  store_desc 99 0 0 0 0 ;;
  r ← submit_task (fr_desc fr); fail_if (negb (r =? - EINVAL)) ;;
  close ;; P).

Definition t_query_nonexist : KM suite unit := test (
  with_device ;;
  store_status 999999 ;;
  r ← query_task (fr_status fr); fail_if (negb (r =? - ENOENT)) ;;
  close ;; P).

Definition t_cancel_nonexist : KM suite unit := test (
  with_device ;;
  r ← cancel_task 999999; fail_if (negb (r =? - ENOENT)) ;;
  close ;; P).

(** [if (r != -EINVAL) { F(m); return; }]; the handle passed is NULL. *)
Definition expect_EINVAL (m : KM suite Z) : KM suite unit :=
  r ← m; if negb (r =? - EINVAL) then F ;; return_ 0 else mret ().

Definition t_null_handle : KM suite unit := test (
  lib (set_handle None) ;;
  expect_EINVAL (submit_task 0) ;;
  expect_EINVAL (query_task 0) ;;
  expect_EINVAL (cancel_task 0) ;;
  expect_EINVAL (get_accel_info 0) ;;
  expect_EINVAL (get_version 0) ;;
  P).

Definition t_multiple : KM suite unit := test (
  with_device ;;
  for_loop 10 0 (λ i,
    store_desc (Z.of_nat i `mod` 3) (Z.of_nat i * 10) 1024 1024 0 ;;
    r ← submit_task (fr_desc fr); fail_if (negb (r =? 0)) ;;
    task_id ← load_u32 (fr_desc fr); store_u32 (fr_ids fr + 4 * Z.of_nat i) task_id) ;;
  for_loop 10 0 (λ i,
    task_id ← load_u32 (fr_ids fr + 4 * Z.of_nat i); store_status task_id ;;
    r ← query_task (fr_status fr); fail_if (negb (r =? 0))) ;;
  close ;; P).

Definition t_strerror (strerror : Z → string) : KM suite unit := test (
  (if bool_decide (cortex_forge_strerror strerror 0 = "Success"%string) then mret () else F ;; return_ 0) ;;
  (if (String.length (cortex_forge_strerror strerror (- EINVAL)) =? 0)%nat then F ;; return_ 0 else mret ()) ;;
  (if (String.length (cortex_forge_strerror strerror (- ENOMEM)) =? 0)%nat then F ;; return_ 0 else mret ()) ;;
  P).

(** *** Four threads *)

(** One iteration of [worker]: whether it counts an error. *)
Definition worker_iteration : KM suite bool :=
  n ← gets u_calls;
  store_desc (en_rand env (2 * n) `mod` 3) (en_rand env (2 * n + 1) `mod` 256) 1024 1024 0 ;;
  r ← submit_task (fr_desc fr);
  if r =? 0 then
    task_id ← load_u32 (fr_desc fr); store_status task_id ;;
    _ ← query_task (fr_status fr); mret false
  else mret true.

(** [td]: for each thread the iterations left and the errors counted. *)
Fixpoint run_threads (sched : list nat) (td : list (nat * nat)) : KM suite (list (nat * nat)) :=
  match sched with
  | [] => mret td
  | k :: sched' =>
      match td !! k with
      | Some (S ops, errs) =>
          err ← worker_iteration;
          run_threads sched' (<[k := (ops, if (err : bool) then S errs else errs)]> td)
      | _ => run_threads sched' td
      end
  end.

Definition t_concurrent : KM suite unit := test (
  with_device ;;
  td ← run_threads (en_sched env) (replicate 4 (25%nat, 0%nat));
  close ;;
  (if (0 <? sum_list (snd <$> td))%nat then F ;; return_ 0 else mret ()) ;;
  P).

Definition tests (v0 : Z) (strerror : Z → string) : list (KM suite unit) :=
  [t_open_close; t_submit_dla0; t_submit_dla1; t_submit_pva; t_submit_query; t_submit_cancel;
   t_get_info_all; t_get_version v0; t_set_power; t_invalid_type; t_query_nonexist;
   t_cancel_nonexist; t_null_handle; t_multiple; t_strerror strerror; t_concurrent].

(** main's exit status *)
Definition suite_main (v0 : Z) (strerror : Z → string) : KM suite Z :=
  foldr (λ t k, t ;; k) (mret ()) (tests v0 strerror) ;;
  failed ← gets u_failed;
  mret (if (0 <? failed)%nat then 1 else 0).
End Suite.

(** ** What runs do *)

Section SuiteSpec.
Context (HZ : Z) (env : environment) (fr : frame).

(** Interference keeps the device well formed; the driver is loaded and memory
    suffices; no local is at address 0; the threads run to their end. *)
Record loaded : Prop := {
  ld_interference : ∀ n d, dev_ok d → dev_ok (en_interference env n d);
  ld_open : ∀ n, 0 <= en_open_ret env n;
  ld_calloc : ∀ n, en_calloc_ok env n = true;
  ld_desc : fr_desc fr ≠ 0;
  ld_status : fr_status fr ≠ 0;
  ld_info : fr_info fr ≠ 0;
  ld_version : fr_version fr ≠ 0;
  ld_sched : ∀ k, (k < 4)%nat → (25 ≤ length (filter (λ j, j = k) (en_sched env)))%nat;
}.
Hypothesis Hload : loaded.

(** What is known of the handle. *)
Inductive hmode : Type := H_any | H_open | H_null.

Definition handle_is (o : hmode) (q : process flatmem) : Prop :=
  match o with
  | H_any => True
  | H_open => has_handle q
  | H_null => p_handle q = None
  end.

(** The handle is as [o] says; [p] tests passed and [f] failed so far. *)
Definition at_score (o : hmode) (p f : nat) (s : suite) : Prop :=
  dev_ok (w_dev (p_world (u_proc s))) ∧ handle_is o (u_proc s) ∧
  u_passed s = p ∧ u_failed s = f.

(** From such a state, [m] ends with [x] in such a state ... *)
Definition runs {A} (o : hmode) (p f : nat) (m : KM suite A) (x : A) (o' : hmode) (p' f' : nat) : Prop :=
  ∀ s, at_score o p f s → ∃ s', m s = (Ok x, s') ∧ at_score o' p' f' s'.

(** ... or returns from the test. *)
Definition returns {A} (o : hmode) (p f : nat) (m : KM suite A) (p' f' : nat) : Prop :=
  ∀ s, at_score o p f s → ∃ s', m s = (Ret 0, s') ∧ at_score H_any p' f' s'.

Lemma runs_bind {A B} o p f (m : KM suite A) x o1 p1 f1 (k : A → KM suite B) y o2 p2 f2 :
  runs o p f m x o1 p1 f1 → runs o1 p1 f1 (k x) y o2 p2 f2 → runs o p f (m ≫= k) y o2 p2 f2.
Proof.
  intros Hm Hk s Hs. destruct (Hm s Hs) as (s1 & E & Hs1). destruct (Hk s1 Hs1) as (s2 & E2 & Hs2).
  exists s2. split; [|done]. by rewrite (KM_bind_ok _ _ _ _ _ E).
Qed.

Lemma returns_bind {A B} o p f (m : KM suite A) x o1 p1 f1 (k : A → KM suite B) p2 f2 :
  runs o p f m x o1 p1 f1 → returns o1 p1 f1 (k x) p2 f2 → returns o p f (m ≫= k) p2 f2.
Proof.
  intros Hm Hk s Hs. destruct (Hm s Hs) as (s1 & E & Hs1). destruct (Hk s1 Hs1) as (s2 & E2 & Hs2).
  exists s2. split; [|done]. by rewrite (KM_bind_ok _ _ _ _ _ E).
Qed.

Lemma returns_stop {A B} o p f (m : KM suite A) (k : A → KM suite B) p1 f1 :
  returns o p f m p1 f1 → returns o p f (m ≫= k) p1 f1.
Proof.
  intros Hm s Hs. destruct (Hm s Hs) as (s1 & E & Hs1). exists s1. split; [|done].
  by rewrite (KM_bind_ret _ _ _ _ _ E).
Qed.

Lemma test_runs o p f m o' p' f' : runs o p f m () o' p' f' → runs o p f (test m) () o' p' f'.
Proof. intros Hm s Hs. destruct (Hm s Hs) as (s1 & E & Hs1). exists s1. unfold test. by rewrite E. Qed.

Lemma test_returns o p f m p' f' : returns o p f m p' f' → runs o p f (test m) () H_any p' f'.
Proof. intros Hm s Hs. destruct (Hm s Hs) as (s1 & E & Hs1). exists s1. unfold test. by rewrite E. Qed.

Lemma runs_ret {A} o p f (x : A) : runs o p f (mret x) x o p f.
Proof. intros s Hs. by exists s. Qed.

Lemma runs_gets {A} o p f (g : suite → A) {B} (k : A → KM suite B) x o' p' f' :
  (∀ y, runs o p f (k y) x o' p' f') → runs o p f (gets g ≫= k) x o' p' f'.
Proof. intros Hk s Hs. destruct (Hk (g s) s Hs) as (s' & E & Hs'). by exists s'. Qed.

Lemma runs_closed {A} o p f (m : KM suite A) x o' p' f' :
  runs H_any p f m x o' p' f' → runs o p f m x o' p' f'.
Proof. intros Hm s (? & _ & ? & ?). apply Hm. split_and!; try done. Qed.

(** *** The statements of the tests *)

Lemma P_runs o p f : runs o p f P () o (S p) f.
Proof. intros s (? & ? & <- & <-). by eexists. Qed.

Lemma F_runs o p f : runs o p f F () o p (S f).
Proof. intros s (? & ? & <- & <-). by eexists. Qed.

Lemma store_runs o p f a bs : runs o p f (store a bs) () o p f.
Proof. intros s (? & Hh & <- & <-). by eexists. Qed.

(** A library call that keeps the device well formed. *)
Lemma lib_runs {A} (m : KM (process flatmem) A) x o o' p f :
  (∀ q, dev_ok (w_dev (p_world q)) → handle_is o q →
     ∃ q', m q = (Ok x, q') ∧ dev_ok (w_dev (p_world q')) ∧ handle_is o' q') →
  runs o p f (lib env m) x o' p f.
Proof.
  intros Hm s (Hok & Hh & <- & <-).
  destruct (Hm (upd_device (en_interference env (u_calls s)) (u_proc s))) as (q' & E & Hok' & Hh').
  { cbn. by apply ld_interference. }
  { done. }
  unfold lib, zoom. km_unfold. cbn [u_proc count_call set_u_proc]. rewrite E. eexists.
  split; [reflexivity|]. by split_and!.
Qed.

Lemma handle_close_runs o p f : runs o p f (close env) () H_any p f.
Proof.
  apply lib_runs. intros q Hok _. unfold cortex_forge_close. km_unfold.
  destruct (p_handle q); eexists; (split; [reflexivity|by split]).
Qed.

Lemma open_runs p f : runs H_any p f (with_device env) () H_open p f.
Proof.
  eapply runs_bind with (x := ()) (o1 := H_open) (p1 := p) (f1 := f).
  - apply runs_gets. intros n. apply lib_runs. intros q Hok _. cbn [cortex_forge_open].
    rewrite (proj2 (Z.ltb_ge _ _)) by apply Hload. rewrite (ld_calloc Hload).
    eexists. split; [reflexivity|]. split; [done|]. by eexists.
  - intros s Hs. exists s. split; [|done]. destruct Hs as (_ & Hh & _).
    destruct Hh as (h & Hp & _). unfold return_if. km_unfold. cbn [compose].
    by rewrite bool_decide_eq_false_2 by (cbn; congruence).
Qed.

(** The three requests with the wrong sizes. *)
Lemma refused_runs p f :
  (runs H_open p f (submit_task HZ env (fr_desc fr)) (- ENOTTY) H_open p f) ∧
  (runs H_open p f (query_task HZ env (fr_status fr)) (- ENOTTY) H_open p f) ∧
  (runs H_open p f (get_accel_info HZ env (fr_info fr)) (- ENOTTY) H_open p f).
Proof.
  destruct lib_unknown_requests as (H1 & H2 & H3).
  split_and!; apply lib_runs; intros q Hok Hh; eexists;
    (split; [by apply refused_run; [|done|apply Hload]|by split]).
Qed.

Lemma fail_if_returns p f b : b = true → returns H_open p f (fail_if env b) p (S f).
Proof.
  intros ->. eapply returns_bind; [apply handle_close_runs|]. eapply returns_bind; [apply F_runs|].
  intros s Hs. by exists s.
Qed.

Lemma fail_if_runs o p f b : b = false → runs o p f (fail_if env b) () o p f.
Proof. intros ->. apply runs_ret. Qed.

(** A call of the library through the address of its argument. *)
Definition by_address (cmd : Z) : KM (process flatmem) Z :=
  call (check_handle ;; locked_ioctl HZ cmd (fr_arg fr)).

Lemma arg_runs v cmd code p f :
  is_u32 v →
  (∀ w : world flatmem, dev_ok (w_dev w) →
     copy_from_user (w_user w) (fr_arg fr) 4 = Some (encode v) →
     ∃ w', cortex_forge_ioctl HZ cmd (fr_arg fr) w = (Ok code, w') ∧ dev_ok (w_dev w')) →
  code <= 0 →
  runs H_open p f (store_u32 (fr_arg fr) v ;; lib env (by_address cmd)) code H_open p f.
Proof.
  intros Hv Hioctl Hcode s (Hok & Hh & <- & <-).
  set (q := upd_device (en_interference env (u_calls s)) (upd_user (λ u,
    {| fm_bytes := fm_write (fm_bytes u) (fr_arg fr) (encode (u32 v)) |}) (u_proc s))).
  assert (Hq : has_handle q) by exact Hh.
  destruct (Hioctl (p_world q)) as (w' & Hr & Hok').
  { cbn. by apply ld_interference. }
  { unfold q. cbn -[encode fm_read fm_write]. rewrite u32_id by done.
    exact (fm_read_write (fm_bytes (w_user (p_world (u_proc s)))) (fr_arg fr) (encode v)). }
  destruct (locked_ioctl_run HZ cmd (fr_arg fr) q code w' Hq Hr) as [e He].
  eexists. split.
  - assert (Hcall : by_address cmd q =
      (Ok (if code <? 0 then code else 0), Build_process flatmem w' e (p_fds q) (p_handle q))).
    { unfold by_address, call. rewrite (KM_bind_ok _ _ _ _ _ (check_handle_ok q Hq)). by rewrite He. }
    unfold store_u32, store, lib, zoom. unfold mbind, KM_bind, modify.
    cbn [u_proc count_call set_u_proc u_calls].
    fold q. rewrite Hcall. by replace (if code <? 0 then code else 0) with code by
      (destruct (Z.ltb_spec code 0); lia).
  - by split_and!.
Qed.

Lemma encode_u32_inj (v v' : Z) : is_u32 v → representable v' → encode v' = encode v → v' = v.
Proof.
  intros Hv Hr He. apply (encode_inj v' v Hr); [|done]. split; [done|]. cbn.
  unfold is_u32 in Hv. constructor; [|constructor]. unfold fits. lia.
Qed.

Lemma cancel_nonexist_runs p f : runs H_open p f (cancel_task HZ env fr 999999) (- ENOENT) H_open p f.
Proof.
  apply (arg_runs 999999 LIB_IOCTL_CANCEL_TASK); [by unfold is_u32|intros w Hok Hc|done].
  pose proof (ioctl_cancel_run HZ (fr_arg fr) w Hok) as Hr. rewrite Hc in Hr.
  destruct Hr as (id & He & Hrep & Hr). apply encode_u32_inj in He as ->; [|by unfold is_u32|done].
  exists w. split; [|done]. change LIB_IOCTL_CANCEL_TASK with CORTEX_FORGE_IOCTL_CANCEL_TASK.
  rewrite Hr. destruct (find_task 999999 (w_dev w)) as [[i t]|] eqn:Hf; [|done].
  apply find_task_Some in Hf as (Ht & Hid & _). pose proof (pi_id _ (dok_pool _ Hok) i t Ht).
  pose proof (accounted_next _ (dok_accounted _ Hok) (dok_pool _ Hok)). lia.
Qed.

Lemma set_power_runs p f : runs H_open p f (set_power HZ env fr 1) 0 H_open p f.
Proof.
  apply (arg_runs 1 LIB_IOCTL_SET_POWER); [by unfold is_u32|intros w Hok Hc|done].
  pose proof (ioctl_checked_u32_run HZ CORTEX_FORGE_IOCTL_SET_POWER 2 (fr_arg fr) w
    ltac:(by left)) as Hr. rewrite Hc in Hr.
  destruct Hr as (v & He & Hrep & Hr). apply encode_u32_inj in He as ->; [|by unfold is_u32|done].
  exists w. by split.
Qed.

(** GET_VERSION into a mapped [u32]: the version is there afterwards. *)
Lemma version_ioctl q v0 :
  has_handle q → fm_read (fm_bytes (w_user (p_world q))) (fr_version fr) 4 = Some (encode (u32 v0)) →
  ∃ q', cortex_forge_get_version HZ (fr_version fr) q = (Ok 0, q') ∧
    w_dev (p_world q') = w_dev (p_world q) ∧ has_handle q' ∧
    fm_read (fm_bytes (w_user (p_world q'))) (fr_version fr) 4 = Some (encode 0x00010000).
Proof.
  intros Hq Hm.
  set (w' := set_w_user {| fm_bytes := fm_write (fm_bytes (w_user (p_world q))) (fr_version fr)
    (encode 0x00010000) |} (p_world q)).
  assert (Hr : cortex_forge_ioctl HZ LIB_IOCTL_GET_VERSION (fr_version fr) (p_world q) = (Ok 0, w')).
  { change LIB_IOCTL_GET_VERSION with CORTEX_FORGE_IOCTL_GET_VERSION.
    rewrite (proj1 (ioctl_constant_run HZ (fr_version fr) (p_world q))).
    unfold copy_to_user, flatmem_usermem.
    change (length (encode 0x00010000)) with 4%nat. by rewrite Hm. }
  destruct (locked_ioctl_run HZ LIB_IOCTL_GET_VERSION (fr_version fr) q 0 w' Hq Hr) as [e He].
  eexists. split; [|split_and!].
  - unfold cortex_forge_get_version, call.
    rewrite (KM_bind_ok _ _ _ _ _ (check_pointer_ok (fr_version fr) q Hq (ld_version Hload))).
    rewrite He. reflexivity.
  - done.
  - exact Hq.
  - exact (fm_read_write (fm_bytes (w_user (p_world q))) (fr_version fr) (encode 0x00010000)).
Qed.

Lemma version_runs v0 (k : KM suite unit) p f p' f' :
  runs H_open p f k () H_any p' f' →
  runs H_open p f (store_u32 (fr_version fr) v0 ;;
    r ← get_version HZ env (fr_version fr); v ← load_u32 (fr_version fr);
    fail_if env (negb (r =? 0) || (v =? 0)) ;; k) () H_any p' f'.
Proof.
  intros Hk s (Hok & Hh & <- & <-).
  set (q := upd_device (en_interference env (u_calls s)) (upd_user (λ u,
    {| fm_bytes := fm_write (fm_bytes u) (fr_version fr) (encode (u32 v0)) |}) (u_proc s))).
  destruct (version_ioctl q v0) as (q' & Hr & Hd & Hq' & Hm).
  { exact Hh. }
  { exact (fm_read_write (fm_bytes (w_user (p_world (u_proc s)))) (fr_version fr) (encode (u32 v0))). }
  set (s1 := {| u_proc := q'; u_passed := u_passed s; u_failed := u_failed s;
                u_calls := S (u_calls s) |}).
  destruct (Hk s1) as (s' & E & Hs').
  { split_and!; try done. cbn. rewrite Hd. by apply ld_interference. }
  exists s'. split; [|done]. rewrite <- E.
  unfold store_u32, store, get_version, lib, zoom, load_u32. unfold mbind at 1 2 3 4 5, KM_bind, modify.
  cbn [u_proc count_call set_u_proc u_calls]. fold q. rewrite Hr.
  cbn [u_proc count_call set_u_proc u_calls]. rewrite Hm. reflexivity.
Qed.

(** The handle passed is NULL: the library refuses before anything else. *)
Lemma null_runs (m : KM (process flatmem) Z) p f :
  (∀ q, p_handle q = None → m q = (Ok (- EINVAL), q)) →
  runs H_null p f (expect_EINVAL (lib env m)) () H_null p f.
Proof.
  intros Hm. apply (runs_bind _ _ _ _ (- EINVAL) H_null p f); [|apply runs_ret].
  apply lib_runs. intros q Hok Hq. exists q. by rewrite Hm.
Qed.

Lemma null_handle_runs p f : runs H_any p f (t_null_handle HZ env fr) () H_any (S p) f.
Proof.
  assert (Hcancel : ∀ p f, runs H_null p f (expect_EINVAL (cancel_task HZ env fr 0)) () H_null p f).
  { intros p' f'. apply (runs_bind _ _ _ _ (- EINVAL) H_null p' f'); [|apply runs_ret].
    eapply runs_bind; [apply store_runs|]. apply lib_runs. intros q Hok Hq. exists q.
    destruct q as [w e fds h]. cbn in Hq. by subst h. }
  apply test_runs. eapply runs_bind with (o1 := H_null) (x := ()).
  { apply lib_runs. intros q Hok _. eexists. split; [reflexivity|]. by split. }
  do 2 (eapply runs_bind; [apply null_runs; intros [w e fds h]; cbn; by intros ->|]).
  eapply runs_bind; [apply Hcancel|].
  do 2 (eapply runs_bind; [apply null_runs; intros [w e fds h]; cbn; by intros ->|]).
  intros s Hs. destruct (P_runs H_null p f s Hs) as (s' & E & ? & _ & ?). by exists s'.
Qed.

(** *** The outcome of each test *)

Definition passes (t : KM suite unit) : Prop := ∀ p f, runs H_any p f t () H_any (S p) f.
Definition fails (t : KM suite unit) : Prop := ∀ p f, runs H_any p f t () H_any p (S f).

Lemma any_runs {A} o p f (m : KM suite A) x o' p' f' :
  runs o p f m x o' p' f' → runs o p f m x H_any p' f'.
Proof. intros Hm s Hs. destruct (Hm s Hs) as (s' & E & ? & _ & ?). by exists s'. Qed.

(** The end of a test that passes. *)
Lemma close_P_runs p f : runs H_open p f (close env ;; P) () H_any (S p) f.
Proof. eapply runs_bind; [apply handle_close_runs|apply P_runs]. Qed.

(** A test on the open device. *)
Lemma device_runs p f (k : KM suite unit) p' f' :
  runs H_open p f k () H_any p' f' → runs H_any p f (test (with_device env ;; k)) () H_any p' f'.
Proof. intros Hk. apply test_runs. eapply runs_bind; [apply open_runs|done]. Qed.

Lemma device_returns p f (k : KM suite unit) p' f' :
  returns H_open p f k p' f' → runs H_any p f (test (with_device env ;; k)) () H_any p' f'.
Proof. intros Hk. apply test_returns. eapply returns_bind; [apply open_runs|done]. Qed.

(** A request refused with -ENOTTY where the test wants something else. *)
Lemma refused_fails (m : KM suite Z) (want : Z → bool) (k : KM suite unit) p f :
  runs H_open p f m (- ENOTTY) H_open p f → want (- ENOTTY) = false →
  returns H_open p f (r ← m; fail_if env (negb (want r)) ;; k) p (S f).
Proof.
  intros Hm Hw. eapply returns_bind; [exact Hm|]. apply returns_stop, fail_if_returns. by rewrite Hw.
Qed.

Lemma stored_runs (m : KM suite Z) a bs p f x :
  runs H_open p f m x H_open p f → runs H_open p f (store a bs ;; m) x H_open p f.
Proof. intros Hm. eapply runs_bind; [apply store_runs|done]. Qed.

Lemma submit_fails a b c d e (k : Z → KM suite unit) p f :
  (∀ r, r = - ENOTTY → returns H_open p f (k r) p (S f)) →
  returns H_open p f (store_desc fr a b c d e ;; r ← submit_task HZ env (fr_desc fr); k r) p (S f).
Proof.
  intros Hk. eapply returns_bind; [apply store_runs|].
  eapply returns_bind; [apply refused_runs|]. by apply Hk.
Qed.

Lemma fail_first (b : bool) (k : KM suite unit) p f :
  b = true → returns H_open p f (fail_if env b ;; k) p (S f).
Proof. intros Hb. by apply returns_stop, fail_if_returns. Qed.

Lemma refused_tests :
  Forall fails [t_submit_dla0 HZ env fr; t_submit_dla1 HZ env fr; t_submit_pva HZ env fr;
    t_submit_query HZ env fr; t_submit_cancel HZ env fr; t_invalid_type HZ env fr].
Proof.
  repeat constructor; intros p f; apply device_returns, submit_fails;
    intros r ->; by apply fail_first.
Qed.

Lemma query_nonexist_fails : fails (t_query_nonexist HZ env fr).
Proof.
  intros p f. apply device_returns. eapply returns_bind; [apply store_runs|].
  eapply returns_bind; [apply refused_runs|]. by apply fail_first.
Qed.

Lemma get_info_all_fails : fails (t_get_info_all HZ env fr).
Proof.
  intros p f. apply device_returns, returns_stop. cbn [for_loop]. apply returns_stop.
  eapply returns_bind; [apply store_runs|]. eapply returns_bind; [apply refused_runs|].
  by apply fail_if_returns.
Qed.

Lemma multiple_fails : fails (t_multiple HZ env fr).
Proof.
  intros p f. apply device_returns, returns_stop. cbn [for_loop]. apply returns_stop.
  apply submit_fails. intros r ->. by apply fail_first.
Qed.

Lemma get_version_passes v0 : passes (t_get_version HZ env fr v0).
Proof. intros p f. apply device_runs, version_runs, close_P_runs. Qed.

Lemma set_power_passes : passes (t_set_power HZ env fr).
Proof.
  intros p f. apply device_runs. eapply runs_bind; [apply set_power_runs|].
  eapply runs_bind; [by apply fail_if_runs|apply close_P_runs].
Qed.

Lemma cancel_nonexist_passes : passes (t_cancel_nonexist HZ env fr).
Proof.
  intros p f. apply device_runs. eapply runs_bind; [apply cancel_nonexist_runs|].
  eapply runs_bind; [by apply fail_if_runs|apply close_P_runs].
Qed.

Lemma open_close_passes : passes (t_open_close env).
Proof. intros p f. apply device_runs, close_P_runs. Qed.

Lemma strerror_passes strerror : passes (t_strerror strerror).
Proof. intros p f. apply test_runs. by do 3 (eapply runs_bind; [apply runs_ret|]); apply P_runs. Qed.

(** *** The four threads *)

(** What an iteration of thread [k] does to the counters. *)
Definition thread_error (td : list (nat * nat)) (k : nat) : list (nat * nat) :=
  match td !! k with
  | Some (S ops, errs) => <[k := (ops, S errs)]> td
  | _ => td
  end.

Lemma worker_iteration_runs p f :
  runs H_open p f (worker_iteration HZ env fr) true H_open p f.
Proof.
  apply runs_gets. intros n. eapply runs_bind; [apply store_runs|].
  eapply runs_bind; [apply refused_runs|]. apply runs_ret.
Qed.

Lemma run_threads_runs sched td p f :
  runs H_open p f (run_threads HZ env fr sched td) (foldl thread_error td sched) H_open p f.
Proof.
  revert td. induction sched as [|k sched IH]; intros td; cbn [run_threads foldl]; [apply runs_ret|].
  unfold thread_error at 2. destruct (td !! k) as [[[|ops] errs]|]; [apply IH| |apply IH].
  eapply runs_bind; [apply worker_iteration_runs|]. apply IH.
Qed.

Lemma thread_errors sched td k ops errs :
  td !! k = Some (ops, errs) →
  let n := length (filter (λ j, j = k) sched) in
  foldl thread_error td sched !! k = Some (ops - n, errs + (ops `min` n))%nat.
Proof.
  revert td ops errs. induction sched as [|j sched IH]; intros td ops errs Hk; cbn [foldl].
  { cbn. rewrite Hk. do 2 f_equal; lia. }
  rewrite filter_cons. unfold thread_error at 2. destruct (decide (j = k)) as [->|Hne].
  - rewrite Hk. destruct ops as [|ops].
    + rewrite (IH td 0%nat errs Hk). cbn. do 2 f_equal; lia.
    + rewrite (IH _ ops (S errs)); [cbn; do 2 f_equal; lia|].
      apply list_lookup_insert_eq. by eapply lookup_lt_Some.
  - destruct (td !! j) as [[[|n] e]|]; [by apply IH| |by apply IH].
    apply IH. by rewrite list_lookup_insert_ne.
Qed.

Lemma sum_list_lookup_le (l : list nat) k n : l !! k = Some n → (n ≤ sum_list l)%nat.
Proof.
  revert k. induction l as [|m l IH]; intros [|k] Hk; cbn in *; [done..| |].
  - simplify_eq. lia.
  - specialize (IH k Hk). lia.
Qed.

(** Every iteration of every thread is an error. *)
Lemma concurrent_fails : fails (t_concurrent HZ env fr).
Proof.
  intros p f. apply device_returns. eapply returns_bind; [apply run_threads_runs|].
  eapply returns_bind; [apply handle_close_runs|]. apply returns_stop.
  pose proof (thread_errors (en_sched env) (replicate 4 (25%nat, 0%nat)) 0 25 0 eq_refl) as Ht.
  cbn zeta in Ht. pose proof (ld_sched Hload 0 ltac:(lia)) as Hn.
  pose proof (sum_list_lookup_le (snd <$> foldl thread_error (replicate 4 (25%nat, 0%nat)) (en_sched env)) 0
    (25 `min` length (filter (λ j, j = 0%nat) (en_sched env)))) as Hle.
  rewrite list_lookup_fmap, Ht in Hle. specialize (Hle eq_refl).
  rewrite (proj2 (Nat.ltb_lt _ _)) by lia.
  eapply returns_bind; [apply F_runs|]. intros s Hs. by exists s.
Qed.

(** *** The whole program *)

Lemma suite_runs v0 strerror : runs H_any 0 0 (suite_main HZ env fr v0 strerror) 1 H_any 6 10.
Proof.
  pose proof refused_tests as Hf. repeat (apply Forall_cons in Hf as [? Hf]).
  pose proof open_close_passes. pose proof get_info_all_fails. pose proof (get_version_passes v0).
  pose proof set_power_passes. pose proof query_nonexist_fails. pose proof cancel_nonexist_passes.
  pose proof multiple_fails. pose proof (strerror_passes strerror). pose proof concurrent_fails.
  pose proof null_handle_runs.
  eapply (runs_bind _ _ _ _ () H_any 6 10); cycle 1.
  { intros s Hs. exists s. split; [|done]. destruct Hs as (_ & _ & _ & Hn). km_unfold. by rewrite Hn. }
  unfold tests. cbn [foldr]. repeat (eapply runs_bind; [by eauto|]). apply runs_ret.
Qed.

(** C31: The shipped test program fails on a loaded driver.  Whatever the
    workers and other processes do between its calls, on any well formed device
    and in any order of its threads, 6 of its 16 tests pass and 10 fail, and it
    exits with 1: the library's SUBMIT_TASK, QUERY_TASK and GET_ACCEL_INFO are
    answered -ENOTTY, which the tests for invalid arguments do not accept
    either. *)
Theorem suite_result v0 strerror s :
  dev_ok (w_dev (p_world (u_proc s))) → u_passed s = 0%nat → u_failed s = 0%nat →
  ∃ s', suite_main HZ env fr v0 strerror s = (Ok 1, s') ∧
    u_passed s' = 6%nat ∧ u_failed s' = 10%nat.
Proof.
  intros Hok Hp Hf. destruct (suite_runs v0 strerror s) as (s' & E & _ & _ & ? & ?); [by split_and!|].
  by exists s'.
Qed.
End SuiteSpec.

(** ** On a concrete machine: the device as probe left it, nothing else running *)

Definition demo_env : environment :=
  {| en_interference _ d := d; en_open_ret _ := 3; en_calloc_ok _ := true; en_rand _ := 7;
     en_sched := concat (replicate 25 [2; 0; 3; 1]%nat) |}.
Definition demo_frame : frame :=
  {| fr_desc := 4096; fr_status := 4200; fr_info := 4300; fr_version := 4400; fr_ids := 4500;
     fr_arg := 4600 |}.
Definition demo_suite : suite :=
  {| u_proc := {| p_world := demo_user; p_errno := 0; p_fds := []; p_handle := None |};
     u_passed := 0; u_failed := 0; u_calls := 0 |}.

Lemma demo_loaded : loaded demo_env demo_frame.
Proof.
  split; try done. intros [|[|[|[|k]]]] Hk; [by vm_compute; lia..|lia].
Qed.

Lemma suite_result_witness :
  ∃ s', suite_main 250 demo_env demo_frame 0 (λ _, "?"%string) demo_suite = (Ok 1, s') ∧
    u_passed s' = 6%nat ∧ u_failed s' = 10%nat.
Proof.
  apply (suite_result 250 demo_env demo_frame demo_loaded); [exact boot_dev_ok|reflexivity|reflexivity].
Defined.
