(* ===== verification/EdgeCases.v ===== *)
(** * The edge-case tests: test/test_edge_cases.cpp

    The five cases of the file as clients of the library, on the program state
    and environment of TestSuite.v.  The file is in no build and includes
    neither the library's header nor those of std::thread and std::vector; it is
    read as if it did.  A REQUIRE that fails ends its case there and then, before
    the case closes its handle; SKIP ends a case that cannot open the device. *)

From S2P Require Import Prelude CLayout Device UserMem Uapi TaskManager Pool AccelManager DevInit Chardev IoctlSpec Lib TestSuite.

Section Edge.
Context (HZ : Z) (env : environment) (fr : frame).

(** [REQUIRE(b)] *)
Definition REQUIRE (b : bool) : KM suite unit := if b then mret () else F ;; return_ 0.

(** [memset(&desc, 0, sizeof(desc))] and assignments to its fields. *)
Definition zero_desc : KM suite unit := store_desc fr 0 0 0 0 0.
Definition set_accel_type (v : Z) : KM suite unit := store_u32 (fr_desc fr + 4) v.
Definition set_priority (v : Z) : KM suite unit := store_u32 (fr_desc fr + 8) v.
Definition set_input_size (v : Z) : KM suite unit := store_u32 (fr_desc fr + 12) v.
Definition set_output_size (v : Z) : KM suite unit := store_u32 (fr_desc fr + 16) v.
Definition set_flags (v : Z) : KM suite unit := store_u32 (fr_desc fr + 44) v.
Definition submit : KM suite Z := submit_task HZ env (fr_desc fr).

(** A case that reaches its end. *)
Definition case (m : KM suite unit) : KM suite unit := test (m ;; P).

Definition null_input : KM suite unit := case (
  zero_desc ;;
  lib env (set_handle None) ;;
  ret ← submit; REQUIRE (ret =? - EINVAL) ;;
  ret ← query_task HZ env 0; REQUIRE (ret =? - EINVAL) ;;
  ret ← cancel_task HZ env fr 0; REQUIRE (ret =? - EINVAL)).

Definition empty_input : KM suite unit := case (
  with_device env ;;
  zero_desc ;; set_accel_type 0 ;; set_input_size 0 ;; set_output_size 0 ;;
  ret ← submit; REQUIRE (ret =? 0) ;;
  task_id ← load_u32 (fr_desc fr); REQUIRE (0 <? task_id) ;;
  close env).

Definition boundary_values : KM suite unit := case (
  with_device env ;;
  zero_desc ;; set_accel_type 2 ;; set_input_size 1024 ;; set_output_size 1024 ;;
  ret ← submit; REQUIRE (ret =? 0) ;;
  set_accel_type 99 ;;
  ret ← submit; REQUIRE (ret =? - EINVAL) ;;
  set_accel_type 0 ;; set_priority 255 ;;
  ret ← submit; REQUIRE (ret =? 0) ;;
  close env).

(** The body of a thread's loop, and [errors]: [ops] is what each thread has
    left to do. *)
Definition thread_submission : KM suite bool :=
  n ← gets u_calls;
  zero_desc ;;
  set_accel_type (en_rand env (2 * n) `mod` 3) ;; set_priority (en_rand env (2 * n + 1) `mod` 256) ;;
  set_input_size 1024 ;; set_output_size 1024 ;;
  ret ← submit; mret (negb (ret =? 0)).

Fixpoint submissions (sched : list nat) (ops : list nat) (errors : nat) : KM suite nat :=
  match sched with
  | [] => mret errors
  | t :: sched' =>
      match ops !! t with
      | Some (S n) =>
          err ← thread_submission;
          submissions sched' (<[t := n]> ops) (if (err : bool) then S errors else errors)
      | _ => submissions sched' ops errors
      end
  end.

Definition concurrent_access : KM suite unit := case (
  with_device env ;;
  errors ← submissions (en_sched env) (replicate 4 25%nat) 0;
  REQUIRE (errors =? 0)%nat ;;
  close env).

Definition cleanup_on_error : KM suite unit := case (
  with_device env ;;
  zero_desc ;; set_accel_type 0 ;; set_flags 0xDEAD ;;
  ret ← submit; REQUIRE (ret =? - EINVAL) ;;
  set_flags 0 ;;
  ret ← submit; REQUIRE (ret =? 0) ;;
  close env).

Definition edge_cases : list (KM suite unit) :=
  [null_input; empty_input; boundary_values; concurrent_access; cleanup_on_error].

(** ** What they do on a loaded driver *)

Hypothesis Hload : loaded env fr.

(** [m] leaves the case early. *)
Definition leaves {A} (o : hmode) (p f : nat) (m : KM suite A) (o' : hmode) (p' f' : nat) : Prop :=
  ∀ s, at_score o p f s → ∃ s', m s = (Ret 0, s') ∧ at_score o' p' f' s'.

Lemma leaves_bind {A B} o p f (m : KM suite A) x o1 p1 f1 (k : A → KM suite B) o2 p2 f2 :
  runs o p f m x o1 p1 f1 → leaves o1 p1 f1 (k x) o2 p2 f2 → leaves o p f (m ≫= k) o2 p2 f2.
Proof.
  intros Hm Hk s Hs. destruct (Hm s Hs) as (s1 & E & Hs1). destruct (Hk s1 Hs1) as (s2 & E2 & Hs2).
  exists s2. split; [|done]. by rewrite (KM_bind_ok _ _ _ _ _ E).
Qed.

Lemma leaves_stop {A B} o p f (m : KM suite A) (k : A → KM suite B) o1 p1 f1 :
  leaves o p f m o1 p1 f1 → leaves o p f (m ≫= k) o1 p1 f1.
Proof.
  intros Hm s Hs. destruct (Hm s Hs) as (s1 & E & Hs1). exists s1. split; [|done].
  by rewrite (KM_bind_ret _ _ _ _ _ E).
Qed.

Lemma require_leaves o p f (b : bool) : b = false → leaves o p f (REQUIRE b) o p (S f).
Proof. intros ->. eapply leaves_bind; [apply F_runs|]. intros s Hs. by exists s. Qed.

Lemma require_runs o p f (b : bool) : b = true → runs o p f (REQUIRE b) () o p f.
Proof. intros ->. apply runs_ret. Qed.

(** A failing case: one failure more, and its handle is not closed. *)
Definition leaks (t : KM suite unit) : Prop := ∀ p f, runs H_any p f t () H_open p (S f).

Lemma case_leaks (k : KM suite unit) :
  (∀ p f, leaves H_open p f k H_open p (S f)) → leaks (case (with_device env ;; k)).
Proof.
  intros Hk p f s Hs.
  destruct (leaves_stop _ _ _ (with_device env ;; k) (λ _, P) H_open p (S f)
    (leaves_bind _ _ _ _ _ _ _ _ _ _ _ _ (open_runs env fr Hload p f) (Hk p f)) s Hs) as (s' & E & Hs').
  exists s'. unfold case, test. by rewrite E.
Qed.

Lemma submit_runs p f : runs H_open p f submit (- ENOTTY) H_open p f.
Proof. apply (refused_runs HZ env fr Hload). Qed.

(** The first submission of a case is refused with -ENOTTY, which it does not
    expect. *)
Ltac refused :=
  apply case_leaks; intros p f;
  repeat (eapply leaves_bind; [apply store_runs|]);
  (eapply leaves_bind; [apply submit_runs|]); by apply leaves_stop, require_leaves.

Lemma empty_leaks : leaks empty_input.
Proof. refused. Qed.

Lemma boundary_leaks : leaks boundary_values.
Proof. refused. Qed.

Lemma cleanup_leaks : leaks cleanup_on_error.
Proof. refused. Qed.

Lemma thread_submission_runs p f : runs H_open p f thread_submission true H_open p f.
Proof.
  apply runs_gets. intros n. repeat (eapply runs_bind; [apply store_runs|]).
  eapply runs_bind; [apply submit_runs|]. apply runs_ret.
Qed.

(** What a schedule counts: each submission is an error. *)
Fixpoint refusals (sched ops : list nat) (errors : nat) : nat :=
  match sched with
  | [] => errors
  | t :: sched' =>
      match ops !! t with
      | Some (S n) => refusals sched' (<[t := n]> ops) (S errors)
      | _ => refusals sched' ops errors
      end
  end.

Lemma submissions_runs sched ops errors p f :
  runs H_open p f (submissions sched ops errors) (refusals sched ops errors) H_open p f.
Proof.
  revert ops errors. induction sched as [|t sched IH]; intros ops errors; cbn [submissions refusals];
    [apply runs_ret|].
  destruct (ops !! t) as [[|n]|]; [apply IH| |apply IH].
  eapply runs_bind; [apply thread_submission_runs|apply IH].
Qed.

(** With as many turns for each thread as it has submissions, they are all
    made: the sum of what is left falls to 0. *)
Lemma refusals_all sched ops errors :
  (∀ t n, ops !! t = Some n → n ≤ length (filter (λ j, j = t) sched))%nat →
  refusals sched ops errors = (errors + sum_list ops)%nat.
Proof.
  revert ops errors. induction sched as [|t sched IH]; intros ops errors Hn; cbn [refusals].
  { assert (H0 : sum_list ops = 0%nat); [|lia]. induction ops as [|n ops IH]; [done|]. cbn.
    rewrite IH by (intros t m Ht; exact (Hn (S t) m Ht)). pose proof (Hn 0%nat n eq_refl) as H. cbn in H. lia. }
  assert (Hf : ∀ u, length (filter (λ j, j = u) (t :: sched)) =
    ((if decide (t = u) then 1 else 0) + length (filter (λ j, j = u) sched))%nat).
  { intros u. rewrite filter_cons. by case_decide. }
  destruct (ops !! t) as [[|n]|] eqn:Ht.
  - apply IH. intros u m Hu. pose proof (Hn u m Hu) as H. rewrite Hf in H.
    destruct (decide (t = u)); [subst; simplify_eq; lia|lia].
  - rewrite IH; cycle 1.
    { intros u m. rewrite list_lookup_insert_Some. intros [(<- & <- & _)|[Hne Hu]].
      - pose proof (Hn t _ Ht) as H. rewrite Hf, decide_True in H by done. lia.
      - pose proof (Hn u m Hu) as H. by rewrite Hf, decide_False in H. }
    assert (Hs : (sum_list (<[t := n]> ops) + S n = sum_list ops + n)%nat); [|lia].
    clear -Ht. revert t Ht. induction ops as [|m ops IH]; intros [|t] Ht; cbn in *; [done..| |].
    + injection Ht as ->. lia.
    + specialize (IH t Ht). unfold insert in *. lia.
  - apply IH. intros u m Hu. pose proof (Hn u m Hu) as H. rewrite Hf, decide_False in H by congruence. lia.
Qed.

Lemma concurrent_leaks : leaks concurrent_access.
Proof.
  apply case_leaks; intros p f. eapply leaves_bind; [apply submissions_runs|].
  apply leaves_stop, require_leaves. rewrite refusals_all; [done|].
  intros t n [-> Ht]%lookup_replicate. by apply Hload.
Qed.

(** The library refuses the NULL handle before anything else. *)
Lemma null_refused (m : KM (process flatmem) Z) p f :
  (∀ q, p_handle q = None → m q = (Ok (- EINVAL), q)) → runs H_null p f (lib env m) (- EINVAL) H_null p f.
Proof. intros Hm. apply (lib_runs env fr Hload). intros q Hok Hq. exists q. by rewrite Hm. Qed.

Lemma null_input_passes p f : runs H_any p f null_input () H_null (S p) f.
Proof.
  apply test_runs. eapply runs_bind; [|apply P_runs].
  eapply runs_bind; [apply store_runs|].
  eapply runs_bind with (o1 := H_null) (x := ()).
  { apply (lib_runs env fr Hload). intros q Hok _. eexists. split; [reflexivity|]. by split. }
  do 2 (eapply runs_bind; [apply null_refused; intros [w e fds h]; cbn; by intros ->|];
        eapply runs_bind; [by apply require_runs|]).
  apply (runs_bind _ _ _ _ (- EINVAL) H_null p f); [|by apply require_runs].
  eapply runs_bind; [apply store_runs|]. apply null_refused. intros [w e fds h]. cbn. by intros ->.
Qed.

(** The edge-case tests on a loaded driver.  Whatever the workers and other
    processes do between the library's calls, on any well formed device and in
    any order of the threads, the case on NULL handles passes; each of the other
    four fails at its first REQUIRE, because its submissions (all hundred, for
    the four threads) are answered -ENOTTY, and leaves its handle open. *)
Theorem edge_result :
  (∀ p f, runs H_any p f null_input () H_null (S p) f) ∧
  Forall leaks [empty_input; boundary_values; concurrent_access; cleanup_on_error] ∧
  ∀ p f, runs H_open p f (submissions (en_sched env) (replicate 4 25%nat) 0) 100%nat H_open p f.
Proof.
  split_and!.
  - apply null_input_passes.
  - repeat constructor; [apply empty_leaks|apply boundary_leaks|apply concurrent_leaks|apply cleanup_leaks].
  - intros p f. pose proof (submissions_runs (en_sched env) (replicate 4 25%nat) 0 p f) as H.
    rewrite refusals_all in H; [done|]. intros t n [-> Ht]%lookup_replicate. by apply Hload.
Qed.
End Edge.
