(* ===== verification/StressTool.v ===== *)
(** * The stress tool: test/cortex-forge_stress.c

    Four threads, each with a handle of its own, wait for each other on a
    barrier and then make a hundred submissions each.  The threads' statements
    interleave in any order, with anything the rest of the system does to the
    device.  pthread_barrier_wait blocks until as many threads have called it as
    the barrier was initialised with; main returns once every thread has.
    printf, srand and time are left out; what rand answers is a parameter. *)

From S2P Require Import Prelude CLayout Device UserMem Uapi TaskManager Pool AccelManager DevInit Chardev IoctlSpec Lib TestSuite.

Definition NUM_THREADS : nat := 4.
Definition OPS_PER_THREAD : nat := 100.

(** ** The threads *)

Inductive spc : Type :=
  | S_open                      (* h = cortex_forge_open(...); if (!h) return; *)
  | S_barrier                   (* pthread_barrier_wait(&g_barrier) *)
  | S_blocked                   (* ... inside *)
  | S_submit (i : nat)          (* the loop's test; cortex_forge_submit_task *)
  | S_query (i : nat)           (* cortex_forge_query_task *)
  | S_cancel (i : nat)          (* if (rand() % 2 == 0) cortex_forge_cancel_task *)
  | S_close
  | S_return.

#[export] Instance spc_eq_dec : EqDecision spc.
Proof. solve_decision. Defined.

(** [sx_accepted]: the submissions the library answered with 0. *)
Record stress : Type := {
  sx_dev : dev;
  sx_threads : list (spc * process flatmem);
  sx_arrived : nat;
  sx_accepted : nat;
}.

(** Answers of the C library to thread [k], and its locals. *)
Record stress_env : Type := {
  se_open_ret : nat → Z;
  se_calloc_ok : nat → bool;
  se_rand : nat → nat → Z;      (* the [n]-th answer of rand to thread [k] *)
  se_desc : nat → Z;            (* struct cortex_forge_task_desc desc *)
  se_status : nat → Z;          (* struct cortex_forge_task_status status *)
  se_arg : nat → Z;             (* the library's uint32_t id *)
}.

Inductive sevent : Type :=
  | SE_thread (k : nat)
  | SE_device (f : dev → dev).  (* the rest of the system *)

Section Stress.
Context (HZ : Z) (env : stress_env).

Definition snext (k : nat) (pc : spc) (p : process flatmem) (arrived accepted : nat) (x : stress)
    : stress :=
  {| sx_dev := w_dev (p_world p); sx_threads := <[k := (pc, p)]> (sx_threads x);
     sx_arrived := arrived; sx_accepted := accepted |}.

(** A call of the library, and where the thread goes on with its answer. *)
Definition after_call {A} (k : nat) (r : res A * process flatmem)
    (next : A → process flatmem → spc) (accepted : A → nat) (x : stress) : option (res () * stress) :=
  match r with
  | (Ok v, p') => Some (Ok (), snext k (next v p') p' (sx_arrived x) (sx_accepted x + accepted v) x)
  | (_, p') => Some (Oops, x)
  end.

Definition none {A} : A → nat := λ _, O.

(** The three random numbers an iteration can use. *)
Definition rand_of (k i j : nat) : Z := se_rand env k (3 * i + j).

(** [memset(&desc, 0, sizeof(desc))] and the assignments *)
Definition desc_bytes (k i : nat) : list cbyte :=
  enc_chunks (chunks lp64 lib_task_desc_decl)
    [0; rand_of k i 0 `mod` 3; rand_of k i 1 `mod` 256; 1024; 1024; 0; 0; 0; 0; 0].
Definition status_bytes (task_id : Z) : list cbyte :=
  enc_chunks (chunks lp64 lib_task_status_decl) [task_id; 0; 0; 0; 0].

Definition stored (a : Z) (bs : list cbyte) (p : process flatmem) : process flatmem :=
  upd_user (λ u, {| fm_bytes := fm_write (fm_bytes u) a bs |}) p.

(** [desc.task_id] *)
Definition desc_task_id (k : nat) (p : process flatmem) : option Z :=
  LittleEndianList.le_combine <$> fm_read (fm_bytes (w_user (p_world p))) (se_desc env k) 4.

Definition worker_thread (k : nat) (pc : spc) (p : process flatmem) (x : stress)
    : option (res () * stress) :=
  match pc with
  | S_open =>
      after_call k (cortex_forge_open (se_open_ret env k) (se_calloc_ok env k) (Some DEVICE) p)
        (λ _ p', if bool_decide (p_handle p' = None) then S_return else S_barrier) none x
  | S_barrier => Some (Ok (), snext k S_blocked p (S (sx_arrived x)) (sx_accepted x) x)
  | S_blocked =>
      if (NUM_THREADS <=? sx_arrived x)%nat then
        Some (Ok (), snext k (S_submit 0) p (sx_arrived x) (sx_accepted x) x)
      else None
  | S_submit i =>
      if (i <? OPS_PER_THREAD)%nat then
        after_call k (cortex_forge_submit_task HZ (se_desc env k) (stored (se_desc env k) (desc_bytes k i) p))
          (λ ret _, if ret =? 0 then S_query i else S_submit (S i))
          (λ ret, if ret =? 0 then 1%nat else O) x
      else Some (Ok (), snext k S_close p (sx_arrived x) (sx_accepted x) x)
  | S_query i =>
      match desc_task_id k p with
      | Some task_id =>
          after_call k (cortex_forge_query_task HZ (se_status env k)
                          (stored (se_status env k) (status_bytes task_id) p))
            (λ _ _, S_cancel i) none x
      | None => Some (Oops, x)
      end
  | S_cancel i =>
      if rand_of k i 2 `mod` 2 =? 0 then
        match desc_task_id k p with
        | Some task_id =>
            after_call k (cortex_forge_cancel_task HZ (se_arg env k)
                            (stored (se_arg env k) (encode (u32 task_id)) p))
              (λ _ _, S_submit (S i)) none x
        | None => Some (Oops, x)
        end
      else Some (Ok (), snext k (S_submit (S i)) p (sx_arrived x) (sx_accepted x) x)
  | S_close => after_call k (cortex_forge_close p) (λ _ _, S_return) none x
  | S_return => None
  end.

(** The thread sees the device as it is now. *)
Definition stress_exec (e : sevent) (x : stress) : option (res () * stress) :=
  match e with
  | SE_device f =>
      Some (Ok (), {| sx_dev := f (sx_dev x); sx_threads := sx_threads x;
                      sx_arrived := sx_arrived x; sx_accepted := sx_accepted x |})
  | SE_thread k =>
      '(pc, p) ← sx_threads x !! k;
      worker_thread k pc (upd_device (λ _, sx_dev x) p) x
  end.

Fixpoint stress_run (es : list sevent) (x : stress) : res () * stress :=
  match es with
  | [] => (Ok (), x)
  | e :: es' =>
      match stress_exec e x with
      | None => stress_run es' x
      | Some (Oops, x') => (Oops, x')
      | Some (_, x') => stress_run es' x'
      end
  end.

(** main has created the threads. *)
Definition stress_init (d : dev) (ps : list (process flatmem)) : stress :=
  {| sx_dev := d; sx_threads := pair S_open <$> ps; sx_arrived := 0; sx_accepted := 0 |}.

(** The last pthread_join returns. *)
Definition stress_complete (x : stress) : Prop := Forall (λ t, t.1 = S_return) (sx_threads x).
End Stress.

(** ** What the tool does *)

Section StressSpec.
Context (HZ : Z) (env : stress_env).

(** No local is at address 0. *)
Hypothesis desc_not_null : ∀ k, se_desc env k ≠ 0.

(** Thread [k] can open the device. *)
Definition opens (k : nat) : Prop := 0 <= se_open_ret env k ∧ se_calloc_ok env k = true.
#[local] Instance opens_dec k : Decision (opens k).
Proof. unfold opens. apply _. Defined.

(** The thread has called pthread_barrier_wait. *)
Definition arrived (pc : spc) : bool :=
  match pc with S_open | S_barrier => false | _ => true end.
Definition past_barrier (pc : spc) : bool :=
  match pc with S_submit _ | S_close => true | _ => false end.

(** Thread [k] of the tool, by where it is. *)
Definition thread_fits (k : nat) (n : nat) (pc : spc) (p : process flatmem) : Prop :=
  match pc with
  | S_open => True
  | S_query _ | S_cancel _ => False
  | S_return => opens k → (NUM_THREADS ≤ n)%nat
  | _ => opens k ∧ has_handle p ∧ (past_barrier pc = true → (NUM_THREADS ≤ n)%nat)
  end.

(** The threads that have reached the barrier. *)
Definition at_barrier (x : stress) (k : nat) : Prop :=
  opens k ∧ ∃ t, sx_threads x !! k = Some t ∧ arrived t.1 = true.

Record stress_inv (x : stress) : Prop := {
  sv_threads : length (sx_threads x) = NUM_THREADS;
  sv_fits : ∀ k pc p, sx_threads x !! k = Some (pc, p) → thread_fits k (sx_arrived x) pc p;
  sv_arrived : ∃ l, NoDup l ∧ length l = sx_arrived x ∧ ∀ k, k ∈ l ↔ at_barrier x k;
  sv_accepted : sx_accepted x = O;
}.

(** *** Its calls of the library *)

Lemma tool_submit_run k (p : process flatmem) : has_handle p →
  ∃ p', cortex_forge_submit_task HZ (se_desc env k) p = (Ok (- ENOTTY), p') ∧
    has_handle p' ∧ p_world p' = p_world p.
Proof.
  intros Hh. eexists. split.
  - unfold cortex_forge_submit_task. apply refused_run; [apply lib_unknown_requests|done|done].
  - split; [|done]. by destruct Hh as (h & ? & ?); exists h.
Qed.

Lemma tool_open_run k (p : process flatmem) :
  ∃ p', cortex_forge_open (se_open_ret env k) (se_calloc_ok env k) (Some DEVICE) p = (Ok (), p') ∧
    p_world p' = p_world p ∧ (if decide (opens k) then has_handle p' else p_handle p' = None).
Proof.
  unfold cortex_forge_open. destruct (Z.ltb_spec (se_open_ret env k) 0) as [Ho|Ho].
  - eexists. split; [reflexivity|]. split; [done|]. rewrite decide_False by (intros []; lia). done.
  - destruct (se_calloc_ok env k) eqn:Hc; eexists; (split; [reflexivity|]); (split; [done|]).
    + rewrite decide_True by done. by eexists.
    + rewrite decide_False by (intros []; congruence). done.
Qed.

(** *** The invariant *)

Lemma fits_more k n n' pc p : (n ≤ n')%nat → thread_fits k n pc p → thread_fits k n' pc p.
Proof. intros Hn. destruct pc; cbn; try done; try (intros (? & ? & Hp); split_and!; [done..|]); intros; lia || (etrans; [|exact Hn]; auto). Qed.

(** A thread's statement that does not enter the barrier. *)
Lemma stress_inv_next k pc p pc' p' x :
  stress_inv x → sx_threads x !! k = Some (pc, p) → thread_fits k (sx_arrived x) pc' p' →
  (opens k → arrived pc' = arrived pc) →
  stress_inv (snext k pc' p' (sx_arrived x) O x).
Proof.
  intros [] Hk Hfit Harr. destruct sv_arrived0 as (l & Hnd & Hlen & Hl).
  assert (Hlt : (k < length (sx_threads x))%nat) by (by eapply lookup_lt_Some).
  split; cbn; [by rewrite length_insert| |exists l; split_and!; [done..|]|done].
  - intros j pcj pj [(<- & [= <- <-] & _)|[_ Hj]]%list_lookup_insert_Some; [done|eauto].
  - intros j. rewrite Hl. unfold at_barrier. cbn. destruct (decide (j = k)) as [->|Hne].
    + rewrite list_lookup_insert_eq by done. split; intros (Ho & t & Ht & Ha); (split; [done|]); simplify_eq; cbn in *.
      * exists (pc', p'). cbn. by rewrite Harr.
      * exists (pc, p). cbn. by rewrite <- Harr.
    + by rewrite list_lookup_insert_ne by done.
Qed.

Lemma stress_inv_barrier k p p' x :
  stress_inv x → sx_threads x !! k = Some (S_barrier, p) → opens k → has_handle p' →
  stress_inv (snext k S_blocked p' (S (sx_arrived x)) O x).
Proof.
  intros [] Hk Ho Hh. destruct sv_arrived0 as (l & Hnd & Hlen & Hl).
  assert (Hlt : (k < length (sx_threads x))%nat) by (by eapply lookup_lt_Some).
  split; cbn; [by rewrite length_insert| |exists (k :: l); split_and!|done].
  - intros j pcj pj [(<- & [= <- <-] & _)|[_ Hj]]%list_lookup_insert_Some; [done|].
    eapply fits_more; [|by eapply sv_fits0]. lia.
  - constructor; [|done]. rewrite Hl. intros (_ & t & Ht & Ha). by simplify_eq.
  - cbn. by rewrite Hlen.
  - intros j. rewrite elem_of_cons, Hl. unfold at_barrier. cbn. destruct (decide (j = k)) as [->|Hne].
    + rewrite list_lookup_insert_eq by done. split; [|by left]. intros _. split; [done|]. by eexists.
    + rewrite list_lookup_insert_ne by done. naive_solver.
Qed.

(** The statements a thread has left, when no submission is accepted. *)
Definition srank (pc : spc) : nat :=
  match pc with
  | S_open => OPS_PER_THREAD + 5
  | S_barrier => OPS_PER_THREAD + 4
  | S_blocked => OPS_PER_THREAD + 3
  | S_submit i => OPS_PER_THREAD - i + 2
  | S_query _ | S_cancel _ => 0
  | S_close => 1
  | S_return => 0
  end.

Lemma thread_steps k pc p x :
  stress_inv x → sx_threads x !! k = Some (pc, p) → pc ≠ S_return →
  (pc = S_blocked → (NUM_THREADS ≤ sx_arrived x)%nat) →
  ∃ x' pc' p', stress_exec HZ env (SE_thread k) x = Some (Ok (), x') ∧ stress_inv x' ∧
    sx_threads x' = <[k := (pc', p')]> (sx_threads x) ∧ (srank pc' < srank pc)%nat ∧
    sx_dev x' = sx_dev x ∧ (sx_arrived x ≤ sx_arrived x')%nat.
Proof.
  intros Hinv Hk Hnr Hb. pose proof (sv_fits x Hinv k pc p Hk) as Hfit. pose proof (sv_accepted x Hinv) as Hacc.
  assert (Hgo : ∀ pc' p', thread_fits k (sx_arrived x) pc' p' → (opens k → arrived pc' = arrived pc) →
    (srank pc' < srank pc)%nat → w_dev (p_world p') = sx_dev x → stress_exec HZ env (SE_thread k) x =
      Some (Ok (), snext k pc' p' (sx_arrived x) O x) →
    ∃ x' pc' p', stress_exec HZ env (SE_thread k) x = Some (Ok (), x') ∧ stress_inv x' ∧
      sx_threads x' = <[k := (pc', p')]> (sx_threads x) ∧ (srank pc' < srank pc)%nat ∧
      sx_dev x' = sx_dev x ∧ (sx_arrived x ≤ sx_arrived x')%nat).
  { intros pc' p' Hf Ha Hr Hd He. eexists _, pc', p'. split_and!; [exact He| |done..].
    by eapply stress_inv_next. }
  set (q := upd_device (λ _, sx_dev x) p).
  assert (He : stress_exec HZ env (SE_thread k) x = worker_thread HZ env k pc q x)
    by (cbn [stress_exec]; by rewrite Hk).
  destruct pc as [| | |i|i|i| |]; try done; cbn [thread_fits] in Hfit; cbn [worker_thread] in He.
  - destruct (tool_open_run k q) as (p' & Hrun & Hwd & Hres). rewrite Hrun in He. cbn [after_call none] in He.
    rewrite Hacc in He. destruct (decide (opens k)) as [Ho|Ho].
    + apply (Hgo S_barrier p'); [by split_and!|done|cbn; lia|by rewrite Hwd|]. rewrite He.
      rewrite bool_decide_eq_false_2; [done|]. by destruct Hres as (h & -> & _).
    + apply (Hgo S_return p'); [intros ?; contradiction|intros ?; contradiction|cbn; lia|by rewrite Hwd|]. by rewrite He, bool_decide_eq_true_2.
  - destruct Hfit as (Ho & Hh & _). eexists _, S_blocked, q. split_and!; [exact He| |done|cbn; lia|done|cbn; lia].
    rewrite Hacc. by eapply stress_inv_barrier.
  - destruct Hfit as (Ho & Hh & _). specialize (Hb eq_refl). apply (Hgo (S_submit 0) q); [by split_and!|done|cbn; lia|done|].
    rewrite He, Hacc. by rewrite (proj2 (Nat.leb_le _ _)).
  - destruct Hfit as (Ho & Hh & Hn). destruct (Nat.ltb_spec i OPS_PER_THREAD) as [Hi|Hi].
    + destruct (tool_submit_run k (stored (se_desc env k) (desc_bytes env k i) q)) as (p' & Hrun & Hh' & Hwd); [done|].
      rewrite Hrun in He. cbn [after_call] in He. rewrite Hacc in He.
      apply (Hgo (S_submit (S i)) p'); [by split_and!|done|unfold srank; lia|by rewrite Hwd|]. exact He.
    + apply (Hgo S_close q); [by split_and!|done|cbn; lia|done|]. by rewrite He, Hacc.
  - destruct Hfit as (Ho & (h & Hp & _) & Hn). unfold cortex_forge_close in He. km_unfold.
    change (p_handle q) with (p_handle p) in He. rewrite Hp in He. cbn in He. rewrite Hacc in He.
    eapply (Hgo S_return); [intros _; by apply Hn|done|cbn; lia| |exact He]. done.
Qed.

(** *** Runs *)

(** What the rest of the system alone does to the device. *)
Fixpoint device_alone (es : list sevent) (d : dev) : dev :=
  match es with
  | [] => d
  | SE_device f :: es' => device_alone es' (f d)
  | SE_thread _ :: es' => device_alone es' d
  end.

Definition blocked_at (pc : spc) (x : stress) : Prop :=
  pc = S_return ∨ pc = S_blocked ∧ (sx_arrived x < NUM_THREADS)%nat.

(** Thread [k] at [pc] in [x], after a run to [x']. *)
Definition moved (k : nat) (pc : spc) (x' : stress) : Prop :=
  ∃ pc' p', sx_threads x' !! k = Some (pc', p') ∧ (pc' = pc ∨ (srank pc' < srank pc)%nat).

Lemma moved_lt k pc pc1 x' :
  (pc1 = pc ∨ (srank pc1 < srank pc)%nat) → moved k pc1 x' → moved k pc x'.
Proof. intros H1 (pc' & p' & Hk & H2). exists pc', p'. split; [done|]. destruct H1 as [->|]; [done|]. right. destruct H2 as [->|]; lia. Qed.

Definition lowered (k : nat) (pc : spc) (x' : stress) : Prop :=
  ∃ pc' p', sx_threads x' !! k = Some (pc', p') ∧ (srank pc' < srank pc)%nat.

Lemma exec_moves e x :
  stress_inv x → ∃ x', (∀ es, stress_run HZ env (e :: es) x = stress_run HZ env es x') ∧ stress_inv x' ∧
    sx_dev x' = device_alone [e] (sx_dev x) ∧ (sx_arrived x ≤ sx_arrived x')%nat ∧
    (∀ k pc p, sx_threads x !! k = Some (pc, p) → moved k pc x') ∧
    (∀ k pc p, e = SE_thread k → sx_threads x !! k = Some (pc, p) → ¬ blocked_at pc x → lowered k pc x').
Proof.
  intros Hinv. assert (Hstill : ∀ k pc p, sx_threads x !! k = Some (pc, p) → moved k pc x).
  { intros k pc p Hk. exists pc, p. auto. }
  destruct e as [k|f].
  2: { eexists. split; [reflexivity|]. split_and!; try done. by destruct Hinv. }
  cbn [stress_run device_alone].
  destruct (sx_threads x !! k) as [[pc p]|] eqn:Hk.
  2: { exists x. cbn [stress_exec]. rewrite Hk. cbn [mbind option_bind]. split_and!; try done.
       intros j pc p [= ->] Hj. congruence. }
  destruct (decide (pc = S_return)) as [->|Hnr].
  { exists x. cbn [stress_exec]. rewrite Hk. split_and!; try done.
    intros j pc p' [= ->] Hj Hb. simplify_eq. exfalso. apply Hb. by left. }
  destruct (decide (pc = S_blocked ∧ (sx_arrived x < NUM_THREADS)%nat)) as [[-> Hb]|Hb].
  { exists x. cbn [stress_exec]. rewrite Hk. cbn [mbind option_bind worker_thread].
    rewrite (proj2 (Nat.leb_gt _ _) Hb). split_and!; try done.
    intros j pc p' [= ->] Hj Hnb. simplify_eq. exfalso. apply Hnb. by right. }
  destruct (thread_steps k pc p x Hinv Hk Hnr) as (x' & pc' & p' & He & Hinv' & Hth & Hlt & Hd & Ha).
  { intros ->. destruct (decide (sx_arrived x < NUM_THREADS)%nat); [exfalso; by apply Hb|lia]. }
  assert (Hkl : (k < length (sx_threads x))%nat) by (by eapply lookup_lt_Some).
  exists x'. rewrite He. split_and!; try done.
  - intros j pcj pj Hj. unfold moved. rewrite Hth. destruct (decide (j = k)) as [->|Hne].
    + rewrite list_lookup_insert_eq by done. simplify_eq. eauto.
    + rewrite list_lookup_insert_ne by done. eauto.
  - intros j pcj pj [= ->] Hj _. unfold lowered. rewrite Hth, list_lookup_insert_eq by done.
    simplify_eq. eauto.
Qed.

Lemma run_moves es x :
  stress_inv x → ∃ x', (∀ es', stress_run HZ env (es ++ es') x = stress_run HZ env es' x') ∧
    stress_inv x' ∧ sx_dev x' = device_alone es (sx_dev x) ∧ (sx_arrived x ≤ sx_arrived x')%nat ∧
    (∀ k pc p, sx_threads x !! k = Some (pc, p) → moved k pc x') ∧
    (∀ k pc p, SE_thread k ∈ es → sx_threads x !! k = Some (pc, p) → ¬ blocked_at pc x → lowered k pc x').
Proof.
  revert x. induction es as [|e es IH]; intros x Hinv.
  { exists x. split_and!; try done.
    - intros k pc p Hk. exists pc, p. auto.
    - by intros k pc p ?%not_elem_of_nil. }
  destruct (exec_moves e x Hinv) as (x1 & Hrun1 & Hinv1 & Hd1 & Ha1 & Hm1 & Hl1).
  destruct (IH x1 Hinv1) as (x' & Hrun & Hinv' & Hd' & Ha' & Hm' & Hl').
  exists x'. split_and!; [|done| |lia| |].
  - intros es'. cbn [app]. by rewrite Hrun1, Hrun.
  - rewrite Hd', Hd1. by destruct e.
  - intros k pc p Hk. destruct (Hm1 k pc p Hk) as (pc1 & p1 & Hk1 & Hc). by eapply moved_lt, Hm'.
  - intros k pc p Hin Hk Hb. destruct (Hm1 k pc p Hk) as (pc1 & p1 & Hk1 & [->|Hlt]).
    + apply elem_of_cons in Hin as [<-|Hin].
      * destruct (Hl1 k pc p eq_refl Hk Hb) as (pc2 & p2 & Hk2 & Hlt). simplify_eq. lia.
      * eapply Hl'; [done|exact Hk1|]. unfold blocked_at in *. naive_solver lia.
    + destruct (Hm' k pc1 p1 Hk1) as (pc2 & p2 & Hk2 & Hc). exists pc2, p2. split; [done|].
      destruct Hc as [->|]; lia.
Qed.

(** *** Rounds *)

Definition stress_round (es : list sevent) : Prop := ∀ k, (k < NUM_THREADS)%nat → SE_thread k ∈ es.

Definition ranks_le (b : nat) (x : stress) : Prop :=
  ∀ k pc p, sx_threads x !! k = Some (pc, p) → (srank pc ≤ b)%nat.

Definition all_open : Prop := ∀ k, (k < NUM_THREADS)%nat → opens k.
Definition none_open : Prop := ∀ k, (k < NUM_THREADS)%nat → ¬ opens k.

Lemma thread_lt x k t : stress_inv x → sx_threads x !! k = Some t → (k < NUM_THREADS)%nat.
Proof. intros [] Hk. rewrite <- sv_threads0. by eapply lookup_lt_Some. Qed.

(** All past the barrier's call: the barrier is open. *)
Lemma all_arrived x :
  stress_inv x → all_open → ranks_le (OPS_PER_THREAD + 3) x → (NUM_THREADS ≤ sx_arrived x)%nat.
Proof.
  intros [] Ho Hr. destruct sv_arrived0 as (l & Hnd & <- & Hl).
  rewrite <- (length_seq NUM_THREADS 0). apply submseteq_length, NoDup_submseteq; [apply NoDup_seq|].
  intros k [_ Hk]%elem_of_seq. apply Hl. split; [by apply Ho|].
  destruct (lookup_lt_is_Some_2 (sx_threads x) k) as [[pc p] Hx]; [by rewrite sv_threads0|].
  exists (pc, p). split; [done|]. specialize (Hr k pc p Hx). unfold srank in Hr.
  destruct pc; try done; cbn in *; lia.
Qed.

(** Somebody cannot arrive: it never is. *)
Lemma not_all_arrived x k :
  stress_inv x → (k < NUM_THREADS)%nat → ¬ opens k → (sx_arrived x < NUM_THREADS)%nat.
Proof.
  intros Hinv Hk Ho. destruct (sv_arrived x Hinv) as (l & Hnd & Hlen & Hl).
  assert (Hkl : k ∉ l) by (rewrite Hl; by intros [? _]).
  assert (Hsub : k :: l ⊆+ seq 0 NUM_THREADS).
  { apply NoDup_submseteq; [by constructor|]. intros j Hj.
    apply elem_of_seq. apply elem_of_cons in Hj as [->|[_ (t & Hj & _)]%Hl]; [lia|].
    pose proof (thread_lt x j t Hinv Hj). lia. }
  apply submseteq_length in Hsub. rewrite length_seq in Hsub. cbn [length] in Hsub. lia.
Qed.

Lemma blocked_rank x k pc p b :
  stress_inv x → all_open ∨ none_open → sx_threads x !! k = Some (pc, p) → ranks_le b x →
  (b ≤ srank pc)%nat → blocked_at pc x → b = O.
Proof.
  intros Hinv Ho Hk Hr Hb [->|[-> Ha]]; [cbn in Hb; lia|].
  pose proof (sv_fits x Hinv k _ p Hk) as (Hopen & _). pose proof (thread_lt x k _ Hinv Hk) as Hlt.
  destruct Ho as [Ho|Ho]; [|by destruct (Ho k Hlt)]. cbn [srank] in Hb.
  assert (Hr' : ranks_le (OPS_PER_THREAD + 3) x) by (intros j pcj pj Hj; etrans; [by eapply Hr|done]).
  pose proof (all_arrived x Hinv Ho Hr'). lia.
Qed.

Lemma rounds_lower rounds b x :
  Forall stress_round rounds → all_open ∨ none_open → stress_inv x → ranks_le b x →
  ∃ x', stress_run HZ env (concat rounds) x = (Ok (), x') ∧ stress_inv x' ∧
    ranks_le (b - length rounds) x'.
Proof.
  intros Hf Ho. revert b x. induction Hf as [|es rounds Hes Hf IH]; intros b x Hinv Hr; cbn [concat length].
  { exists x. rewrite Nat.sub_0_r. done. }
  destruct (run_moves es x Hinv) as (x1 & Hrun & Hinv1 & _ & _ & Hm & Hl).
  destruct (IH (b - 1)%nat x1 Hinv1) as (x' & Hrun' & Hinv' & Hr').
  { intros k pc1 p1 Hk1. pose proof (thread_lt x1 k _ Hinv1 Hk1) as Hlt.
    destruct (lookup_lt_is_Some_2 (sx_threads x) k) as [[pc p] Hk]; [by rewrite (sv_threads x Hinv)|].
    pose proof (Hr k pc p Hk) as Hle.
    destruct (decide (b ≤ srank pc)%nat) as [Hb|Hb].
    - destruct (decide (b = O)) as [->|Hb0].
      + destruct (Hm k pc p Hk) as (pc2 & p2 & Hk2 & [->|]); simplify_eq; lia.
      + destruct (Hl k pc p) as (pc2 & p2 & Hk2 & ?); [by apply Hes|done| |simplify_eq; lia].
        intros Hbl. apply Hb0. exact (blocked_rank x k pc p b Hinv Ho Hk Hr Hb Hbl).
    - destruct (Hm k pc p Hk) as (pc2 & p2 & Hk2 & [->|]); simplify_eq; lia. }
  exists x'. split_and!; [by rewrite Hrun|done|]. by replace (b - S (length rounds))%nat with (b - 1 - length rounds)%nat by lia.
Qed.

Lemma stress_init_inv d ps : length ps = NUM_THREADS → stress_inv (stress_init d ps).
Proof.
  intros Hlen. split; cbn; [by rewrite length_fmap| | |done].
  - intros k pc p Hk. apply list_lookup_fmap_Some in Hk as (q & ? & _). by simplify_eq.
  - exists []. split_and!; [constructor|done|]. intros k. split; [by intros ?%not_elem_of_nil|].
    intros (_ & t & Ht & Ha). apply list_lookup_fmap_Some in Ht as (q & -> & _). done.
Qed.

Lemma init_ranks d ps : ranks_le (OPS_PER_THREAD + 5) (stress_init d ps).
Proof. intros k pc p Hk. apply list_lookup_fmap_Some in Hk as (q & ? & _). by simplify_eq. Qed.

Lemma ranks_0_complete x : stress_inv x → ranks_le 0 x → stress_complete x.
Proof.
  intros Hinv Hr. apply Forall_lookup. intros k [pc p] Hk. specialize (Hr k pc p Hk).
  pose proof (sv_fits x Hinv k pc p Hk) as Hfit. unfold srank in Hr. destruct pc; cbn in *; try done; lia.
Qed.

(** C32: The stress tool exercises nothing, and hangs when some but not all of
    its threads can open the device.  On any device, in any fair schedule of
    its threads with anything the rest of the system does in between, no
    submission is accepted (so it never queries nor cancels) and the device is
    as the rest of the system alone leaves it; after 105 rounds the program is
    complete if all threads or none could open the device, and otherwise,
    for ever, not: those that could wait on the barrier for one that returned. *)
Theorem stress_completes_iff rounds d ps :
  length ps = NUM_THREADS → Forall stress_round rounds → (OPS_PER_THREAD + 5 ≤ length rounds)%nat →
  ∃ x, stress_run HZ env (concat rounds) (stress_init d ps) = (Ok (), x) ∧
    sx_accepted x = O ∧ sx_dev x = device_alone (concat rounds) d ∧
    (stress_complete x ↔ all_open ∨ none_open).
Proof.
  intros Hlen Hf Hn. pose proof (stress_init_inv d ps Hlen) as Hinit.
  destruct (run_moves (concat rounds) _ Hinit) as (x & Hrun & Hinv & Hd & _).
  specialize (Hrun []). rewrite app_nil_r in Hrun.
  exists x. split_and!; [exact Hrun|apply Hinv|done|]. split.
  - intros Hc. destruct (decide (Forall opens (seq 0 NUM_THREADS))) as [Ha|Ha].
    { left. intros k Hk. apply (proj1 (Forall_forall _ _) Ha), elem_of_seq. lia. }
    apply not_Forall_Exists, Exists_exists in Ha as (k0 & [_ Hk0]%elem_of_seq & Hno); [|apply _].
    right. intros k Hk Hopen.
    destruct (lookup_lt_is_Some_2 (sx_threads x) k) as [[pc p] Hx]; [by rewrite (sv_threads x Hinv)|].
    pose proof (Forall_lookup_1 _ _ _ _ Hc Hx) as Hpc. cbn in Hpc. subst pc.
    pose proof (sv_fits x Hinv k _ p Hx Hopen). pose proof (not_all_arrived x k0 Hinv Hk0 Hno). lia.
  - intros Ho. destruct (rounds_lower rounds _ _ Hf Ho Hinit (init_ranks d ps)) as (x' & Hrun' & Hinv' & Hr).
    rewrite Hrun' in Hrun. injection Hrun as ->. apply ranks_0_complete; [done|].
    intros k pc p Hk. specialize (Hr k pc p Hk). lia.
Qed.
End StressSpec.

(** ** Three threads that can open the device and one that cannot *)

Definition demo_stress_env (fds : nat → Z) : stress_env :=
  {| se_open_ret := fds; se_calloc_ok := λ _, true; se_rand := λ _ _, 0;
     se_desc := λ _, 4096; se_status := λ _, 8192; se_arg := λ _, 12288 |}.
Definition demo_stress_round : list sevent := SE_thread <$> [3; 1; 0; 2]%nat.
Definition demo_fds (k : nat) : Z := if decide (k = 2%nat) then - ENOMEM else 3 + Z.of_nat k.

Lemma demo_stress_round_ok : stress_round demo_stress_round.
Proof.
  intros k Hk. unfold NUM_THREADS in Hk. apply list_elem_of_fmap_2.
  do 4 (destruct k as [|k]; [set_solver|]). lia.
Qed.

Lemma demo_opens :
  opens (demo_stress_env demo_fds) 0 ∧ ¬ opens (demo_stress_env demo_fds) 2.
Proof.
  split; [split; [discriminate|reflexivity]|]. intros [Ho _]. apply Z.leb_le in Ho. discriminate.
Qed.

Lemma stress_completes_iff_witness :
  ∃ x, stress_run 250 (demo_stress_env demo_fds) (concat (replicate 105 demo_stress_round))
    (stress_init (w_dev demo_user) (replicate 4 demo_process)) = (Ok (), x) ∧ ¬ stress_complete x.
Proof.
  destruct (stress_completes_iff 250 (demo_stress_env demo_fds) (λ k, ltac:(done))
    (replicate 105 demo_stress_round) (w_dev demo_user) (replicate 4 demo_process))
    as (x & Hrun & _ & _ & Hc).
  - by rewrite length_replicate.
  - apply Forall_replicate, demo_stress_round_ok.
  - rewrite length_replicate. unfold OPS_PER_THREAD. lia.
  - exists x. split; [exact Hrun|]. rewrite Hc. unfold all_open, none_open, NUM_THREADS. intros [Ha|Hn].
    + apply demo_opens, (Ha 2%nat). lia.
    + apply (Hn 0%nat); [lia|apply demo_opens].
Defined.
