(* ===== verification/Drain.v ===== *)
(** * A worker empties its queue

    The liveness of the queue: from any reachable state, a worker that was not
    told to stop and is from then on undisturbed runs every queued task to
    completion, in order, in bounded time, and changes nothing else of the
    device ([drained]).  Fair.v has the liveness under interference. *)

From S2P Require Import Prelude CLayout Device UserMem Uapi TaskManager Pool AccelManager Worker DevInit Chardev System Frame SystemInv Lifecycle Schedule.

Section Drain.
Context (m2j : Z → Z) (tick : nat → wpc → Z) (stop : nat → bool).
Hypothesis tick_range : ∀ n pc, 0 <= tick n pc < 2 ^ 32.
Hypothesis tick_sleep : ∀ n t timeout start, 1 <= tick n (W_sleep t timeout start).
Hypothesis m2j_range : ∀ ms, 0 <= m2j ms < 2 ^ 62.

Local Abbreviation run := (wrun m2j tick stop).

(** The statements a task takes at most, with the three of the loop head. *)
Definition task_steps (tasks : list task) (t : nat) : nat :=
  match tasks !! t with
  | Some tk => 4 * Z.to_nat (m2j (t_timeout_ms tk)) + 15
  | None => 0
  end.

(** From the loop head to the dequeue. *)
Lemma run_loop_head i n now d a :
  dev_accelerators d !! i = Some a → a_running a ≠ 0 →
  ∃ now', now <= now' ∧
    run i 3 {| ws_n := n; ws_now := now; ws_pc := W_while; ws_dev := d |} =
    Some {| ws_n := n + 3; ws_now := now'; ws_pc := W_lock; ws_dev := d |}.
Proof.
  intros Ha Hr. eexists. split; cycle 1.
  - wstep. rewrite (proj2 (Z.eqb_neq _ _)) by done. wstep. wstep.
    rewrite (proj2 (Z.eqb_neq _ _)) by done. cbn [wrun]. do 2 f_equal. lia.
  - pose proof (tick_range n W_while). pose proof (tick_range (S n) W_wait).
    pose proof (tick_range (S (S n)) W_check). lia.
Qed.

Lemma task_steps_ext tasks tasks' t :
  tasks' !! t = tasks !! t → task_steps tasks' t = task_steps tasks t.
Proof. unfold task_steps. by intros ->. Qed.

(** [t] of the pool, as it is once run to completion at jiffy [c]: its state,
    completion time, error code and completion are written, the rest stays. *)
Definition finished_at (c : Z) (tk : task) : task :=
  {| t_id := t_id tk; t_state := TASK_STATE_COMPLETE; t_accel_type := t_accel_type tk;
     t_priority := t_priority tk; t_input_addr := t_input_addr tk;
     t_input_size := t_input_size tk; t_output_addr := t_output_addr tk;
     t_output_size := t_output_size tk; t_timeout_ms := t_timeout_ms tk;
     t_submit_jiffies := t_submit_jiffies tk; t_complete_jiffies := u64 c;
     t_error_code := 0; t_done := true |}.

(** The tasks of [q] were finished one after the other between [now] and [now']. *)
Fixpoint finished_in_order (tasks tasks' : list task) (now now' : Z) (q : list nat) : Prop :=
  match q with
  | [] => now <= now'
  | t :: q' => ∃ tk c, tasks !! t = Some tk ∧ tasks' !! t = Some (finished_at c tk) ∧
      now <= c ∧ finished_in_order tasks tasks' c now' q'
  end.

Lemma finished_in_order_ext tasks1 tasks tasks1' tasks' now0 now now' q :
  (∀ t, t ∈ q → tasks !! t = tasks1 !! t ∧ tasks' !! t = tasks1' !! t) → now0 <= now →
  finished_in_order tasks1 tasks1' now now' q → finished_in_order tasks tasks' now0 now' q.
Proof.
  revert now0 now. induction q as [|t q IH]; intros now0 now Hext Hle; cbn; [lia|].
  intros (tk & c & Ht & Ht' & Hc & Hq). destruct (Hext t) as [-> ->]; [apply list_elem_of_here|].
  exists tk, c. split_and!; [done|done|lia|].
  eapply (IH c c); [|lia|done]. intros u Hu. apply Hext. by apply list_elem_of_further.
Qed.

(** The device after the worker of [i] emptied its queue [q]: that queue and the
    tasks of [q] are all that changed. *)
Record drained (i : nat) (q : list nat) (now now' : Z) (d d' : dev) : Prop := {
  dr_accels : dev_accelerators d' = arr_upd i (set_a_task_queue []) (dev_accelerators d);
  dr_done : finished_in_order (dev_tasks d) (dev_tasks d') now now' q;
  dr_others : ∀ t, t ∉ q → dev_tasks d' !! t = dev_tasks d !! t;
  dr_free : dev_free_tasks d' = dev_free_tasks d;
  dr_next : dev_next_task_id d' = dev_next_task_id d;
  dr_clks : dev_num_clks d' = dev_num_clks d;
  dr_irq : dev_irq d' = dev_irq d;
}.

(** One task more at the head. *)
Lemma drained_cons i t q tk c now now1 now' a d d' :
  dev_accelerators d !! i = Some a → dev_tasks d !! t = Some tk → t ∉ q →
  now <= c <= now1 →
  drained i q now1 now' (upd_accelerators (arr_upd i (set_a_task_queue q))
                           (upd_tasks (arr_upd t (completed c)) d)) d' →
  drained i (t :: q) now now' d d'.
Proof.
  intros Ha Ht Htq Hc [Hac Hdone Hoth Hfree Hnext Hclk Hirq]. cbn in *.
  assert (Hlk : ∀ u, u ≠ t → arr_upd t (completed c) (dev_tasks d) !! u = dev_tasks d !! u)
    by (intros u Hu; by rewrite arr_upd_other by congruence).
  split; try done.
  - rewrite Hac, arr_upd_compose. by eapply arr_upd_ext.
  - cbn. exists tk, c. split_and!; [done| |lia|].
    + rewrite Hoth by done. by rewrite arr_upd_same, Ht.
    + eapply finished_in_order_ext; [|apply Hc|exact Hdone]. intros u Hu. split; [|done].
      symmetry. apply Hlk. by intros ->.
  - intros u Hu. rewrite Hoth by set_solver. apply Hlk. set_solver.
Qed.

(** From the loop head of a worker with nothing in hand. *)
Lemma drain_run i q n now d a :
  dev_accelerators d !! i = Some a → a_task_queue a = q → NoDup q →
  a_running a ≠ 0 → a_active_tasks a = [] → 0 <= a_load_percent a <= 90 →
  (∀ t, t ∈ q → is_Some (dev_tasks d !! t)) →
  ∃ m now' d', (m ≤ sum_list (task_steps (dev_tasks d) <$> q))%nat ∧
    run i m {| ws_n := n; ws_now := now; ws_pc := W_while; ws_dev := d |} =
    Some {| ws_n := n + m; ws_now := now'; ws_pc := W_while; ws_dev := d' |} ∧
    drained i q now now' d d'.
Proof.
  revert n now d a. induction q as [|t q IH]; intros n now d a Ha Hq Hnd Hrun Hact Hload Hts.
  { exists 0%nat, now, d. cbn. rewrite Nat.add_0_r. split_and!; [lia|done|]. split; try done; [|cbn; lia].
    symmetry. rewrite <- (arr_upd_id i (dev_accelerators d)) at 2.
    eapply arr_upd_ext; [exact Ha|]. rewrite <- Hq. by destruct a. }
  apply NoDup_cons in Hnd as [Htq Hnd].
  destruct (Hts t) as [tk Ht]; [set_solver|].
  destruct (run_loop_head i n now d a Ha Hrun) as (now1 & Hn1 & Hr1).
  destruct (completes_head m2j tick stop tick_range tick_sleep m2j_range i (n + 3) now1 d a t q tk)
    as (m & now2 & c & Hm & Hc & _ & Hr2); [done..|].
  set (d1 := upd_accelerators (arr_upd i (set_a_task_queue q))
               (upd_tasks (arr_upd t (completed c)) d)) in *.
  assert (Hlk : ∀ u, u ∈ q → dev_tasks d1 !! u = dev_tasks d !! u)
    by (intros u Hu; unfold d1; cbn; rewrite arr_upd_other; [done|by intros ->]).
  destruct (IH (n + 3 + m)%nat now2 d1 (set_a_task_queue q a))
    as (m' & now' & d' & Hm' & Hr3 & Hd); try done.
  { unfold d1. cbn. by rewrite arr_upd_same, Ha. }
  { intros u Hu. rewrite Hlk by done. apply Hts. set_solver. }
  exists (3 + (m + m'))%nat, now', d'. split_and!.
  - assert (Heq : task_steps (dev_tasks d1) <$> q = task_steps (dev_tasks d) <$> q).
    { apply list_fmap_ext. intros k u Hu. apply task_steps_ext, Hlk.
      by eapply list_elem_of_lookup_2. }
    rewrite Heq in Hm'. cbn [fmap list_fmap sum_list].
    unfold task_steps at 1. rewrite Ht. cbn. cbn in Hm'. lia.
  - rewrite wrun_app, Hr1. cbn [mbind option_bind]. rewrite wrun_app, Hr2.
    cbn [mbind option_bind]. rewrite Hr3. do 2 f_equal. lia.
  - eapply drained_cons; [done..| |exact Hd]. lia.
Qed.

(** C24: The worker drains its queue.  In any reachable state of the concurrent
    driver, take an accelerator whose worker is at its loop head and was not
    told to stop ([running] is set).  If the worker is from then on the only
    one to run, it is at its loop head again with the queue empty after a
    number of statements linear in the total timeout of the queued tasks.  They
    were run in the order of the queue, each is COMPLETE (cancelled before or
    not) with error code 0, its completion time and its completion signalled,
    and nothing else of the device changed: no other task, accelerator, list
    or counter. *)
Theorem worker_drains_queue HZ s i a n :
  reachable HZ m2j s → y_workers s !! i = Some W_while →
  dev_accelerators (y_dev s) !! i = Some a → a_running a ≠ 0 →
  ∃ m now' d', (m ≤ sum_list (task_steps (dev_tasks (y_dev s)) <$> a_task_queue a))%nat ∧
    run i m {| ws_n := n; ws_now := y_now s; ws_pc := W_while; ws_dev := y_dev s |} =
    Some {| ws_n := n + m; ws_now := now'; ws_pc := W_while; ws_dev := d' |} ∧
    drained i (a_task_queue a) (y_now s) now' (y_dev s) d'.
Proof.
  intros Hs%sys_inv_reachable Hpc Ha Hrun. pose proof Hs as [].
  destruct (si_workers i a Ha) as (pc & e & q & Hpc' & He & Hq & []). simplify_eq.
  apply NoDup_app in si_nodup as (_ & _ & (_ & _ & Hnd)%NoDup_app).
  apply (NoDup_concat_elem _ i) in He; [|done]. apply NoDup_app in He as (_ & _ & Hnq).
  apply (drain_run i _ n (y_now s) (y_dev s) a); try done.
  - rewrite wi_load. cbn. lia.
  - intros t Ht. destruct (wi_tasks t) as (tk & Htk & _); [set_solver|]. by exists tk.
Qed.
End Drain.

(** A submission to DLA0 that has just returned: slot 0 is queued. *)
Definition queued_sys : sys :=
  default sys0 (sys_run demo_HZ demo_m2j
    ([E_call (U_check demo_desc)] ++ replicate 7 (E_user 0 true)) sys0).

Lemma queued_reachable : reachable demo_HZ demo_m2j queued_sys.
Proof.
  eapply (sys_run_reachable _ _ ([E_call (U_check demo_desc)] ++ replicate 7 (E_user 0 true)) sys0).
  - by apply reach_init.
  - by vm_compute.
Qed.

Lemma worker_drains_queue_witness :
  ∃ m now' d',
    wrun demo_m2j (λ _ _, 1) (λ _, false) 0 m
      {| ws_n := 0; ws_now := 1000; ws_pc := W_while; ws_dev := y_dev queued_sys |} =
    Some {| ws_n := 0 + m; ws_now := now'; ws_pc := W_while; ws_dev := d' |} ∧
    t_state <$> dev_tasks d' !! 0%nat = Some TASK_STATE_COMPLETE.
Proof.
  assert (Ha : ∃ a, dev_accelerators (y_dev queued_sys) !! 0%nat = Some a ∧ a_running a = 1 ∧
    a_task_queue a = [0%nat]) by (eexists; split_and!; vm_compute; reflexivity).
  destruct Ha as (a & Ha & Hr & Hq).
  destruct (worker_drains_queue demo_m2j (λ _ _, 1) (λ _, false) ltac:(lia) ltac:(lia)
    demo_m2j_range demo_HZ queued_sys 0 a 0 queued_reachable)
    as (m & now' & d' & _ & Hrun & Hd).
  - vm_compute. reflexivity.
  - exact Ha.
  - rewrite Hr. discriminate.
  - rewrite Hq in Hd. destruct (dr_done _ _ _ _ _ _ Hd) as (tk & c & _ & Hc & _).
    exists m, now', d'. split; [exact Hrun|]. by rewrite Hc.
Defined.
