(* ===== verification/Platform.v ===== *)
(** * The hardware layer: placeholders and their contracts

    The register tables, the platform table and the interrupt handlers:
    include/cortex_forge_regs.h, include/cortex_forge_platform.h,
    src/cortex_forge_platform.c and src/cortex_forge_irq.c.  None of these
    files is built (Kbuild); they use fields ([soc], [pending_events]) that
    the device structure does not have, so the handlers run on a structure of
    their own here ([irq_dev]). *)

From S2P Require Import Prelude CLayout Device Uapi AccelManager DevInit.

Local Open Scope string_scope.
Local Open Scope Z_scope.

(** ** Register tables: include/cortex_forge_regs.h *)

Record regs : Type := {
  r_ctrl : Z;
  r_status : Z;
  r_int_mask : Z;
  r_int_status : Z;
  r_task_addr : Z;
  r_task_size : Z;
  r_fw_status : Z;
  r_perf_cnt : Z;
}.

Definition CORTEX_FORGE_REG_UNVERIFIED : Z := 0xFFFFFFFF.

Definition cortex_forge_regs_unverified (r : regs) : bool :=
  r_ctrl r =? CORTEX_FORGE_REG_UNVERIFIED.

(** The offsets of the header, all placeholders, and the bits of the control
    and status registers. *)
Definition CORTEX_FORGE_DLA_REG_CTRL : Z := CORTEX_FORGE_REG_UNVERIFIED.
Definition CORTEX_FORGE_DLA_REG_STATUS : Z := CORTEX_FORGE_REG_UNVERIFIED.
Definition CORTEX_FORGE_DLA_REG_INT_MASK : Z := CORTEX_FORGE_REG_UNVERIFIED.
Definition CORTEX_FORGE_DLA_REG_INT_STATUS : Z := CORTEX_FORGE_REG_UNVERIFIED.
Definition CORTEX_FORGE_DLA_REG_TASK_ADDR : Z := CORTEX_FORGE_REG_UNVERIFIED.
Definition CORTEX_FORGE_DLA_REG_TASK_SIZE : Z := CORTEX_FORGE_REG_UNVERIFIED.
Definition CORTEX_FORGE_DLA_REG_FW_STATUS : Z := CORTEX_FORGE_REG_UNVERIFIED.
Definition CORTEX_FORGE_DLA_REG_PERF_CNT : Z := CORTEX_FORGE_REG_UNVERIFIED.
Definition CORTEX_FORGE_PVA_REG_CTRL : Z := CORTEX_FORGE_REG_UNVERIFIED.
Definition CORTEX_FORGE_PVA_REG_STATUS : Z := CORTEX_FORGE_REG_UNVERIFIED.
Definition CORTEX_FORGE_PVA_REG_INT_MASK : Z := CORTEX_FORGE_REG_UNVERIFIED.
Definition CORTEX_FORGE_PVA_REG_INT_STATUS : Z := CORTEX_FORGE_REG_UNVERIFIED.
Definition CORTEX_FORGE_PVA_REG_TASK_ADDR : Z := CORTEX_FORGE_REG_UNVERIFIED.
Definition CORTEX_FORGE_PVA_REG_TASK_SIZE : Z := CORTEX_FORGE_REG_UNVERIFIED.
Definition CORTEX_FORGE_PVA_REG_FW_STATUS : Z := CORTEX_FORGE_REG_UNVERIFIED.

Definition BIT (n : Z) : Z := Z.shiftl 1 n.

Definition CORTEX_FORGE_DLA_CTRL_ENABLE : Z := BIT 0.
Definition CORTEX_FORGE_DLA_CTRL_RESET : Z := BIT 1.
Definition CORTEX_FORGE_DLA_CTRL_SUSPEND : Z := BIT 2.
Definition CORTEX_FORGE_DLA_STATUS_READY : Z := BIT 0.
Definition CORTEX_FORGE_DLA_STATUS_BUSY : Z := BIT 1.
Definition CORTEX_FORGE_DLA_STATUS_ERROR : Z := BIT 2.
Definition CORTEX_FORGE_PVA_CTRL_ENABLE : Z := BIT 0.
Definition CORTEX_FORGE_PVA_CTRL_RESET : Z := BIT 1.
Definition CORTEX_FORGE_PVA_STATUS_READY : Z := BIT 0.
Definition CORTEX_FORGE_PVA_STATUS_BUSY : Z := BIT 1.
Definition CORTEX_FORGE_PVA_STATUS_ERROR : Z := BIT 2.

(** The configuration of the register map: what of it decides which
    accesses the kernel accepts. *)
Record regmap_config : Type := {
  rm_reg_bits : Z;
  rm_val_bits : Z;
  rm_reg_stride : Z;
  rm_max_register : Z;
}.

Definition cortex_forge_regmap_cfg : regmap_config :=
  {| rm_reg_bits := 32; rm_val_bits := 32; rm_reg_stride := 4; rm_max_register := 0x1000 |}.

Definition offsets (r : regs) : list Z :=
  [r_ctrl r; r_status r; r_int_mask r; r_int_status r; r_task_addr r; r_task_size r;
   r_fw_status r; r_perf_cnt r].

Definition cortex_forge_tegra234_dla_regs : regs :=
  {| r_ctrl := CORTEX_FORGE_REG_UNVERIFIED; r_status := CORTEX_FORGE_REG_UNVERIFIED;
     r_int_mask := CORTEX_FORGE_REG_UNVERIFIED; r_int_status := CORTEX_FORGE_REG_UNVERIFIED;
     r_task_addr := CORTEX_FORGE_REG_UNVERIFIED; r_task_size := CORTEX_FORGE_REG_UNVERIFIED;
     r_fw_status := CORTEX_FORGE_REG_UNVERIFIED; r_perf_cnt := CORTEX_FORGE_REG_UNVERIFIED |}.

Definition cortex_forge_tegra234_pva_regs : regs :=
  {| r_ctrl := CORTEX_FORGE_REG_UNVERIFIED; r_status := CORTEX_FORGE_REG_UNVERIFIED;
     r_int_mask := CORTEX_FORGE_REG_UNVERIFIED; r_int_status := CORTEX_FORGE_REG_UNVERIFIED;
     r_task_addr := CORTEX_FORGE_REG_UNVERIFIED; r_task_size := CORTEX_FORGE_REG_UNVERIFIED;
     r_fw_status := CORTEX_FORGE_REG_UNVERIFIED; r_perf_cnt := CORTEX_FORGE_REG_UNVERIFIED |}.

(** ** Hardware operations and the SoC table *)

Definition CORTEX_FORGE_QUIRK_NONE : Z := 0.
Definition CORTEX_FORGE_QUIRK_DLA1_SLOW : Z := BIT 0.
Definition CORTEX_FORGE_QUIRK_PVA_ERRATA : Z := BIT 1.

Section Ops.
(** The device the operations run on, and the configuration, a structure
    the headers only declare. *)
Context {D Cfg : Type}.

Record hw_ops : Type := {
  op_init : KM D Z;
  op_deinit : KM D unit;
  op_irq_ack : option (KM D Z);
  op_configure : Cfg → KM D Z;
  op_submit_task : Z → Z → Z → Z → Z → KM D Z;
  op_poll_task : Z → KM D (Z * Z);    (* the code and [*status] *)
  op_quirk_fixup : option (KM D Z);
}.

Definition cortex_forge_tegra234_init : KM D Z := mret 0.
Definition cortex_forge_tegra234_deinit : KM D unit := mret ().
Definition cortex_forge_tegra234_irq_ack : KM D Z := mret 0.
Definition cortex_forge_tegra234_configure (cfg : Cfg) : KM D Z := mret 0.
Definition cortex_forge_tegra234_submit_task
    (task_id input_addr input_size output_addr output_size : Z) : KM D Z := mret 0.
Definition cortex_forge_tegra234_poll_task (task_id : Z) : KM D (Z * Z) :=
  mret (0, CORTEX_FORGE_TASK_COMPLETE).

Definition cortex_forge_tegra234_ops : hw_ops :=
  {| op_init := cortex_forge_tegra234_init;
     op_deinit := cortex_forge_tegra234_deinit;
     op_irq_ack := Some cortex_forge_tegra234_irq_ack;
     op_configure := cortex_forge_tegra234_configure;
     op_submit_task := cortex_forge_tegra234_submit_task;
     op_poll_task := cortex_forge_tegra234_poll_task;
     op_quirk_fixup := None |}.

Record soc_data : Type := {
  soc_name : string;
  soc_ops : option hw_ops;
  soc_regmap_cfg : regmap_config;
  soc_num_dla : Z;
  soc_num_pva : Z;
  soc_clk_names : list string;
  soc_quirks : Z;
}.

Definition cortex_forge_tegra234_data : soc_data :=
  {| soc_name := "Tegra234 (Jetson AGX Orin)";
     soc_ops := Some cortex_forge_tegra234_ops;
     soc_regmap_cfg := cortex_forge_regmap_cfg;
     soc_num_dla := 2;
     soc_num_pva := 1;
     soc_clk_names := ["dla0_core"; "dla0_falcon"; "dla1_core"; "dla1_falcon"; "pva0_core";
                       "pva0_falcon"];
     soc_quirks := CORTEX_FORGE_QUIRK_NONE |}.

(** The match table.  A device-tree node is the list of its compatible
    strings; looking it up in a table is the kernel's. *)
Definition cortex_forge_of_match : list (string * soc_data) :=
  [("nvidia,tegra234-cortex-forge", cortex_forge_tegra234_data)].

Definition cortex_forge_get_soc_data
    (of_match_node : list (string * soc_data) → list string → option (string * soc_data))
    (of_node : option (list string)) : option soc_data :=
  match of_node with
  | None => None
  | Some node =>
      match of_match_node cortex_forge_of_match node with
      | None => None
      | Some m => Some m.2
      end
  end.

(** ** Interrupts: src/cortex_forge_irq.c *)

Inductive irqreturn : Type := IRQ_NONE | IRQ_HANDLED | IRQ_WAKE_THREAD.

Record irq_dev : Type := { q_soc : soc_data; q_hw : D; q_pending_events : Z }.

Definition set_q_pending v (q : irq_dev) : irq_dev :=
  {| q_soc := q_soc q; q_hw := q_hw q; q_pending_events := v |}.
Definition set_q_hw v (q : irq_dev) : irq_dev :=
  {| q_soc := q_soc q; q_hw := v; q_pending_events := q_pending_events q |}.

Definition cortex_forge_hardirq : KM irq_dev irqreturn :=
  dev ← gets id;
  match soc_ops (q_soc dev) ≫= op_irq_ack with
  | None => mret IRQ_NONE
  | Some irq_ack =>
      events ← zoom q_hw set_q_hw irq_ack;
      if events =? 0 then mret IRQ_NONE
      else modify (set_q_pending events) ;; mret IRQ_WAKE_THREAD
  end.

Definition cortex_forge_threaded_irq : KM irq_dev irqreturn :=
  _ ← gets q_pending_events; mret IRQ_HANDLED.

(** [n] interrupts that the kernel delivers before it runs the thread. *)
Fixpoint hardirqs (n : nat) : KM irq_dev (list irqreturn) :=
  match n with
  | O => mret []
  | S n => r ← cortex_forge_hardirq; rs ← hardirqs n; mret (r :: rs)
  end.

(** The registration.  The kernel's part is a function of the two handlers,
    the flags and the name, run on the kernel's state. *)
Definition IRQF_SHARED : Z := 0x80.
Definition cortex_forge_irq_init {K}
    (devm_request_threaded_irq : Z → KM irq_dev irqreturn → KM irq_dev irqreturn → Z → string →
       KM K Z) (irq : Z) : KM K Z :=
  devm_request_threaded_irq irq cortex_forge_hardirq cortex_forge_threaded_irq IRQF_SHARED
    "cortex-forge".
End Ops.
Arguments hw_ops D Cfg : clear implicits.
Arguments soc_data D Cfg : clear implicits.
Arguments irq_dev D Cfg : clear implicits.

(** ** Properties *)

Definition claim (events : Z) : irqreturn :=
  if decide (events = 0) then IRQ_NONE else IRQ_WAKE_THREAD.

(** One interrupt: it is claimed exactly when the acknowledge reports events,
    which then replace the pending ones. *)
Lemma hardirq_claims_events {D Cfg} (q : irq_dev D Cfg) (ack : KM D Z) events h :
  soc_ops (q_soc q) ≫= op_irq_ack = Some ack → ack (q_hw q) = (Ok events, h) →
  cortex_forge_hardirq q =
  (Ok (claim events),
   {| q_soc := q_soc q; q_hw := h;
      q_pending_events := if decide (events = 0) then q_pending_events q else events |}).
Proof.
  intros Hack Hrun. unfold cortex_forge_hardirq, claim. erewrite KM_bind_ok by reflexivity.
  unfold id. rewrite Hack.
  assert (Hz : zoom q_hw set_q_hw ack q = (Ok events, set_q_hw h q))
    by (unfold zoom; by rewrite Hrun).
  rewrite (KM_bind_ok _ _ _ _ _ Hz).
  destruct (Z.eqb_spec events 0) as [->|Hne]; [by rewrite !decide_True|].
  by rewrite !decide_False.
Qed.

(** The acknowledge, asked once per element of [evs], reports [evs]. *)
Fixpoint reports {D} (ack : KM D Z) (evs : list Z) (h h' : D) : Prop :=
  match evs with
  | [] => h' = h
  | e :: evs => ∃ h1, ack h = (Ok e, h1) ∧ reports ack evs h1 h'
  end.

Lemma last_nonzero_cons (p e : Z) evs :
  default (if decide (e = 0) then p else e) (last (filter (λ e, e ≠ 0) evs)) =
  default p (last (filter (λ e, e ≠ 0) (e :: evs))).
Proof.
  rewrite filter_cons. destruct (decide (e = 0)) as [->|He].
  - by rewrite decide_False by lia.
  - rewrite decide_True by done. rewrite last_cons. by destruct (last _).
Qed.

(** C39: However many interrupts arrive before the thread runs, each is answered
    by itself (IRQ_WAKE_THREAD exactly when the platform acknowledges events),
    but the thread finds only the events of the last one that had any: the
    handler stores its events and does not accumulate them. *)
Theorem pending_is_last_events {D Cfg} (q : irq_dev D Cfg) (ack : KM D Z) evs h :
  soc_ops (q_soc q) ≫= op_irq_ack = Some ack → reports ack evs (q_hw q) h →
  hardirqs (length evs) q =
  (Ok (claim <$> evs),
   {| q_soc := q_soc q; q_hw := h;
      q_pending_events := default (q_pending_events q) (last (filter (λ e, e ≠ 0) evs)) |}).
Proof.
  revert q. induction evs as [|e evs IH]; intros q Hack Hrep; cbn [reports] in Hrep.
  - subst h. by destruct q.
  - destruct Hrep as (h1 & He & Hrep). cbn [length hardirqs].
    rewrite (KM_bind_ok _ _ _ _ _ (hardirq_claims_events q ack e h1 Hack He)).
    rewrite (KM_bind_ok _ _ _ _ _ (IH {| q_soc := q_soc q |} Hack Hrep)).
    cbn [q_soc q_pending_events]. by rewrite last_nonzero_cons.
Qed.

(** What of_match_node answers: an entry of the table whose string the node
    has, if there is one. *)
Definition matches_nodes {A} (of_match_node : list (string * A) → list string → option (string * A))
    : Prop :=
  ∀ table node,
    match of_match_node table node with
    | Some e => e ∈ table ∧ e.1 ∈ node
    | None => ∀ e, e ∈ table → e.1 ∉ node
    end.

(** On the only platform there is, no interrupt is ever claimed and no
    register can be accessed.  The table gives the Tegra234 data for a node with
    its compatible string and nothing for any other; with that data every
    interrupt is disowned (the acknowledge always reports no event) and nothing
    changes; the register tables are still the placeholders, and every offset
    in them is refused by a register map that bounds offsets by the
    configuration's last register. *)
Theorem tegra234_is_placeholder {D Cfg} (h : D) pending of_match_node node
    (accepts : regmap_config → Z → bool) :
  matches_nodes of_match_node →
  (∀ c offset, accepts c offset = true → offset <= rm_max_register c) →
  cortex_forge_get_soc_data (D := D) (Cfg := Cfg) of_match_node (Some node) =
    (if decide ("nvidia,tegra234-cortex-forge" ∈ node) then Some cortex_forge_tegra234_data
     else None) ∧
  ∀ soc, cortex_forge_get_soc_data (D := D) (Cfg := Cfg) of_match_node (Some node) = Some soc →
    let q := {| q_soc := soc; q_hw := h; q_pending_events := pending |} in
    cortex_forge_hardirq q = (Ok IRQ_NONE, q) ∧
    ∀ r, r ∈ [cortex_forge_tegra234_dla_regs; cortex_forge_tegra234_pva_regs] →
      cortex_forge_regs_unverified r = true ∧
      ∀ offset, offset ∈ offsets r → accepts (soc_regmap_cfg soc) offset = false.
Proof.
  intros Hm Hmax.
  assert (Hd : cortex_forge_get_soc_data (D := D) (Cfg := Cfg) of_match_node (Some node) =
    (if decide ("nvidia,tegra234-cortex-forge" ∈ node) then Some cortex_forge_tegra234_data
     else None)).
  { unfold cortex_forge_get_soc_data. specialize (Hm cortex_forge_of_match node).
    destruct (of_match_node cortex_forge_of_match node) as [e|].
    - destruct Hm as [->%list_elem_of_singleton Hin]. by rewrite decide_True.
    - rewrite decide_False; [done|]. by apply (Hm (_, cortex_forge_tegra234_data)), list_elem_of_here. }
  split; [exact Hd|]. intros soc. rewrite Hd. case_decide; [|done]. intros [= <-].
  split; [done|]. intros r Hr. assert (∀ o, o ∈ offsets r → o = CORTEX_FORGE_REG_UNVERIFIED) as Ho.
  { intros o Ho. apply list_elem_of_In in Hr, Ho. cbn in Hr. by destruct Hr as [<-|[<-|[]]];
      cbn in Ho; intuition. }
  split.
  - apply Z.eqb_eq, Ho. apply list_elem_of_here.
  - intros o ->%Ho. apply not_true_iff_false. intros Ha%Hmax. by vm_compute in Ha.
Qed.

(** A lookup that tries the entries in order. *)
Definition demo_match {A} (table : list (string * A)) (node : list string) : option (string * A) :=
  snd <$> list_find (λ e, e.1 ∈ node) table.

Lemma demo_matches_nodes {A} : matches_nodes (A := A) demo_match.
Proof.
  intros table node. unfold demo_match.
  destruct (list_find _ table) as [[i e]|] eqn:Hf; cbn.
  - apply list_find_Some in Hf as (Hi & Hin & _). split; [|done]. by eapply list_elem_of_lookup_2.
  - apply list_find_None in Hf. by rewrite Forall_forall in Hf.
Qed.

(** Hardware that reports the events queued in it. *)
Definition queued_ack : KM (list Z) Z :=
  l ← gets id;
  match l with
  | [] => mret 0
  | e :: l => modify (λ _, l) ;; mret e
  end.

Definition queued_soc : soc_data (list Z) unit :=
  {| soc_name := "queue";
     soc_ops := Some {| op_init := mret 0; op_deinit := mret (); op_irq_ack := Some queued_ack;
       op_configure := λ _, mret 0; op_submit_task := λ _ _ _ _ _, mret 0;
       op_poll_task := λ _, mret (0, 0); op_quirk_fixup := None |};
     soc_regmap_cfg := cortex_forge_regmap_cfg; soc_num_dla := 1; soc_num_pva := 0;
     soc_clk_names := []; soc_quirks := CORTEX_FORGE_QUIRK_NONE |}.

(** Events 4 and 2 arrive, then a foreign interrupt: 4 is lost. *)
Lemma pending_is_last_events_witness :
  hardirqs 3 {| q_soc := queued_soc; q_hw := [4; 2; 0]; q_pending_events := 0 |} =
  (Ok [IRQ_WAKE_THREAD; IRQ_WAKE_THREAD; IRQ_NONE],
   {| q_soc := queued_soc; q_hw := []; q_pending_events := 2 |}).
Proof.
  apply (pending_is_last_events
    {| q_soc := queued_soc; q_hw := [4; 2; 0]; q_pending_events := 0 |} queued_ack [4; 2; 0] []).
  - reflexivity.
  - eexists; split; [reflexivity|]. eexists; split; [reflexivity|].
    eexists; split; reflexivity.
Defined.

Definition bounded_regmap (c : regmap_config) (offset : Z) : bool :=
  bool_decide (offset <= rm_max_register c).

Lemma tegra234_is_placeholder_witness :
  cortex_forge_get_soc_data (D := unit) (Cfg := unit) demo_match (Some ["nvidia,tegra234-cortex-forge"]) =
  Some cortex_forge_tegra234_data.
Proof.
  exact (proj1 (tegra234_is_placeholder (Cfg := unit) tt 0 demo_match ["nvidia,tegra234-cortex-forge"]
    bounded_regmap demo_matches_nodes (λ c o H, bool_decide_eq_true_1 _ H))).
Defined.
