(* ===== verification/Observe.v ===== *)
(** * What the driver shows: sysfs, debugfs, read, write and poll

    src/cortex_forge_sysfs.c, src/cortex_forge_debugfs.c and
    src/cortex_forge_chardev.c.  None of them is built (Kbuild), and the
    debugfs file uses fields the device structure does not have ([soc],
    [dla_count], [pva_count]), so it runs on a structure of its own here
    ([debug_dev]).  The kernel's debugfs is an interface ([DebugfsOps]) with its
    documented behaviour ([DebugfsLaws]) and one instance. *)

From S2P Require Import Prelude CLayout Device Uapi TaskManager AccelManager Worker DevInit Chardev TaskTable System SystemInv Lifecycle Schedule SystemProps IoctlSpec Platform.
From stdpp Require Import pretty.

Local Open Scope string_scope.
Local Open Scope list_scope.
Local Open Scope Z_scope.

(** ** Attributes: src/cortex_forge_sysfs.c *)

(** Octal file modes. *)
Definition MODE_0444 : Z := 4 * 64 + 4 * 8 + 4.
Definition MODE_0200 : Z := 2 * 64.

Definition newline : string := String (Ascii.ascii_of_nat 10) EmptyString.

(** The text and the number of bytes; every text here is shorter than a page. *)
Definition sysfs_emit (text : string) : string * Z := (text, Z.of_nat (String.length text)).

Definition dla0_freq_show (d : dev) : string * Z := sysfs_emit ("0" +:+ newline).
Definition dla0_temp_show (d : dev) : string * Z := sysfs_emit ("0" +:+ newline).
Definition dla0_load_show (d : dev) : string * Z := sysfs_emit ("0" +:+ newline).
Definition dla1_freq_show (d : dev) : string * Z := sysfs_emit ("0" +:+ newline).
Definition dla1_temp_show (d : dev) : string * Z := sysfs_emit ("0" +:+ newline).
Definition dla1_load_show (d : dev) : string * Z := sysfs_emit ("0" +:+ newline).
Definition pva0_freq_show (d : dev) : string * Z := sysfs_emit ("0" +:+ newline).
Definition pva0_temp_show (d : dev) : string * Z := sysfs_emit ("0" +:+ newline).
Definition pva0_load_show (d : dev) : string * Z := sysfs_emit ("0" +:+ newline).

(** DRV_VERSION comes from the compiler's command line. *)
Definition version_show (DRV_VERSION : string) (d : dev) : string * Z :=
  sysfs_emit (DRV_VERSION +:+ newline).

Record attribute : Type := { at_name : string; at_mode : Z; at_show : dev → string * Z }.

Definition DEVICE_ATTR_RO (name : string) (show : dev → string * Z) : attribute :=
  {| at_name := name; at_mode := MODE_0444; at_show := show |}.

Definition cortex_forge_attrs (DRV_VERSION : string) : list attribute :=
  [DEVICE_ATTR_RO "dla0_freq" dla0_freq_show; DEVICE_ATTR_RO "dla0_temp" dla0_temp_show;
   DEVICE_ATTR_RO "dla0_load" dla0_load_show; DEVICE_ATTR_RO "dla1_freq" dla1_freq_show;
   DEVICE_ATTR_RO "dla1_temp" dla1_temp_show; DEVICE_ATTR_RO "dla1_load" dla1_load_show;
   DEVICE_ATTR_RO "pva0_freq" pva0_freq_show; DEVICE_ATTR_RO "pva0_temp" pva0_temp_show;
   DEVICE_ATTR_RO "pva0_load" pva0_load_show; DEVICE_ATTR_RO "version" (version_show DRV_VERSION)].

(** Reading an attribute of the group by its name. *)
Definition attr_read (DRV_VERSION name : string) (d : dev) : option (string * Z) :=
  (λ e, at_show e.2 d) <$> list_find (λ a, at_name a = name) (cortex_forge_attrs DRV_VERSION).

(** ** Read, write and poll: src/cortex_forge_chardev.c *)

Definition cortex_forge_read (count f_pos : Z) : KM dev Z := mret 0.
Definition cortex_forge_write (count f_pos : Z) : KM dev Z := mret 0.

(** [poll_wait] adds the caller to a wait queue: here, to none. *)
Definition cortex_forge_poll {Q T} (poll_wait : option Q → T → T) (wait : T) : Z * T :=
  (0, poll_wait None wait).

(** ** Debugfs: src/cortex_forge_debugfs.c *)

Record debug_dev : Type := {
  g_soc_name : string;
  g_dla_count : Z;
  g_pva_count : Z;
}.

Definition print_u (n : Z) : string := pretty (Z.to_N (u32 n)).

(** The text the sequence file collects, and the code. *)
Definition cortex_forge_regs_show (d : debug_dev) (s : string) : string * Z :=
  let s := s +:+ "Cortex Forge Register Dump (" +:+ g_soc_name d +:+ ")" +:+ newline in
  let s := s +:+ "  Register offsets are unverified (TODO(HW))" +:+ newline in
  let s := s +:+ "  DLA instances: " +:+ print_u (g_dla_count d) +:+ newline in
  let s := s +:+ "  PVA instances: " +:+ print_u (g_pva_count d) +:+ newline in
  (s, 0).

(** The two tables of file operations; the writer of the second one ignores
    the value. *)
Inductive debug_fops : Type := cortex_forge_regs_fops | cortex_forge_fault_probe_fail_fops.

Definition cortex_forge_fault_probe_fail_set (val : Z) : KM debug_dev Z := mret 0.

Definition EEXIST : Z := 17.

Notation path := (list string).

Inductive debug_node : Type :=
  | DN_dir
  | DN_file (mode : Z) (data : debug_dev) (fops : debug_fops).

(** The kernel's debugfs.  A dentry is the path it stands for, or the negative
    code of an error pointer; a missing parent is the root. *)
Class DebugfsOps (F : Type) : Type := {
  debugfs_create_dir : string → option (Z + path) → F → (Z + path) * F;
  debugfs_create_file : string → Z → (Z + path) → debug_dev → debug_fops → F → F;
  debugfs_lookup : string → F → option path * F;
  debugfs_remove_recursive : option path → F → F;
  dfs_tree : F → gmap path debug_node;     (* what exists *)
  dfs_refs : F → path → nat;               (* references handed out by lookups *)
}.

Section Debugfs.
Context {F : Type} `{DebugfsOps F}.
(** Whether the kernel is configured with CONFIG_CORTEX_FORGE_FAULT_INJECT. *)
Context (FAULT_INJECT : bool).

Definition DRV_NAME : string := "cortex-forge".

Definition cortex_forge_debugfs_init (d : debug_dev) : KM F Z := λ fs,
  match debugfs_create_dir DRV_NAME None fs with
  | (inl err, fs) => (Ok err, fs)
  | (inr dir, fs) =>
      let fs := debugfs_create_file "registers" MODE_0444 (inr dir) d cortex_forge_regs_fops fs in
      let fs :=
        if FAULT_INJECT then
          let '(fault_dir, fs) := debugfs_create_dir "fault" (Some (inr dir)) fs in
          debugfs_create_file "probe_fail" MODE_0200 fault_dir d
            cortex_forge_fault_probe_fail_fops fs
        else fs in
      (Ok 0, fs)
  end.

Definition cortex_forge_debugfs_cleanup (d : debug_dev) : KM F unit := λ fs,
  let '(dentry, fs) := debugfs_lookup DRV_NAME fs in
  (Ok (), debugfs_remove_recursive dentry fs).
End Debugfs.

(** ** The documented behaviour of debugfs *)

Definition parent_path (parent : option (Z + path)) : option path :=
  match parent with
  | None => Some []
  | Some (inl _) => None
  | Some (inr p) => Some p
  end.

(** Creating makes one new entry or fails and changes nothing; a name that
    exists is refused; an error pointer as parent makes nothing.  A lookup takes
    a reference on what it finds.  Removing takes a whole subtree away, and
    nothing at all for a missing dentry; it drops no reference a lookup took. *)
Class DebugfsLaws (F : Type) `{DebugfsOps F} : Prop := {
  create_dir_spec name parent fs r fs' : debugfs_create_dir name parent fs = (r, fs') →
    (∀ p, dfs_refs fs' p = dfs_refs fs p) ∧
    match r with
    | inl e => e < 0 ∧ dfs_tree fs' = dfs_tree fs
    | inr p => ∃ q, parent_path parent = Some q ∧ p = q ++ [name] ∧
        dfs_tree fs !! p = None ∧ dfs_tree fs' = <[p := DN_dir]> (dfs_tree fs)
    end;
  create_dir_exists name parent fs q : parent_path parent = Some q →
    is_Some (dfs_tree fs !! (q ++ [name])) →
    (debugfs_create_dir name parent fs).1 = inl (- EEXIST);
  create_file_spec name mode parent d fops fs :
    let fs' := debugfs_create_file name mode parent d fops fs in
    (∀ p, dfs_refs fs' p = dfs_refs fs p) ∧
    (dfs_tree fs' = dfs_tree fs ∨
     ∃ q, parent = inr q ∧ dfs_tree fs !! (q ++ [name]) = None ∧
       dfs_tree fs' = <[q ++ [name] := DN_file mode d fops]> (dfs_tree fs));
  lookup_spec name fs r fs' : debugfs_lookup name fs = (r, fs') →
    dfs_tree fs' = dfs_tree fs ∧
    match dfs_tree fs !! [name] with
    | None => r = None ∧ ∀ p, dfs_refs fs' p = dfs_refs fs p
    | Some _ => r = Some [name] ∧
        ∀ p, dfs_refs fs' p = if decide (p = [name]) then S (dfs_refs fs p) else dfs_refs fs p
    end;
  remove_spec dentry fs :
    let fs' := debugfs_remove_recursive dentry fs in
    (∀ p, dfs_refs fs' p = dfs_refs fs p) ∧
    match dentry with
    | None => dfs_tree fs' = dfs_tree fs
    | Some q => ∀ p, dfs_tree fs' !! p = if decide (q `prefix_of` p) then None else dfs_tree fs !! p
    end;
}.

Section DebugfsProps.
Context {F : Type} `{DebugfsLaws F} (FAULT_INJECT : bool).
Implicit Types fs : F.

(** [fs'] has everything of [fs], and more only below [root]. *)
Definition grows (root : path) fs fs' : Prop :=
  (∀ p, dfs_refs fs' p = dfs_refs fs p) ∧
  (∀ p n, dfs_tree fs !! p = Some n → dfs_tree fs' !! p = Some n) ∧
  (∀ p, ¬ root `prefix_of` p → dfs_tree fs' !! p = dfs_tree fs !! p).

#[local] Instance grows_trans root : Transitive (grows root).
Proof.
  intros fs1 fs2 fs3 (Hr & Ht & Hp) (Hr' & Ht' & Hp'). split_and!.
  - intros p. by rewrite Hr', Hr.
  - auto.
  - intros p Hnp. by rewrite Hp', Hp.
Qed.

Lemma grows_same root fs fs' :
  (∀ p, dfs_refs fs' p = dfs_refs fs p) → dfs_tree fs' = dfs_tree fs → grows root fs fs'.
Proof. intros Hr Ht. split_and!; [done| |]; intros p; by rewrite Ht. Qed.

Lemma grows_insert root fs fs' q n :
  (∀ p, dfs_refs fs' p = dfs_refs fs p) → root `prefix_of` q → dfs_tree fs !! q = None →
  dfs_tree fs' = <[q := n]> (dfs_tree fs) → grows root fs fs'.
Proof.
  intros Hr Hq Hn Ht. split_and!; [done| |]; intros p; rewrite Ht.
  - intros n' Hp. rewrite lookup_insert_ne; [done|]. intros <-. by rewrite Hn in Hp.
  - intros Hnp. rewrite lookup_insert_ne; [done|]. by intros <-.
Qed.

Lemma create_file_grows root name mode parent d fops fs :
  (∀ q, parent = inr q → root `prefix_of` q) →
  grows root fs (debugfs_create_file name mode parent d fops fs).
Proof.
  intros Hq. destruct (create_file_spec name mode parent d fops fs) as (Hr & [Ht|(q & -> & Hn & Ht)]).
  - by apply grows_same.
  - eapply grows_insert; [exact Hr| |exact Hn|exact Ht]. by apply prefix_app_r, Hq.
Qed.

Lemma create_dir_grows root name q fs r fs' :
  debugfs_create_dir name (Some (inr q)) fs = (r, fs') → root `prefix_of` q →
  grows root fs fs' ∧ ∀ p, r = inr p → root `prefix_of` p.
Proof.
  intros Hc Hq. destruct (create_dir_spec _ _ _ _ _ Hc) as (Hr & Ht). destruct r as [e|p].
  - destruct Ht as [_ Ht]. split; [by apply grows_same|done].
  - destruct Ht as (q' & [= <-] & -> & Hn & Ht).
    assert (root `prefix_of` q ++ [name]) by (by apply prefix_app_r).
    split; [by eapply grows_insert|]. by intros p [= <-].
Qed.

(** What initialisation does once its directory exists. *)
Lemma debugfs_init_spec d fs :
  ∃ r fs1, cortex_forge_debugfs_init FAULT_INJECT d fs = (Ok r, fs1) ∧
    (r < 0 ∧ dfs_tree fs1 = dfs_tree fs ∨
     r = 0 ∧ dfs_tree fs !! [DRV_NAME] = None ∧ dfs_tree fs1 !! [DRV_NAME] = Some DN_dir ∧
     ∃ fs0, dfs_tree fs0 = <[[DRV_NAME] := DN_dir]> (dfs_tree fs) ∧
       (∀ p, dfs_refs fs0 p = dfs_refs fs p) ∧ grows [DRV_NAME] fs0 fs1).
Proof.
  unfold cortex_forge_debugfs_init.
  destruct (debugfs_create_dir DRV_NAME None fs) as [[err|dir] fs0] eqn:Hc;
    destruct (create_dir_spec _ _ _ _ _ Hc) as (Hr & Ht).
  { destruct Ht. eexists _, _. split; [done|]. by left. }
  destruct Ht as (q & [= <-] & -> & Hn & Ht). cbn [app] in *.
  assert (Hg1 := create_file_grows [DRV_NAME] "registers" MODE_0444 (inr [DRV_NAME]) d
    cortex_forge_regs_fops fs0 ltac:(intros ? [= <-]; done)).
  set (fs1 := debugfs_create_file _ _ _ _ _ fs0) in *.
  assert (∃ fs2, (if FAULT_INJECT then
      let '(fault_dir, fs) := debugfs_create_dir "fault" (Some (inr [DRV_NAME])) fs1 in
      debugfs_create_file "probe_fail" MODE_0200 fault_dir d cortex_forge_fault_probe_fail_fops fs
    else fs1) = fs2 ∧ grows [DRV_NAME] fs0 fs2) as (fs2 & -> & Hg).
  { destruct FAULT_INJECT; [|by eexists].
    destruct (debugfs_create_dir "fault" _ fs1) as [r fs2] eqn:Hd.
    destruct (create_dir_grows [DRV_NAME] _ _ _ _ _ Hd ltac:(done)) as [Hg2 Hp].
    eexists; split; [reflexivity|]. etrans; [exact Hg1|]. etrans; [exact Hg2|].
    by apply create_file_grows. }
  eexists _, _. split; [done|]. right. split_and!; [done..| |].
  - apply Hg. rewrite Ht. apply lookup_insert_eq.
  - by exists fs0.
Qed.

(** C40: The debugfs directory is made at most once and cleanup takes it away
    whole.  Whatever debugfs answers, initialisation returns a negative code and
    leaves the file system as it was, or returns 0; in the second case the same
    initialisation for any second device is refused with -EEXIST, and the cleanup
    of any device (even that second one) puts the file system back as it was
    before, except that the reference its lookup takes on the directory is never
    given back. *)
Theorem debugfs_init_cleanup d d2 fs :
  (dfs_tree fs !! [DRV_NAME] = None → ∀ p, [DRV_NAME] `prefix_of` p → dfs_tree fs !! p = None) →
  ∃ r fs1, cortex_forge_debugfs_init FAULT_INJECT d fs = (Ok r, fs1) ∧
    (r < 0 ∧ dfs_tree fs1 = dfs_tree fs ∨
     r = 0 ∧
     (∃ fs2, cortex_forge_debugfs_init FAULT_INJECT d2 fs1 = (Ok (- EEXIST), fs2) ∧
        dfs_tree fs2 = dfs_tree fs1) ∧
     ∃ fs3, cortex_forge_debugfs_cleanup d2 fs1 = (Ok (), fs3) ∧ dfs_tree fs3 = dfs_tree fs ∧
       dfs_refs fs3 [DRV_NAME] = S (dfs_refs fs [DRV_NAME])).
Proof.
  intros Hclosed. destruct (debugfs_init_spec d fs) as (r & fs1 & Hi & Hcase).
  exists r, fs1. split; [exact Hi|].
  destruct Hcase as [?|(-> & Hn & Hdir & fs0 & Ht0 & Hr0 & Hr & Hkeep & Hout)]; [by left|right].
  split_and!; [done| |].
  - unfold cortex_forge_debugfs_init. pose proof (create_dir_exists DRV_NAME None fs1 [] eq_refl) as He.
    cbn [app] in He. rewrite Hdir in He. specialize (He ltac:(by eexists)).
    destruct (debugfs_create_dir DRV_NAME None fs1) as [r fs2] eqn:Hc. cbn in He. subst r.
    destruct (create_dir_spec _ _ _ _ _ Hc) as (_ & _ & Ht). by eexists.
  - unfold cortex_forge_debugfs_cleanup.
    destruct (debugfs_lookup DRV_NAME fs1) as [r fs2] eqn:Hl.
    destruct (lookup_spec _ _ _ _ Hl) as [Ht2 Hr2]. rewrite Hdir in Hr2. destruct Hr2 as [-> Hr2].
    destruct (remove_spec (Some [DRV_NAME]) fs2) as [Hr3 Ht3].
    eexists. split; [done|]. split.
    + apply map_eq. intros p. rewrite Ht3, Ht2. case_decide as Hp; [by rewrite Hclosed|].
      rewrite Hout by done. rewrite Ht0, lookup_insert_ne; [done|]. intros <-. by apply Hp.
    + rewrite Hr3, Hr2, decide_True by done. by rewrite Hr, Hr0.
Qed.
End DebugfsProps.

(** ** Attributes against the ioctl interface *)

Lemma app_newline_inj s1 s2 : s1 +:+ newline = s2 +:+ newline → s1 = s2.
Proof.
  revert s2. induction s1 as [|c s1 IH]; intros [|c' s2]; cbn; [done|..].
  - intros [= <- H]. by destruct s2.
  - intros [= -> H]. by destruct s1.
  - intros [= -> H]. by rewrite (IH s2).
Qed.

Lemma print_u_inj a b : is_u32 a → is_u32 b → print_u a = print_u b → a = b.
Proof.
  unfold is_u32, print_u, u32. intros Ha Hb Hp. apply pretty_N_inj in Hp.
  rewrite !Z.mod_small in Hp by lia. lia.
Qed.

(** The load attribute of an accelerator is right exactly when it is idle.
    In every reachable state of the driver the attribute reads 0, which is the
    text of the load GET_ACCEL_INFO answers if and only if the accelerator's
    worker is not between its two load updates. *)
Theorem sysfs_load_right_iff_idle HZ m2j s i a pc name version info :
  reachable HZ m2j s → dev_accelerators (y_dev s) !! i = Some a → y_workers s !! i = Some pc →
  ["dla0_load"; "dla1_load"; "pva0_load"] !! i = Some name →
  ∃ text, attr_read version name (y_dev s) = Some (text, 2) ∧
    (text = print_u (i_load_percent (accel_get_info a info)) +:+ newline ↔ expected_load pc = 0).
Proof.
  intros Hr%sys_inv_reachable Ha Hpc Hname. exists ("0" +:+ newline). split.
  { destruct i as [|[|[|?]]]; cbn in Hname; [| | |discriminate]; by injection Hname as <-. }
  destruct (si_workers s Hr i a Ha) as (pc0 & e0 & q0 & Hpc0 & _ & _ & Hw).
  assert (pc0 = pc) as -> by (rewrite Hpc in Hpc0; by injection Hpc0).
  cbn [accel_get_info i_load_percent]. rewrite (wi_load _ _ _ _ _ _ Hw). split.
  - intros Ht%app_newline_inj. symmetry. apply print_u_inj; [done| |exact Ht]. by destruct pc.
  - by intros ->.
Qed.

(** ** A debugfs, and the properties on it *)

Record mem_debugfs : Type := { md_tree : gmap path debug_node; md_refs : path → nat }.

#[export] Instance mem_debugfs_ops : DebugfsOps mem_debugfs := {
  debugfs_create_dir name parent fs :=
    match parent_path parent with
    | None => (inl (- ENOENT), fs)
    | Some q =>
        match md_tree fs !! (q ++ [name]) with
        | Some _ => (inl (- EEXIST), fs)
        | None => (inr (q ++ [name]),
            {| md_tree := <[q ++ [name] := DN_dir]> (md_tree fs); md_refs := md_refs fs |})
        end
    end;
  debugfs_create_file name mode parent d fops fs :=
    match parent with
    | inl _ => fs
    | inr q =>
        match md_tree fs !! (q ++ [name]) with
        | Some _ => fs
        | None => {| md_tree := <[q ++ [name] := DN_file mode d fops]> (md_tree fs);
                     md_refs := md_refs fs |}
        end
    end;
  debugfs_lookup name fs :=
    match md_tree fs !! [name] with
    | None => (None, fs)
    | Some _ => (Some [name], {| md_tree := md_tree fs; md_refs := λ p,
        if decide (p = [name]) then S (md_refs fs p) else md_refs fs p |})
    end;
  debugfs_remove_recursive dentry fs :=
    match dentry with
    | None => fs
    | Some q => {| md_tree := filter (λ e, ¬ q `prefix_of` e.1) (md_tree fs);
                   md_refs := md_refs fs |}
    end;
  dfs_tree := md_tree;
  dfs_refs := md_refs;
}.

#[export] Instance mem_debugfs_laws : DebugfsLaws mem_debugfs.
Proof.
  split; cbn.
  - intros name parent fs r fs'. repeat case_match; intros [= <- <-]; cbn; [done| |done].
    split; [done|]. by eexists.
  - intros name parent fs q -> [n Hn]. by rewrite Hn.
  - intros name mode [e|q] d fops fs; [by split; [|left]|].
    case_match; (split; [done|]); [by left|]. right. by exists q.
  - intros name fs r fs'. case_match; intros [= <- <-]; cbn; split_and!; done.
  - intros [q|] fs; (split; [done|]); [|done]. intros p. cbn.
    case_decide as Hp.
    + apply map_lookup_filter_None. right. intros n _ Hn. by apply Hn.
    + destruct (md_tree fs !! p) as [n|] eqn:Hn; [by apply map_lookup_filter_Some|].
      apply map_lookup_filter_None. by left.
Qed.

Definition agx : debug_dev :=
  {| g_soc_name := "Tegra234 (Jetson AGX Orin)"; g_dla_count := 2; g_pva_count := 1 |}.

Definition empty_debugfs : mem_debugfs := {| md_tree := ∅; md_refs := λ _, 0%nat |}.

Lemma debugfs_init_cleanup_witness :
  ∃ fs1 fs3, cortex_forge_debugfs_init true agx empty_debugfs = (Ok 0, fs1) ∧
    dfs_tree fs1 !! [DRV_NAME; "fault"; "probe_fail"] =
      Some (DN_file MODE_0200 agx cortex_forge_fault_probe_fail_fops) ∧
    cortex_forge_debugfs_cleanup agx fs1 = (Ok (), fs3) ∧
    dfs_tree fs3 = ∅ ∧ dfs_refs fs3 [DRV_NAME] = 1%nat.
Proof.
  destruct (debugfs_init_cleanup true agx agx empty_debugfs (λ _ p _, lookup_empty p))
    as (r & fs1 & Hi & [[Hr _]|(-> & _ & fs3 & Hc & Ht & Hf)]).
  - exfalso. injection Hi as <- _. by vm_compute in Hr.
  - exists fs1, fs3. split_and!; [exact Hi| |exact Hc|exact Ht|exact Hf].
    injection Hi as <-. by vm_compute.
Defined.

Lemma sysfs_load_right_iff_idle_witness :
  reachable demo_HZ demo_m2j demo_sys ∧
  ∃ text, attr_read "0.1.0" "dla0_load" (y_dev demo_sys) = Some (text, 2) ∧
    text ≠ print_u (i_load_percent (accel_get_info demo_accel demo_info)) +:+ newline.
Proof.
  split; [exact demo_reachable|].
  destruct (sysfs_load_right_iff_idle demo_HZ demo_m2j demo_sys 0 demo_accel (W_start 0 2)
    "dla0_load" "0.1.0" demo_info demo_reachable) as (text & Ht & Hiff); [by vm_compute..|].
  exists text. split; [exact Ht|]. intros Heq%Hiff. discriminate Heq.
Defined.
