(* ===== verification/Tables.v ===== *)
(** * What the files declare and register

    The operations the drivers register with the VFS (src/chardev.c,
    src/cortex_forge_main.c) and with the platform bus (src/main.c), the
    structures the single-file driver declares again, the two drivers compared,
    and the public header of the library (lib/include/libcortex-forge.h) against
    its implementation. *)

From S2P Require Import Prelude CLayout Device UserMem Uapi TaskManager Pool AccelManager Worker DevInit Chardev Probe Legacy Lib Platform.

(** ** File operations

    The handlers a character device can register; NULL is [None].  What the VFS
    does for a missing one is a parameter ([vfs]): the kernel's documented
    answers are -EINVAL for read and write, DEFAULT_POLLMASK for poll and
    -ENOTTY for ioctl; so are the kernel's seek functions a driver can name
    (noop_llseek answers the position it leaves unchanged, no_llseek -ESPIPE).
    [owner] is THIS_MODULE in both drivers. *)

Inductive llseek_fn : Type := noop_llseek | no_llseek.

Record file_operations (S : Type) : Type := {
  fo_llseek : llseek_fn;
  fo_open : option (KM S Z);
  fo_release : option (KM S Z);
  fo_read : option (Z → Z → KM S Z);
  fo_write : option (Z → Z → KM S Z);
  fo_poll : option (KM S Z);
  fo_unlocked_ioctl : option (Z → Z → KM S Z);
  fo_compat_ioctl : option (Z → Z → KM S Z);
}.
Arguments fo_llseek {S} f.
Arguments fo_open {S} f.
Arguments fo_release {S} f.
Arguments fo_read {S} f.
Arguments fo_write {S} f.
Arguments fo_poll {S} f.
Arguments fo_unlocked_ioctl {S} f.
Arguments fo_compat_ioctl {S} f.

Record vfs : Type := {
  vfs_no_read : Z;
  vfs_no_write : Z;
  vfs_no_poll : Z;
  vfs_no_ioctl : Z;
  vfs_llseek : llseek_fn → Z → Z → Z;    (* offset, whence *)
}.

(** A system call on an open file. *)
Inductive file_call : Type :=
  | FC_read (buf count : Z)
  | FC_write (buf count : Z)
  | FC_poll
  | FC_lseek (offset whence : Z)
  | FC_ioctl (cmd arg : Z)
  | FC_compat_ioctl (cmd arg : Z).      (* from a 32-bit process *)

Definition vfs_call {S} (v : vfs) (f : file_operations S) (c : file_call) : KM S Z :=
  match c with
  | FC_read buf count => from_option (λ h, h buf count) (mret (vfs_no_read v)) (fo_read f)
  | FC_write buf count => from_option (λ h, h buf count) (mret (vfs_no_write v)) (fo_write f)
  | FC_poll => default (mret (vfs_no_poll v)) (fo_poll f)
  | FC_lseek offset whence => mret (vfs_llseek v (fo_llseek f) offset whence)
  | FC_ioctl cmd arg => from_option (λ h, h cmd arg) (mret (vfs_no_ioctl v)) (fo_unlocked_ioctl f)
  | FC_compat_ioctl cmd arg => from_option (λ h, h cmd arg) (mret (vfs_no_ioctl v)) (fo_compat_ioctl f)
  end.

Section Fops.
Context {U : Type} `{UserMemory U}.
Context (HZ : Z).

Definition cortex_forge_fops : file_operations (world U) :=
  {| fo_llseek := noop_llseek;
     fo_open := Some Chardev.cortex_forge_open;
     fo_release := Some Chardev.cortex_forge_release;
     fo_read := None;
     fo_write := None;
     fo_poll := None;
     fo_unlocked_ioctl := Some (Chardev.cortex_forge_ioctl HZ);
     fo_compat_ioctl := None |}.

(** The single-file driver's. *)
Definition mono_open : KM (world U) Z := mret 0.
Definition mono_release : KM (world U) Z := mret 0.

Definition mono_fops : file_operations (world U) :=
  {| fo_llseek := no_llseek;
     fo_open := Some mono_open;
     fo_release := Some mono_release;
     fo_read := None;
     fo_write := None;
     fo_poll := None;
     fo_unlocked_ioctl := Some (Legacy.Monolith.cortex_forge_ioctl HZ);
     fo_compat_ioctl := None |}.

(** Through the VFS the device answers native ioctls with its handler, and
    everything else, seeks, poll and the requests of 32-bit processes included, with
    an answer that does not depend on the device and changes nothing. *)
Theorem file_offers_ioctl_only (v : vfs) c :
  match c with
  | FC_ioctl cmd arg => vfs_call v cortex_forge_fops c = Chardev.cortex_forge_ioctl HZ cmd arg
  | _ => ∃ answer, ∀ w, vfs_call v cortex_forge_fops c w = (Ok answer, w)
  end.
Proof. destruct c; cbn; try (by eexists); reflexivity. Qed.

(** The two drivers differ in their seek function only. *)
Theorem fops_agree (v : vfs) c w :
  match c with
  | FC_lseek offset whence =>
      vfs_call v mono_fops c w = (Ok (vfs_llseek v no_llseek offset whence), w) ∧
      vfs_call v cortex_forge_fops c w = (Ok (vfs_llseek v noop_llseek offset whence), w)
  | _ => vfs_call v mono_fops c w = vfs_call v cortex_forge_fops c w
  end.
Proof. destruct c; try reflexivity; [by split|apply monolith_ioctl]. Qed.
End Fops.

(** ** Platform drivers *)

Record platform_driver : Type := {
  pd_name : string;
  pd_of_match : list string;            (* the compatible strings *)
  pd_probe : kenv → KM pstate Z;
  pd_remove : KM pstate unit;
}.

Definition cortex_forge_of_match : list string := ["nvidia,tegra234-cortex-forge"%string].
Definition cortex_forge_driver : platform_driver :=
  {| pd_name := "cortex-forge"; pd_of_match := cortex_forge_of_match;
     pd_probe := Probe.cortex_forge_probe; pd_remove := Probe.cortex_forge_remove |}.

Definition mono_of_match : list string := ["nvidia,tegra234-cortex-forge"%string].
Definition mono_driver : platform_driver :=
  {| pd_name := "cortex-forge"; pd_of_match := mono_of_match;
     pd_probe := Legacy.Monolith.cortex_forge_probe;
     pd_remove := Legacy.Monolith.cortex_forge_remove |}.

(** All three tables of the tree name the same hardware. *)
Theorem match_tables_agree D Cfg :
  pd_of_match mono_driver = pd_of_match cortex_forge_driver ∧
  fst <$> (Platform.cortex_forge_of_match (D := D) (Cfg := Cfg)) = pd_of_match cortex_forge_driver.
Proof. by split. Qed.

(** ** The structures, declared twice

    The kernel-side structures field by field, as the headers declare them and
    as src/cortex_forge_main.c declares them again; Device.v's records are
    these without the locks and the kernel's own objects. *)

Local Open Scope string_scope.

Inductive ktype : Type :=
  | KT (name : string)
  | KPtr (t : ktype)
  | KArr (t : ktype) (n : nat).

Definition kdecl : Type := list (string * ktype).

Definition task_struct : kdecl :=
  [("id", KT "u32");
   ("state", KT "enum task_state");
   ("accel_type", KT "u32");
   ("priority", KT "u32");
   ("input_addr", KT "u64");
   ("input_size", KT "u32");
   ("output_addr", KT "u64");
   ("output_size", KT "u32");
   ("timeout_ms", KT "u32");
   ("submit_jiffies", KT "unsigned long");
   ("complete_jiffies", KT "unsigned long");
   ("error_code", KT "int");
   ("entry", KT "struct list_head");
   ("done", KT "struct completion")].

Definition accel_struct : kdecl :=
  [("type", KT "u32");
   ("name", KArr (KT "char") 16);
   ("freq_hz", KT "u32");
   ("temp_celsius", KT "s32");
   ("load_percent", KT "u32");
   ("fw_version", KT "u32");
   ("hw_version", KT "u32");
   ("mem_total", KT "u64");
   ("mem_free", KT "u64");
   ("state", KT "u32");
   ("lock", KT "struct mutex");
   ("task_queue", KT "struct list_head");
   ("active_tasks", KT "struct list_head");
   ("worker_thread", KPtr (KT "struct task_struct"));
   ("work_wait", KT "wait_queue_head_t");
   ("running", KT "atomic_t")].

Definition dev_struct : kdecl :=
  [("pdev", KPtr (KT "struct platform_device"));
   ("cdev", KT "struct cdev");
   ("devt", KT "dev_t");
   ("dev", KPtr (KT "struct device"));
   ("class", KPtr (KT "const struct class"));
   ("base", KPtr (KT "void __iomem"));
   ("regmap", KPtr (KT "struct regmap"));
   ("dev_lock", KT "struct mutex");
   ("task_lock", KT "spinlock_t");
   ("accelerators", KArr (KT "struct cortex_forge_accel") NUM_ACCELERATORS);
   ("tasks", KArr (KT "struct cortex_forge_task") MAX_TASKS);
   ("free_tasks", KT "struct list_head");
   ("next_task_id", KT "atomic_t");
   ("irq", KT "int");
   ("clks", KPtr (KT "struct clk_bulk_data"));
   ("num_clks", KT "int");
   ("rst", KPtr (KT "struct reset_control"))].

Definition MONO_MAX_TASKS : nat := 256.

(** [enum task_state] *)
Definition task_state_enum : list (string * task_state) :=
  [("TASK_STATE_FREE", TASK_STATE_FREE); ("TASK_STATE_PENDING", TASK_STATE_PENDING);
   ("TASK_STATE_RUNNING", TASK_STATE_RUNNING); ("TASK_STATE_COMPLETE", TASK_STATE_COMPLETE);
   ("TASK_STATE_FAILED", TASK_STATE_FAILED); ("TASK_STATE_CANCELLED", TASK_STATE_CANCELLED)].

(** The enumerators, numbered from 0 in the order declared. *)
Definition mono_task_state_enum : list string :=
  ["TASK_STATE_FREE"; "TASK_STATE_PENDING"; "TASK_STATE_RUNNING"; "TASK_STATE_COMPLETE";
   "TASK_STATE_FAILED"; "TASK_STATE_CANCELLED"].

Definition mono_task_struct : kdecl :=
  [("id", KT "u32");
   ("state", KT "enum task_state");
   ("accel_type", KT "u32");
   ("priority", KT "u32");
   ("input_addr", KT "u64");
   ("input_size", KT "u32");
   ("output_addr", KT "u64");
   ("output_size", KT "u32");
   ("timeout_ms", KT "u32");
   ("submit_jiffies", KT "unsigned long");
   ("complete_jiffies", KT "unsigned long");
   ("error_code", KT "int");
   ("entry", KT "struct list_head");
   ("done", KT "struct completion")].

Definition mono_accel_struct : kdecl :=
  [("type", KT "u32");
   ("name", KArr (KT "char") 16);
   ("freq_hz", KT "u32");
   ("temp_celsius", KT "s32");
   ("load_percent", KT "u32");
   ("fw_version", KT "u32");
   ("hw_version", KT "u32");
   ("mem_total", KT "u64");
   ("mem_free", KT "u64");
   ("state", KT "u32");
   ("lock", KT "struct mutex");
   ("task_queue", KT "struct list_head");
   ("active_tasks", KT "struct list_head");
   ("worker_thread", KPtr (KT "struct task_struct"));
   ("work_wait", KT "wait_queue_head_t");
   ("running", KT "atomic_t")].

Definition mono_dev_struct : kdecl :=
  [("pdev", KPtr (KT "struct platform_device"));
   ("cdev", KT "struct cdev");
   ("devt", KT "dev_t");
   ("dev", KPtr (KT "struct device"));
   ("class", KPtr (KT "const struct class"));
   ("base", KPtr (KT "void __iomem"));
   ("regmap", KPtr (KT "struct regmap"));
   ("dev_lock", KT "struct mutex");
   ("task_lock", KT "spinlock_t");
   ("accelerators", KArr (KT "struct cortex_forge_accel") 3);
   ("tasks", KArr (KT "struct cortex_forge_task") MONO_MAX_TASKS);
   ("free_tasks", KT "struct list_head");
   ("next_task_id", KT "atomic_t");
   ("irq", KT "int");
   ("clks", KPtr (KT "struct clk_bulk_data"));
   ("num_clks", KT "int");
   ("rst", KPtr (KT "struct reset_control"))].

(** The single-file driver and the modular one work on the same data. *)
Theorem structures_agree :
  mono_task_struct = task_struct ∧ mono_accel_struct = accel_struct ∧
  mono_dev_struct = dev_struct ∧
  imap (λ i name, (name, Z.of_nat i)) mono_task_state_enum =
    prod_map id task_state_val <$> task_state_enum.
Proof. split_and!; by vm_compute. Qed.

(** ** The two drivers compared *)

(** A sequence of system calls on an open file: the answers, up to the first
    invalid access, and what is left. *)
Fixpoint vfs_run {S} (v : vfs) (f : file_operations S) (cs : list file_call) (w : S)
    : list (res Z) * S :=
  match cs with
  | [] => ([], w)
  | c :: cs' =>
      match vfs_call v f c w with
      | (Oops, w') => ([Oops], w')
      | (r, w') => let '(rs, w'') := vfs_run v f cs' w' in (r :: rs, w'')
      end
  end.

Definition is_lseek (c : file_call) : bool :=
  match c with FC_lseek _ _ => true | _ => false end.

Section Compare.
Context {U : Type} `{UserMemory U}.
Context (HZ : Z).

(** The same answers, those to lseek apart, and the same state after. *)
Lemma vfs_run_agree (v : vfs) cs (w : world U) :
  (vfs_run v (mono_fops HZ) cs w).2 = (vfs_run v (cortex_forge_fops HZ) cs w).2 ∧
  ∀ k c, cs !! k = Some c → is_lseek c = false →
    (vfs_run v (mono_fops HZ) cs w).1 !! k = (vfs_run v (cortex_forge_fops HZ) cs w).1 !! k.
Proof.
  revert w. induction cs as [|c cs IH]; intros w; [by split|].
  pose proof (fops_agree HZ v c w) as Hc. cbn [vfs_run]. destruct (is_lseek c) eqn:Hl.
  - destruct c as [| | |offset whence| |]; try discriminate Hl. destruct Hc as [-> ->].
    destruct (IH w) as [Hw Ha].
    destruct (vfs_run v (mono_fops HZ) cs w), (vfs_run v (cortex_forge_fops HZ) cs w).
    cbn [fst snd] in *. split; [done|]. intros [|k] c Hk Hn; [cbn in Hk; by simplify_eq|].
    by eapply Ha.
  - assert (Heq : vfs_call v (mono_fops HZ) c w = vfs_call v (cortex_forge_fops HZ) c w)
      by (by destruct c).
    rewrite Heq. destruct (vfs_call v (cortex_forge_fops HZ) c w) as [r w'].
    destruct (IH w') as [Hw Ha].
    destruct (vfs_run v (mono_fops HZ) cs w'), (vfs_run v (cortex_forge_fops HZ) cs w').
    cbn [fst snd] in *. destruct r; try (split; [done|]; intros [|k] c' Hk Hn; [done|by eapply Ha]).
    by split.
Qed.

(** C34: The two drivers behave alike on a bound device, but only the modular one
    binds.  Both initialise the allocated device to the same state; their
    worker threads take the same step from every control point; and any
    sequence of system calls on a file of either gets the same answers and
    leaves the same device and memory, except that one refuses lseek where the
    other answers the position.  The modular probe returns 0 exactly when the
    kernel grants every resource; the single-file probe never does with a
    kernel whose device_create refuses a NULL class, whatever it grants. *)
Theorem drivers_compared (v : vfs) m2j :
  Monolith.dev_init zero_dev = dev_init zero_dev ∧
  (∀ i now stop pc d,
     Monolith.accel_worker_thread m2j i now stop pc d = worker_step m2j i now stop pc d) ∧
  (∀ cs (w : world U),
     (vfs_run v (mono_fops HZ) cs w).2 = (vfs_run v (cortex_forge_fops HZ) cs w).2 ∧
     ∀ k c, cs !! k = Some c → is_lseek c = false →
       (vfs_run v (mono_fops HZ) cs w).1 !! k = (vfs_run v (cortex_forge_fops HZ) cs w).1 !! k) ∧
  (∀ offset whence (w : world U),
     vfs_call v (mono_fops HZ) (FC_lseek offset whence) w =
       (Ok (vfs_llseek v no_llseek offset whence), w) ∧
     vfs_call v (cortex_forge_fops HZ) (FC_lseek offset whence) w =
       (Ok (vfs_llseek v noop_llseek offset whence), w)) ∧
  (∀ env d log,
     (Probe.cortex_forge_probe env {| ps_dev := d; ps_log := log |}).1 = Ok 0 ↔ grants env) ∧
  (∀ env d log, ke_device_create_null env < 0 →
     (Monolith.cortex_forge_probe env {| ps_dev := d; ps_log := log |}).1 ≠ Ok 0).
Proof.
  split; [by rewrite monolith_dev_init, dev_init_run|]. split; [apply monolith_worker|].
  split; [apply vfs_run_agree|]. split; [done|].
  split; [apply probe_binds_iff|apply monolith_never_binds].
Qed.
End Compare.

(** On a kernel that grants everything and refuses the NULL class. *)
Lemma drivers_compared_witness :
  (Probe.cortex_forge_probe demo_kenv {| ps_dev := zero_dev; ps_log := [] |}).1 = Ok 0 ∧
  (Monolith.cortex_forge_probe demo_kenv {| ps_dev := zero_dev; ps_log := [] |}).1 ≠ Ok 0.
Proof.
  destruct (drivers_compared (U := flatmem) 250
    {| vfs_no_read := -22; vfs_no_write := -22; vfs_no_poll := 325; vfs_no_ioctl := -25;
       vfs_llseek := λ f _ _, match f with noop_llseek => 0 | no_llseek => -29 end |} (λ ms, ms))
    as (_ & _ & _ & _ & Hbind & Hnever).
  split; [apply Hbind; split; vm_compute; try reflexivity; try discriminate; by intros|].
  apply Hnever. reflexivity.
Defined.

(** ** The library's header *)

(** The constants the header defines for its clients. *)
Definition LIB_ACCEL_DLA0 : Z := 0.
Definition LIB_ACCEL_DLA1 : Z := 1.
Definition LIB_ACCEL_PVA0 : Z := 2.
Definition LIB_TASK_PENDING : Z := 0.
Definition LIB_TASK_RUNNING : Z := 1.
Definition LIB_TASK_COMPLETE : Z := 2.
Definition LIB_TASK_FAILED : Z := 3.
Definition LIB_TASK_CANCELLED : Z := 4.

(** A function: what it returns and the types of its parameters. *)
Record prototype : Type := {
  pt_name : string;
  pt_returns : ktype;
  pt_params : list ktype;
}.

#[export] Instance ktype_eq_dec : EqDecision ktype.
Proof. solve_decision. Defined.
#[export] Instance prototype_eq_dec : EqDecision prototype.
Proof. solve_decision. Defined.

Definition proto (name : string) (r : ktype) (ps : list ktype) : prototype :=
  {| pt_name := name; pt_returns := r; pt_params := ps |}.

Definition handle_ptr : ktype := KPtr (KT "struct cortex_forge_handle").

(** What the header declares, and what lib/src/libcortex-forge.c defines. *)
Definition lib_declared : list prototype :=
  [proto "cortex_forge_open" handle_ptr [KPtr (KT "const char")];
   proto "cortex_forge_close" (KT "void") [handle_ptr];
   proto "cortex_forge_submit_task" (KT "int") [handle_ptr; KPtr (KT "struct cortex_forge_task_desc")];
   proto "cortex_forge_query_task" (KT "int") [handle_ptr; KPtr (KT "struct cortex_forge_task_status")];
   proto "cortex_forge_cancel_task" (KT "int") [handle_ptr; KT "uint32_t"];
   proto "cortex_forge_get_accel_info" (KT "int") [handle_ptr; KPtr (KT "struct cortex_forge_accel_info")];
   proto "cortex_forge_get_version" (KT "int") [handle_ptr; KPtr (KT "uint32_t")];
   proto "cortex_forge_strerror" (KPtr (KT "const char")) [KT "int"]].

Definition lib_defined : list prototype :=
  [proto "cortex_forge_open" handle_ptr [KPtr (KT "const char")];
   proto "cortex_forge_close" (KT "void") [handle_ptr];
   proto "cortex_forge_submit_task" (KT "int") [handle_ptr; KPtr (KT "struct cortex_forge_task_desc")];
   proto "cortex_forge_query_task" (KT "int") [handle_ptr; KPtr (KT "struct cortex_forge_task_status")];
   proto "cortex_forge_cancel_task" (KT "int") [handle_ptr; KT "uint32_t"];
   proto "cortex_forge_get_accel_info" (KT "int") [handle_ptr; KPtr (KT "struct cortex_forge_accel_info")];
   proto "cortex_forge_set_power" (KT "int") [handle_ptr; KT "uint32_t"];
   proto "cortex_forge_get_version" (KT "int") [handle_ptr; KPtr (KT "uint32_t")];
   proto "cortex_forge_strerror" (KPtr (KT "const char")) [KT "int"]].

(** The header's accelerators and status values are the driver's; the status
    values are those the UAPI header documents, one less than what the driver
    reports (the enumerators of [enum task_state]); every function declared is
    defined with that type, and set_power alone is defined without a declaration. *)
Theorem library_header_agrees :
  [LIB_ACCEL_DLA0; LIB_ACCEL_DLA1; LIB_ACCEL_PVA0] =
    [CORTEX_FORGE_ACCEL_DLA0; CORTEX_FORGE_ACCEL_DLA1; CORTEX_FORGE_ACCEL_PVA0] ∧
  [LIB_TASK_PENDING; LIB_TASK_RUNNING; LIB_TASK_COMPLETE; LIB_TASK_FAILED; LIB_TASK_CANCELLED] =
    [CORTEX_FORGE_TASK_PENDING; CORTEX_FORGE_TASK_RUNNING; CORTEX_FORGE_TASK_COMPLETE;
     CORTEX_FORGE_TASK_FAILED; CORTEX_FORGE_TASK_CANCELLED] ∧
  (Z.succ <$> [LIB_TASK_PENDING; LIB_TASK_RUNNING; LIB_TASK_COMPLETE; LIB_TASK_FAILED;
               LIB_TASK_CANCELLED]) =
    task_state_val <$> [TASK_STATE_PENDING; TASK_STATE_RUNNING; TASK_STATE_COMPLETE;
                        TASK_STATE_FAILED; TASK_STATE_CANCELLED] ∧
  filter (λ f, f ∉ lib_declared) lib_defined =
    [proto "cortex_forge_set_power" (KT "int") [handle_ptr; KT "uint32_t"]] ∧
  filter (λ f, f ∉ lib_defined) lib_declared = [].
Proof. split_and!; by vm_compute. Qed.
